(* ===== verification/_CoqProject ===== *)
-Q . S2P
Prelude.v
Ctypes.v
Vmlinux.v
Types.v
Structs.v
Bpf.v
State.v
Logic.v
Enforcer.v
Enroll.v
Gate.v
PathVerdict.v
Hooks.v
Records.v
Machine.v
Programs.v
Concrete.v
CoreRead.v
Staging.v
Formats.v
ConnectVerdict.v
Observe.v
Pipeline.v
Fallback.v
Safety.v
Contexts.v
Control.v
Policy.v
MapLoad.v
LoadFacts.v
LoadFold.v
PathLoad.v
LoadedPaths.v
PathPolicy.v
Net.v
ConnectLoad.v
ConnectPolicy.v
LoadErrors.v
Compile.v
CompileFacts.v
Fingerprint.v
Proctable.v
Config.v
Feedback.v
Text.v
Consumer.v
Base64.v
Store.v
Lifecycle.v
Signing.v
Engine.v
Bootstrap.v
EngineFacts.v
Lineage.v
Reuse.v
Loader.v
ShadowReport.v
Shim.v
EndToEnd.v
EngineExamples.v
LoadExamples.v
ConnectExamples.v
AgentExamples.v
Findings.v
Witnesses.v
KernelWitnesses.v
SystemExamples.v
