(* ===== verification/Prelude.v ===== *)
(** * AI Agent Validator: a verification development

    The program watches the processes of an AI agent and enforces a policy on them.
    Two BPF objects run in the kernel.  [bpf/enroll.bpf.c] attaches to the
    process tracepoints and to the entry of five syscalls: it keeps the tags of
    enrolled processes, reports what they do, and stages the arguments of their
    syscalls.  [bpf/enforcer.bpf.c] attaches to LSM hooks, to the syscalls
    ([fmod_ret]) and to cgroups: it decides, on the staged arguments and the policy
    maps, whether the action is denied, and reports denials.  The Go agent loads the
    objects, lets them share maps, translates policies into map entries and decodes
    the records of both rings.  From the events it keeps a table of processes, finds
    the agents among them (by cgroup or by the signature of an exec) and tags them
    and their descendants in the kernel; from the denials it writes an audit and
    tells the agent's runtime.  Policies are signed bundles in a version store.
    Paths below are under src/agent/.

    ** Parts

    Kernel interface.
    - [Prelude]: machine integers, byte buffers, per-CPU arrays, shared lemmas.
    - [Ctypes], [Vmlinux], [Structs]: C types and their layout; the types of
      bpf/vmlinux.h the programs reach, translated whole; the structs and maps
      the two objects declare, and the Go structs that mirror them.
    - [Types], [Bpf], [State], [Logic]: the data of the programs, the helpers they
      call (the record [env]: what one invocation gets from the kernel), the maps
      ([enroll_maps], [enforcer_maps], [kstate]), the program monad
      [prog A = env -> kstate -> A * kstate] and a Hoare logic for it.

    The programs, one definition per C function.
    - [Enforcer] is bpf/enforcer.bpf.c, [Enroll] is bpf/enroll.bpf.c.
    - [Programs]: sections, attach tables and loops of internal/ebpfloader,
      and the helpers each program calls.  [Loader]: the rest of that package (pinned
      policy maps, LoadEnforcer, the counters) and internal/cgroup/path.go.
    - [Machine]: a transition system whose steps are runs of any program in any
      environment and map updates by the agent; [reachable] states.

    The agent.
    - [Formats]: Parse of internal/event/event.go and
      internal/deny/verdict.go.
    - [Policy]: compiled rules and their evaluation (internal/policy/eval.go
      and the matching of compile.go).
    - [Compile]: bundles, their validation and compilation
      (internal/policy/schema.go, load.go, compile.go).
    - [MapLoad]: internal/policy/mapload.go and the reload of
      cmd/agent/main.go, as sequences of map writes any of which may fail.
    - [Store], [Lifecycle]: internal/policy/store.go as an interface (the class
      [VersionStore] and its laws) and its implementation in files; sign.go's Verify,
      current.go, loader.go, promote.go, holder.go, and the start and reload of the
      agent, which are clients of the interface.
    - [Config], [Fingerprint], [Proctable]: internal/config, internal/fingerprint and
      internal/proctable, one definition per function.
    - [Engine], [Bootstrap]: internal/enroll (engine.go, stats.go, multitag.go,
      bootstrap.go) and internal/enricher: a state [engine] and a monad [handler];
      the kernel's tag map is reached through the class [KernelTagger], as in the
      code.  [Lineage] and [Reuse] run them on sequences of events and scans.
    - [Base64], [Signing]: encoding/base64 as the signature files use it; sign.go, the
      files it reads and writes, FileSource, and the commands of cmd/policyctl.
    - [Text], [Feedback], [Consumer]: the numbers and addresses the code prints and
      reads back; internal/feedback (decision.go, hub.go, the choice in lookup.go),
      internal/deny (connectcache.go, target.go, consumer.go) and
      internal/policy/hash.go.  [ShadowReport]: internal/policy/shadow_report.go.
    - [Shim]: how the runtime reads the denials back: the rest of lookup.go, the handlers
      of internal/debugsrv and cmd/shim.

    ** What the theorems show

    - Decisions.  [PathVerdict], [ConnectVerdict], [Hooks]: the checks of paths and
      targets against specifications on byte strings.  [Gate], [Safety], [Control]:
      who is enforced in which regime, what each hook answers there, which maps a
      program may change.
    - From syscall to answer.  [Staging] gives the effect of each tracepoint on every
      branch; [Pipeline] composes tracepoint, any steps of other processes and hook:
      the answer and the report are those of the arguments the process passed.
      [Fallback]: the hooks when nothing usable is staged.
    - Records.  [Records], [Formats], [Observe]: what the programs submit decodes to
      what happened, in every reachable state.
    - Memory.  [CoreRead], [Contexts]: the kernel objects the programs follow, as bytes
      at the offsets of their types; enrolment and file decisions on objects in kernel
      memory.
    - Policies.  [LoadFacts]: enforcement is off while maps are being filled.
      [LoadErrors]: which policies load and what a reload ends with.  [LoadFold]: a
      load is a fold over the policy's entries.  [PathLoad], [LoadedPaths],
      [PathPolicy]: what a longest-prefix lookup finds in it, the decisions on paths
      from the policy's rules, and their agreement with the evaluator.  [Net],
      [ConnectLoad], [ConnectPolicy]: the same for connects, with the address and
      network arithmetic of Go's net package, and where kernel and evaluator part.
      [CompileFacts]: the decisions from the bundle on, and what the conflict check is
      good for.
    - Agents.  [Fingerprint]: the wildcard scan means what a pattern means, and the
      first signature decides.  [EngineFacts]: the tag of a process after each event.
      [Lineage]: over whole runs, a tag has a cause, and the kernel has every tag.
      [Reuse]: a tag may also outlive its process.
      [Bootstrap]: the walk over descendants ends and is complete.
    - The life of a policy.  [Store]: the file store has the laws of the interface and
      keeps its manifest in order.  [Lifecycle]: what is loaded or rolled back to is
      what the agent reads, and it holds and enforces signed policies only.
      [Signing]: what policyctl signs with a new key is what the agent loads, also with
      the signature file wrapped by an editor, and a changed bundle is refused.
      [Loader]: after a restart the enforcer works on the policy maps that are pinned,
      all from the previous run or all new.
    - The whole.  [EndToEnd]: a signed bundle is loaded, the engine tags a process, the
      process opens or connects, and the kernel answers as the bundle's rules say, in
      every run of the agent and of the engine that share the kernel's maps.
    - Denials.  [Consumer]: a denial is reported under the rule that caused it, and
      with the destination of the connect.  [Feedback]: the hub keeps the latest.
      [Loader]: a counter the agent reads adds up over the CPUs.  [ShadowReport]: the
      report counts every shadow denial of the audit.  [Shim]: the search for a decision
      ends, and a command that failed by a recorded denial is explained by it.
    - [Findings] (two threads of one process), [Reuse], [LoadExamples], [ConnectExamples]
      and some theorems of [Safety], [Pipeline], [Fallback], [ConnectVerdict] and
      [ConnectPolicy] show behaviour the documents rule out.
    - [Witnesses], [KernelWitnesses], [LoadExamples], [ConnectExamples],
      [EngineExamples], [AgentExamples], [SystemExamples] apply the theorems to
      concrete machines, policies and runs.

    ** Parameters

    The kernel and the Go libraries are not part of the repository.  [env] carries
    the outcome of every helper; [EnvOk] (sizes of what memory reads return) and
    [LpmTrieSpec] (a lookup finds the longest matching prefix) are the documented
    behaviour used, with the concrete instances [env_of_memory] and [lpm_ref].
    [MapLoad] takes the acceptance of each write, the directory listing and stat of
    the file system, and ParseCIDR and ParseIP of the net package as arguments;
    [NetOk] states what these return (4 or 16 bytes, networks masked).
    [proc_env] is what one event of the engine meets: the clock and the contents of
    /proc.  [Store] takes JSON coding (what is written reads back, [CodecOk]), SHA-256
    and which writes fail, leaving what in the file; [Lifecycle] takes YAML coding and
    the ed25519 verification; [Signing] the pairs of keys and the signing ([SigningOk]:
    what is signed verifies, with the documented sizes) and the outcome of each write;
    [Consumer] takes the text of an address; [Shim] the JSON of decisions
    ([DecisionCodec]: one line, no part of which decodes), the quoting of strings, the
    parsing of a URL and the answers of the server.

    ** Bounds

    The ancestor walk makes at most 16 steps, as its loop does, so its recursion is
    structural.  Three loops have fuel: printing a number ([digits], 20 digits cover 64
    bits), the walk over descendants ([walk_fuel]: two more than the listed
    processes, which [propagate_spec] shows to be enough) and the search of the shim
    ([search_fuel]: two more than the polls in the wait, enough by [search_ends]).
    Integers are [Z] with every truncation of the code written out; buffers have the
    sizes of their declarations.

    ** What is not modelled

    - One program runs without interruption: interleaving is between programs, not
      between the instructions of two of them; lost updates inside one per-CPU entry
      are therefore not seen.  Map capacity enters as updates that may fail.
    - Offsets are those of the declarations in vmlinux.h; on another kernel CO-RE
      relocates them.
    - A trie entry is identified by its whole key, which is enough for keys whose bits
      past the prefix are zero, as the loader's are.  The order in which a map is
      iterated while it is cleared is that of the model.
    - Error texts, log lines and counters of the agent that only feed them.
    - The agent handles one event at a time; the goroutines of the ring readers and
      of the debug server share the table, the hub and the cache under their locks,
      which make each operation atomic.
    - Agreement of connect rules with the evaluator is shown for deny rules on IPv4
      networks or on ports; [allow_networks_prevail], [deny_ports_ignore_networks] and
      [connect_kernel_and_eval_differ] show why not for others.
    - The clean-up of files and listeners, signals and flags, running the command of the
      shim, rendering of records and reports, the listing of /proc, the user name cache,
      the log of attached programs and logging itself: input and output, or
      calls of libraries. *)

From stdpp Require Export base tactics option list gmap fin_maps.
From Stdlib Require Export ZArith Lia.
From Stdlib Require Ascii String.

#[export] Set Default Goal Selector "!".

Declare Scope bpf_scope.
Delimit Scope bpf_scope with bpf.
#[global] Open Scope Z_scope.

(** An early [return] of a C function: when the guard yields a result, that is
    the result and the rest is not executed. *)
Notation "'early' e 'otherwise' k" := (match e with Some r => r | None => k end)
  (at level 10, e at level 99, k at level 200) : bpf_scope.
#[global] Open Scope bpf_scope.

(** [when b x]: a guarded early return. *)
Definition when {A} (b : bool) (x : A) : option A := if b then Some x else None.

(** ** Machine integers

    An unsigned w-bit C integer is a [Z]; every conversion the C code writes
    (a cast, a store into a narrower field) is one of these truncations. *)
Definition u8 (z : Z) : Z := z mod 2 ^ 8.
Definition u16 (z : Z) : Z := z mod 2 ^ 16.
Definition u32 (z : Z) : Z := z mod 2 ^ 32.
Definition u64 (z : Z) : Z := z mod 2 ^ 64.

Definition is_u32 (z : Z) : Prop := 0 <= z < 2 ^ 32.
Definition is_u64 (z : Z) : Prop := 0 <= z < 2 ^ 64.

Definition is_byte (b : Z) : Prop := 0 <= b < 256.

#[global] Instance is_byte_dec b : Decision (is_byte b).
Proof. unfold is_byte. apply _. Defined.

(** C's truth value of an int used as a condition. *)
Definition nonzero (z : Z) : bool := negb (z =? 0).

(** ** Byte buffers *)

(** [zeros n] is the image of [memset (p, 0, n)]. *)
Definition zeros (n : nat) : list Z := replicate n 0.

(** [splice off src dst] overwrites [dst] with [src] from offset [off] on. *)
Definition splice (off : nat) (src dst : list Z) : list Z :=
  take off dst ++ src ++ drop (off + length src) dst.

(** [slice off n l] reads [n] bytes of [l] from offset [off] on. *)
Definition slice (off n : nat) (l : list Z) : list Z := take n (drop off l).

(** Little-endian integers, as x86-64 stores them. *)
Fixpoint le_bytes (n : nat) (z : Z) : list Z :=
  match n with
  | O => []
  | S n => z mod 256 :: le_bytes n (z / 256)
  end.

Fixpoint le_val (bs : list Z) : Z :=
  match bs with
  | [] => 0
  | b :: bs => b + 256 * le_val bs
  end.

(** A field of a C struct: its offset and its width in bytes. *)
Record field := Field { f_off : nat; f_width : nat }.

Definition store (f : field) (z : Z) (buf : list Z) : list Z :=
  splice (f_off f) (le_bytes (f_width f) z) buf.

Definition load (f : field) (buf : list Z) : Z :=
  le_val (slice (f_off f) (f_width f) buf).

(** The bytes of a C string buffer before the first NUL. *)
Fixpoint cstr (bs : list Z) : list Z :=
  match bs with
  | [] => []
  | b :: bs => if b =? 0 then [] else b :: cstr bs
  end.

(** The bytes of an ASCII string. *)
Definition bytes_of (s : String.string) : list Z :=
  (fun a => Z.of_nat (Ascii.nat_of_ascii a)) <$> String.list_ascii_of_string s.

(** ** Lemmas on buffers *)

Lemma length_zeros n : length (zeros n) = n.
Proof. apply length_replicate. Qed.

Lemma length_le_bytes n z : length (le_bytes n z) = n.
Proof. revert z. induction n; intros; simpl; auto. Qed.

Lemma length_splice off src dst :
  (off + length src <= length dst)%nat -> length (splice off src dst) = length dst.
Proof. intros. unfold splice. rewrite !length_app, length_take, length_drop. lia. Qed.

Lemma length_slice off n l : (off + n <= length l)%nat -> length (slice off n l) = n.
Proof. intros. unfold slice. rewrite length_take, length_drop. lia. Qed.

Lemma length_store f z buf :
  (f_off f + f_width f <= length buf)%nat -> length (store f z buf) = length buf.
Proof. intros. unfold store. apply length_splice. by rewrite length_le_bytes. Qed.

Lemma le_val_le_bytes n z : le_val (le_bytes n z) = z mod 2 ^ (8 * Z.of_nat n).
Proof.
  revert z. induction n as [|n IH]; intros z; simpl le_val.
  - by rewrite Z.mul_0_r, Z.pow_0_r, Z.mod_1_r.
  - rewrite IH. replace (8 * Z.of_nat (S n)) with (8 + 8 * Z.of_nat n) by lia.
    rewrite Z.pow_add_r by lia. change (2 ^ 8) with 256.
    rewrite Z.rem_mul_r by lia. lia.
Qed.

Lemma le_bytes_is_byte n z : Forall is_byte (le_bytes n z).
Proof.
  revert z. induction n; intros; simpl; constructor; auto.
  apply Z.mod_pos_bound. lia.
Qed.

Lemma le_val_bound bs :
  Forall is_byte bs -> 0 <= le_val bs < 2 ^ (8 * Z.of_nat (length bs)).
Proof.
  induction 1 as [|b bs Hb _ IH]; cbn [le_val length]; [lia|]. unfold is_byte in Hb.
  replace (8 * Z.of_nat (S (length bs))) with (8 + 8 * Z.of_nat (length bs)) by lia.
  rewrite Z.pow_add_r by lia. change (2 ^ 8) with 256. lia.
Qed.

Lemma le_val_zero (a : list Z) : Forall is_byte a -> le_val a = 0 -> a = zeros (length a).
Proof.
  induction 1 as [|b a Hb Ha IH]; [done|]. cbn [le_val]. intros H0. unfold is_byte in Hb.
  pose proof (le_val_bound a Ha) as Hbd.
  assert (b = 0) as -> by lia. cbn. f_equal. apply IH. lia.
Qed.

Lemma le_bytes_le_val bs :
  Forall is_byte bs -> le_bytes (length bs) (le_val bs) = bs.
Proof.
  induction 1 as [|b bs Hb _ IH]; cbn [le_val length le_bytes]; [done|]. unfold is_byte in Hb.
  rewrite (Z.mul_comm 256), Z.mod_add, Z.mod_small by lia.
  rewrite Z.div_add, Z.div_small by lia. by rewrite Z.add_0_l, IH.
Qed.

Lemma slice_splice_same off src dst :
  (off <= length dst)%nat -> slice off (length src) (splice off src dst) = src.
Proof.
  intros. unfold slice, splice.
  rewrite drop_app_ge by (rewrite length_take; lia).
  rewrite length_take, Nat.min_l, Nat.sub_diag by lia. rewrite drop_0.
  by rewrite take_app_length.
Qed.

Lemma slice_splice_before off n o src dst :
  (o + n <= off)%nat -> (off <= length dst)%nat ->
  slice o n (splice off src dst) = slice o n dst.
Proof.
  intros. unfold slice, splice. rewrite !take_drop_commute. f_equal.
  rewrite take_app_le by (rewrite length_take; lia).
  rewrite take_take. f_equal. lia.
Qed.

Lemma slice_splice_after off n o src dst :
  (off + length src <= o)%nat -> (off <= length dst)%nat ->
  slice o n (splice off src dst) = slice o n dst.
Proof.
  intros. unfold slice, splice. f_equal.
  rewrite drop_app_ge by (rewrite length_take; lia).
  rewrite length_take, Nat.min_l by lia.
  rewrite drop_app_ge by lia. rewrite drop_drop. f_equal. lia.
Qed.

(** A read inside the spliced region sees the source. *)
Lemma slice_splice_inside off n o src dst :
  (off <= o)%nat -> (o + n <= off + length src)%nat -> (off <= length dst)%nat ->
  slice o n (splice off src dst) = slice (o - off) n src.
Proof.
  intros. unfold slice, splice.
  rewrite drop_app_ge by (rewrite length_take; lia).
  rewrite length_take, Nat.min_l by lia.
  rewrite drop_app_le by lia. rewrite take_app_le by (rewrite length_drop; lia). done.
Qed.

Lemma slice_zeros o n k : (o + n <= k)%nat -> slice o n (zeros k) = zeros n.
Proof. intros. unfold slice, zeros. rewrite drop_replicate, take_replicate. f_equal. lia. Qed.

Lemma le_val_zeros n : le_val (zeros n) = 0.
Proof. induction n as [|n IH]; [done|]. cbn. unfold zeros in IH. lia. Qed.

Definition disjoint_fields (f g : field) : Prop :=
  (f_off f + f_width f <= f_off g)%nat \/ (f_off g + f_width g <= f_off f)%nat.

#[global] Instance disjoint_fields_dec f g : Decision (disjoint_fields f g).
Proof. unfold disjoint_fields. apply _. Defined.

Lemma load_store_same f z buf :
  (f_off f <= length buf)%nat ->
  load f (store f z buf) = z mod 2 ^ (8 * Z.of_nat (f_width f)).
Proof.
  intros. unfold load, store. rewrite <- (length_le_bytes (f_width f) z) at 1.
  rewrite slice_splice_same by done. apply le_val_le_bytes.
Qed.

Lemma load_store_other f g z buf :
  disjoint_fields f g -> (f_off g <= length buf)%nat ->
  load f (store g z buf) = load f buf.
Proof.
  intros [?|?] ?; unfold load, store; f_equal.
  - by apply slice_splice_before.
  - apply slice_splice_after; rewrite ?length_le_bytes; lia.
Qed.

Lemma length_splice_eq n off src dst :
  (off + length src <= n)%nat -> length dst = n -> length (splice off src dst) = n.
Proof. intros ? <-. by apply length_splice. Qed.

Lemma length_store_eq n f z buf :
  (f_off f + f_width f <= n)%nat -> length buf = n -> length (store f z buf) = n.
Proof. intros ? <-. by apply length_store. Qed.

(** A splice never shortens its target. *)
Lemma length_splice_ge off src dst : (length dst <= length (splice off src dst))%nat.
Proof. unfold splice. rewrite !length_app, length_take, length_drop. lia. Qed.

Lemma length_store_ge f z buf : (length buf <= length (store f z buf))%nat.
Proof. apply length_splice_ge. Qed.

Lemma load_splice_other f off src dst :
  (f_off f + f_width f <= off \/ off + length src <= f_off f)%nat -> (off <= length dst)%nat ->
  load f (splice off src dst) = load f dst.
Proof.
  intros [?|?] ?; unfold load; f_equal; [by apply slice_splice_before|by apply slice_splice_after].
Qed.

(** A region cleared, then partly filled. *)
Lemma slice_splice_zeros off n src v :
  (off <= length v)%nat -> (length src <= n)%nat ->
  slice off n (splice off src (splice off (zeros n) v)) = src ++ zeros (n - length src).
Proof.
  intros Ho Hn. set (d := splice off (zeros n) v).
  assert (off <= length d)%nat by (etrans; [done|apply length_splice_ge]).
  assert (slice off n (splice off src d) =
    slice off (length src) (splice off src d) ++
    slice (off + length src) (n - length src) (splice off src d)) as ->.
  { unfold slice. rewrite <- drop_drop, <- skipn_firstn_comm.
    rewrite <- (take_drop (length src) (take n (drop off (splice off src d)))) at 1.
    by rewrite take_take, Nat.min_l by lia. }
  rewrite slice_splice_same, slice_splice_after by lia. f_equal.
  subst d. rewrite slice_splice_inside by (rewrite ?length_zeros; lia).
  rewrite slice_zeros by lia. done.
Qed.

Lemma slice_store_other f z o n buf :
  (o + n <= f_off f \/ f_off f + f_width f <= o)%nat -> (f_off f <= length buf)%nat ->
  slice o n (store f z buf) = slice o n buf.
Proof.
  intros [?|?] ?; unfold store; [by apply slice_splice_before|].
  apply slice_splice_after; rewrite ?length_le_bytes; lia.
Qed.

Lemma slice_splice_other off n o src dst :
  (o + n <= off \/ off + length src <= o)%nat -> (off <= length dst)%nat ->
  slice o n (splice off src dst) = slice o n dst.
Proof. intros [?|?] ?; [by apply slice_splice_before|by apply slice_splice_after]. Qed.

Lemma slice_splice_same' off n src dst :
  n = length src -> (off <= length dst)%nat -> slice off n (splice off src dst) = src.
Proof. intros ->. apply slice_splice_same. Qed.

Lemma cstr_app_nul p rest :
  Forall (fun b => b <> 0) p -> cstr (p ++ 0 :: rest) = p.
Proof.
  induction 1 as [|b p Hb _ IH]; simpl; [done|].
  destruct (Z.eqb_spec b 0); [done|]. by rewrite IH.
Qed.

Lemma cstr_no_nul bs : Forall (fun b => b <> 0) (cstr bs).
Proof. induction bs as [|b bs IH]; simpl; [done|]. destruct (Z.eqb_spec b 0); auto. Qed.

Lemma length_cstr bs : (length (cstr bs) <= length bs)%nat.
Proof. induction bs as [|b bs IH]; simpl; [done|]. destruct (b =? 0); simpl; lia. Qed.

(** Bytes put side by side: a disjunction of disjoint bit ranges is a sum. *)
Lemma lor_shiftl_add hi lo n :
  0 <= n -> 0 <= lo < 2 ^ n -> Z.lor (Z.shiftl hi n) lo = hi * 2 ^ n + lo.
Proof.
  intros Hn Hlo. rewrite <- Z.shiftl_mul_pow2 by done.
  assert (Z.land (Z.shiftl hi n) lo = 0) as Hl.
  { apply Z.bits_inj'. intros i Hi. rewrite Z.land_spec, Z.bits_0, Z.shiftl_spec by done.
    destruct (Z.ltb_spec i n) as [Hlt|Hge].
    - by rewrite (Z.testbit_neg_r hi) by lia.
    - rewrite <- (Z.mod_small lo (2 ^ n)) by done.
      rewrite Z.mod_pow2_bits_high by lia. by rewrite andb_false_r. }
  by rewrite <- Z.lxor_lor, <- Z.add_nocarry_lxor.
Qed.

Lemma land_ff z : Z.land z 0xff = z mod 256.
Proof. change 0xff with (Z.ones 8). by rewrite Z.land_ones. Qed.

(** ** Automation *)

Create HintDb bpf.
Create Rewrite HintDb lens.
#[export] Hint Rewrite length_zeros length_le_bytes @length_app @length_take @length_drop
  @length_replicate : lens.
#[export] Hint Resolve le_bytes_is_byte cstr_no_nul : bpf.

(** Lengths of concrete buffers. *)
Ltac solve_len :=
  repeat (rewrite length_splice || rewrite length_slice || rewrite length_store
          || autorewrite with lens); cbn [f_off f_width length] in *; try lia.

(** Offsets of struct fields, to be unfolded in arithmetic. *)
Create HintDb layout.

(** Lower bounds on the length of a buffer under stores. *)
Ltac len_ge :=
  repeat (etrans; [|first [apply length_store_ge | apply length_splice_ge]]);
  autounfold with layout; cbn; lia.

(** Read a field or a slice of a buffer under stores. *)
Ltac disjoint := apply (bool_decide_unpack _); vm_compute; exact I.
Ltac read_side := first [lazymatch goal with |- disjoint_fields _ _ => disjoint end | len_ge | unfold disjoint_fields; autounfold with layout; cbn; autorewrite with lens; cbn; lia].
Ltac read_buf :=
  repeat first
    [ rewrite load_store_same by read_side
    | rewrite load_store_other by read_side
    | rewrite load_splice_other by read_side
    | rewrite slice_store_other by read_side
    | rewrite slice_splice_same' by read_side
    | rewrite slice_splice_other by read_side ].

(** Lengths through a sequence of stores and branches, one [let] at a time. *)
Ltac len_let :=
  repeat lazymatch goal with
  | |- length (let v := ?x in _) = ?n =>
      let H := fresh in
      assert (length x = n) as H;
      [|revert H; generalize x; intros ?v H; cbv beta]
  | |- length (store _ _ _) = _ => apply length_store_eq; [cbn; lia|]
  | |- length (splice _ _ _) = _ => apply length_splice_eq; [autorewrite with lens; autounfold with layout; cbn; try lia|]
  | |- length (match ?x with _ => _ end) = _ => destruct x eqn:?
  | |- length _ = _ => eassumption
  end.

(** Case analysis on every boolean test of the goal, keeping the facts. *)
Ltac case_bools :=
  repeat match goal with
  | H : context [if ?b then _ else _] |- _ =>
      lazymatch b with context [if _ then _ else _] => fail | _ => destruct b eqn:? end
  | |- context [if ?b then _ else _] =>
      lazymatch b with context [if _ then _ else _] => fail | _ => destruct b eqn:? end
  end.
