(* ===== verification/Ctypes.v ===== *)
(** * Ctypes: the layout of C types on x86-64

    C type declarations as data, with the size, alignment and field offsets the
    System V ABI gives them.  [Vmlinux] translates the kernel's declarations into
    this type and [Structs] those of the two BPF objects; the programs' accesses
    to kernel objects and the bytes of their records follow from the offsets. *)

From Stdlib Require Import String.
From S2P Require Import Prelude.

(** How a member is declared: by name, as an anonymous struct or union, as a
    bit-field, or as an unnamed bit-field (padding). *)
Inductive mname := Named (s : string) | Anon | Bits (s : string) (w : Z) | Pad (w : Z).

(** Integer types are given by their size in bytes; pointers are not followed. *)
Inductive ctype :=
  | TInt (size : Z)
  | TPtr
  | TEnum (constants : list (string * Z))
  | TArray (t : ctype) (n : Z)
  | TStruct (ms : list (mname * ctype))
  | TUnion (ms : list (mname * ctype)).

Abbreviation member := (mname * ctype)%type.

(** Declarations read in C's order: name, then type. *)
Definition fld (s : string) (t : ctype) : member := (Named s, t).
Definition anon (t : ctype) : member := (Anon, t).
Definition bits (s : string) (w : Z) (t : ctype) : member := (Bits s w, t).
Definition pad (w : Z) (t : ctype) : member := (Pad w, t).

Definition c_char : ctype := TInt 1.
Definition c_short : ctype := TInt 2.
Definition c_int : ctype := TInt 4.
Definition c_long : ctype := TInt 8.
Definition c_bool : ctype := TInt 1.

(** ** Size and alignment *)

Definition align_up (z a : Z) : Z := (z + (a - 1)) / a * a.

Definition is_pad (k : mname) : bool := match k with Pad _ => true | _ => false end.

(** An unnamed bit-field does not raise the alignment of its struct. *)
Fixpoint alignof (t : ctype) : Z :=
  match t with
  | TInt n => n
  | TPtr => 8
  | TEnum _ => 4
  | TArray t _ => alignof t
  | TStruct ms | TUnion ms =>
      foldr (fun m a => Z.max (if is_pad m.1 then 1 else alignof m.2) a) 1 ms
  end.

(** The bits a member of size [sz] and alignment [al] (in bytes) occupies when
    the bits before [pos] are taken.  A bit-field stays in the storage unit of
    its type that it starts in, or begins the next one. *)
Definition place (k : mname) (sz al pos : Z) : Z * Z :=
  match k with
  | Named _ | Anon => let s := align_up pos (8 * al) in (s, s + 8 * sz)
  | Bits _ w | Pad w =>
      let s := if pos / (8 * sz) =? (pos + w - 1) / (8 * sz) then pos
               else align_up pos (8 * sz) in
      (s, s + w)
  end.

Fixpoint sizeof (t : ctype) : Z :=
  match t with
  | TInt n => n
  | TPtr => 8
  | TEnum _ => 4
  | TArray t n => n * sizeof t
  | TStruct ms =>
      align_up (align_up (foldl (fun pos m => (place m.1 (sizeof m.2) (alignof m.2) pos).2) 0 ms) 8 / 8)
        (alignof t)
  | TUnion ms =>
      align_up (align_up (foldr (fun m a => Z.max ((place m.1 (sizeof m.2) (alignof m.2) 0).2) a) 0 ms) 8 / 8)
        (alignof t)
  end.

(** Where the members of a struct lie, in bits. *)
Definition span (m : member) (pos : Z) : Z * Z := place m.1 (sizeof m.2) (alignof m.2) pos.

Fixpoint spans (pos : Z) (ms : list member) : list (member * (Z * Z)) :=
  match ms with
  | [] => []
  | m :: ms => (m, span m pos) :: spans (span m pos).2 ms
  end.

(** ** Field lookup

    [offsetof]: the byte offset and the type of a named field; the fields of
    anonymous structs and unions are fields of the type they are in. *)
Fixpoint offsetof (t : ctype) (f : string) : option (Z * ctype) :=
  match t with
  | TStruct ms =>
      (fix go pos ms {struct ms} :=
         match ms with
         | [] => None
         | (k, t) :: ms =>
             let p := place k (sizeof t) (alignof t) pos in
             match k with
             | Named s => if String.eqb s f then Some (p.1 / 8, t) else go p.2 ms
             | Anon => match offsetof t f with
                       | Some r => Some (p.1 / 8 + r.1, r.2)
                       | None => go p.2 ms
                       end
             | _ => go p.2 ms
             end
         end) 0 ms
  | TUnion ms =>
      (fix go ms {struct ms} :=
         match ms with
         | [] => None
         | (k, t) :: ms =>
             match k with
             | Named s => if String.eqb s f then Some (0, t) else go ms
             | Anon => match offsetof t f with Some r => Some r | None => go ms end
             | _ => go ms
             end
         end) ms
  | _ => None
  end.

(** What an expression reads of an object: a field, or an element of an array field. *)
Inductive access := Fld (f : string) | Elem (f : string) (i : Z).
Coercion Fld : string >-> access.

(** The bytes it reads, as a record layout. *)
Definition field_of (t : ctype) (x : access) : option field :=
  match x with
  | Fld f => r ← offsetof t f; Some (Field (Z.to_nat r.1) (Z.to_nat (sizeof r.2)))
  | Elem f i =>
      match offsetof t f with
      | Some (o, TArray t' n) =>
          if (0 <=? i) && (i <? n)
          then Some (Field (Z.to_nat (o + i * sizeof t')) (Z.to_nat (sizeof t'))) else None
      | _ => None
      end
  end.

(** The value of an enumeration constant. *)
Definition constant (t : ctype) (c : string) : option Z :=
  match t with
  | TEnum cs => snd <$> List.find (fun nv => String.eqb nv.1 c) cs
  | _ => None
  end.

(** ** Well-formed declarations *)

Definition is_int (t : ctype) : bool := match t with TInt _ | TEnum _ => true | _ => false end.

(** Bit-fields have an integer type and fit it. *)
Definition wf_name (k : mname) (t : ctype) : bool :=
  match k with
  | Bits _ w | Pad w => is_int t && (0 <? w) && (w <=? 8 * sizeof t)
  | _ => true
  end.

Fixpoint wf_ctype (t : ctype) : bool :=
  match t with
  | TInt n => (n =? 1) || (n =? 2) || (n =? 4) || (n =? 8)
  | TPtr | TEnum _ => true
  | TArray t n => wf_ctype t && (0 <=? n)
  | TStruct ms | TUnion ms => forallb (fun m => wf_ctype m.2 && wf_name m.1 m.2) ms
  end.

(** Induction over a type and the types of its members. *)
Lemma ctype_nested_ind (P : ctype -> Prop) :
  (forall n, P (TInt n)) -> P TPtr -> (forall cs, P (TEnum cs)) ->
  (forall t n, P t -> P (TArray t n)) ->
  (forall ms, Forall (fun m => P m.2) ms -> P (TStruct ms)) ->
  (forall ms, Forall (fun m => P m.2) ms -> P (TUnion ms)) ->
  forall t, P t.
Proof.
  intros Hi Hp He Ha Hs Hu. fix IH 1. intros [n| |cs|t n|ms|ms];
    [apply Hi|apply Hp|apply He|apply Ha, IH|apply Hs|apply Hu].
  all: induction ms as [|m ms IHms]; constructor; [apply IH|exact IHms].
Qed.

Lemma wf_members ms :
  forallb (fun m => wf_ctype m.2 && wf_name m.1 m.2) ms = true ->
  Forall (fun m => wf_ctype m.2 = true /\ wf_name m.1 m.2 = true) ms.
Proof.
  rewrite forallb_forall, Forall_forall. intros H m Hm. apply andb_true_iff, H.
  by apply list_elem_of_In.
Qed.

(** ** Alignment *)

Lemma align_up_spec z a : 0 < a -> z <= align_up z a < z + a /\ (a | align_up z a).
Proof.
  intros Ha. unfold align_up. split; [|apply Z.divide_factor_r].
  pose proof (Z.div_mod (z + (a - 1)) a ltac:(lia)).
  pose proof (Z.mod_pos_bound (z + (a - 1)) a Ha). lia.
Qed.

Definition pow2 (a : Z) : Prop := exists k, 0 <= k /\ a = 2 ^ k.

Lemma pow2_pos a : pow2 a -> 0 < a.
Proof. intros (k & Hk & ->). by apply Z.pow_pos_nonneg. Qed.

Lemma pow2_divide a b : pow2 a -> pow2 b -> a <= b -> (a | b).
Proof.
  intros (i & Hi & ->) (j & Hj & ->) Hle. apply (Z.pow_le_mono_r_iff 2) in Hle; [|lia..].
  exists (2 ^ (j - i)). rewrite <- Z.pow_add_r by lia. f_equal. lia.
Qed.

Lemma pow2_max a b : pow2 a -> pow2 b -> pow2 (Z.max a b).
Proof. intros. by destruct (Z.max_spec a b) as [[_ ->]|[_ ->]]. Qed.

Lemma pow2_1 : pow2 1.
Proof. by exists 0. Qed.

Definition max_align (ms : list member) : Z :=
  foldr (fun m a => Z.max (if is_pad m.1 then 1 else alignof m.2) a) 1 ms.

Lemma max_align_pow2 ms : Forall (fun m => pow2 (alignof m.2)) ms -> pow2 (max_align ms).
Proof.
  induction 1 as [|m ms Hm _ IH]; cbn; [apply pow2_1|].
  apply pow2_max; [|done]. by destruct (is_pad m.1); [apply pow2_1|].
Qed.

Lemma alignof_pow2 t : wf_ctype t = true -> pow2 (alignof t).
Proof.
  induction t as [n| |cs|t n IH|ms IH|ms IH] using ctype_nested_ind; intros Hwf.
  - cbn in Hwf |- *. rewrite !orb_true_iff, !Z.eqb_eq in Hwf.
    destruct Hwf as [[[-> | ->] | ->] | ->]; [exists 0|exists 1|exists 2|exists 3]; done.
  - by exists 3.
  - by exists 2.
  - cbn in Hwf |- *. apply andb_true_iff in Hwf as [? _]. auto.
  - apply max_align_pow2. apply wf_members in Hwf. rewrite Forall_forall in *. naive_solver.
  - apply max_align_pow2. apply wf_members in Hwf. rewrite Forall_forall in *. naive_solver.
Qed.

Lemma member_align ms m :
  Forall (fun m => wf_ctype m.2 = true /\ wf_name m.1 m.2 = true) ms -> m ∈ ms ->
  is_pad m.1 = false -> (alignof m.2 | max_align ms).
Proof.
  intros Hwf Hin Hp.
  assert (Forall (fun m : member => pow2 (alignof m.2)) ms) as H2.
  { eapply Forall_impl; [exact Hwf|]. intros x [? _]. by apply alignof_pow2. }
  apply pow2_divide; [by eapply Forall_forall in H2|by apply max_align_pow2|].
  clear Hwf H2. unfold max_align. induction Hin as [m ms|m m' ms _ IH]; cbn; [rewrite Hp|specialize (IH Hp)]; lia.
Qed.

(** ** Placement *)

(** The type can be a member: its size and alignment are what [place] expects. *)
Definition placeable (t : ctype) : Prop :=
  0 <= sizeof t /\ 0 < alignof t /\ (alignof t | sizeof t) /\ (is_int t = true -> 0 < sizeof t).

(** What a member of the given span is guaranteed. *)
Definition placed (m : member) (p : Z * Z) : Prop :=
  match m.1 with
  | Named _ | Anon => (8 * alignof m.2 | p.1) /\ p.2 = p.1 + 8 * sizeof m.2
  | Bits _ w | Pad w =>
      p.2 = p.1 + w /\ p.1 / (8 * sizeof m.2) = (p.2 - 1) / (8 * sizeof m.2)
  end.

Lemma span_spec m pos :
  placeable m.2 -> wf_name m.1 m.2 = true ->
  pos <= (span m pos).1 <= (span m pos).2 /\ placed m (span m pos).
Proof.
  intros (Hs & Ha & _ & Hi) Hwf. unfold span, place, placed.
  assert (forall w, wf_name (Pad w) m.2 = true ->
    let u := 8 * sizeof m.2 in
    let s := if pos / u =? (pos + w - 1) / u then pos else align_up pos u in
    pos <= s <= s + w /\ s / u = (s + w - 1) / u) as Hbits.
  { clear Hwf. intros w Hw. cbn in Hw. cbv zeta. set (u := 8 * sizeof m.2) in *.
    assert (0 < u) by (destruct (is_int m.2); [specialize (Hi eq_refl); lia|done]).
    assert (0 < w <= u) by (destruct (is_int m.2); [lia|done]).
    destruct (Z.eqb_spec (pos / u) ((pos + w - 1) / u)) as [He|_]; [split; [lia|exact He]|].
    destruct (align_up_spec pos u ltac:(lia)) as [? [q Hq]]. split; [lia|].
    rewrite Hq. replace (q * u + w - 1) with ((w - 1) + q * u) by lia.
    rewrite Z.div_add, Z.div_mul, Z.div_small by lia. lia. }
  destruct m as [[s| |s w|w] t]; cbn [fst snd] in *.
  1,2: destruct (align_up_spec pos (8 * alignof t) ltac:(lia)) as [Hle Hd];
    split; [split; [apply Hle|lia]|by split].
  all: destruct (Hbits w Hwf) as [H1 H2]; split; [exact H1|by split].
Qed.

Definition members_ok (ms : list member) : Prop :=
  Forall (fun m => placeable m.2 /\ wf_name m.1 m.2 = true) ms.

(** Where the last member ends. *)
Definition end_of (pos : Z) (ms : list member) : Z :=
  foldl (fun pos m => (span m pos).2) pos ms.

Lemma end_of_cons m ms pos : end_of pos (m :: ms) = end_of (span m pos).2 ms.
Proof. done. Qed.

Lemma end_of_ge ms pos : members_ok ms -> pos <= end_of pos ms.
Proof.
  intros H. revert pos. induction H as [|m ms [Hp Hw] _ IH]; intros pos; [cbn; lia|].
  rewrite end_of_cons. destruct (span_spec m pos Hp Hw) as [? _]. specialize (IH (span m pos).2). lia.
Qed.

Lemma spans_spec ms pos i m p :
  members_ok ms -> spans pos ms !! i = Some (m, p) ->
  m ∈ ms /\ pos <= p.1 <= p.2 /\ p.2 <= end_of pos ms /\ placed m p.
Proof.
  intros H. revert pos i. induction H as [|m' ms [Hp Hw] Hms IH]; intros pos i; [done|].
  destruct (span_spec m' pos Hp Hw) as [Hle Hpl]. destruct i as [|i]; cbn.
  - intros [= <- <-]. split_and!; [by left|lia..| |done].
    by apply end_of_ge.
  - intros (Hin & Hle' & He & Hpl')%IH. split_and!; [by right|lia..|done|done].
Qed.

(** Members follow each other: none starts before an earlier one ends. *)
Lemma spans_ordered ms pos i j m m' p p' :
  members_ok ms -> (i < j)%nat ->
  spans pos ms !! i = Some (m, p) -> spans pos ms !! j = Some (m', p') -> p.2 <= p'.1.
Proof.
  intros H. revert pos i j. induction H as [|m0 ms [Hp Hw] Hms IH]; intros pos i j Hij; [done|].
  destruct i as [|i], j as [|j]; [lia| |lia|]; cbn.
  - intros [= <- <-] Hj. by apply (spans_spec ms _ j) in Hj as (_ & ? & _); [lia|].
  - apply IH. lia.
Qed.

(** ** Sizes *)

Lemma sizeof_struct ms :
  sizeof (TStruct ms) = align_up (align_up (end_of 0 ms) 8 / 8) (max_align ms).
Proof. done. Qed.

Definition union_end (ms : list member) : Z := foldr (fun m a => Z.max (span m 0).2 a) 0 ms.

Lemma sizeof_union ms :
  sizeof (TUnion ms) = align_up (align_up (union_end ms) 8 / 8) (max_align ms).
Proof. done. Qed.

Lemma union_end_spec ms m :
  members_ok ms -> m ∈ ms -> 0 <= (span m 0).2 <= union_end ms.
Proof.
  intros H Hin. induction H as [|m' ms [Hp Hw] _ IH]; [by apply not_elem_of_nil in Hin|].
  destruct (span_spec m' 0 Hp Hw) as [? _]. unfold union_end. cbn. fold (union_end ms).
  apply elem_of_cons in Hin as [-> | Hin]; [lia|]. specialize (IH Hin). lia.
Qed.

Lemma union_end_nonneg ms : 0 <= union_end ms.
Proof. induction ms; cbn; [done|]. unfold union_end in *. lia. Qed.

(** Rounding a bit count to bytes and to an alignment. *)
Lemma round_spec z a : 0 <= z -> 0 < a ->
  z <= 8 * align_up (align_up z 8 / 8) a /\ 0 <= align_up (align_up z 8 / 8) a /\
  (a | align_up (align_up z 8 / 8) a).
Proof.
  intros Hz Ha. destruct (align_up_spec z 8 ltac:(lia)) as [H8 [q Hq]].
  rewrite Hq, Z.div_mul by lia. destruct (align_up_spec q a Ha) as [Hle Hd].
  split_and!; [lia|lia|done].
Qed.

Lemma placeable_wf t : wf_ctype t = true -> placeable t.
Proof.
  intros Hwf. pose proof (pow2_pos _ (alignof_pow2 t Hwf)) as Hal. revert Hwf Hal.
  assert (forall ms, Forall (fun m : member => wf_ctype m.2 = true -> 0 < alignof m.2 -> placeable m.2) ms ->
            wf_ctype (TStruct ms) = true -> members_ok ms) as Hok.
  { intros ms IH Hwf%wf_members. unfold members_ok. rewrite Forall_forall in *.
    intros m Hm. destruct (Hwf m Hm). split; [|done]. apply IH; [done|done|].
    by apply pow2_pos, alignof_pow2. }
  induction t as [n| |cs|t n IH|ms IH|ms IH] using ctype_nested_ind; intros Hwf Hal.
  - cbn in *. unfold placeable. cbn. split_and!; [lia|lia|done|lia].
  - unfold placeable. cbn. split_and!; [lia|lia|by exists 1|done].
  - unfold placeable. cbn. split_and!; [lia|lia|by exists 1|lia].
  - cbn in Hwf, Hal. apply andb_true_iff in Hwf as [Hw Hn]. destruct (IH Hw Hal) as (H1 & H2 & H3 & _).
    unfold placeable. cbn. split_and!; [lia|done|by apply Z.divide_mul_r|done].
  - specialize (Hok ms IH Hwf). change (alignof (TStruct ms)) with (max_align ms) in Hal.
    destruct (round_spec (end_of 0 ms) (max_align ms)) as (_ & H2 & H3); [by apply end_of_ge|done|].
    unfold placeable. rewrite sizeof_struct. change (alignof (TStruct ms)) with (max_align ms).
    by split_and!.
  - change (alignof (TUnion ms)) with (max_align ms) in Hal.
    destruct (round_spec (union_end ms) (max_align ms)) as (_ & H2 & H3); [apply union_end_nonneg|done|].
    unfold placeable. rewrite sizeof_union. change (alignof (TUnion ms)) with (max_align ms).
    by split_and!.
Qed.

Lemma wf_members_ok ms : wf_ctype (TStruct ms) = true -> members_ok ms.
Proof.
  intros Hwf%wf_members. unfold members_ok. eapply Forall_impl; [exact Hwf|].
  intros m [? ?]. split; [by apply placeable_wf|done].
Qed.

(** The layout of a struct is sound: members lie in order inside the struct,
    without overlap; a named or anonymous member is aligned and has its type's
    size; a bit-field does not straddle two storage units of its type; and the
    size of the struct is a multiple of its alignment. *)
Theorem layout_sound ms :
  wf_ctype (TStruct ms) = true ->
  (forall i m p, spans 0 ms !! i = Some (m, p) ->
     0 <= p.1 <= p.2 /\ p.2 <= 8 * sizeof (TStruct ms) /\ placed m p) /\
  (forall i j m m' p p', (i < j)%nat ->
     spans 0 ms !! i = Some (m, p) -> spans 0 ms !! j = Some (m', p') -> p.2 <= p'.1) /\
  (alignof (TStruct ms) | sizeof (TStruct ms)).
Proof.
  intros Hwf. pose proof (wf_members_ok ms Hwf) as Hok.
  destruct (placeable_wf _ Hwf) as (_ & Hal & Hd & _). split_and!; [| |exact Hd].
  - intros i m p Hi. destruct (spans_spec ms 0 i m p Hok Hi) as (_ & Hle & He & Hp).
    split_and!; [lia..| |done]. rewrite sizeof_struct.
    destruct (round_spec (end_of 0 ms) (max_align ms)) as (Hr & _); [by apply end_of_ge|exact Hal|]. lia.
  - intros i j m m' p p' Hij. by apply spans_ordered.
Qed.

(** ** Field lookup *)

Fixpoint find_field (f : string) (l : list (member * (Z * Z))) : option (Z * ctype) :=
  match l with
  | [] => None
  | ((k, t), p) :: l =>
      match k with
      | Named s => if String.eqb s f then Some (p.1 / 8, t) else find_field f l
      | Anon => match offsetof t f with
                | Some r => Some (p.1 / 8 + r.1, r.2)
                | None => find_field f l
                end
      | _ => find_field f l
      end
  end.

Lemma offsetof_struct ms f : offsetof (TStruct ms) f = find_field f (spans 0 ms).
Proof.
  cbn. generalize 0. induction ms as [|[k t] ms IH]; intros pos; [done|].
  cbn. destruct k; unfold span; cbn [fst snd].
  - destruct (String.eqb s f); [done|]. apply IH.
  - destruct (offsetof t f); [done|]. apply IH.
  - apply IH.
  - apply IH.
Qed.

Lemma offsetof_union ms f :
  offsetof (TUnion ms) f = find_field f ((fun m => (m, (0, 0))) <$> ms).
Proof.
  cbn. induction ms as [|[k t] ms IH]; [done|]. cbn. destruct k; cbn [fst snd].
  - change (0 / 8) with 0. destruct (String.eqb s f); [done|]. apply IH.
  - change (0 / 8) with 0. destruct (offsetof t f) as [[o t']|]; [done|]. apply IH.
  - apply IH.
  - apply IH.
Qed.

(** The member a lookup went through. *)
Definition found_in (f : string) (m : member) (start : Z) (o : Z) (t' : ctype) : Prop :=
  (m.1 = Named f /\ o = start / 8 /\ t' = m.2) \/
  (m.1 = Anon /\ exists r, offsetof m.2 f = Some r /\ o = start / 8 + r.1 /\ t' = r.2).

Lemma find_field_Some f l o t' :
  find_field f l = Some (o, t') -> exists m p, (m, p) ∈ l /\ found_in f m p.1 o t'.
Proof.
  induction l as [|[[k t] p] l IH]; cbn; [done|].
  assert (find_field f l = Some (o, t') -> exists m p', (m, p') ∈ ((k, t), p) :: l /\ found_in f m p'.1 o t')
    as Hrest.
  { intros (m & p' & Hin & Hf)%IH. exists m, p'. split; [by right|done]. }
  destruct k; [| |exact Hrest..].
  - destruct (String.eqb_spec s f) as [->|]; [|exact Hrest]. intros [= <- <-].
    exists (Named f, t), p. split; [by left|]. by left.
  - destruct (offsetof t f) as [r|] eqn:Hr; [|exact Hrest]. intros [= <- <-].
    exists (Anon, t), p. split; [by left|]. right. split; [done|]. by exists r.
Qed.

(** A member found at a span that is inside the type is inside the type. *)
Lemma found_in_bounds (f : string) (m : member) (start : Z) o t' size al :
  found_in f m start o t' -> 0 <= start -> start + 8 * sizeof m.2 <= 8 * size ->
  (8 * alignof m.2 | start) -> 0 < alignof m.2 -> (alignof m.2 | al) -> wf_ctype m.2 = true ->
  (forall o t', offsetof m.2 f = Some (o, t') ->
     0 <= o /\ o + sizeof t' <= sizeof m.2 /\ (alignof t' | o) /\ (alignof t' | alignof m.2) /\
     wf_ctype t' = true) ->
  0 <= o /\ o + sizeof t' <= size /\ (alignof t' | o) /\ (alignof t' | al) /\ wf_ctype t' = true.
Proof.
  intros Hf Hs Hb [q Hq] Hal Hd Hwf IH.
  assert (start / 8 = q * alignof m.2) as He.
  { rewrite Hq. replace (q * (8 * alignof m.2)) with (q * alignof m.2 * 8) by lia. by apply Z.div_mul. }
  assert (start = 8 * (start / 8)) by lia.
  destruct Hf as [(_ & -> & ->)|(_ & [o0 t0] & Hr & -> & ->)].
  - split_and!; [lia|lia| |done|done]. rewrite He. apply Z.divide_factor_r.
  - destruct (IH _ _ Hr) as (H1 & H2 & H3 & H4 & H5). cbn [fst snd].
    split_and!; [lia|lia| |by etrans|done].
    apply Z.divide_add_r; [|done]. rewrite He. by apply Z.divide_mul_r.
Qed.

Lemma find_member f m start o t' :
  found_in f m start o t' -> is_pad m.1 = false /\ (m.1 = Named f \/ m.1 = Anon).
Proof. intros [(-> & _)|(-> & _)]; split; auto. Qed.

(** A field lookup stays inside the object, at an offset its type's alignment
    divides, however deep the field is nested in anonymous members. *)
Theorem offsetof_sound t f o t' :
  wf_ctype t = true -> offsetof t f = Some (o, t') ->
  0 <= o /\ o + sizeof t' <= sizeof t /\ (alignof t' | o) /\ (alignof t' | alignof t) /\
  wf_ctype t' = true.
Proof.
  revert f o t'. induction t as [n| |cs|t n IH|ms IH|ms IH] using ctype_nested_ind; intros f o t' Hwf Ho;
    [discriminate Ho..| |].
  - rewrite offsetof_struct in Ho. apply find_field_Some in Ho as (m & p & [i Hi]%list_elem_of_lookup_1 & Hf).
    pose proof (wf_members_ok ms Hwf) as Hok. pose proof Hwf as Hwf'%wf_members.
    destruct (spans_spec ms 0 i m p Hok Hi) as (Hin & Hle & He & Hp).
    destruct (find_member _ _ _ _ _ Hf) as [Hpad Hk].
    pose proof (member_align ms m Hwf' Hin Hpad) as Hd.
    rewrite Forall_forall in IH. destruct (proj1 (Forall_forall _ _) Hwf' m Hin) as [Hwm _].
    assert ((8 * alignof m.2 | p.1) /\ p.2 = p.1 + 8 * sizeof m.2) as [Hdiv Hend]
      by (unfold placed in Hp; destruct Hk as [Hk|Hk]; rewrite Hk in Hp; exact Hp).
    destruct (round_spec (end_of 0 ms) (max_align ms)) as (Hr & _);
      [by apply end_of_ge|apply pow2_pos; exact (alignof_pow2 _ Hwf)|].
    eapply (found_in_bounds f m p.1); [exact Hf|lia|rewrite sizeof_struct; lia|exact Hdiv| |exact Hd|exact Hwm|].
    + by apply pow2_pos, alignof_pow2.
    + intros o1 t1. by apply (IH m Hin).
  - rewrite offsetof_union in Ho. apply find_field_Some in Ho as (m & p & Hin & Hf).
    apply list_elem_of_fmap in Hin as (m' & [= <- ->] & Hin).
    assert (members_ok ms) as Hok by (by apply wf_members_ok). pose proof Hwf as Hwf'%wf_members.
    destruct (find_member _ _ _ _ _ Hf) as [Hpad Hk].
    pose proof (member_align ms m Hwf' Hin Hpad) as Hd.
    rewrite Forall_forall in IH. destruct (proj1 (Forall_forall _ _) Hwf' m Hin) as [Hwm _].
    pose proof (pow2_pos _ (alignof_pow2 _ Hwm)) as Hal.
    destruct (union_end_spec ms m Hok Hin) as [_ Hu].
    destruct (align_up_spec 0 (8 * alignof m.2) ltac:(lia)) as [Hup _].
    assert (8 * sizeof m.2 <= (span m 0).2) as Hsz.
    { unfold span, place. destruct Hk as [Hk|Hk]; rewrite Hk; cbn [fst snd]; lia. }
    destruct (round_spec (union_end ms) (max_align ms)) as (Hr & _);
      [apply union_end_nonneg|apply pow2_pos; exact (alignof_pow2 _ Hwf)|].
    eapply (found_in_bounds f m 0); [exact Hf|lia|rewrite sizeof_union; lia|by exists 0|exact Hal|exact Hd|exact Hwm|].
    intros o1 t1. by apply (IH m Hin).
Qed.

(** What a field or element read touches is inside the object. *)
Lemma field_of_bounds t x fd :
  wf_ctype t = true -> field_of t x = Some fd ->
  (f_off fd + f_width fd <= Z.to_nat (sizeof t))%nat.
Proof.
  intros Hwf. destruct x as [f|f i]; cbn [field_of].
  - destruct (offsetof t f) as [[o t']|] eqn:Ho; [|done]. intros [= <-].
    destruct (offsetof_sound t f o t' Hwf Ho) as (H1 & H2 & _ & _ & Hwf').
    destruct (placeable_wf t' Hwf') as [H3 _]. cbn. lia.
  - destruct (offsetof t f) as [[o [| | |t' n| |]]|] eqn:Ho; try done.
    destruct (Z.leb_spec 0 i), (Z.ltb_spec i n); cbn [andb]; try done. intros [= <-].
    destruct (offsetof_sound t f _ _ Hwf Ho) as (H1 & H2 & _ & _ & [Hwf' _]%andb_true_iff).
    destruct (placeable_wf t' Hwf') as [H3 _]. cbn [sizeof f_off f_width] in *. nia.
Qed.
