(* ===== verification/Vmlinux.v ===== *)
(** * Vmlinux: kernel type declarations

    The declarations of [agent/bpf/vmlinux.h] from which the types of the kernel
    objects the programs touch are built: every struct, union, enum and typedef
    they contain by value, in dependency order, member by member.  Structs, unions
    and enums carry their keyword as a prefix; typedefs keep their name ([bool] is
    [bool_]); the two anonymous enums are named after what they hold.  Pointers are [TPtr], whatever they point to. *)

From Stdlib Require Import String ZArith List.
From S2P Require Import Ctypes.
Import ListNotations.
Open Scope Z_scope.
Open Scope string_scope.

Definition __u8 : ctype := c_char.

Definition __u16 : ctype := c_short.

Definition __u32 : ctype := c_int.

Definition __s64 : ctype := c_long.

Definition __u64 : ctype := c_long.

Definition u8 : ctype := __u8.

Definition u16 : ctype := __u16.

Definition u32 : ctype := __u32.

Definition s64 : ctype := __s64.

Definition u64 : ctype := __u64.

Definition __kernel_ulong_t : ctype := c_long.

Definition __kernel_pid_t : ctype := c_int.

Definition __kernel_uid32_t : ctype := c_int.

Definition __kernel_size_t : ctype := __kernel_ulong_t.

Definition __kernel_clockid_t : ctype := c_int.

Definition pid_t : ctype := __kernel_pid_t.

Definition clockid_t : ctype := __kernel_clockid_t.

Definition bool_ : ctype := c_bool.

Definition uid_t : ctype := __kernel_uid32_t.

Definition size_t : ctype := __kernel_size_t.

Definition ktime_t : ctype := s64.

Definition gfp_t : ctype := c_int.

Definition atomic_t : ctype := TStruct [
  fld "counter" c_int].

Definition atomic64_t : ctype := TStruct [
  fld "counter" s64].

Definition struct_list_head : ctype := TStruct [
  fld "next" TPtr;
  fld "prev" TPtr].

Definition struct_hlist_head : ctype := TStruct [
  fld "first" TPtr].

Definition struct_hlist_node : ctype := TStruct [
  fld "next" TPtr;
  fld "pprev" TPtr].

Definition struct_callback_head : ctype := TStruct [
  fld "next" TPtr;
  fld "func" TPtr].

Definition struct_qspinlock : ctype := TStruct [
  anon (TUnion [
    fld "val" atomic_t;
    anon (TStruct [
      fld "locked" u8;
      fld "pending" u8]);
    anon (TStruct [
      fld "locked_pending" u16;
      fld "tail" u16])])].

Definition arch_spinlock_t : ctype := struct_qspinlock.

Definition struct_raw_spinlock : ctype := TStruct [
  fld "raw_lock" arch_spinlock_t].

Definition raw_spinlock_t : ctype := struct_raw_spinlock.

Definition struct_thread_info : ctype := TStruct [
  fld "flags" c_long;
  fld "syscall_work" c_long;
  fld "status" u32;
  fld "cpu" u32].

Definition struct_refcount_struct : ctype := TStruct [
  fld "refs" atomic_t].

Definition refcount_t : ctype := struct_refcount_struct.

Definition struct_llist_node : ctype := TStruct [
  fld "next" TPtr].

Definition struct___call_single_node : ctype := TStruct [
  fld "llist" struct_llist_node;
  anon (TUnion [
    fld "u_flags" c_int;
    fld "a_flags" atomic_t]);
  fld "src" u16;
  fld "dst" u16].

Definition struct_load_weight : ctype := TStruct [
  fld "weight" c_long;
  fld "inv_weight" u32].

Definition struct_rb_node : ctype := TStruct [
  fld "__rb_parent_color" c_long;
  fld "rb_right" TPtr;
  fld "rb_left" TPtr].

Definition struct_sched_avg : ctype := TStruct [
  fld "last_update_time" u64;
  fld "load_sum" u64;
  fld "runnable_sum" u64;
  fld "util_sum" u32;
  fld "period_contrib" u32;
  fld "load_avg" c_long;
  fld "runnable_avg" c_long;
  fld "util_avg" c_long;
  fld "util_est" c_int].

Definition struct_sched_entity : ctype := TStruct [
  fld "load" struct_load_weight;
  fld "run_node" struct_rb_node;
  fld "deadline" u64;
  fld "min_vruntime" u64;
  fld "group_node" struct_list_head;
  fld "on_rq" c_int;
  fld "exec_start" u64;
  fld "sum_exec_runtime" u64;
  fld "prev_sum_exec_runtime" u64;
  fld "vruntime" u64;
  fld "vlag" s64;
  fld "slice" u64;
  fld "nr_migrations" u64;
  fld "depth" c_int;
  fld "parent" TPtr;
  fld "cfs_rq" TPtr;
  fld "my_q" TPtr;
  fld "runnable_weight" c_long;
  pad 64 c_long;
  pad 64 c_long;
  fld "avg" struct_sched_avg].

Definition struct_sched_rt_entity : ctype := TStruct [
  fld "run_list" struct_list_head;
  fld "timeout" c_long;
  fld "watchdog_stamp" c_long;
  fld "time_slice" c_int;
  fld "on_rq" c_short;
  fld "on_list" c_short;
  fld "back" TPtr].

Definition struct_timerqueue_node : ctype := TStruct [
  fld "node" struct_rb_node;
  fld "expires" ktime_t].

Definition struct_hrtimer : ctype := TStruct [
  fld "node" struct_timerqueue_node;
  fld "_softexpires" ktime_t;
  fld "function" TPtr;
  fld "base" TPtr;
  fld "state" u8;
  fld "is_rel" u8;
  fld "is_soft" u8;
  fld "is_hard" u8].

Definition dl_server_has_tasks_f : ctype := TPtr.

Definition dl_server_pick_f : ctype := TPtr.

Definition struct_sched_dl_entity : ctype := TStruct [
  fld "rb_node" struct_rb_node;
  fld "dl_runtime" u64;
  fld "dl_deadline" u64;
  fld "dl_period" u64;
  fld "dl_bw" u64;
  fld "dl_density" u64;
  fld "runtime" s64;
  fld "deadline" u64;
  fld "flags" c_int;
  bits "dl_throttled" 1 c_int;
  bits "dl_yielded" 1 c_int;
  bits "dl_non_contending" 1 c_int;
  bits "dl_overrun" 1 c_int;
  bits "dl_server" 1 c_int;
  fld "dl_timer" struct_hrtimer;
  fld "inactive_timer" struct_hrtimer;
  fld "rq" TPtr;
  fld "server_has_tasks" dl_server_has_tasks_f;
  fld "server_pick" dl_server_pick_f;
  fld "pi_se" TPtr].

Definition struct_uclamp_se : ctype := TStruct [
  bits "value" 11 c_int;
  bits "bucket_id" 3 c_int;
  bits "active" 1 c_int;
  bits "user_defined" 1 c_int].

Definition struct_sched_statistics : ctype := TStruct [
  fld "wait_start" u64;
  fld "wait_max" u64;
  fld "wait_count" u64;
  fld "wait_sum" u64;
  fld "iowait_count" u64;
  fld "iowait_sum" u64;
  fld "sleep_start" u64;
  fld "sleep_max" u64;
  fld "sum_sleep_runtime" s64;
  fld "block_start" u64;
  fld "block_max" u64;
  fld "sum_block_runtime" s64;
  fld "exec_max" s64;
  fld "slice_max" u64;
  fld "nr_migrations_cold" u64;
  fld "nr_failed_migrations_affine" u64;
  fld "nr_failed_migrations_running" u64;
  fld "nr_failed_migrations_hot" u64;
  fld "nr_forced_migrations" u64;
  fld "nr_wakeups" u64;
  fld "nr_wakeups_sync" u64;
  fld "nr_wakeups_migrate" u64;
  fld "nr_wakeups_local" u64;
  fld "nr_wakeups_remote" u64;
  fld "nr_wakeups_affine" u64;
  fld "nr_wakeups_affine_attempts" u64;
  fld "nr_wakeups_passive" u64;
  fld "nr_wakeups_idle" u64;
  fld "core_forceidle_sum" u64;
  pad 64 c_long;
  pad 64 c_long;
  pad 64 c_long].

Definition struct_cpumask : ctype := TStruct [
  fld "bits" (TArray c_long 128)].

Definition cpumask_t : ctype := struct_cpumask.

Definition union_rcu_special : ctype := TUnion [
  fld "b" (TStruct [
    fld "blocked" u8;
    fld "need_qs" u8;
    fld "exp_hint" u8;
    fld "need_mb" u8]);
  fld "s" u32].

Definition struct_sched_info : ctype := TStruct [
  fld "pcount" c_long;
  fld "run_delay" c_long;
  fld "last_arrival" c_long;
  fld "last_queued" c_long].

Definition struct_plist_node : ctype := TStruct [
  fld "prio" c_int;
  fld "prio_list" struct_list_head;
  fld "node_list" struct_list_head].

Definition enum_timespec_type : ctype := TEnum [
  ("TT_NONE", 0);
  ("TT_NATIVE", 1);
  ("TT_COMPAT", 2)].

Definition struct_restart_block : ctype := TStruct [
  fld "arch_data" c_long;
  fld "fn" TPtr;
  anon (TUnion [
    fld "futex" (TStruct [
      fld "uaddr" TPtr;
      fld "val" u32;
      fld "flags" u32;
      fld "bitset" u32;
      fld "time" u64;
      fld "uaddr2" TPtr]);
    fld "nanosleep" (TStruct [
      fld "clockid" clockid_t;
      fld "type" enum_timespec_type;
      anon (TUnion [
        fld "rmtp" TPtr;
        fld "compat_rmtp" TPtr]);
      fld "expires" u64]);
    fld "poll" (TStruct [
      fld "ufds" TPtr;
      fld "nfds" c_int;
      fld "has_timeout" c_int;
      fld "tv_sec" c_long;
      fld "tv_nsec" c_long])])].

Definition struct_prev_cputime : ctype := TStruct [
  fld "utime" u64;
  fld "stime" u64;
  fld "lock" raw_spinlock_t].

Definition struct_seqcount : ctype := TStruct [
  fld "sequence" c_int].

Definition seqcount_t : ctype := struct_seqcount.

Definition enum_vtime_state : ctype := TEnum [
  ("VTIME_INACTIVE", 0);
  ("VTIME_IDLE", 1);
  ("VTIME_SYS", 2);
  ("VTIME_USER", 3);
  ("VTIME_GUEST", 4)].

Definition struct_vtime : ctype := TStruct [
  fld "seqcount" seqcount_t;
  fld "starttime" c_long;
  fld "state" enum_vtime_state;
  fld "cpu" c_int;
  fld "utime" u64;
  fld "stime" u64;
  fld "gtime" u64].

Definition struct_rb_root : ctype := TStruct [
  fld "rb_node" TPtr].

Definition struct_rb_root_cached : ctype := TStruct [
  fld "rb_root" struct_rb_root;
  fld "rb_leftmost" TPtr].

Definition struct_timerqueue_head : ctype := TStruct [
  fld "rb_root" struct_rb_root_cached].

Definition struct_posix_cputimer_base : ctype := TStruct [
  fld "nextevt" u64;
  fld "tqhead" struct_timerqueue_head].

Definition struct_posix_cputimers : ctype := TStruct [
  fld "bases" (TArray struct_posix_cputimer_base 3);
  fld "timers_active" c_int;
  fld "expiry_active" c_int].

Definition atomic_long_t : ctype := atomic64_t.

Definition struct_optimistic_spin_queue : ctype := TStruct [
  fld "tail" atomic_t].

Definition struct_mutex : ctype := TStruct [
  fld "owner" atomic_long_t;
  fld "wait_lock" raw_spinlock_t;
  fld "osq" struct_optimistic_spin_queue;
  fld "wait_list" struct_list_head].

Definition struct_posix_cputimers_work : ctype := TStruct [
  fld "work" struct_callback_head;
  fld "mutex" struct_mutex;
  fld "scheduled" c_int].

Definition struct_sysv_sem : ctype := TStruct [
  fld "undo_list" TPtr].

Definition struct_sysv_shm : ctype := TStruct [
  fld "shm_clist" struct_list_head].

Definition sigset_t : ctype := TStruct [
  fld "sig" (TArray c_long 1)].

Definition struct_sigpending : ctype := TStruct [
  fld "list" struct_list_head;
  fld "signal" sigset_t].

Definition kuid_t : ctype := TStruct [
  fld "val" uid_t].

Definition struct_seccomp : ctype := TStruct [
  fld "mode" c_int;
  fld "filter_count" atomic_t;
  fld "filter" TPtr].

Definition struct_syscall_user_dispatch : ctype := TStruct [
  fld "selector" TPtr;
  fld "offset" c_long;
  fld "len" c_long;
  fld "on_dispatch" bool_].

Definition struct_spinlock : ctype := TStruct [
  anon (TUnion [
    fld "rlock" struct_raw_spinlock])].

Definition spinlock_t : ctype := struct_spinlock.

Definition struct_wake_q_node : ctype := TStruct [
  fld "next" TPtr].

Definition struct_task_io_accounting : ctype := TStruct [
  fld "rchar" u64;
  fld "wchar" u64;
  fld "syscr" u64;
  fld "syscw" u64;
  fld "read_bytes" u64;
  fld "write_bytes" u64;
  fld "cancelled_write_bytes" u64].

Definition nodemask_t : ctype := TStruct [
  fld "bits" (TArray c_long 16)].

Definition struct_seqcount_spinlock : ctype := TStruct [
  fld "seqcount" seqcount_t].

Definition seqcount_spinlock_t : ctype := struct_seqcount_spinlock.

Definition struct_arch_tlbflush_unmap_batch : ctype := TStruct [
  fld "cpumask" struct_cpumask].

Definition struct_tlbflush_unmap_batch : ctype := TStruct [
  fld "arch" struct_arch_tlbflush_unmap_batch;
  fld "flush_required" bool_;
  fld "writable" bool_].

Definition struct_page_frag : ctype := TStruct [
  fld "page" TPtr;
  fld "offset" __u32;
  fld "size" __u32].

Definition struct_latency_record : ctype := TStruct [
  fld "backtrace" (TArray c_long 12);
  fld "count" c_int;
  fld "time" c_long;
  fld "max" c_long].

Definition struct_kmap_ctrl : ctype := TStruct [].

Definition struct_timer_list : ctype := TStruct [
  fld "entry" struct_hlist_node;
  fld "expires" c_long;
  fld "function" TPtr;
  fld "flags" u32].

Definition struct_llist_head : ctype := TStruct [
  fld "first" TPtr].

Definition struct_da_monitor : ctype := TStruct [
  fld "monitoring" bool_;
  fld "curr_state" c_int].

Definition union_rv_task_monitor : ctype := TUnion [
  fld "da_mon" struct_da_monitor].

Definition struct_desc_struct : ctype := TStruct [
  fld "limit0" u16;
  fld "base0" u16;
  bits "base1" 8 u16;
  bits "type" 4 u16;
  bits "s" 1 u16;
  bits "dpl" 2 u16;
  bits "p" 1 u16;
  bits "limit1" 4 u16;
  bits "avl" 1 u16;
  bits "l" 1 u16;
  bits "d" 1 u16;
  bits "g" 1 u16;
  bits "base2" 8 u16].

Definition struct_thread_shstk : ctype := TStruct [
  fld "base" u64;
  fld "size" u64].

Definition struct_fpu_state_perm : ctype := TStruct [
  fld "__state_perm" u64;
  fld "__state_size" c_int;
  fld "__user_state_size" c_int].

Definition struct_fregs_state : ctype := TStruct [
  fld "cwd" u32;
  fld "swd" u32;
  fld "twd" u32;
  fld "fip" u32;
  fld "fcs" u32;
  fld "foo" u32;
  fld "fos" u32;
  fld "st_space" (TArray u32 20);
  fld "status" u32].

Definition struct_fxregs_state : ctype := TStruct [
  fld "cwd" u16;
  fld "swd" u16;
  fld "twd" u16;
  fld "fop" u16;
  anon (TUnion [
    anon (TStruct [
      fld "rip" u64;
      fld "rdp" u64]);
    anon (TStruct [
      fld "fip" u32;
      fld "fcs" u32;
      fld "foo" u32;
      fld "fos" u32])]);
  fld "mxcsr" u32;
  fld "mxcsr_mask" u32;
  fld "st_space" (TArray u32 32);
  fld "xmm_space" (TArray u32 64);
  fld "padding" (TArray u32 12);
  anon (TUnion [
    fld "padding1" (TArray u32 12);
    fld "sw_reserved" (TArray u32 12)])].

Definition struct_swregs_state : ctype := TStruct [
  fld "cwd" u32;
  fld "swd" u32;
  fld "twd" u32;
  fld "fip" u32;
  fld "fcs" u32;
  fld "foo" u32;
  fld "fos" u32;
  fld "st_space" (TArray u32 20);
  fld "ftop" u8;
  fld "changed" u8;
  fld "lookahead" u8;
  fld "no_update" u8;
  fld "rm" u8;
  fld "alimit" u8;
  fld "info" TPtr;
  fld "entry_eip" u32].

Definition struct_xstate_header : ctype := TStruct [
  fld "xfeatures" u64;
  fld "xcomp_bv" u64;
  fld "reserved" (TArray u64 6)].

Definition struct_xregs_state : ctype := TStruct [
  fld "i387" struct_fxregs_state;
  fld "header" struct_xstate_header;
  fld "extended_state_area" (TArray u8 0)].

Definition union_fpregs_state : ctype := TUnion [
  fld "fsave" struct_fregs_state;
  fld "fxsave" struct_fxregs_state;
  fld "soft" struct_swregs_state;
  fld "xsave" struct_xregs_state;
  fld "__padding" (TArray u8 4096)].

Definition struct_fpstate : ctype := TStruct [
  fld "size" c_int;
  fld "user_size" c_int;
  fld "xfeatures" u64;
  fld "user_xfeatures" u64;
  fld "xfd" u64;
  bits "is_valloc" 1 c_int;
  bits "is_guest" 1 c_int;
  bits "is_confidential" 1 c_int;
  bits "in_use" 1 c_int;
  pad 64 c_long;
  pad 64 c_long;
  pad 64 c_long;
  fld "regs" union_fpregs_state].

Definition struct_fpu : ctype := TStruct [
  fld "last_cpu" c_int;
  fld "avx512_timestamp" c_long;
  fld "fpstate" TPtr;
  fld "__task_fpstate" TPtr;
  fld "perm" struct_fpu_state_perm;
  fld "guest_perm" struct_fpu_state_perm;
  fld "__fpstate" struct_fpstate].

Definition struct_thread_struct : ctype := TStruct [
  fld "tls_array" (TArray struct_desc_struct 3);
  fld "sp" c_long;
  fld "es" c_short;
  fld "ds" c_short;
  fld "fsindex" c_short;
  fld "gsindex" c_short;
  fld "fsbase" c_long;
  fld "gsbase" c_long;
  fld "ptrace_bps" (TArray TPtr 4);
  fld "virtual_dr6" c_long;
  fld "ptrace_dr7" c_long;
  fld "cr2" c_long;
  fld "trap_nr" c_long;
  fld "error_code" c_long;
  fld "io_bitmap" TPtr;
  fld "iopl_emul" c_long;
  bits "iopl_warn" 1 c_int;
  fld "pkru" u32;
  fld "features" c_long;
  fld "features_locked" c_long;
  fld "shstk" struct_thread_shstk;
  pad 64 c_long;
  fld "fpu" struct_fpu].

Definition task_struct_members_1 : list member := [
  fld "thread_info" struct_thread_info;
  fld "__state" c_int;
  fld "saved_state" c_int;
  fld "stack" TPtr;
  fld "usage" refcount_t;
  fld "flags" c_int;
  fld "ptrace" c_int;
  fld "on_cpu" c_int;
  fld "wake_entry" struct___call_single_node;
  fld "wakee_flips" c_int;
  fld "wakee_flip_decay_ts" c_long;
  fld "last_wakee" TPtr;
  fld "recent_used_cpu" c_int;
  fld "wake_cpu" c_int;
  fld "on_rq" c_int;
  fld "prio" c_int;
  fld "static_prio" c_int;
  fld "normal_prio" c_int;
  fld "rt_priority" c_int;
  fld "se" struct_sched_entity;
  fld "rt" struct_sched_rt_entity;
  fld "dl" struct_sched_dl_entity;
  fld "dl_server" TPtr;
  fld "sched_class" TPtr;
  fld "core_node" struct_rb_node;
  fld "core_cookie" c_long;
  fld "core_occupation" c_int;
  fld "sched_task_group" TPtr;
  fld "uclamp_req" (TArray struct_uclamp_se 2);
  fld "uclamp" (TArray struct_uclamp_se 2);
  pad 64 c_long;
  fld "stats" struct_sched_statistics;
  fld "preempt_notifiers" struct_hlist_head;
  fld "btrace_seq" c_int;
  fld "policy" c_int;
  fld "nr_cpus_allowed" c_int;
  fld "cpus_ptr" TPtr;
  fld "user_cpus_ptr" TPtr;
  fld "cpus_mask" cpumask_t;
  fld "migration_pending" TPtr;
  fld "migration_disabled" c_short;
  fld "migration_flags" c_short;
  fld "rcu_read_lock_nesting" c_int;
  fld "rcu_read_unlock_special" union_rcu_special;
  fld "rcu_node_entry" struct_list_head;
  fld "rcu_blocked_node" TPtr;
  fld "rcu_tasks_nvcsw" c_long;
  fld "rcu_tasks_holdout" u8;
  fld "rcu_tasks_idx" u8;
  fld "rcu_tasks_idle_cpu" c_int;
  fld "rcu_tasks_holdout_list" struct_list_head;
  fld "rcu_tasks_exit_cpu" c_int;
  fld "rcu_tasks_exit_list" struct_list_head;
  fld "trc_reader_nesting" c_int;
  fld "trc_ipi_to_cpu" c_int;
  fld "trc_reader_special" union_rcu_special;
  fld "trc_holdout_list" struct_list_head;
  fld "trc_blkd_node" struct_list_head;
  fld "trc_blkd_cpu" c_int;
  fld "sched_info" struct_sched_info;
  fld "tasks" struct_list_head;
  fld "pushable_tasks" struct_plist_node;
  fld "pushable_dl_tasks" struct_rb_node;
  fld "mm" TPtr;
  fld "active_mm" TPtr;
  fld "faults_disabled_mapping" TPtr;
  fld "exit_state" c_int;
  fld "exit_code" c_int;
  fld "exit_signal" c_int;
  fld "pdeath_signal" c_int;
  fld "jobctl" c_long;
  fld "personality" c_int;
  bits "sched_reset_on_fork" 1 c_int;
  bits "sched_contributes_to_load" 1 c_int;
  bits "sched_migrated" 1 c_int;
  bits "sched_task_hot" 1 c_int;
  pad 28 c_long;
  bits "sched_remote_wakeup" 1 c_int;
  bits "sched_rt_mutex" 1 c_int;
  bits "in_execve" 1 c_int;
  bits "in_iowait" 1 c_int;
  bits "restore_sigmask" 1 c_int;
  bits "in_user_fault" 1 c_int;
  bits "in_lru_fault" 1 c_int;
  bits "no_cgroup_migration" 1 c_int;
  bits "frozen" 1 c_int;
  bits "use_memdelay" 1 c_int;
  bits "in_memstall" 1 c_int;
  bits "in_eventfd" 1 c_int;
  bits "pasid_activated" 1 c_int;
  bits "reported_split_lock" 1 c_int;
  bits "in_thrashing" 1 c_int;
  fld "atomic_flags" c_long;
  fld "restart_block" struct_restart_block;
  fld "pid" pid_t;
  fld "tgid" pid_t;
  fld "stack_canary" c_long;
  fld "real_parent" TPtr;
  fld "parent" TPtr;
  fld "children" struct_list_head;
  fld "sibling" struct_list_head;
  fld "group_leader" TPtr;
  fld "ptraced" struct_list_head;
  fld "ptrace_entry" struct_list_head;
  fld "thread_pid" TPtr;
  fld "pid_links" (TArray struct_hlist_node 4);
  fld "thread_node" struct_list_head;
  fld "vfork_done" TPtr;
  fld "set_child_tid" TPtr;
  fld "clear_child_tid" TPtr;
  fld "worker_private" TPtr;
  fld "utime" u64;
  fld "stime" u64;
  fld "gtime" u64;
  fld "prev_cputime" struct_prev_cputime;
  fld "vtime" struct_vtime;
  fld "tick_dep_mask" atomic_t;
  fld "nvcsw" c_long;
  fld "nivcsw" c_long;
  fld "start_time" u64;
  fld "start_boottime" u64;
  fld "min_flt" c_long;
  fld "maj_flt" c_long;
  fld "posix_cputimers" struct_posix_cputimers;
  fld "posix_cputimers_work" struct_posix_cputimers_work;
  fld "ptracer_cred" TPtr;
  fld "real_cred" TPtr;
  fld "cred" TPtr;
  fld "cached_requested_key" TPtr;
  fld "comm" (TArray c_char 16);
  fld "nameidata" TPtr;
  fld "sysvsem" struct_sysv_sem;
  fld "sysvshm" struct_sysv_shm;
  fld "last_switch_count" c_long;
  fld "last_switch_time" c_long;
  fld "fs" TPtr;
  fld "files" TPtr;
  fld "io_uring" TPtr;
  fld "nsproxy" TPtr;
  fld "signal" TPtr;
  fld "sighand" TPtr;
  fld "blocked" sigset_t;
  fld "real_blocked" sigset_t].

Definition task_struct_members_2 : list member := [
  fld "saved_sigmask" sigset_t;
  fld "pending" struct_sigpending;
  fld "sas_ss_sp" c_long;
  fld "sas_ss_size" size_t;
  fld "sas_ss_flags" c_int;
  fld "task_works" TPtr;
  fld "audit_context" TPtr;
  fld "loginuid" kuid_t;
  fld "sessionid" c_int;
  fld "seccomp" struct_seccomp;
  fld "syscall_dispatch" struct_syscall_user_dispatch;
  fld "parent_exec_id" u64;
  fld "self_exec_id" u64;
  fld "alloc_lock" spinlock_t;
  fld "pi_lock" raw_spinlock_t;
  fld "wake_q" struct_wake_q_node;
  fld "pi_waiters" struct_rb_root_cached;
  fld "pi_top_task" TPtr;
  fld "pi_blocked_on" TPtr;
  fld "in_ubsan" c_int;
  fld "journal_info" TPtr;
  fld "bio_list" TPtr;
  fld "plug" TPtr;
  fld "reclaim_state" TPtr;
  fld "io_context" TPtr;
  fld "capture_control" TPtr;
  fld "ptrace_message" c_long;
  fld "last_siginfo" TPtr;
  fld "ioac" struct_task_io_accounting;
  fld "psi_flags" c_int;
  fld "acct_rss_mem1" u64;
  fld "acct_vm_mem1" u64;
  fld "acct_timexpd" u64;
  fld "mems_allowed" nodemask_t;
  fld "mems_allowed_seq" seqcount_spinlock_t;
  fld "cpuset_mem_spread_rotor" c_int;
  fld "cpuset_slab_spread_rotor" c_int;
  fld "cgroups" TPtr;
  fld "cg_list" struct_list_head;
  fld "closid" u32;
  fld "rmid" u32;
  fld "robust_list" TPtr;
  fld "compat_robust_list" TPtr;
  fld "pi_state_list" struct_list_head;
  fld "pi_state_cache" TPtr;
  fld "futex_exit_mutex" struct_mutex;
  fld "futex_state" c_int;
  fld "perf_event_ctxp" TPtr;
  fld "perf_event_mutex" struct_mutex;
  fld "perf_event_list" struct_list_head;
  fld "mempolicy" TPtr;
  fld "il_prev" c_short;
  fld "pref_node_fork" c_short;
  fld "numa_scan_seq" c_int;
  fld "numa_scan_period" c_int;
  fld "numa_scan_period_max" c_int;
  fld "numa_preferred_nid" c_int;
  fld "numa_migrate_retry" c_long;
  fld "node_stamp" u64;
  fld "last_task_numa_placement" u64;
  fld "last_sum_exec_runtime" u64;
  fld "numa_work" struct_callback_head;
  fld "numa_group" TPtr;
  fld "numa_faults" TPtr;
  fld "total_numa_faults" c_long;
  fld "numa_faults_locality" (TArray c_long 3);
  fld "numa_pages_migrated" c_long;
  fld "rseq" TPtr;
  fld "rseq_len" u32;
  fld "rseq_sig" u32;
  fld "rseq_event_mask" c_long;
  fld "mm_cid" c_int;
  fld "last_mm_cid" c_int;
  fld "migrate_from_cpu" c_int;
  fld "mm_cid_active" c_int;
  fld "cid_work" struct_callback_head;
  fld "tlb_ubc" struct_tlbflush_unmap_batch;
  fld "splice_pipe" TPtr;
  fld "task_frag" struct_page_frag;
  fld "delays" TPtr;
  fld "nr_dirtied" c_int;
  fld "nr_dirtied_pause" c_int;
  fld "dirty_paused_when" c_long;
  fld "latency_record_count" c_int;
  fld "latency_record" (TArray struct_latency_record 32);
  fld "timer_slack_ns" u64;
  fld "default_timer_slack_ns" u64;
  fld "curr_ret_stack" c_int;
  fld "curr_ret_depth" c_int;
  fld "ret_stack" TPtr;
  fld "ftrace_timestamp" c_long;
  fld "trace_overrun" atomic_t;
  fld "tracing_graph_pause" atomic_t;
  fld "trace_recursion" c_long;
  fld "memcg_in_oom" TPtr;
  fld "memcg_oom_gfp_mask" gfp_t;
  fld "memcg_oom_order" c_int;
  fld "memcg_nr_pages_over_high" c_int;
  fld "active_memcg" TPtr;
  fld "objcg" TPtr;
  fld "throttle_disk" TPtr;
  fld "utask" TPtr;
  fld "sequential_io" c_int;
  fld "sequential_io_avg" c_int;
  fld "kmap_ctrl" struct_kmap_ctrl;
  fld "rcu" struct_callback_head;
  fld "rcu_users" refcount_t;
  fld "pagefault_disabled" c_int;
  fld "oom_reaper_list" TPtr;
  fld "oom_reaper_timer" struct_timer_list;
  fld "stack_vm_area" TPtr;
  fld "stack_refcount" refcount_t;
  fld "patch_state" c_int;
  fld "security" TPtr;
  fld "bpf_storage" TPtr;
  fld "bpf_ctx" TPtr;
  fld "mce_vaddr" TPtr;
  fld "mce_kflags" __u64;
  fld "mce_addr" u64;
  bits "mce_ripv" 1 __u64;
  bits "mce_whole_page" 1 __u64;
  bits "__mce_reserved" 62 __u64;
  fld "mce_kill_me" struct_callback_head;
  fld "mce_count" c_int;
  fld "kretprobe_instances" struct_llist_head;
  fld "rethooks" struct_llist_head;
  fld "l1d_flush_kill" struct_callback_head;
  fld "rv" (TArray union_rv_task_monitor 1);
  fld "user_event_mm" TPtr;
  fld "thread" struct_thread_struct].

Definition struct_task_struct : ctype := TStruct (task_struct_members_1 ++ task_struct_members_2).

Definition __kernel_gid32_t : ctype := c_int.

Definition gid_t : ctype := __kernel_gid32_t.

Definition kgid_t : ctype := TStruct [
  fld "val" gid_t].

Definition __s16 : ctype := c_short.

Definition s16 : ctype := __s16.

Definition __kernel_loff_t : ctype := c_long.

Definition __kernel_dev_t : ctype := u32.

Definition dev_t : ctype := __kernel_dev_t.

Definition umode_t : ctype := c_short.

Definition loff_t : ctype := __kernel_loff_t.

Definition blkcnt_t : ctype := u64.

Definition fmode_t : ctype := c_int.

Definition struct_qrwlock : ctype := TStruct [
  anon (TUnion [
    fld "cnts" atomic_t;
    anon (TStruct [
      fld "wlocked" u8;
      fld "__lstate" (TArray u8 3)])]);
  fld "wait_lock" arch_spinlock_t].

Definition arch_rwlock_t : ctype := struct_qrwlock.

Definition lockdep_map_p : ctype := TStruct [].

Definition struct_maple_tree : ctype := TStruct [
  anon (TUnion [
    fld "ma_lock" spinlock_t;
    fld "ma_external_lock" lockdep_map_p]);
  fld "ma_flags" c_int;
  fld "ma_root" TPtr].

Definition struct_rw_semaphore : ctype := TStruct [
  fld "count" atomic_long_t;
  fld "owner" atomic_long_t;
  fld "osq" struct_optimistic_spin_queue;
  fld "wait_lock" raw_spinlock_t;
  fld "wait_list" struct_list_head].

Definition struct_percpu_counter : ctype := TStruct [
  fld "lock" raw_spinlock_t;
  fld "count" s64;
  fld "list" struct_list_head;
  fld "counters" TPtr].

Definition mm_context_t : ctype := TStruct [
  fld "ctx_id" u64;
  fld "tlb_gen" atomic64_t;
  fld "next_trim_cpumask" c_long;
  fld "ldt_usr_sem" struct_rw_semaphore;
  fld "ldt" TPtr;
  fld "flags" c_long;
  fld "lock" struct_mutex;
  fld "vdso" TPtr;
  fld "vdso_image" TPtr;
  fld "perf_rdpmc_allowed" atomic_t;
  fld "pkey_allocation_map" u16;
  fld "execute_only_pkey" s16].

Definition struct_uprobes_state : ctype := TStruct [
  fld "xol_area" TPtr].

Definition work_func_t : ctype := TPtr.

Definition struct_work_struct : ctype := TStruct [
  fld "data" atomic_long_t;
  fld "entry" struct_list_head;
  fld "func" work_func_t].

Definition struct_mm_struct : ctype := TStruct [
  anon (TStruct [
    anon (TStruct [
      fld "mm_count" atomic_t;
      pad 64 c_long;
      pad 64 c_long;
      pad 64 c_long;
      pad 64 c_long;
      pad 64 c_long;
      pad 64 c_long;
      pad 64 c_long]);
    fld "mm_mt" struct_maple_tree;
    fld "get_unmapped_area" TPtr;
    fld "mmap_base" c_long;
    fld "mmap_legacy_base" c_long;
    fld "mmap_compat_base" c_long;
    fld "mmap_compat_legacy_base" c_long;
    fld "task_size" c_long;
    fld "pgd" TPtr;
    fld "membarrier_state" atomic_t;
    fld "mm_users" atomic_t;
    fld "pcpu_cid" TPtr;
    fld "mm_cid_next_scan" c_long;
    fld "pgtables_bytes" atomic_long_t;
    fld "map_count" c_int;
    fld "page_table_lock" spinlock_t;
    fld "mmap_lock" struct_rw_semaphore;
    fld "mmlist" struct_list_head;
    fld "mm_lock_seq" c_int;
    fld "hiwater_rss" c_long;
    fld "hiwater_vm" c_long;
    fld "total_vm" c_long;
    fld "locked_vm" c_long;
    fld "pinned_vm" atomic64_t;
    fld "data_vm" c_long;
    fld "exec_vm" c_long;
    fld "stack_vm" c_long;
    fld "def_flags" c_long;
    fld "write_protect_seq" seqcount_t;
    fld "arg_lock" spinlock_t;
    fld "start_code" c_long;
    fld "end_code" c_long;
    fld "start_data" c_long;
    fld "end_data" c_long;
    fld "start_brk" c_long;
    fld "brk" c_long;
    fld "start_stack" c_long;
    fld "arg_start" c_long;
    fld "arg_end" c_long;
    fld "env_start" c_long;
    fld "env_end" c_long;
    fld "saved_auxv" (TArray c_long 52);
    fld "rss_stat" (TArray struct_percpu_counter 4);
    fld "binfmt" TPtr;
    fld "context" mm_context_t;
    fld "flags" c_long;
    fld "ioctx_lock" spinlock_t;
    fld "ioctx_table" TPtr;
    fld "owner" TPtr;
    fld "user_ns" TPtr;
    fld "exe_file" TPtr;
    fld "notifier_subscriptions" TPtr;
    fld "numa_next_scan" c_long;
    fld "numa_scan_offset" c_long;
    fld "numa_scan_seq" c_int;
    fld "tlb_flush_pending" atomic_t;
    fld "tlb_flush_batched" atomic_t;
    fld "uprobes_state" struct_uprobes_state;
    fld "hugetlb_usage" atomic_long_t;
    fld "async_put_work" struct_work_struct;
    fld "iommu_mm" TPtr;
    fld "ksm_merging_pages" c_long;
    fld "ksm_rmap_items" c_long;
    fld "ksm_zero_pages" atomic_long_t;
    fld "lru_gen" (TStruct [
      fld "list" struct_list_head;
      fld "bitmap" c_long;
      fld "memcg" TPtr]);
    pad 64 c_long;
    pad 64 c_long]);
  fld "cpu_bitmap" (TArray c_long 0)].

Definition struct_wait_queue_head : ctype := TStruct [
  fld "lock" spinlock_t;
  fld "head" struct_list_head].

Definition wait_queue_head_t : ctype := struct_wait_queue_head.

Definition struct_rcuwait : ctype := TStruct [
  fld "task" TPtr].

Definition enum_pid_type : ctype := TEnum [
  ("PIDTYPE_PID", 0);
  ("PIDTYPE_TGID", 1);
  ("PIDTYPE_PGID", 2);
  ("PIDTYPE_SID", 3);
  ("PIDTYPE_MAX", 4)].

Definition struct_xarray : ctype := TStruct [
  fld "xa_lock" spinlock_t;
  fld "xa_flags" gfp_t;
  fld "xa_head" TPtr].

Definition rwlock_t : ctype := TStruct [
  fld "raw_lock" arch_rwlock_t].

Definition errseq_t : ctype := u32.

Definition struct_address_space : ctype := TStruct [
  fld "host" TPtr;
  fld "i_pages" struct_xarray;
  fld "invalidate_lock" struct_rw_semaphore;
  fld "gfp_mask" gfp_t;
  fld "i_mmap_writable" atomic_t;
  fld "i_mmap" struct_rb_root_cached;
  fld "nrpages" c_long;
  fld "writeback_index" c_long;
  fld "a_ops" TPtr;
  fld "flags" c_long;
  fld "i_mmap_rwsem" struct_rw_semaphore;
  fld "wb_err" errseq_t;
  fld "i_private_lock" spinlock_t;
  fld "i_private_list" struct_list_head;
  fld "i_private_data" TPtr].

Definition time64_t : ctype := __s64.

Definition struct_timespec64 : ctype := TStruct [
  fld "tv_sec" time64_t;
  fld "tv_nsec" c_long].

Definition struct_fown_struct : ctype := TStruct [
  fld "lock" rwlock_t;
  fld "pid" TPtr;
  fld "pid_type" enum_pid_type;
  fld "uid" kuid_t;
  fld "euid" kuid_t;
  fld "signum" c_int].

Definition struct_file_ra_state : ctype := TStruct [
  fld "start" c_long;
  fld "size" c_int;
  fld "async_size" c_int;
  fld "ra_pages" c_int;
  fld "mmap_miss" c_int;
  fld "prev_pos" loff_t].

Definition struct_path : ctype := TStruct [
  fld "mnt" TPtr;
  fld "dentry" TPtr].

Definition struct_file : ctype := TStruct [
  anon (TUnion [
    fld "f_task_work" struct_callback_head;
    fld "f_llist" struct_llist_node;
    fld "f_iocb_flags" c_int]);
  fld "f_lock" spinlock_t;
  fld "f_mode" fmode_t;
  fld "f_count" atomic_long_t;
  fld "f_pos_lock" struct_mutex;
  fld "f_pos" loff_t;
  fld "f_flags" c_int;
  fld "f_owner" struct_fown_struct;
  fld "f_cred" TPtr;
  fld "f_ra" struct_file_ra_state;
  fld "f_path" struct_path;
  fld "f_inode" TPtr;
  fld "f_op" TPtr;
  fld "f_version" u64;
  fld "f_security" TPtr;
  fld "private_data" TPtr;
  fld "f_ep" TPtr;
  fld "f_mapping" TPtr;
  fld "f_wb_err" errseq_t;
  fld "f_sb_err" errseq_t].

Definition struct_list_lru : ctype := TStruct [
  fld "node" TPtr;
  fld "list" struct_list_head;
  fld "shrinker_id" c_int;
  fld "memcg_aware" bool_;
  fld "xa" struct_xarray].

Definition struct_hlist_bl_head : ctype := TStruct [
  fld "first" TPtr].

Definition struct_hlist_bl_node : ctype := TStruct [
  fld "next" TPtr;
  fld "pprev" TPtr].

Definition struct_lockref : ctype := TStruct [
  anon (TUnion [
    fld "lock_count" __u64;
    anon (TStruct [
      fld "lock" spinlock_t;
      fld "count" c_int])])].

Definition struct_qstr : ctype := TStruct [
  anon (TUnion [
    anon (TStruct [
      fld "hash" u32;
      fld "len" u32]);
    fld "hash_len" u64]);
  fld "name" TPtr].

Definition struct_dentry : ctype := TStruct [
  fld "d_flags" c_int;
  fld "d_seq" seqcount_spinlock_t;
  fld "d_hash" struct_hlist_bl_node;
  fld "d_parent" TPtr;
  fld "d_name" struct_qstr;
  fld "d_inode" TPtr;
  fld "d_iname" (TArray c_char 40);
  fld "d_lockref" struct_lockref;
  fld "d_op" TPtr;
  fld "d_sb" TPtr;
  fld "d_time" c_long;
  fld "d_fsdata" TPtr;
  anon (TUnion [
    fld "d_lru" struct_list_head;
    fld "d_wait" TPtr]);
  fld "d_sib" struct_hlist_node;
  fld "d_children" struct_hlist_head;
  fld "d_u" (TUnion [
    fld "d_alias" struct_hlist_node;
    fld "d_in_lookup_hash" struct_hlist_bl_node;
    fld "d_rcu" struct_callback_head])].

Definition struct_inode : ctype := TStruct [
  fld "i_mode" umode_t;
  fld "i_opflags" c_short;
  fld "i_uid" kuid_t;
  fld "i_lru" struct_list_head;
  fld "i_gid" kgid_t;
  fld "i_flags" c_int;
  fld "i_acl" TPtr;
  fld "i_default_acl" TPtr;
  fld "i_op" TPtr;
  fld "i_sb" TPtr;
  fld "i_mapping" TPtr;
  fld "i_security" TPtr;
  fld "i_ino" c_long;
  anon (TUnion [
    fld "i_nlink" c_int;
    fld "__i_nlink" c_int]);
  fld "i_rdev" dev_t;
  fld "i_size" loff_t;
  fld "__i_atime" struct_timespec64;
  fld "__i_mtime" struct_timespec64;
  fld "__i_ctime" struct_timespec64;
  fld "i_lock" spinlock_t;
  fld "i_bytes" c_short;
  fld "i_blkbits" u8;
  fld "i_write_hint" u8;
  fld "i_blocks" blkcnt_t;
  fld "i_state" c_long;
  fld "i_rwsem" struct_rw_semaphore;
  fld "dirtied_when" c_long;
  fld "dirtied_time_when" c_long;
  fld "i_hash" struct_hlist_node;
  fld "i_io_list" struct_list_head;
  fld "i_wb" TPtr;
  fld "i_wb_frn_winner" c_int;
  fld "i_wb_frn_avg_time" u16;
  fld "i_wb_frn_history" u16;
  fld "i_sb_list" struct_list_head;
  fld "i_wb_list" struct_list_head;
  anon (TUnion [
    fld "i_dentry" struct_hlist_head;
    fld "i_rcu" struct_callback_head]);
  fld "i_version" atomic64_t;
  fld "i_sequence" atomic64_t;
  fld "i_count" atomic_t;
  fld "i_dio_count" atomic_t;
  fld "i_writecount" atomic_t;
  fld "i_readcount" atomic_t;
  anon (TUnion [
    fld "i_fop" TPtr;
    fld "free_inode" TPtr]);
  fld "i_flctx" TPtr;
  fld "i_data" struct_address_space;
  fld "i_devices" struct_list_head;
  anon (TUnion [
    fld "i_pipe" TPtr;
    fld "i_cdev" TPtr;
    fld "i_link" TPtr;
    fld "i_dir_seq" c_int]);
  fld "i_generation" __u32;
  fld "i_fsnotify_mask" __u32;
  fld "i_fsnotify_marks" TPtr;
  fld "i_crypt_info" TPtr;
  fld "i_verity_info" TPtr;
  fld "i_private" TPtr].

Definition qsize_t : ctype := c_long.

Definition struct_mem_dqinfo : ctype := TStruct [
  fld "dqi_format" TPtr;
  fld "dqi_fmt_id" c_int;
  fld "dqi_dirty_list" struct_list_head;
  fld "dqi_flags" c_long;
  fld "dqi_bgrace" c_int;
  fld "dqi_igrace" c_int;
  fld "dqi_max_spc_limit" qsize_t;
  fld "dqi_max_ino_limit" qsize_t;
  fld "dqi_priv" TPtr].

Definition struct_quota_info : ctype := TStruct [
  fld "flags" c_int;
  fld "dqio_sem" struct_rw_semaphore;
  fld "files" (TArray TPtr 3);
  fld "info" (TArray struct_mem_dqinfo 3);
  fld "ops" (TArray TPtr 3)].

Definition struct_rcu_sync : ctype := TStruct [
  fld "gp_state" c_int;
  fld "gp_count" c_int;
  fld "gp_wait" wait_queue_head_t;
  fld "cb_head" struct_callback_head].

Definition struct_percpu_rw_semaphore : ctype := TStruct [
  fld "rss" struct_rcu_sync;
  fld "read_count" TPtr;
  fld "writer" struct_rcuwait;
  fld "waiters" wait_queue_head_t;
  fld "block" atomic_t].

Definition struct_sb_writers : ctype := TStruct [
  fld "frozen" c_short;
  fld "freeze_kcount" c_int;
  fld "freeze_ucount" c_int;
  fld "rw_sem" (TArray struct_percpu_rw_semaphore 3)].

Definition uuid_t : ctype := TStruct [
  fld "b" (TArray __u8 16)].

Definition struct_super_block : ctype := TStruct [
  fld "s_list" struct_list_head;
  fld "s_dev" dev_t;
  fld "s_blocksize_bits" c_char;
  fld "s_blocksize" c_long;
  fld "s_maxbytes" loff_t;
  fld "s_type" TPtr;
  fld "s_op" TPtr;
  fld "dq_op" TPtr;
  fld "s_qcop" TPtr;
  fld "s_export_op" TPtr;
  fld "s_flags" c_long;
  fld "s_iflags" c_long;
  fld "s_magic" c_long;
  fld "s_root" TPtr;
  fld "s_umount" struct_rw_semaphore;
  fld "s_count" c_int;
  fld "s_active" atomic_t;
  fld "s_security" TPtr;
  fld "s_xattr" TPtr;
  fld "s_cop" TPtr;
  fld "s_master_keys" TPtr;
  fld "s_vop" TPtr;
  fld "s_encoding" TPtr;
  fld "s_encoding_flags" __u16;
  fld "s_roots" struct_hlist_bl_head;
  fld "s_mounts" struct_list_head;
  fld "s_bdev" TPtr;
  fld "s_bdev_handle" TPtr;
  fld "s_bdi" TPtr;
  fld "s_mtd" TPtr;
  fld "s_instances" struct_hlist_node;
  fld "s_quota_types" c_int;
  fld "s_dquot" struct_quota_info;
  fld "s_writers" struct_sb_writers;
  fld "s_fs_info" TPtr;
  fld "s_time_gran" u32;
  fld "s_time_min" time64_t;
  fld "s_time_max" time64_t;
  fld "s_fsnotify_mask" __u32;
  fld "s_fsnotify_marks" TPtr;
  fld "s_id" (TArray c_char 32);
  fld "s_uuid" uuid_t;
  fld "s_max_links" c_int;
  fld "s_vfs_rename_mutex" struct_mutex;
  fld "s_subtype" TPtr;
  fld "s_d_op" TPtr;
  fld "s_shrink" TPtr;
  fld "s_remove_count" atomic_long_t;
  fld "s_fsnotify_connectors" atomic_long_t;
  fld "s_readonly_remount" c_int;
  fld "s_wb_err" errseq_t;
  fld "s_dio_done_wq" TPtr;
  fld "s_pins" struct_hlist_head;
  fld "s_user_ns" TPtr;
  fld "s_dentry_lru" struct_list_lru;
  fld "s_inode_lru" struct_list_lru;
  fld "rcu" struct_callback_head;
  fld "destroy_work" struct_work_struct;
  fld "s_sync_lock" struct_mutex;
  fld "s_stack_depth" c_int;
  pad 64 c_long;
  pad 64 c_long;
  pad 64 c_long;
  pad 64 c_long;
  pad 64 c_long;
  fld "s_inode_list_lock" spinlock_t;
  fld "s_inodes" struct_list_head;
  fld "s_inode_wblist_lock" spinlock_t;
  fld "s_inodes_wb" struct_list_head;
  pad 64 c_long;
  pad 64 c_long].

Definition struct_trace_entry : ctype := TStruct [
  fld "type" c_short;
  fld "flags" c_char;
  fld "preempt_count" c_char;
  fld "pid" c_int].

Definition __be16 : ctype := __u16.

Definition __be32 : ctype := __u32.

Definition struct_in6_addr : ctype := TStruct [
  fld "in6_u" (TUnion [
    fld "u6_addr8" (TArray __u8 16);
    fld "u6_addr16" (TArray __be16 8);
    fld "u6_addr32" (TArray __be32 4)])].

Definition enum_bpf_prog_type : ctype := TEnum [
  ("BPF_PROG_TYPE_UNSPEC", 0);
  ("BPF_PROG_TYPE_SOCKET_FILTER", 1);
  ("BPF_PROG_TYPE_KPROBE", 2);
  ("BPF_PROG_TYPE_SCHED_CLS", 3);
  ("BPF_PROG_TYPE_SCHED_ACT", 4);
  ("BPF_PROG_TYPE_TRACEPOINT", 5);
  ("BPF_PROG_TYPE_XDP", 6);
  ("BPF_PROG_TYPE_PERF_EVENT", 7);
  ("BPF_PROG_TYPE_CGROUP_SKB", 8);
  ("BPF_PROG_TYPE_CGROUP_SOCK", 9);
  ("BPF_PROG_TYPE_LWT_IN", 10);
  ("BPF_PROG_TYPE_LWT_OUT", 11);
  ("BPF_PROG_TYPE_LWT_XMIT", 12);
  ("BPF_PROG_TYPE_SOCK_OPS", 13);
  ("BPF_PROG_TYPE_SK_SKB", 14);
  ("BPF_PROG_TYPE_CGROUP_DEVICE", 15);
  ("BPF_PROG_TYPE_SK_MSG", 16);
  ("BPF_PROG_TYPE_RAW_TRACEPOINT", 17);
  ("BPF_PROG_TYPE_CGROUP_SOCK_ADDR", 18);
  ("BPF_PROG_TYPE_LWT_SEG6LOCAL", 19);
  ("BPF_PROG_TYPE_LIRC_MODE2", 20);
  ("BPF_PROG_TYPE_SK_REUSEPORT", 21);
  ("BPF_PROG_TYPE_FLOW_DISSECTOR", 22);
  ("BPF_PROG_TYPE_CGROUP_SYSCTL", 23);
  ("BPF_PROG_TYPE_RAW_TRACEPOINT_WRITABLE", 24);
  ("BPF_PROG_TYPE_CGROUP_SOCKOPT", 25);
  ("BPF_PROG_TYPE_TRACING", 26);
  ("BPF_PROG_TYPE_STRUCT_OPS", 27);
  ("BPF_PROG_TYPE_EXT", 28);
  ("BPF_PROG_TYPE_LSM", 29);
  ("BPF_PROG_TYPE_SK_LOOKUP", 30);
  ("BPF_PROG_TYPE_SYSCALL", 31);
  ("BPF_PROG_TYPE_NETFILTER", 32)].

Definition enum_bpf_attach_type : ctype := TEnum [
  ("BPF_CGROUP_INET_INGRESS", 0);
  ("BPF_CGROUP_INET_EGRESS", 1);
  ("BPF_CGROUP_INET_SOCK_CREATE", 2);
  ("BPF_CGROUP_SOCK_OPS", 3);
  ("BPF_SK_SKB_STREAM_PARSER", 4);
  ("BPF_SK_SKB_STREAM_VERDICT", 5);
  ("BPF_CGROUP_DEVICE", 6);
  ("BPF_SK_MSG_VERDICT", 7);
  ("BPF_CGROUP_INET4_BIND", 8);
  ("BPF_CGROUP_INET6_BIND", 9);
  ("BPF_CGROUP_INET4_CONNECT", 10);
  ("BPF_CGROUP_INET6_CONNECT", 11);
  ("BPF_CGROUP_INET4_POST_BIND", 12);
  ("BPF_CGROUP_INET6_POST_BIND", 13);
  ("BPF_CGROUP_UDP4_SENDMSG", 14);
  ("BPF_CGROUP_UDP6_SENDMSG", 15);
  ("BPF_LIRC_MODE2", 16);
  ("BPF_FLOW_DISSECTOR", 17);
  ("BPF_CGROUP_SYSCTL", 18);
  ("BPF_CGROUP_UDP4_RECVMSG", 19);
  ("BPF_CGROUP_UDP6_RECVMSG", 20);
  ("BPF_CGROUP_GETSOCKOPT", 21);
  ("BPF_CGROUP_SETSOCKOPT", 22);
  ("BPF_TRACE_RAW_TP", 23);
  ("BPF_TRACE_FENTRY", 24);
  ("BPF_TRACE_FEXIT", 25);
  ("BPF_MODIFY_RETURN", 26);
  ("BPF_LSM_MAC", 27);
  ("BPF_TRACE_ITER", 28);
  ("BPF_CGROUP_INET4_GETPEERNAME", 29);
  ("BPF_CGROUP_INET6_GETPEERNAME", 30);
  ("BPF_CGROUP_INET4_GETSOCKNAME", 31);
  ("BPF_CGROUP_INET6_GETSOCKNAME", 32);
  ("BPF_XDP_DEVMAP", 33);
  ("BPF_CGROUP_INET_SOCK_RELEASE", 34);
  ("BPF_XDP_CPUMAP", 35);
  ("BPF_SK_LOOKUP", 36);
  ("BPF_XDP", 37);
  ("BPF_SK_SKB_VERDICT", 38);
  ("BPF_SK_REUSEPORT_SELECT", 39);
  ("BPF_SK_REUSEPORT_SELECT_OR_MIGRATE", 40);
  ("BPF_PERF_EVENT", 41);
  ("BPF_TRACE_KPROBE_MULTI", 42);
  ("BPF_LSM_CGROUP", 43);
  ("BPF_STRUCT_OPS", 44);
  ("BPF_NETFILTER", 45);
  ("BPF_TCX_INGRESS", 46);
  ("BPF_TCX_EGRESS", 47);
  ("BPF_TRACE_UPROBE_MULTI", 48);
  ("BPF_CGROUP_UNIX_CONNECT", 49);
  ("BPF_CGROUP_UNIX_SENDMSG", 50);
  ("BPF_CGROUP_UNIX_RECVMSG", 51);
  ("BPF_CGROUP_UNIX_GETPEERNAME", 52);
  ("BPF_CGROUP_UNIX_GETSOCKNAME", 53);
  ("BPF_NETKIT_PRIMARY", 54);
  ("BPF_NETKIT_PEER", 55);
  ("__MAX_BPF_ATTACH_TYPE", 56)].

Definition enum_bpf_map_type : ctype := TEnum [
  ("BPF_MAP_TYPE_UNSPEC", 0);
  ("BPF_MAP_TYPE_HASH", 1);
  ("BPF_MAP_TYPE_ARRAY", 2);
  ("BPF_MAP_TYPE_PROG_ARRAY", 3);
  ("BPF_MAP_TYPE_PERF_EVENT_ARRAY", 4);
  ("BPF_MAP_TYPE_PERCPU_HASH", 5);
  ("BPF_MAP_TYPE_PERCPU_ARRAY", 6);
  ("BPF_MAP_TYPE_STACK_TRACE", 7);
  ("BPF_MAP_TYPE_CGROUP_ARRAY", 8);
  ("BPF_MAP_TYPE_LRU_HASH", 9);
  ("BPF_MAP_TYPE_LRU_PERCPU_HASH", 10);
  ("BPF_MAP_TYPE_LPM_TRIE", 11);
  ("BPF_MAP_TYPE_ARRAY_OF_MAPS", 12);
  ("BPF_MAP_TYPE_HASH_OF_MAPS", 13);
  ("BPF_MAP_TYPE_DEVMAP", 14);
  ("BPF_MAP_TYPE_SOCKMAP", 15);
  ("BPF_MAP_TYPE_CPUMAP", 16);
  ("BPF_MAP_TYPE_XSKMAP", 17);
  ("BPF_MAP_TYPE_SOCKHASH", 18);
  ("BPF_MAP_TYPE_CGROUP_STORAGE_DEPRECATED", 19);
  ("BPF_MAP_TYPE_CGROUP_STORAGE", 19);
  ("BPF_MAP_TYPE_REUSEPORT_SOCKARRAY", 20);
  ("BPF_MAP_TYPE_PERCPU_CGROUP_STORAGE_DEPRECATED", 21);
  ("BPF_MAP_TYPE_PERCPU_CGROUP_STORAGE", 21);
  ("BPF_MAP_TYPE_QUEUE", 22);
  ("BPF_MAP_TYPE_STACK", 23);
  ("BPF_MAP_TYPE_SK_STORAGE", 24);
  ("BPF_MAP_TYPE_DEVMAP_HASH", 25);
  ("BPF_MAP_TYPE_STRUCT_OPS", 26);
  ("BPF_MAP_TYPE_RINGBUF", 27);
  ("BPF_MAP_TYPE_INODE_STORAGE", 28);
  ("BPF_MAP_TYPE_TASK_STORAGE", 29);
  ("BPF_MAP_TYPE_BLOOM_FILTER", 30);
  ("BPF_MAP_TYPE_USER_RINGBUF", 31);
  ("BPF_MAP_TYPE_CGRP_STORAGE", 32)].

Definition __kernel_sa_family_t : ctype := c_short.

Definition sa_family_t : ctype := __kernel_sa_family_t.

Definition struct_sockaddr : ctype := TStruct [
  fld "sa_family" sa_family_t;
  anon (TUnion [
    fld "sa_data_min" (TArray c_char 14);
    anon (TStruct [
      fld "__empty_sa_data" (TStruct []);
      fld "sa_data" (TArray c_char 0)])])].

Definition socket_state : ctype := TEnum [
  ("SS_FREE", 0);
  ("SS_UNCONNECTED", 1);
  ("SS_CONNECTING", 2);
  ("SS_CONNECTED", 3);
  ("SS_DISCONNECTING", 4)].

Definition struct_socket_wq : ctype := TStruct [
  fld "wait" wait_queue_head_t;
  fld "fasync_list" TPtr;
  fld "flags" c_long;
  fld "rcu" struct_callback_head;
  pad 64 c_long].

Definition struct_socket : ctype := TStruct [
  fld "state" socket_state;
  fld "type" c_short;
  fld "flags" c_long;
  fld "file" TPtr;
  fld "sk" TPtr;
  fld "ops" TPtr;
  pad 64 c_long;
  pad 64 c_long;
  pad 64 c_long;
  fld "wq" struct_socket_wq].

Definition struct_trace_event_raw_sched_process_template : ctype := TStruct [
  fld "ent" struct_trace_entry;
  fld "comm" (TArray c_char 16);
  fld "pid" pid_t;
  fld "prio" c_int;
  fld "__data" (TArray c_char 0)].

Definition struct_trace_event_raw_sched_process_fork : ctype := TStruct [
  fld "ent" struct_trace_entry;
  fld "parent_comm" (TArray c_char 16);
  fld "parent_pid" pid_t;
  fld "child_comm" (TArray c_char 16);
  fld "child_pid" pid_t;
  fld "__data" (TArray c_char 0)].

Definition struct_trace_event_raw_sched_process_exec : ctype := TStruct [
  fld "ent" struct_trace_entry;
  fld "__data_loc_filename" u32;
  fld "pid" pid_t;
  fld "old_pid" pid_t;
  fld "__data" (TArray c_char 0)].

Definition bpf_func_id_constants_1 : list (string * Z) := [
  ("BPF_FUNC_unspec", 0);
  ("BPF_FUNC_map_lookup_elem", 1);
  ("BPF_FUNC_map_update_elem", 2);
  ("BPF_FUNC_map_delete_elem", 3);
  ("BPF_FUNC_probe_read", 4);
  ("BPF_FUNC_ktime_get_ns", 5);
  ("BPF_FUNC_trace_printk", 6);
  ("BPF_FUNC_get_prandom_u32", 7);
  ("BPF_FUNC_get_smp_processor_id", 8);
  ("BPF_FUNC_skb_store_bytes", 9);
  ("BPF_FUNC_l3_csum_replace", 10);
  ("BPF_FUNC_l4_csum_replace", 11);
  ("BPF_FUNC_tail_call", 12);
  ("BPF_FUNC_clone_redirect", 13);
  ("BPF_FUNC_get_current_pid_tgid", 14);
  ("BPF_FUNC_get_current_uid_gid", 15);
  ("BPF_FUNC_get_current_comm", 16);
  ("BPF_FUNC_get_cgroup_classid", 17);
  ("BPF_FUNC_skb_vlan_push", 18);
  ("BPF_FUNC_skb_vlan_pop", 19);
  ("BPF_FUNC_skb_get_tunnel_key", 20);
  ("BPF_FUNC_skb_set_tunnel_key", 21);
  ("BPF_FUNC_perf_event_read", 22);
  ("BPF_FUNC_redirect", 23);
  ("BPF_FUNC_get_route_realm", 24);
  ("BPF_FUNC_perf_event_output", 25);
  ("BPF_FUNC_skb_load_bytes", 26);
  ("BPF_FUNC_get_stackid", 27);
  ("BPF_FUNC_csum_diff", 28);
  ("BPF_FUNC_skb_get_tunnel_opt", 29);
  ("BPF_FUNC_skb_set_tunnel_opt", 30);
  ("BPF_FUNC_skb_change_proto", 31);
  ("BPF_FUNC_skb_change_type", 32);
  ("BPF_FUNC_skb_under_cgroup", 33);
  ("BPF_FUNC_get_hash_recalc", 34);
  ("BPF_FUNC_get_current_task", 35);
  ("BPF_FUNC_probe_write_user", 36);
  ("BPF_FUNC_current_task_under_cgroup", 37);
  ("BPF_FUNC_skb_change_tail", 38);
  ("BPF_FUNC_skb_pull_data", 39);
  ("BPF_FUNC_csum_update", 40);
  ("BPF_FUNC_set_hash_invalid", 41);
  ("BPF_FUNC_get_numa_node_id", 42);
  ("BPF_FUNC_skb_change_head", 43);
  ("BPF_FUNC_xdp_adjust_head", 44);
  ("BPF_FUNC_probe_read_str", 45);
  ("BPF_FUNC_get_socket_cookie", 46);
  ("BPF_FUNC_get_socket_uid", 47);
  ("BPF_FUNC_set_hash", 48);
  ("BPF_FUNC_setsockopt", 49);
  ("BPF_FUNC_skb_adjust_room", 50);
  ("BPF_FUNC_redirect_map", 51);
  ("BPF_FUNC_sk_redirect_map", 52);
  ("BPF_FUNC_sock_map_update", 53);
  ("BPF_FUNC_xdp_adjust_meta", 54);
  ("BPF_FUNC_perf_event_read_value", 55);
  ("BPF_FUNC_perf_prog_read_value", 56);
  ("BPF_FUNC_getsockopt", 57);
  ("BPF_FUNC_override_return", 58);
  ("BPF_FUNC_sock_ops_cb_flags_set", 59);
  ("BPF_FUNC_msg_redirect_map", 60);
  ("BPF_FUNC_msg_apply_bytes", 61);
  ("BPF_FUNC_msg_cork_bytes", 62);
  ("BPF_FUNC_msg_pull_data", 63);
  ("BPF_FUNC_bind", 64);
  ("BPF_FUNC_xdp_adjust_tail", 65);
  ("BPF_FUNC_skb_get_xfrm_state", 66);
  ("BPF_FUNC_get_stack", 67);
  ("BPF_FUNC_skb_load_bytes_relative", 68);
  ("BPF_FUNC_fib_lookup", 69);
  ("BPF_FUNC_sock_hash_update", 70);
  ("BPF_FUNC_msg_redirect_hash", 71);
  ("BPF_FUNC_sk_redirect_hash", 72);
  ("BPF_FUNC_lwt_push_encap", 73);
  ("BPF_FUNC_lwt_seg6_store_bytes", 74);
  ("BPF_FUNC_lwt_seg6_adjust_srh", 75);
  ("BPF_FUNC_lwt_seg6_action", 76);
  ("BPF_FUNC_rc_repeat", 77);
  ("BPF_FUNC_rc_keydown", 78);
  ("BPF_FUNC_skb_cgroup_id", 79);
  ("BPF_FUNC_get_current_cgroup_id", 80);
  ("BPF_FUNC_get_local_storage", 81);
  ("BPF_FUNC_sk_select_reuseport", 82);
  ("BPF_FUNC_skb_ancestor_cgroup_id", 83);
  ("BPF_FUNC_sk_lookup_tcp", 84);
  ("BPF_FUNC_sk_lookup_udp", 85);
  ("BPF_FUNC_sk_release", 86);
  ("BPF_FUNC_map_push_elem", 87);
  ("BPF_FUNC_map_pop_elem", 88);
  ("BPF_FUNC_map_peek_elem", 89);
  ("BPF_FUNC_msg_push_data", 90);
  ("BPF_FUNC_msg_pop_data", 91);
  ("BPF_FUNC_rc_pointer_rel", 92);
  ("BPF_FUNC_spin_lock", 93);
  ("BPF_FUNC_spin_unlock", 94);
  ("BPF_FUNC_sk_fullsock", 95);
  ("BPF_FUNC_tcp_sock", 96);
  ("BPF_FUNC_skb_ecn_set_ce", 97);
  ("BPF_FUNC_get_listener_sock", 98);
  ("BPF_FUNC_skc_lookup_tcp", 99);
  ("BPF_FUNC_tcp_check_syncookie", 100);
  ("BPF_FUNC_sysctl_get_name", 101);
  ("BPF_FUNC_sysctl_get_current_value", 102);
  ("BPF_FUNC_sysctl_get_new_value", 103);
  ("BPF_FUNC_sysctl_set_new_value", 104);
  ("BPF_FUNC_strtol", 105);
  ("BPF_FUNC_strtoul", 106);
  ("BPF_FUNC_sk_storage_get", 107);
  ("BPF_FUNC_sk_storage_delete", 108);
  ("BPF_FUNC_send_signal", 109)].

Definition bpf_func_id_constants_2 : list (string * Z) := [
  ("BPF_FUNC_tcp_gen_syncookie", 110);
  ("BPF_FUNC_skb_output", 111);
  ("BPF_FUNC_probe_read_user", 112);
  ("BPF_FUNC_probe_read_kernel", 113);
  ("BPF_FUNC_probe_read_user_str", 114);
  ("BPF_FUNC_probe_read_kernel_str", 115);
  ("BPF_FUNC_tcp_send_ack", 116);
  ("BPF_FUNC_send_signal_thread", 117);
  ("BPF_FUNC_jiffies64", 118);
  ("BPF_FUNC_read_branch_records", 119);
  ("BPF_FUNC_get_ns_current_pid_tgid", 120);
  ("BPF_FUNC_xdp_output", 121);
  ("BPF_FUNC_get_netns_cookie", 122);
  ("BPF_FUNC_get_current_ancestor_cgroup_id", 123);
  ("BPF_FUNC_sk_assign", 124);
  ("BPF_FUNC_ktime_get_boot_ns", 125);
  ("BPF_FUNC_seq_printf", 126);
  ("BPF_FUNC_seq_write", 127);
  ("BPF_FUNC_sk_cgroup_id", 128);
  ("BPF_FUNC_sk_ancestor_cgroup_id", 129);
  ("BPF_FUNC_ringbuf_output", 130);
  ("BPF_FUNC_ringbuf_reserve", 131);
  ("BPF_FUNC_ringbuf_submit", 132);
  ("BPF_FUNC_ringbuf_discard", 133);
  ("BPF_FUNC_ringbuf_query", 134);
  ("BPF_FUNC_csum_level", 135);
  ("BPF_FUNC_skc_to_tcp6_sock", 136);
  ("BPF_FUNC_skc_to_tcp_sock", 137);
  ("BPF_FUNC_skc_to_tcp_timewait_sock", 138);
  ("BPF_FUNC_skc_to_tcp_request_sock", 139);
  ("BPF_FUNC_skc_to_udp6_sock", 140);
  ("BPF_FUNC_get_task_stack", 141);
  ("BPF_FUNC_load_hdr_opt", 142);
  ("BPF_FUNC_store_hdr_opt", 143);
  ("BPF_FUNC_reserve_hdr_opt", 144);
  ("BPF_FUNC_inode_storage_get", 145);
  ("BPF_FUNC_inode_storage_delete", 146);
  ("BPF_FUNC_d_path", 147);
  ("BPF_FUNC_copy_from_user", 148);
  ("BPF_FUNC_snprintf_btf", 149);
  ("BPF_FUNC_seq_printf_btf", 150);
  ("BPF_FUNC_skb_cgroup_classid", 151);
  ("BPF_FUNC_redirect_neigh", 152);
  ("BPF_FUNC_per_cpu_ptr", 153);
  ("BPF_FUNC_this_cpu_ptr", 154);
  ("BPF_FUNC_redirect_peer", 155);
  ("BPF_FUNC_task_storage_get", 156);
  ("BPF_FUNC_task_storage_delete", 157);
  ("BPF_FUNC_get_current_task_btf", 158);
  ("BPF_FUNC_bprm_opts_set", 159);
  ("BPF_FUNC_ktime_get_coarse_ns", 160);
  ("BPF_FUNC_ima_inode_hash", 161);
  ("BPF_FUNC_sock_from_file", 162);
  ("BPF_FUNC_check_mtu", 163);
  ("BPF_FUNC_for_each_map_elem", 164);
  ("BPF_FUNC_snprintf", 165);
  ("BPF_FUNC_sys_bpf", 166);
  ("BPF_FUNC_btf_find_by_name_kind", 167);
  ("BPF_FUNC_sys_close", 168);
  ("BPF_FUNC_timer_init", 169);
  ("BPF_FUNC_timer_set_callback", 170);
  ("BPF_FUNC_timer_start", 171);
  ("BPF_FUNC_timer_cancel", 172);
  ("BPF_FUNC_get_func_ip", 173);
  ("BPF_FUNC_get_attach_cookie", 174);
  ("BPF_FUNC_task_pt_regs", 175);
  ("BPF_FUNC_get_branch_snapshot", 176);
  ("BPF_FUNC_trace_vprintk", 177);
  ("BPF_FUNC_skc_to_unix_sock", 178);
  ("BPF_FUNC_kallsyms_lookup_name", 179);
  ("BPF_FUNC_find_vma", 180);
  ("BPF_FUNC_loop", 181);
  ("BPF_FUNC_strncmp", 182);
  ("BPF_FUNC_get_func_arg", 183);
  ("BPF_FUNC_get_func_ret", 184);
  ("BPF_FUNC_get_func_arg_cnt", 185);
  ("BPF_FUNC_get_retval", 186);
  ("BPF_FUNC_set_retval", 187);
  ("BPF_FUNC_xdp_get_buff_len", 188);
  ("BPF_FUNC_xdp_load_bytes", 189);
  ("BPF_FUNC_xdp_store_bytes", 190);
  ("BPF_FUNC_copy_from_user_task", 191);
  ("BPF_FUNC_skb_set_tstamp", 192);
  ("BPF_FUNC_ima_file_hash", 193);
  ("BPF_FUNC_kptr_xchg", 194);
  ("BPF_FUNC_map_lookup_percpu_elem", 195);
  ("BPF_FUNC_skc_to_mptcp_sock", 196);
  ("BPF_FUNC_dynptr_from_mem", 197);
  ("BPF_FUNC_ringbuf_reserve_dynptr", 198);
  ("BPF_FUNC_ringbuf_submit_dynptr", 199);
  ("BPF_FUNC_ringbuf_discard_dynptr", 200);
  ("BPF_FUNC_dynptr_read", 201);
  ("BPF_FUNC_dynptr_write", 202);
  ("BPF_FUNC_dynptr_data", 203);
  ("BPF_FUNC_tcp_raw_gen_syncookie_ipv4", 204);
  ("BPF_FUNC_tcp_raw_gen_syncookie_ipv6", 205);
  ("BPF_FUNC_tcp_raw_check_syncookie_ipv4", 206);
  ("BPF_FUNC_tcp_raw_check_syncookie_ipv6", 207);
  ("BPF_FUNC_ktime_get_tai_ns", 208);
  ("BPF_FUNC_user_ringbuf_drain", 209);
  ("BPF_FUNC_cgrp_storage_get", 210);
  ("BPF_FUNC_cgrp_storage_delete", 211);
  ("__BPF_FUNC_MAX_ID", 212)].

Definition enum_bpf_func_id : ctype := TEnum (bpf_func_id_constants_1 ++ bpf_func_id_constants_2).

Definition struct_sockaddr_in6 : ctype := TStruct [
  fld "sin6_family" c_short;
  fld "sin6_port" __be16;
  fld "sin6_flowinfo" __be32;
  fld "sin6_addr" struct_in6_addr;
  fld "sin6_scope_id" __u32].

Definition struct_in_addr : ctype := TStruct [
  fld "s_addr" __be32].

Definition struct_sockaddr_in : ctype := TStruct [
  fld "sin_family" __kernel_sa_family_t;
  fld "sin_port" __be16;
  fld "sin_addr" struct_in_addr;
  fld "__pad" (TArray c_char 8)].

Definition struct_bpf_lpm_trie_key_hdr : ctype := TStruct [
  fld "prefixlen" __u32].

Definition struct_bpf_lpm_trie_key_u8 : ctype := TStruct [
  anon (TUnion [
    fld "hdr" struct_bpf_lpm_trie_key_hdr;
    fld "prefixlen" __u32]);
  fld "data" (TArray __u8 0)].

Definition struct_trace_event_raw_sys_enter : ctype := TStruct [
  fld "ent" struct_trace_entry;
  fld "id" c_long;
  fld "args" (TArray c_long 6);
  fld "__data" (TArray c_char 0)].

Definition struct_bpf_sock_addr : ctype := TStruct [
  fld "user_family" __u32;
  fld "user_ip4" __u32;
  fld "user_ip6" (TArray __u32 4);
  fld "user_port" __u32;
  fld "family" __u32;
  fld "type" __u32;
  fld "protocol" __u32;
  fld "msg_src_ip4" __u32;
  fld "msg_src_ip6" (TArray __u32 4);
  anon (TUnion [
    fld "sk" TPtr])].

Definition enum_bpf_update_flags : ctype := TEnum [
  ("BPF_ANY", 0);
  ("BPF_NOEXIST", 1);
  ("BPF_EXIST", 2);
  ("BPF_F_LOCK", 4)].

Definition enum_bpf_map_flags : ctype := TEnum [
  ("BPF_F_NO_PREALLOC", 1);
  ("BPF_F_NO_COMMON_LRU", 2);
  ("BPF_F_NUMA_NODE", 4);
  ("BPF_F_RDONLY", 8);
  ("BPF_F_WRONLY", 16);
  ("BPF_F_STACK_BUILD_ID", 32);
  ("BPF_F_ZERO_SEED", 64);
  ("BPF_F_RDONLY_PROG", 128);
  ("BPF_F_WRONLY_PROG", 256);
  ("BPF_F_CLONE", 512);
  ("BPF_F_MMAPABLE", 1024);
  ("BPF_F_PRESERVE_ELEMS", 2048);
  ("BPF_F_INNER_MAP", 4096);
  ("BPF_F_LINK", 8192);
  ("BPF_F_PATH_FD", 16384)].
