(* ===== verification/Types.v ===== *)
(** * Types: the data of the two BPF programs

    The structs and constants of [agent/bpf/enforcer.bpf.c] and
    [agent/bpf/enroll.bpf.c], and of the kernel types of [agent/bpf/vmlinux.h]
    the fields the programs read.  Integers are [Z] (each at the width of its C
    field), [char] buffers are byte lists, structs are records; struct fields
    carry a short prefix because Rocq fields share one name space. *)

From S2P Require Import Prelude.

(** ** Constants *)

Definition MAX_PATH : Z := 256.
Definition EPERM : Z := 13.

Definition AF_INET : Z := 2.
Definition AF_INET6 : Z := 10.

Definition O_ACCMODE : Z := 3.
Definition AT_EMPTY_PATH : Z := 0x1000.

Definition VERDICT_OPEN : Z := 1.
Definition VERDICT_UNLINK : Z := 2.
Definition VERDICT_RENAME : Z := 3.
Definition VERDICT_CONNECT : Z := 4.
Definition VERDICT_WRITE : Z := 5.

Definition MAP_DECISION_ALLOW : Z := 1.
Definition MAP_DECISION_DENY : Z := 2.

Definition EVENT_EXEC : Z := 1.
Definition EVENT_FORK : Z := 2.
Definition EVENT_EXIT : Z := 3.
Definition EVENT_CONNECT : Z := 4.
Definition EVENT_OPEN : Z := 5.
Definition EVENT_UNLINK : Z := 6.
Definition EVENT_RENAME : Z := 7.

Definition MAX_FILENAME : Z := 256.
Definition MAX_ARGV : Z := 512.
Definition MAX_ENV : Z := 512.
Definition EVENT_HEADER_SIZE : nat := 64.
Definition ACTION_DETAIL_SIZE : nat := 24.
Definition EVENT_RECORD_SIZE : nat := 64 + 256 + 512 + 512.
Definition ACTION_RECORD_SIZE : nat := 64 + 24 + 256 + 256.

Definition STAT_FILE_OPEN : Z := 0.
Definition STAT_GATE_PASS : Z := 1.
Definition STAT_OPENAT_FMOD : Z := 2.
Definition STAT_OPENAT_DENY : Z := 3.
Definition STAT_CONNECT_FMOD : Z := 4.
Definition STAT_CONNECT_DENY : Z := 5.
Definition STAT_CGROUP_CONNECT : Z := 6.
Definition STAT_UNLINKAT_FMOD : Z := 7.
Definition STAT_UNLINKAT_DENY : Z := 8.
Definition STAT_RENAMEAT_FMOD : Z := 9.
Definition STAT_RENAMEAT_DENY : Z := 10.
Definition STAT_ENFORCE_MAX : Z := 11.

(** ** Policy data (enforcer.bpf.c) *)

Record policy_ctrl := mk_policy_ctrl {
  enforcement_active : Z; (* u8 *)
  fail_closed : Z;        (* u8 *)
  default_deny : Z;       (* u8 *)
  pc_pad : Z;             (* u8 *)
  policy_version : Z      (* u32 *)
}.

Record lpm_key := mk_lpm_key {
  prefixlen : Z;          (* u32, in bits *)
  data : list Z           (* u8[MAX_PATH] *)
}.

Record path_rule := mk_path_rule {
  decision : Z;           (* u8, MAP_DECISION_* *)
  action_mask : Z;        (* u8, bit (verdict - 1) per VERDICT_* *)
  requires_port : Z;      (* u8 *)
  rule_id_hash : Z;       (* u32 *)
  specificity : Z         (* u32 *)
}.

Record port_rule := mk_port_rule {
  pt_decision : Z;        (* u8 *)
  pt_action : Z;          (* u8 *)
  requires_ip : Z;        (* u8 *)
  pt_rule_id_hash : Z     (* u32 *)
}.

Record inode_key := mk_inode_key {
  ino : Z;                (* u64 *)
  dev : Z;                (* u32 *)
  ik_pad : Z              (* u32 *)
}.

#[global] Instance inode_key_eq_dec : EqDecision inode_key.
Proof. solve_decision. Defined.
#[global] Instance inode_key_countable : Countable inode_key.
Proof.
  apply (inj_countable' (fun k => (ino k, dev k, ik_pad k))
           (fun '(a, b, c) => mk_inode_key a b c)).
  by intros [].
Defined.

(** Byte layout of [struct deny_verdict]: 292 bytes of fields, padded to the
    8-byte alignment of [timestamp_ns]. *)
Module deny_verdict.
Definition timestamp_ns : field := Field 0 8.
Definition pid : field := Field 8 4.
Definition rule_id_hash : field := Field 12 4.
Definition action : field := Field 16 1.
Definition dest_ip_len : field := Field 17 1.
Definition dest_port : field := Field 18 2.
Definition dest_ip : nat := 20.
Definition path : nat := 36.
Definition size : nat := 296.
End deny_verdict.

(** ** Staged syscall arguments (both files declare them) *)

Record pending_open := mk_pending_open {
  po_len : Z;             (* u16 *)
  open_flags : Z;         (* u16 *)
  po_path : list Z        (* char[MAX_PATH] *)
}.

Record pending_connect := mk_pending_connect {
  port : Z;               (* u16 *)
  ip_len : Z;             (* u8 *)
  pcn_pad : Z;            (* u8 *)
  ip : list Z             (* u8[16] *)
}.

Record pending_rename := mk_pending_rename {
  old_len : Z;            (* u16 *)
  new_len : Z;            (* u16 *)
  old_path : list Z;      (* char[MAX_PATH] *)
  new_path : list Z       (* char[MAX_PATH] *)
}.

(** The zero-initialised values ([= {}], and fresh per-CPU array entries). *)
Definition pending_open0 : pending_open := mk_pending_open 0 0 (zeros 256).
Definition pending_connect0 : pending_connect := mk_pending_connect 0 0 0 (zeros 16).
Definition pending_rename0 : pending_rename := mk_pending_rename 0 0 (zeros 256) (zeros 256).
Definition lpm_key0 : lpm_key := mk_lpm_key 0 (zeros 256).

(** ** User-memory socket addresses *)

Record sockaddr_in_simple := mk_sockaddr_in {
  sin_family : Z;         (* u16 *)
  sin_port : Z;           (* be16, as loaded on a little-endian CPU *)
  sin_addr : list Z       (* be32, its 4 bytes *)
}.

Record sockaddr_in6_simple := mk_sockaddr_in6 {
  sin6_family : Z;
  sin6_port : Z;
  sin6_flowinfo : Z;
  sin6_addr : list Z;     (* u8[16] *)
  sin6_scope_id : Z
}.

Definition sizeof_sockaddr_in : nat := 8.
Definition sizeof_sockaddr_in6 : nat := 28.

Definition sockaddr_in_of_bytes (bs : list Z) : sockaddr_in_simple :=
  mk_sockaddr_in (load (Field 0 2) bs) (load (Field 2 2) bs) (slice 4 4 bs).

Definition sockaddr_in6_of_bytes (bs : list Z) : sockaddr_in6_simple :=
  mk_sockaddr_in6 (load (Field 0 2) bs) (load (Field 2 2) bs) (load (Field 4 4) bs)
    (slice 8 16 bs) (load (Field 24 4) bs).

(** ** The event record header and action detail (enroll.bpf.c) *)

Module enroll_event.
Definition timestamp_ns : field := Field 0 8.
Definition start_time_ns : field := Field 8 8.
Definition cgroup_id : field := Field 16 8.
Definition pid : field := Field 24 4.
Definition ppid : field := Field 28 4.
Definition uid : field := Field 32 4.
Definition event_type : field := Field 36 1.
Definition argv_len : field := Field 38 2.
Definition env_len : field := Field 40 2.
Definition filename_len : field := Field 42 2.
Definition comm : nat := 44.
End enroll_event.

(** Offsets are from the start of the record: the detail follows the header. *)
Module action_detail.
Definition family : field := Field 64 1.
Definition dport : field := Field 66 2.
Definition open_flags : field := Field 68 4.
Definition addr : nat := 72.
End action_detail.

#[export] Hint Unfold enroll_event.comm action_detail.addr deny_verdict.dest_ip deny_verdict.path
  deny_verdict.size EVENT_HEADER_SIZE ACTION_DETAIL_SIZE EVENT_RECORD_SIZE ACTION_RECORD_SIZE : layout.

#[export] Hint Unfold enroll_event.timestamp_ns enroll_event.start_time_ns
  enroll_event.cgroup_id enroll_event.pid enroll_event.ppid enroll_event.uid
  enroll_event.event_type enroll_event.argv_len enroll_event.env_len enroll_event.filename_len
  action_detail.family action_detail.dport action_detail.open_flags : layout.

(** Arithmetic on record sizes and offsets. *)
Ltac layout_lia := autounfold with layout in *; cbn [f_off f_width snd fst] in *; lia.

(** ** Kernel types (vmlinux.h), the fields the programs read *)

Record mm_struct := mk_mm {
  arg_start : Z; arg_end : Z; env_start : Z; env_end : Z
}.

(** Pointers to other tasks are kernel addresses, 0 is NULL. *)
Record task_struct := mk_task {
  tgid : Z;
  real_parent : Z;
  start_time : Z;
  mm : option mm_struct
}.

Record super_block := mk_super_block { s_dev : Z }.
Record inode := mk_inode { i_sb : option super_block; i_ino : Z }.
Record file := mk_file { f_flags : Z; f_inode : option inode }.

Record bpf_sock_addr := mk_bpf_sock_addr {
  user_ip4 : Z;           (* u32, network byte order *)
  user_ip6 : list Z;      (* u32[4], network byte order *)
  user_port : Z           (* u32, network byte order *)
}.

Record trace_event_raw_sched_process_exec := mk_exec_ctx {
  exec_ctx_addr : Z;      (* the address of the context itself *)
  data_loc_filename : Z   (* __data_loc_filename *)
}.

Record trace_event_raw_sched_process_fork := mk_fork_ctx {
  parent_pid : Z;
  child_comm : list Z;    (* char[16] *)
  child_pid : Z
}.

Record trace_event_raw_sys_enter := mk_sys_enter { args : list Z (* 6 longs *) }.

Definition arg (ctx : trace_event_raw_sys_enter) (i : nat) : Z := nth i (args ctx) 0.
