(* ===== verification/Structs.v ===== *)
(** * Structs: the C structs, maps and contexts of the two BPF objects

    The struct and map declarations of [agent/bpf/enforcer.bpf.c]
    ([enforcer_c]) and [agent/bpf/enroll.bpf.c] ([enroll_c]) as C types, with
    their layout computed by [Ctypes].  The byte offsets the model writes records
    at ([Types]) and the contexts the programs are called with are checked
    against the computed layouts, and the maps the two objects share against each
    other. *)

From stdpp Require Import strings.
From S2P Require Import Prelude Ctypes Types.
From S2P Require Vmlinux.

(** A map of the [.maps] section: its declared type, capacity, flags, key and
    value (a ring buffer has neither). *)
Record map_def := mk_map {
  map_type : string;
  max_entries : Z;
  map_flags : list string;
  map_key : option ctype;
  map_value : option ctype
}.

Module enforcer_c.
Import Vmlinux.
Open Scope string_scope.

(** ** enforcer.bpf.c *)

Definition struct_policy_ctrl : ctype := TStruct [
  fld "enforcement_active" __u8;
  fld "fail_closed" __u8;
  fld "default_deny" __u8;
  fld "_pad" __u8;
  fld "policy_version" __u32].

Definition struct_lpm_key : ctype := TStruct [
  fld "prefixlen" __u32;
  fld "data" (TArray __u8 MAX_PATH)].

Definition struct_path_rule : ctype := TStruct [
  fld "decision" __u8;
  fld "action_mask" __u8;
  fld "requires_port" __u8;
  fld "_pad" __u8;
  fld "rule_id_hash" __u32;
  fld "specificity" __u32].

Definition struct_port_rule : ctype := TStruct [
  fld "decision" __u8;
  fld "action" __u8;
  fld "requires_ip" __u8;
  fld "_pad" __u8;
  fld "rule_id_hash" __u32].

Definition struct_deny_verdict : ctype := TStruct [
  fld "timestamp_ns" __u64;
  fld "pid" __u32;
  fld "rule_id_hash" __u32;
  fld "action" __u8;
  fld "dest_ip_len" __u8;
  fld "dest_port" __u16;
  fld "dest_ip" (TArray __u8 16);
  fld "path" (TArray c_char MAX_PATH)].

Definition struct_pending_open : ctype := TStruct [
  fld "len" __u16;
  fld "open_flags" __u16;
  fld "path" (TArray c_char MAX_PATH)].

Definition struct_pending_connect : ctype := TStruct [
  fld "port" __u16;
  fld "ip_len" __u8;
  fld "_pad" __u8;
  fld "ip" (TArray __u8 16)].

Definition struct_pending_rename : ctype := TStruct [
  fld "old_len" __u16;
  fld "new_len" __u16;
  fld "old_path" (TArray c_char MAX_PATH);
  fld "new_path" (TArray c_char MAX_PATH)].

Definition struct_inode_key : ctype := TStruct [
  fld "ino" __u64;
  fld "dev" __u32;
  fld "_pad" __u32].

Definition struct_sockaddr_in_simple : ctype := TStruct [
  fld "sin_family" __u16;
  fld "sin_port" __be16;
  fld "sin_addr" __be32].

Definition struct_sockaddr_in6_simple : ctype := TStruct [
  fld "sin6_family" __u16;
  fld "sin6_port" __be16;
  fld "sin6_flowinfo" __be32;
  fld "sin6_addr" (TArray __u8 16);
  fld "sin6_scope_id" __u32].

Definition maps : list (string * map_def) := [
  ("policy_ctrl", mk_map "BPF_MAP_TYPE_ARRAY" 1 [] (Some __u32) (Some struct_policy_ctrl));
  ("tagged_pids", mk_map "BPF_MAP_TYPE_HASH" 4096 [] (Some __u32) (Some __u8));
  ("pending_open_paths", mk_map "BPF_MAP_TYPE_HASH" 4096 [] (Some __u32) (Some struct_pending_open));
  ("pending_connects", mk_map "BPF_MAP_TYPE_HASH" 4096 [] (Some __u32) (Some struct_pending_connect));
  ("pending_open_cpu", mk_map "BPF_MAP_TYPE_PERCPU_ARRAY" 1 [] (Some __u32) (Some struct_pending_open));
  ("pending_connect_cpu", mk_map "BPF_MAP_TYPE_PERCPU_ARRAY" 1 [] (Some __u32) (Some struct_pending_connect));
  ("pending_unlink_paths", mk_map "BPF_MAP_TYPE_HASH" 4096 [] (Some __u32) (Some struct_pending_open));
  ("pending_rename_paths", mk_map "BPF_MAP_TYPE_HASH" 4096 [] (Some __u32) (Some struct_pending_rename));
  ("pending_unlink_cpu", mk_map "BPF_MAP_TYPE_PERCPU_ARRAY" 1 [] (Some __u32) (Some struct_pending_open));
  ("pending_rename_cpu", mk_map "BPF_MAP_TYPE_PERCPU_ARRAY" 1 [] (Some __u32) (Some struct_pending_rename));
  ("inode_deny", mk_map "BPF_MAP_TYPE_HASH" 256 [] (Some struct_inode_key) (Some struct_path_rule));
  ("inode_allow", mk_map "BPF_MAP_TYPE_HASH" 128 [] (Some struct_inode_key) (Some struct_path_rule));
  ("path_deny", mk_map "BPF_MAP_TYPE_LPM_TRIE" 512 ["BPF_F_NO_PREALLOC"] (Some struct_lpm_key) (Some struct_path_rule));
  ("path_allow", mk_map "BPF_MAP_TYPE_LPM_TRIE" 256 ["BPF_F_NO_PREALLOC"] (Some struct_lpm_key) (Some struct_path_rule));
  ("ip_deny", mk_map "BPF_MAP_TYPE_LPM_TRIE" 128 ["BPF_F_NO_PREALLOC"] (Some struct_lpm_key) (Some struct_path_rule));
  ("port_deny", mk_map "BPF_MAP_TYPE_HASH" 64 [] (Some __u16) (Some struct_port_rule));
  ("ip_allow", mk_map "BPF_MAP_TYPE_LPM_TRIE" 128 ["BPF_F_NO_PREALLOC"] (Some struct_lpm_key) (Some struct_path_rule));
  ("port_allow", mk_map "BPF_MAP_TYPE_HASH" 64 [] (Some __u16) (Some struct_port_rule));
  ("deny_verdicts", mk_map "BPF_MAP_TYPE_RINGBUF" (256 * 1024) [] None None);
  ("lpm_scratch", mk_map "BPF_MAP_TYPE_PERCPU_ARRAY" 1 [] (Some __u32) (Some struct_lpm_key));
  ("path_scratch", mk_map "BPF_MAP_TYPE_PERCPU_ARRAY" 1 [] (Some __u32) (Some (TArray c_char MAX_PATH)));
  ("enforce_stats", mk_map "BPF_MAP_TYPE_PERCPU_ARRAY" STAT_ENFORCE_MAX [] (Some __u32) (Some __u64))].
End enforcer_c.

Module enroll_c.
Import Vmlinux.
Open Scope string_scope.

(** ** enroll.bpf.c *)

Definition struct_enroll_event : ctype := TStruct [
  fld "timestamp_ns" __u64;
  fld "start_time_ns" __u64;
  fld "cgroup_id" __u64;
  fld "pid" __u32;
  fld "ppid" __u32;
  fld "uid" __u32;
  fld "event_type" __u8;
  fld "_pad0" __u8;
  fld "argv_len" __u16;
  fld "env_len" __u16;
  fld "filename_len" __u16;
  fld "comm" (TArray c_char 16);
  fld "_tail_pad" __u32].

Definition struct_action_detail : ctype := TStruct [
  fld "family" __u8;
  fld "_pad" __u8;
  fld "dport" __u16;
  fld "open_flags" __u32;
  fld "addr" (TArray __u8 16)].

Definition struct_enroll_buf : ctype := TStruct [
  fld "data" (TArray c_char (Z.of_nat EVENT_RECORD_SIZE))].

Definition struct_sockaddr_in_simple : ctype := TStruct [
  fld "sin_family" __u16;
  fld "sin_port" __be16;
  fld "sin_addr" __be32].

Definition struct_sockaddr_in6_simple : ctype := TStruct [
  fld "sin6_family" __u16;
  fld "sin6_port" __be16;
  fld "sin6_flowinfo" __be32;
  fld "sin6_addr" (TArray __u8 16);
  fld "sin6_scope_id" __u32].

Definition struct_pending_open : ctype := TStruct [
  fld "len" __u16;
  fld "open_flags" __u16;
  fld "path" (TArray c_char MAX_PATH)].

Definition struct_pending_connect : ctype := TStruct [
  fld "port" __u16;
  fld "ip_len" __u8;
  fld "_pad" __u8;
  fld "ip" (TArray __u8 16)].

Definition struct_pending_rename : ctype := TStruct [
  fld "old_len" __u16;
  fld "new_len" __u16;
  fld "old_path" (TArray c_char MAX_PATH);
  fld "new_path" (TArray c_char MAX_PATH)].

Definition maps : list (string * map_def) := [
  ("events", mk_map "BPF_MAP_TYPE_RINGBUF" (256 * 1024) [] None None);
  ("scratch", mk_map "BPF_MAP_TYPE_PERCPU_ARRAY" 1 [] (Some __u32) (Some struct_enroll_buf));
  ("drops", mk_map "BPF_MAP_TYPE_PERCPU_ARRAY" 1 [] (Some __u32) (Some __u64));
  ("tagged_pids", mk_map "BPF_MAP_TYPE_HASH" 4096 [] (Some __u32) (Some __u8));
  ("pending_open_paths", mk_map "BPF_MAP_TYPE_HASH" 4096 [] (Some __u32) (Some struct_pending_open));
  ("pending_connects", mk_map "BPF_MAP_TYPE_HASH" 4096 [] (Some __u32) (Some struct_pending_connect));
  ("pending_open_cpu", mk_map "BPF_MAP_TYPE_PERCPU_ARRAY" 1 [] (Some __u32) (Some struct_pending_open));
  ("pending_connect_cpu", mk_map "BPF_MAP_TYPE_PERCPU_ARRAY" 1 [] (Some __u32) (Some struct_pending_connect));
  ("pending_unlink_paths", mk_map "BPF_MAP_TYPE_HASH" 4096 [] (Some __u32) (Some struct_pending_open));
  ("pending_rename_paths", mk_map "BPF_MAP_TYPE_HASH" 4096 [] (Some __u32) (Some struct_pending_rename));
  ("pending_unlink_cpu", mk_map "BPF_MAP_TYPE_PERCPU_ARRAY" 1 [] (Some __u32) (Some struct_pending_open));
  ("pending_rename_cpu", mk_map "BPF_MAP_TYPE_PERCPU_ARRAY" 1 [] (Some __u32) (Some struct_pending_rename))].
End enroll_c.

(** ** The agent's mirrors of the structs, and its lists of maps *)

Module agent.
Import Vmlinux.
Open Scope string_scope.

(** Go lays these structs out as C does: fields in order at their natural
    alignment; the blank fields are the C padding members. *)
Definition lpmKey : ctype := TStruct [
  fld "Prefixlen" __u32;
  fld "Data" (TArray __u8 256)].

Definition pathRule : ctype := TStruct [
  fld "Decision" __u8;
  fld "ActionMask" __u8;
  fld "RequiresPort" __u8;
  fld "_" __u8;
  fld "RuleIDHash" __u32;
  fld "Specificity" __u32].

Definition portRule : ctype := TStruct [
  fld "Decision" __u8;
  fld "Action" __u8;
  fld "RequiresIP" __u8;
  fld "_" __u8;
  fld "RuleIDHash" __u32].

Definition inodeKey : ctype := TStruct [
  fld "Ino" __u64;
  fld "Dev" __u32;
  fld "_" __u32].

(** The value [writePolicyCtrl] puts. *)
Definition policyCtrl : ctype := TStruct [
  fld "EnforcementActive" __u8;
  fld "FailClosed" __u8;
  fld "DefaultDeny" __u8;
  fld "_" __u8;
  fld "PolicyVersion" __u32].

(** The enforcer's maps that are replaced by the enroll object's (main.go). *)
Definition MapReplacements : list string := [
  "tagged_pids"; "pending_open_paths"; "pending_connects"; "pending_open_cpu";
  "pending_connect_cpu"; "pending_unlink_paths"; "pending_unlink_cpu";
  "pending_rename_paths"; "pending_rename_cpu"].

(** The maps that outlive the agent on bpffs (pin.go). *)
Definition policyMapNames : list string := [
  "policy_ctrl"; "path_deny"; "path_allow"; "inode_deny"; "inode_allow"; "ip_deny"; "ip_allow";
  "port_deny"; "port_allow"].
End agent.

(** ** Agreement *)

#[local] Open Scope string_scope.
#[local] Open Scope Z_scope.

(** The members of a struct lie at the same places with the same sizes,
    whatever they are called. *)
Definition shape (t : ctype) : list (Z * Z) :=
  match t with TStruct ms => snd <$> spans 0 ms | _ => [] end.

Definition same_shape (t t' : ctype) : bool :=
  bool_decide (shape t = shape t') && (sizeof t =? sizeof t').

Definition find_map (ms : list (string * map_def)) (name : string) : option map_def :=
  snd <$> List.find (fun nm => String.eqb nm.1 name) ms.

(** A map declaration the kernel understands: its type and flags are enumeration
    constants, keys and values are well-formed types, arrays are indexed by 4 bytes
    and a trie's key starts like the kernel's [bpf_lpm_trie_key_u8]. *)
Definition declared_ok (m : map_def) : bool :=
  let typed ty := String.eqb (map_type m) ty in
  bool_decide (is_Some (constant Vmlinux.enum_bpf_map_type (map_type m))) &&
  forallb (fun f => bool_decide (is_Some (constant Vmlinux.enum_bpf_map_flags f))) (map_flags m) &&
  (0 <? max_entries m) &&
  match map_key m, map_value m with
  | Some k, Some v =>
      wf_ctype k && wf_ctype v && (0 <? sizeof v) && negb (typed "BPF_MAP_TYPE_RINGBUF") &&
      (if typed "BPF_MAP_TYPE_ARRAY" || typed "BPF_MAP_TYPE_PERCPU_ARRAY" then sizeof k =? 4 else true) &&
      (if typed "BPF_MAP_TYPE_LPM_TRIE" then
         let key := Vmlinux.struct_bpf_lpm_trie_key_u8 in
         bool_decide (take 1 (shape k) = take 1 (shape key)) &&
         bool_decide (fst <$> offsetof k "data" = fst <$> offsetof key "data") &&
         bool_decide ("BPF_F_NO_PREALLOC" ∈ map_flags m)
       else true)
  | None, None => typed "BPF_MAP_TYPE_RINGBUF"
  | _, _ => false
  end.

(** Two lists without repetitions with the same strings. *)
Definition subset_of (l l' : list string) : bool :=
  forallb (fun x => existsb (String.eqb x) l') l.

Lemma subset_of_spec l l' x : subset_of l l' = true -> x ∈ l -> x ∈ l'.
Proof.
  unfold subset_of. rewrite forallb_forall. intros H Hx%list_elem_of_In.
  specialize (H x Hx). apply existsb_exists in H as (y & Hy & ->%String.eqb_eq).
  by apply list_elem_of_In.
Qed.

Lemma same_elements (l l' : list string) :
  bool_decide (NoDup l) && bool_decide (NoDup l') && subset_of l l' && subset_of l' l = true ->
  Permutation l l'.
Proof.
  rewrite !andb_true_iff, !bool_decide_eq_true. intros [[[? ?] ?] ?].
  apply NoDup_Permutation; [done|done|]. intros x. split; by apply subset_of_spec.
Qed.

(** The offsets and sizes that [Types] gives the deny record, the event record's header
    and action detail and the socket addresses are those of the C declarations. *)
Lemma record_layouts :
  let at_ t f fd := field_of t (Fld f) = Some fd in
  (at_ enforcer_c.struct_deny_verdict "timestamp_ns" deny_verdict.timestamp_ns /\
   at_ enforcer_c.struct_deny_verdict "pid" deny_verdict.pid /\
   at_ enforcer_c.struct_deny_verdict "rule_id_hash" deny_verdict.rule_id_hash /\
   at_ enforcer_c.struct_deny_verdict "action" deny_verdict.action /\
   at_ enforcer_c.struct_deny_verdict "dest_ip_len" deny_verdict.dest_ip_len /\
   at_ enforcer_c.struct_deny_verdict "dest_port" deny_verdict.dest_port /\
   at_ enforcer_c.struct_deny_verdict "dest_ip" (Field deny_verdict.dest_ip 16) /\
   at_ enforcer_c.struct_deny_verdict "path" (Field deny_verdict.path 256) /\
   sizeof enforcer_c.struct_deny_verdict = Z.of_nat deny_verdict.size) /\
  (at_ enroll_c.struct_enroll_event "timestamp_ns" enroll_event.timestamp_ns /\
   at_ enroll_c.struct_enroll_event "start_time_ns" enroll_event.start_time_ns /\
   at_ enroll_c.struct_enroll_event "cgroup_id" enroll_event.cgroup_id /\
   at_ enroll_c.struct_enroll_event "pid" enroll_event.pid /\
   at_ enroll_c.struct_enroll_event "ppid" enroll_event.ppid /\
   at_ enroll_c.struct_enroll_event "uid" enroll_event.uid /\
   at_ enroll_c.struct_enroll_event "event_type" enroll_event.event_type /\
   at_ enroll_c.struct_enroll_event "argv_len" enroll_event.argv_len /\
   at_ enroll_c.struct_enroll_event "env_len" enroll_event.env_len /\
   at_ enroll_c.struct_enroll_event "filename_len" enroll_event.filename_len /\
   at_ enroll_c.struct_enroll_event "comm" (Field enroll_event.comm 16) /\
   sizeof enroll_c.struct_enroll_event = Z.of_nat EVENT_HEADER_SIZE) /\
  (let behind_header f fd :=
     exists g, at_ enroll_c.struct_action_detail f g /\
       fd = Field (EVENT_HEADER_SIZE + f_off g) (f_width g) in
   behind_header "family" action_detail.family /\ behind_header "dport" action_detail.dport /\
   behind_header "open_flags" action_detail.open_flags /\
   behind_header "addr" (Field action_detail.addr 16) /\
   sizeof enroll_c.struct_action_detail = Z.of_nat ACTION_DETAIL_SIZE /\
   sizeof enroll_c.struct_enroll_buf = Z.of_nat EVENT_RECORD_SIZE) /\
  (sizeof enroll_c.struct_sockaddr_in_simple = Z.of_nat sizeof_sockaddr_in /\
   sizeof enroll_c.struct_sockaddr_in6_simple = Z.of_nat sizeof_sockaddr_in6 /\
   shape enroll_c.struct_sockaddr_in_simple = take 3 (shape Vmlinux.struct_sockaddr_in) /\
   shape enroll_c.struct_sockaddr_in6_simple = shape Vmlinux.struct_sockaddr_in6 /\
   shape enroll_c.struct_sockaddr_in_simple = shape enforcer_c.struct_sockaddr_in_simple /\
   shape enroll_c.struct_sockaddr_in6_simple = shape enforcer_c.struct_sockaddr_in6_simple).
Proof.
  cbv zeta. split_and!; try (vm_compute; reflexivity).
  all: eexists; split; [vm_compute; reflexivity|reflexivity].
Qed.

(** The maps that both objects declare and the agent shares between them have
    the same type, key, value and capacity in both, every declared map is well
    formed, and the maps the agent pins are maps of the enforcer. *)
Theorem map_declarations_agree :
  Forall (fun nm => declared_ok nm.2 = true) (enforcer_c.maps ++ enroll_c.maps) /\
  Forall (fun name => exists m, find_map enforcer_c.maps name = Some m /\
                                find_map enroll_c.maps name = Some m) agent.MapReplacements /\
  Permutation enforcer_c.maps.*1 (agent.MapReplacements ++ agent.policyMapNames ++
    ["deny_verdicts"; "lpm_scratch"; "path_scratch"; "enforce_stats"]) /\
  Permutation enroll_c.maps.*1 (agent.MapReplacements ++ ["events"; "scratch"; "drops"]) /\
  NoDup enforcer_c.maps.*1 /\ NoDup enroll_c.maps.*1 /\
  Forall (fun p => same_shape p.1 p.2 = true) [
    (agent.lpmKey, enforcer_c.struct_lpm_key); (agent.pathRule, enforcer_c.struct_path_rule);
    (agent.portRule, enforcer_c.struct_port_rule); (agent.inodeKey, enforcer_c.struct_inode_key);
    (agent.policyCtrl, enforcer_c.struct_policy_ctrl)].
Proof.
  assert (NoDup enforcer_c.maps.*1) by (apply (bool_decide_unpack _); vm_compute; exact I).
  assert (NoDup enroll_c.maps.*1) by (apply (bool_decide_unpack _); vm_compute; exact I).
  split_and!; try done.
  - apply (bool_decide_unpack _). vm_compute. exact I.
  - repeat (constructor; [eexists; split; vm_compute; reflexivity|]). constructor.
  - apply same_elements. vm_compute. reflexivity.
  - apply same_elements. vm_compute. reflexivity.
  - repeat (constructor; [vm_compute; reflexivity|]). constructor.
Qed.
