(* ===== verification/Bpf.v ===== *)
(** * Bpf: the interface of the kernel's BPF helpers

    The kernel is not part of the repository.  What one invocation of a BPF
    program gets from it is the record [env]: the results of the context and
    memory-reading helpers and the outcomes (success or failure) of the helpers
    that may fail.  The documented behaviour the programs rely on is the
    class [EnvOk] (memory reads) and the class [LpmTrieSpec] (longest-prefix
    lookup); nothing else is assumed.  [lpm_lookup_ref] and [env_of_memory] are
    concrete instances, for the witnesses. *)

From S2P Require Import Prelude Types.

(** Maps the programs call [bpf_map_update_elem] on. *)
Inductive map_id :=
  | M_tagged_pids | M_pending_open_paths | M_pending_connects | M_pending_open_cpu
  | M_pending_connect_cpu | M_pending_unlink_paths | M_pending_rename_paths
  | M_pending_unlink_cpu.

#[global] Instance map_id_eq_dec : EqDecision map_id.
Proof. solve_decision. Defined.

Record env := mk_env {
  cpu : nat;                                   (* CPU the program runs on *)
  bpf_get_current_pid_tgid : Z;                (* u64: tgid << 32 | tid *)
  bpf_get_current_uid_gid : Z;                 (* u64: gid << 32 | uid *)
  bpf_get_current_cgroup_id : Z;
  bpf_ktime_get_ns : Z;
  bpf_get_current_comm : list Z;               (* 16 bytes *)
  bpf_get_current_task : Z;                    (* address of the task_struct *)
  task_at : Z -> option task_struct;           (* readable task_structs *)
  bpf_probe_read_user : Z -> nat -> bool * list Z;
  bpf_probe_read_user_str : Z -> nat -> Z * list Z;
  bpf_probe_read_kernel : list Z -> nat -> bool * list Z;
  bpf_probe_read_kernel_str : Z -> nat -> Z * list Z;
  stack_addr : Z;                              (* where the program's locals live *)
  map_update_ok : map_id -> bool;              (* bpf_map_update_elem returns 0 *)
  ringbuf_output_ok : bool;                    (* bpf_ringbuf_output returns 0 *)
  bpf_ringbuf_reserve : option (list Z)        (* reserved, uninitialised bytes *)
}.

(** End of the user half of the address space on x86-64. *)
Definition TASK_SIZE_MAX : Z := 2 ^ 47 - 4096.

(** A string-reading helper: positive results are the copied length with its
    NUL, and the copy is the bytes up to and including the first NUL (or the cut). *)
Definition str_read_ok (n : nat) (r : Z * list Z) : Prop :=
  (length r.2 <= n)%nat /\
  (0 < r.1 ->
     exists p, r.2 = p ++ [0] /\ Z.of_nat (length r.2) = r.1 /\ Forall (fun b => b <> 0) p).

Class EnvOk (E : env) : Prop := {
  comm_length : length (bpf_get_current_comm E) = 16%nat;
  comm_bytes : Forall is_byte (bpf_get_current_comm E);
  probe_read_user_length a n : length (bpf_probe_read_user E a n).2 = n;
  probe_read_user_bytes a n : Forall is_byte (bpf_probe_read_user E a n).2;
  probe_read_user_range a n : TASK_SIZE_MAX <= a -> (bpf_probe_read_user E a n).1 = false;
  probe_read_user_str_ok a n : (0 < n)%nat -> str_read_ok n (bpf_probe_read_user_str E a n);
  probe_read_user_str_bytes a n : Forall is_byte (bpf_probe_read_user_str E a n).2;
  probe_read_kernel_length src n : length (bpf_probe_read_kernel E src n).2 = n;
  probe_read_kernel_ok src n :
    (bpf_probe_read_kernel E src n).1 = true -> (n <= length src)%nat ->
    (bpf_probe_read_kernel E src n).2 = take n src;
  probe_read_kernel_bytes src n :
    Forall is_byte src -> Forall is_byte (bpf_probe_read_kernel E src n).2;
  probe_read_kernel_str_ok a n : (0 < n)%nat -> str_read_ok n (bpf_probe_read_kernel_str E a n);
  probe_read_kernel_str_bytes a n : Forall is_byte (bpf_probe_read_kernel_str E a n).2;
  stack_is_kernel : TASK_SIZE_MAX <= stack_addr E;
  ringbuf_reserve_length g :
    bpf_ringbuf_reserve E = Some g -> length g = deny_verdict.size
}.

(** [BPF_CORE_READ] of a task field yields 0 (NULL) when the read faults. *)
Definition read_task {A} (E : env) (dflt : A) (f : task_struct -> A) (t : Z) : A :=
  match task_at E t with Some ts => f ts | None => dflt end.

(** Process ids: the programs key everything by the upper half (the tgid). *)
Definition current_pid (E : env) : Z := u32 (Z.shiftr (bpf_get_current_pid_tgid E) 32).
Definition current_tid (E : env) : Z := u32 (Z.land (bpf_get_current_pid_tgid E) 0xFFFFFFFF).
Definition current_uid (E : env) : Z := u32 (Z.land (bpf_get_current_uid_gid E) 0xFFFFFFFF).

(** ** LPM tries *)

Abbreviation lpm_trie := (list (lpm_key * path_rule)).

(** Bit [i] of a key, most significant bit of the first byte first. *)
Definition key_bit (d : list Z) (i : nat) : bool :=
  Z.testbit (nth (i / 8) d 0) (7 - Z.of_nat (i mod 8)).

(** The entry's prefix is a prefix of the key. *)
Definition lpm_covers (e k : lpm_key) : bool :=
  (prefixlen e <=? prefixlen k) &&
  forallb (fun i => Bool.eqb (key_bit (data e) i) (key_bit (data k) i))
    (seq 0 (Z.to_nat (prefixlen e))).

Class LpmTrie := lpm_lookup : lpm_trie -> lpm_key -> option path_rule.

(** [BPF_MAP_TYPE_LPM_TRIE]: a lookup returns the entry with the longest
    prefix that matches the key, if there is one. *)
Class LpmTrieSpec (L : LpmTrie) : Prop := {
  lpm_lookup_Some t k r :
    lpm_lookup t k = Some r ->
    exists e, (e, r) ∈ t /\ lpm_covers e k = true /\
      forall e' r', (e', r') ∈ t -> lpm_covers e' k = true -> prefixlen e' <= prefixlen e;
  lpm_lookup_None t k :
    lpm_lookup t k = None -> forall e r, (e, r) ∈ t -> lpm_covers e k = false
}.

(** A concrete trie lookup: keep the best entry while scanning. *)
Definition lpm_better (k : lpm_key) (best : option (lpm_key * path_rule))
    (e : lpm_key * path_rule) : option (lpm_key * path_rule) :=
  if lpm_covers e.1 k then
    match best with
    | Some b => if prefixlen b.1 <? prefixlen e.1 then Some e else best
    | None => Some e
    end
  else best.

Definition lpm_lookup_ref (t : lpm_trie) (k : lpm_key) : option path_rule :=
  snd <$> foldl (lpm_better k) None t.

Definition lpm_best_of (k : lpm_key) (t : lpm_trie) (b : option (lpm_key * path_rule)) : Prop :=
  match b with
  | Some e => e ∈ t /\ lpm_covers e.1 k = true /\
      forall e', e' ∈ t -> lpm_covers e'.1 k = true -> prefixlen e'.1 <= prefixlen e.1
  | None => forall e', e' ∈ t -> lpm_covers e'.1 k = false
  end.

Lemma lpm_better_best k t b e :
  lpm_best_of k t b -> lpm_best_of k (t ++ [e]) (lpm_better k b e).
Proof.
  unfold lpm_better, lpm_best_of. intros Hb.
  destruct (lpm_covers e.1 k) eqn:He; destruct b as [b|];
    [destruct Hb as (Hin & Hc & Hmax);
     destruct (Z.ltb_spec (prefixlen b.1) (prefixlen e.1))| |destruct Hb as (Hin & Hc & Hmax)|].
  all: try (split_and!; [set_solver|done|]).
  all: intros e' [Hin'|Hin'%list_elem_of_singleton]%elem_of_app; subst; intros;
    try (specialize (Hmax e' Hin')); try (specialize (Hb e' Hin')); try lia; auto; try congruence.
  specialize (Hmax ltac:(done)). lia.
Qed.

Lemma lpm_scan_best k t pre b :
  lpm_best_of k pre b -> lpm_best_of k (pre ++ t) (foldl (lpm_better k) b t).
Proof.
  revert pre b. induction t as [|e t IH]; intros pre b Hb; simpl.
  - by rewrite app_nil_r.
  - replace (pre ++ e :: t) with ((pre ++ [e]) ++ t) by by rewrite <- app_assoc.
    apply IH. by apply lpm_better_best.
Qed.

Definition lpm_ref : LpmTrie := lpm_lookup_ref.

#[global] Instance lpm_ref_spec : LpmTrieSpec lpm_ref.
Proof.
  assert (forall t k, lpm_best_of k t (foldl (lpm_better k) None t)) as Hbest.
  { intros t k. apply (lpm_scan_best k t [] None). by intros e' ?%not_elem_of_nil. }
  split; intros t k; specialize (Hbest t k); unfold lpm_lookup, lpm_ref, lpm_lookup_ref;
    destruct (foldl _ _ _) as [[e r]|]; simpl in *.
  - intros r' [= <-]. destruct Hbest as (? & ? & Hmax). exists e. split_and!; try done.
    intros e' r' ?. by apply (Hmax (e', r')).
  - done.
  - done.
  - intros _ e r ?. by apply (Hbest (e, r)).
Qed.
