(* ===== verification/State.v ===== *)
(** * State: the BPF maps of the two objects and the program monad

    [enroll_maps] is the state of [agent/bpf/enroll.bpf.c] and [enforcer_maps]
    the maps only [agent/bpf/enforcer.bpf.c] has.  The agent loads the enforcer
    with the enroll object's [tagged_pids] and [pending_*] maps in place of its
    own (MapReplacements in [cmd/agent/main.go]), so those live once, in
    [enroll_maps]. *)

From S2P Require Import Prelude Types Bpf.

(** ** Map kinds *)

(** A per-CPU array: for every CPU its array of entries. *)
Abbreviation percpu V := (list (list V)).

Definition pc_lookup {V} (c : nat) (k : Z) (m : percpu V) : option V :=
  row ← m !! c; row !! Z.to_nat k.

(** A store through the pointer a lookup returned (nothing when it was NULL). *)
Definition pc_write {V} (c : nat) (k : Z) (v : V) (m : percpu V) : percpu V :=
  alter (fun row => <[Z.to_nat k := v]> row) c m.

(** Hash maps are [gmap]s; [bpf_map_update_elem] inserts or fails. *)
Definition hash_update {V} (ok : bool) (k : Z) (v : V) (m : gmap Z V) : gmap Z V :=
  if ok then <[k := v]> m else m.

Record enroll_maps := mk_enroll_maps {
  events : list (list Z);                       (* ring buffer: records submitted *)
  scratch : percpu (list Z);                    (* struct enroll_buf *)
  drops : percpu Z;
  tagged_pids : gmap Z Z;
  pending_open_paths : gmap Z pending_open;
  pending_connects : gmap Z pending_connect;
  pending_open_cpu : percpu pending_open;
  pending_connect_cpu : percpu pending_connect;
  pending_unlink_paths : gmap Z pending_open;
  pending_rename_paths : gmap Z pending_rename;
  pending_unlink_cpu : percpu pending_open;
  pending_rename_cpu : percpu pending_rename
}.

Record enforcer_maps := mk_enforcer_maps {
  policy_ctrl_map : list policy_ctrl;           (* ARRAY, max_entries 1 *)
  inode_deny : gmap inode_key path_rule;
  inode_allow : gmap inode_key path_rule;
  path_deny : lpm_trie;
  path_allow : lpm_trie;
  ip_deny : lpm_trie;
  port_deny : gmap Z port_rule;
  ip_allow : lpm_trie;
  port_allow : gmap Z port_rule;
  deny_verdicts : list (list Z);                (* ring buffer: records submitted *)
  lpm_scratch : percpu lpm_key;
  path_scratch : percpu (list Z);               (* char[MAX_PATH] *)
  enforce_stats : percpu Z
}.

Record kstate := mk_kstate { enroll : enroll_maps; enforcer : enforcer_maps }.

(** ** Field updates *)

Section setters.
Context (m : enroll_maps).
Let mk ev sc dr tp po pc poc pcc pu pr puc prc :=
  mk_enroll_maps ev sc dr tp po pc poc pcc pu pr puc prc.
Definition set_events v := mk v (scratch m) (drops m) (tagged_pids m)
  (pending_open_paths m) (pending_connects m) (pending_open_cpu m) (pending_connect_cpu m)
  (pending_unlink_paths m) (pending_rename_paths m) (pending_unlink_cpu m) (pending_rename_cpu m).
Definition set_scratch v := mk (events m) v (drops m) (tagged_pids m)
  (pending_open_paths m) (pending_connects m) (pending_open_cpu m) (pending_connect_cpu m)
  (pending_unlink_paths m) (pending_rename_paths m) (pending_unlink_cpu m) (pending_rename_cpu m).
Definition set_drops v := mk (events m) (scratch m) v (tagged_pids m)
  (pending_open_paths m) (pending_connects m) (pending_open_cpu m) (pending_connect_cpu m)
  (pending_unlink_paths m) (pending_rename_paths m) (pending_unlink_cpu m) (pending_rename_cpu m).
Definition set_tagged_pids v := mk (events m) (scratch m) (drops m) v
  (pending_open_paths m) (pending_connects m) (pending_open_cpu m) (pending_connect_cpu m)
  (pending_unlink_paths m) (pending_rename_paths m) (pending_unlink_cpu m) (pending_rename_cpu m).
Definition set_pending_open_paths v := mk (events m) (scratch m) (drops m) (tagged_pids m)
  v (pending_connects m) (pending_open_cpu m) (pending_connect_cpu m)
  (pending_unlink_paths m) (pending_rename_paths m) (pending_unlink_cpu m) (pending_rename_cpu m).
Definition set_pending_connects v := mk (events m) (scratch m) (drops m) (tagged_pids m)
  (pending_open_paths m) v (pending_open_cpu m) (pending_connect_cpu m)
  (pending_unlink_paths m) (pending_rename_paths m) (pending_unlink_cpu m) (pending_rename_cpu m).
Definition set_pending_open_cpu v := mk (events m) (scratch m) (drops m) (tagged_pids m)
  (pending_open_paths m) (pending_connects m) v (pending_connect_cpu m)
  (pending_unlink_paths m) (pending_rename_paths m) (pending_unlink_cpu m) (pending_rename_cpu m).
Definition set_pending_connect_cpu v := mk (events m) (scratch m) (drops m) (tagged_pids m)
  (pending_open_paths m) (pending_connects m) (pending_open_cpu m) v
  (pending_unlink_paths m) (pending_rename_paths m) (pending_unlink_cpu m) (pending_rename_cpu m).
Definition set_pending_unlink_paths v := mk (events m) (scratch m) (drops m) (tagged_pids m)
  (pending_open_paths m) (pending_connects m) (pending_open_cpu m) (pending_connect_cpu m)
  v (pending_rename_paths m) (pending_unlink_cpu m) (pending_rename_cpu m).
Definition set_pending_rename_paths v := mk (events m) (scratch m) (drops m) (tagged_pids m)
  (pending_open_paths m) (pending_connects m) (pending_open_cpu m) (pending_connect_cpu m)
  (pending_unlink_paths m) v (pending_unlink_cpu m) (pending_rename_cpu m).
Definition set_pending_unlink_cpu v := mk (events m) (scratch m) (drops m) (tagged_pids m)
  (pending_open_paths m) (pending_connects m) (pending_open_cpu m) (pending_connect_cpu m)
  (pending_unlink_paths m) (pending_rename_paths m) v (pending_rename_cpu m).
Definition set_pending_rename_cpu v := mk (events m) (scratch m) (drops m) (tagged_pids m)
  (pending_open_paths m) (pending_connects m) (pending_open_cpu m) (pending_connect_cpu m)
  (pending_unlink_paths m) (pending_rename_paths m) (pending_unlink_cpu m) v.
End setters.

Section enforcer_setters.
Context (m : enforcer_maps).
Let mk dv ls ps es := mk_enforcer_maps (policy_ctrl_map m) (inode_deny m) (inode_allow m)
  (path_deny m) (path_allow m) (ip_deny m) (port_deny m) (ip_allow m) (port_allow m) dv ls ps es.
Definition set_deny_verdicts v := mk v (lpm_scratch m) (path_scratch m) (enforce_stats m).
Definition set_lpm_scratch v := mk (deny_verdicts m) v (path_scratch m) (enforce_stats m).
Definition set_path_scratch v := mk (deny_verdicts m) (lpm_scratch m) v (enforce_stats m).
Definition set_enforce_stats v := mk (deny_verdicts m) (lpm_scratch m) (path_scratch m) v.
End enforcer_setters.

Definition on_enroll (f : enroll_maps -> enroll_maps) (s : kstate) : kstate :=
  mk_kstate (f (enroll s)) (enforcer s).
Definition on_enforcer (f : enforcer_maps -> enforcer_maps) (s : kstate) : kstate :=
  mk_kstate (enroll s) (f (enforcer s)).

(** ** The program monad: read the environment, thread the maps *)

Definition prog (A : Type) : Type := env -> kstate -> A * kstate.

#[global] Instance prog_ret : MRet prog := fun A a E s => (a, s).
#[global] Instance prog_bind : MBind prog := fun A B f m E s => let r := m E s in f r.1 E r.2.

Definition ask {A} (f : env -> A) : prog A := fun E s => (f E, s).
Definition gets {A} (f : kstate -> A) : prog A := fun E s => (f s, s).
Definition modify (f : kstate -> kstate) : prog () := fun E s => ((), f s).
Definition modify_env (f : env -> kstate -> kstate) : prog () := fun E s => ((), f E s).

Definition enr {A} (f : enroll_maps -> A) : prog A := gets (fun s => f (enroll s)).
Definition enf {A} (f : enforcer_maps -> A) : prog A := gets (fun s => f (enforcer s)).

(** [bpf_map_lookup_elem] on a one-entry per-CPU array of this CPU. *)
Definition this_cpu {V} (f : kstate -> percpu V) (k : Z) : prog (option V) :=
  fun E s => (pc_lookup (cpu E) k (f s), s).

(** Returned value and final state of a run. *)
Definition ret_of {A} (m : prog A) (E : env) (s : kstate) : A := (m E s).1.
Definition state_of {A} (m : prog A) (E : env) (s : kstate) : kstate := (m E s).2.

Lemma ret_of_bind {A B} (m : prog A) (f : A -> prog B) E s :
  ret_of (m ≫= f) E s = ret_of (f (ret_of m E s)) E (state_of m E s).
Proof. done. Qed.

Lemma state_of_bind {A B} (m : prog A) (f : A -> prog B) E s :
  state_of (m ≫= f) E s = state_of (f (ret_of m E s)) E (state_of m E s).
Proof. done. Qed.

Lemma run_bind {A B} (m : prog A) (f : A -> prog B) E s a s' :
  m E s = (a, s') -> (m ≫= f) E s = f a E s'.
Proof. intros H. unfold mbind, prog_bind. by rewrite H. Qed.

Lemma pc_lookup_write {V} c k (v : V) m :
  is_Some (pc_lookup c k m) -> pc_lookup c k (pc_write c k v m) = Some v.
Proof.
  unfold pc_lookup, pc_write. rewrite list_lookup_alter_eq.
  destruct (m !! c) as [row|]; simpl; [|by intros []].
  intros [? ?%lookup_lt_Some]. by apply list_lookup_insert_eq.
Qed.

Lemma pc_lookup_write_ne {V} c c' k k' (v : V) m :
  c <> c' \/ Z.to_nat k <> Z.to_nat k' ->
  pc_lookup c' k' (pc_write c k v m) = pc_lookup c' k' m.
Proof.
  unfold pc_lookup, pc_write. destruct (decide (c = c')) as [->|Hne]; intros Hor.
  - rewrite list_lookup_alter_eq. destruct (m !! c') as [row|]; simpl; [|done].
    apply list_lookup_insert_ne. by destruct Hor.
  - by rewrite list_lookup_alter_ne.
Qed.

(** ** Equal policy maps

    Two enforcer states with the same policy maps, whatever their scratch
    entries, counters and verdict records. *)
Record pol_eq (m m' : enforcer_maps) : Prop := {
  eq_ctrl : policy_ctrl_map m = policy_ctrl_map m';
  eq_inode_deny : inode_deny m = inode_deny m';
  eq_inode_allow : inode_allow m = inode_allow m';
  eq_path_deny : path_deny m = path_deny m';
  eq_path_allow : path_allow m = path_allow m';
  eq_ip_deny : ip_deny m = ip_deny m';
  eq_port_deny : port_deny m = port_deny m';
  eq_ip_allow : ip_allow m = ip_allow m';
  eq_port_allow : port_allow m = port_allow m'
}.

#[global] Instance pol_eq_equiv : Equivalence pol_eq.
Proof.
  split.
  - by split.
  - intros m m' []. by split.
  - intros m1 m2 m3 [] []. split; congruence.
Qed.

#[global] Instance policy_ctrl_map_proper : Proper (pol_eq ==> eq) policy_ctrl_map.
Proof. by intros ?? []. Qed.
#[global] Instance inode_deny_proper : Proper (pol_eq ==> eq) inode_deny.
Proof. by intros ?? []. Qed.
#[global] Instance inode_allow_proper : Proper (pol_eq ==> eq) inode_allow.
Proof. by intros ?? []. Qed.
#[global] Instance path_deny_proper : Proper (pol_eq ==> eq) path_deny.
Proof. by intros ?? []. Qed.
#[global] Instance path_allow_proper : Proper (pol_eq ==> eq) path_allow.
Proof. by intros ?? []. Qed.
#[global] Instance ip_deny_proper : Proper (pol_eq ==> eq) ip_deny.
Proof. by intros ?? []. Qed.
#[global] Instance port_deny_proper : Proper (pol_eq ==> eq) port_deny.
Proof. by intros ?? []. Qed.
#[global] Instance ip_allow_proper : Proper (pol_eq ==> eq) ip_allow.
Proof. by intros ?? []. Qed.
#[global] Instance port_allow_proper : Proper (pol_eq ==> eq) port_allow.
Proof. by intros ?? []. Qed.

(** Per-CPU arrays: [n] CPUs, [k] entries each, every entry satisfying [P]. *)
Definition pc_shape {V} (n k : nat) (P : V -> Prop) (m : percpu V) : Prop :=
  length m = n /\ Forall (fun row => length row = k /\ Forall P row) m.

Lemma pc_shape_write {V} n k (P : V -> Prop) c i v m :
  pc_shape n k P m -> P v -> pc_shape n k P (pc_write c i v m).
Proof.
  intros [Hn Hm] Hv. split; [by unfold pc_write; rewrite length_alter|].
  unfold pc_write. apply Forall_alter; [done|].
  intros row _ [Hk Hrow]. split; [by rewrite length_insert|]. by apply Forall_insert.
Qed.

Lemma pc_shape_lookup {V} n k (P : V -> Prop) c i m :
  pc_shape n k P m -> (c < n)%nat -> (Z.to_nat i < k)%nat ->
  exists v, pc_lookup c i m = Some v /\ P v.
Proof.
  intros [Hn Hm] Hc Hi. unfold pc_lookup.
  destruct (lookup_lt_is_Some_2 m c) as [row Hrow]; [by rewrite Hn|].
  destruct (Forall_lookup_1 _ _ _ _ Hm Hrow) as [Hk HP].
  destruct (lookup_lt_is_Some_2 row (Z.to_nat i)) as [v Hv]; [by rewrite Hk|].
  exists v. rewrite Hrow. simpl. split; [done|]. by eapply Forall_lookup_1.
Qed.

Lemma pc_shape_lookup_Some {V} n k (P : V -> Prop) c i m v :
  pc_shape n k P m -> pc_lookup c i m = Some v -> P v.
Proof.
  intros [_ Hm] Hl. unfold pc_lookup in Hl.
  destruct (m !! c) as [row|] eqn:Hrow; simpl in Hl; [|done].
  destruct (Forall_lookup_1 _ _ _ _ Hm Hrow) as [_ HP]. by eapply Forall_lookup_1.
Qed.
