(* ===== verification/Logic.v ===== *)
(** * Logic: a Hoare logic for the program monad

    Triples are stated for a fixed environment.  [hoare_step] decomposes a
    program along its binds, tests and matches; what is left are the loads the
    precondition has to answer for and the stores. *)

From S2P Require Import Prelude Types Bpf State.

Definition hoare {A} (E : env) (P : kstate -> Prop) (m : prog A) (Q : A -> kstate -> Prop) : Prop :=
  forall s, P s -> Q (m E s).1 (m E s).2.

(** A program keeps an assertion when it re-establishes it on every path. *)
Definition keeps {A} (E : env) (I : kstate -> Prop) (m : prog A) : Prop :=
  hoare E I m (fun _ => I).

Section rules.
Context {E : env}.

Lemma hoare_ret {A} (a : A) (P : kstate -> Prop) (Q : A -> kstate -> Prop) :
  (forall s, P s -> Q a s) -> hoare E P (mret a) Q.
Proof. intros H s Hs. by apply H. Qed.

Lemma hoare_bind {A B} (m : prog A) (f : A -> prog B) P R Q :
  hoare E P m R -> (forall a, hoare E (R a) (f a) Q) -> hoare E P (m ≫= f) Q.
Proof. intros Hm Hf s Hs. apply Hf, Hm, Hs. Qed.

Lemma hoare_ask {A B} (g : env -> A) (f : A -> prog B) P Q :
  hoare E P (f (g E)) Q -> hoare E P (ask g ≫= f) Q.
Proof. intros H s Hs. by apply H. Qed.

Lemma hoare_gets {A B} (g : kstate -> A) (f : A -> prog B) P Q :
  (forall a, hoare E (fun s => P s /\ g s = a) (f a) Q) -> hoare E P (gets g ≫= f) Q.
Proof. intros H s Hs. by apply H. Qed.

Lemma hoare_this_cpu {V B} (g : kstate -> percpu V) k (f : option V -> prog B) P Q :
  (forall o, hoare E (fun s => P s /\ pc_lookup (cpu E) k (g s) = o) (f o) Q) ->
  hoare E P (this_cpu g k ≫= f) Q.
Proof. intros H s Hs. by apply H. Qed.

Lemma hoare_modify_env (g : env -> kstate -> kstate) (P : kstate -> Prop) Q :
  (forall s, P s -> Q () (g E s)) -> hoare E P (modify_env g) Q.
Proof. intros H s Hs. by apply H. Qed.

Lemma hoare_modify (g : kstate -> kstate) (P : kstate -> Prop) Q :
  (forall s, P s -> Q () (g s)) -> hoare E P (modify g) Q.
Proof. intros H s Hs. by apply H. Qed.

Lemma hoare_pre {A} (m : prog A) P P' Q :
  (forall s, P s -> P' s) -> hoare E P' m Q -> hoare E P m Q.
Proof. intros HP H s Hs. by apply H, HP. Qed.

Lemma hoare_post {A} (m : prog A) P (Q Q' : A -> kstate -> Prop) :
  (forall a s, Q' a s -> Q a s) -> hoare E P m Q' -> hoare E P m Q.
Proof. intros HQ H s Hs. by apply HQ, H. Qed.

Lemma hoare_and {A} (m : prog A) P P' (Q Q' : A -> kstate -> Prop) :
  hoare E P m Q -> hoare E P' m Q' ->
  hoare E (fun s => P s /\ P' s) m (fun a s => Q a s /\ Q' a s).
Proof. intros H H' s [Hs Hs']. split; [by apply H|by apply H']. Qed.

Lemma hoare_pure {A} (m : prog A) (φ : Prop) P Q :
  (φ -> hoare E P m Q) -> hoare E (fun s => P s /\ φ) m Q.
Proof. intros H s [Hs Hφ]. by apply H. Qed.

Lemma keeps_ret {A} (a : A) I : keeps E I (mret a).
Proof. by apply hoare_ret. Qed.

Lemma keeps_bind {A B} (m : prog A) (f : A -> prog B) I :
  keeps E I m -> (forall a, keeps E I (f a)) -> keeps E I (m ≫= f).
Proof. apply hoare_bind. Qed.

Lemma keeps_ask {A} (g : env -> A) I : keeps E I (ask g).
Proof. by intros s Hs. Qed.

Lemma keeps_gets {A} (g : kstate -> A) I : keeps E I (gets g).
Proof. by intros s Hs. Qed.

Lemma keeps_this_cpu {V} (g : kstate -> percpu V) k I : keeps E I (this_cpu g k).
Proof. by intros s Hs. Qed.

(** The result of a helper call is a known value. *)
Lemma keeps_ask_bind {A B} (g : env -> A) (f : A -> prog B) I :
  keeps E I (f (g E)) -> keeps E I (ask g ≫= f).
Proof. apply hoare_ask. Qed.

(** A fact about a call's result, whatever the state. *)
Lemma keeps_bind_known {A B} (m : prog A) (f : A -> prog B) (I : kstate -> Prop) (φ : A -> Prop) :
  (forall s, I s -> φ (m E s).1 /\ I (m E s).2) ->
  (forall a, φ a -> keeps E I (f a)) -> keeps E I (m ≫= f).
Proof. intros Hm Hf s Hs. destruct (Hm s Hs). by apply (Hf (m E s).1). Qed.

(** What the assertion says of a loaded per-CPU entry is known of it. *)
Lemma keeps_entry_bind {V B} (g : kstate -> percpu V) k (f : option V -> prog B) (I : kstate -> Prop) (φ : V -> Prop) :
  (forall s v, I s -> pc_lookup (cpu E) k (g s) = Some v -> φ v) ->
  (forall o, (forall v, o = Some v -> φ v) -> keeps E I (f o)) ->
  keeps E I (this_cpu g k ≫= f).
Proof. intros Hφ Hf s Hs. apply Hf; [|done]. intros v. by apply Hφ. Qed.

Lemma keeps_modify_env (g : env -> kstate -> kstate) (I : kstate -> Prop) :
  (forall s, I s -> I (g E s)) -> keeps E I (modify_env g).
Proof. intros H. by apply hoare_modify_env. Qed.

Lemma keeps_modify (g : kstate -> kstate) (I : kstate -> Prop) :
  (forall s, I s -> I (g s)) -> keeps E I (modify g).
Proof. intros H. by apply hoare_modify. Qed.
End rules.

Create HintDb keeps discriminated.
#[export] Hint Resolve keeps_ret keeps_ask keeps_gets keeps_this_cpu : keeps.

(** [keeps_tac unf]: prove that a program keeps an assertion by walking through
    it; calls to functions known to keep it are closed by the hints in [keeps]. *)
Ltac destruct_innermost x :=
  lazymatch x with
  | context [match ?y with _ => _ end] => destruct_innermost y
  | _ => destruct x
  end.

Ltac keeps_step :=
  lazymatch goal with
  | |- keeps _ _ (mbind _ (ask _)) => apply keeps_ask_bind
  | |- keeps _ _ (mbind _ _) => apply keeps_bind; [|intros ?]
  | |- keeps _ _ (mret _) => apply keeps_ret
  | |- keeps _ _ (ask _) => apply keeps_ask
  | |- keeps _ _ (gets _) => apply keeps_gets
  | |- keeps _ _ (enr _) => apply keeps_gets
  | |- keeps _ _ (enf _) => apply keeps_gets
  | |- keeps _ _ (this_cpu _ _) => apply keeps_this_cpu
  | |- keeps _ _ (if ?b then _ else _) => destruct_innermost b; cbn iota
  | |- keeps _ _ (match ?x with _ => _ end) => destruct_innermost x; cbn iota
  | |- keeps _ _ (let _ := _ in _) => cbv zeta
  | |- keeps _ _ _ => progress cbv beta zeta
  end.

Ltac keeps_tac := repeat (first [solve [eauto with keeps] | keeps_step]).
