(* ===== verification/Enforcer.v ===== *)
(** * Enforcer: the programs of [agent/bpf/enforcer.bpf.c]

    One definition per C function, in the file's order.  A C [int] used as a
    truth value is a [bool]; a pointer that may be NULL is an [option]; a
    program that returns an error code is a [prog Z]. *)

From S2P Require Import Prelude Types Bpf State.

Section enforcer.
Context `{L : LpmTrie}.

(** ** Gate *)

Definition policy_ctrl_get : prog (option policy_ctrl) :=
  enf (fun m => policy_ctrl_map m !! 0%nat).

Definition enforcement_live : prog bool :=
  c ← policy_ctrl_get;
  mret match c with
       | None => false
       | Some c => nonzero (enforcement_active c)
       end.

Definition fail_closed_regime : prog bool :=
  c ← policy_ctrl_get;
  mret match c with
       | None => false
       | Some c => if nonzero (enforcement_active c) then false else nonzero (fail_closed c)
       end.

Definition is_tagged_pid (pid : Z) : prog bool :=
  enr (fun m => bool_decide (is_Some (tagged_pids m !! pid))).

(** The body of the ancestor loop, [n] iterations left. *)
Fixpoint tag_from_ancestor_loop (n : nat) (pid task : Z) : prog () :=
  match n with
  | O => mret ()
  | S n =>
      task ← ask (fun E => read_task E 0 real_parent task);
      if task =? 0 then mret () else
      walk_pid ← ask (fun E => u32 (read_task E 0 tgid task));
      if (walk_pid =? 0) || (walk_pid =? pid) then mret () else
      t ← is_tagged_pid walk_pid;
      if (t : bool) then
        modify_env (fun E => on_enroll (fun m =>
          set_tagged_pids m (hash_update (map_update_ok E M_tagged_pids) pid 1 (tagged_pids m))))
      else tag_from_ancestor_loop n pid task
  end.

Definition ensure_tagged_from_ancestor (pid : Z) : prog () :=
  t ← is_tagged_pid pid;
  if (t : bool) then mret () else
  task ← ask bpf_get_current_task;
  tag_from_ancestor_loop 16 pid task.

Definition enforce_gate : prog bool :=
  c ← policy_ctrl_get;
  match c with
  | None => mret false
  | Some c =>
      if negb (nonzero (enforcement_active c)) && negb (nonzero (fail_closed c))
      then mret false else
      pid ← ask current_pid;
      _ ← ensure_tagged_from_ancestor pid;
      is_tagged_pid pid
  end.

Definition cgroup_should_enforce : prog bool :=
  live ← enforcement_live;
  if (live : bool) then mret true else fail_closed_regime.

(** ** Scratch buffers, counters, path and address lookups *)

Definition scratch_lpm_key : prog (option lpm_key) :=
  this_cpu (fun s => lpm_scratch (enforcer s)) 0.

Definition scratch_path_buf : prog (option (list Z)) :=
  this_cpu (fun s => path_scratch (enforcer s)) 0.

Definition write_lpm_key (k : lpm_key) : prog () :=
  modify_env (fun E => on_enforcer (fun m =>
    set_lpm_scratch m (pc_write (cpu E) 0 k (lpm_scratch m)))).

Definition write_path_buf (p : list Z) : prog () :=
  modify_env (fun E => on_enforcer (fun m =>
    set_path_scratch m (pc_write (cpu E) 0 p (path_scratch m)))).

Definition valid_path_len (len : Z) : bool := (0 <? len) && (len <? MAX_PATH).

(** The destination is the per-CPU path buffer, given by its current bytes; the
    result is the return code and the bytes it holds afterwards. *)
Definition copy_path_bounded (dst : option (list Z)) (src : list Z) (src_len : Z)
    : prog (Z * list Z) :=
  match dst with
  | None => mret (-1, [])
  | Some dst =>
      if negb (valid_path_len src_len) then mret (-1, dst) else
      r ← ask (fun E => bpf_probe_read_kernel E src 255);
      let dst := splice 0 r.2 dst in
      _ ← write_path_buf dst;
      if negb r.1 then mret (-1, dst) else mret (src_len, dst)
  end.

Definition stat_inc (idx : Z) : prog () :=
  v ← this_cpu (fun s => enforce_stats (enforcer s)) idx;
  match v with
  | None => mret ()
  | Some v => modify_env (fun E => on_enforcer (fun m =>
      set_enforce_stats m (pc_write (cpu E) idx (u64 (v + 1)) (enforce_stats m))))
  end.

(** [__builtin_bswap16]. *)
Definition port_host (p : Z) : Z :=
  Z.lor (Z.shiftl (Z.land p 0xff) 8) (Z.land (Z.shiftr p 8) 0xff).

Definition path_lpm_lookup (map : enforcer_maps -> lpm_trie) (path : option (list Z)) (len : Z)
    : prog (option path_rule) :=
  key ← scratch_lpm_key;
  match key, path with
  | Some _, Some path =>
      if (len <=? 0) || (MAX_PATH <=? len) then mret None else
      r ← ask (fun E => bpf_probe_read_kernel E path 255);
      let key := mk_lpm_key (u32 (u32 len * 8)) (splice 0 r.2 (zeros 256)) in
      _ ← write_lpm_key key;
      if negb r.1 then mret None else
      t ← enf map;
      mret (lpm_lookup t key)
  | _, _ => mret None
  end.

Definition verdict_bit (verdict : Z) : Z :=
  if (verdict =? 0) || (VERDICT_WRITE <? verdict) then 0
  else u8 (Z.shiftl 1 (verdict - 1)).

Definition action_matches (rule_mask verdict : Z) (write_intent : bool) : bool :=
  if nonzero (Z.land rule_mask (verdict_bit verdict)) then true
  else if (verdict =? VERDICT_OPEN) && write_intent
            && nonzero (Z.land rule_mask (verdict_bit VERDICT_WRITE)) then true
  else false.

(** ** Deny records *)

(** The stores into the reserved record [v]. *)
Definition fill_deny_verdict (E : env) (action rule_hash : Z) (path : option (list Z))
    (path_len : Z) (ip : option (list Z)) (ip_len port : Z) (v : list Z) : list Z :=
  let v := store deny_verdict.timestamp_ns (bpf_ktime_get_ns E) v in
  let v := store deny_verdict.pid (current_pid E) v in
  let v := store deny_verdict.rule_id_hash rule_hash v in
  let v := store deny_verdict.action action v in
  let v := store deny_verdict.dest_ip_len 0 v in
  let v := store deny_verdict.dest_port 0 v in
  let v := splice deny_verdict.dest_ip (zeros 16) v in
  let v := match ip with
           | Some ip =>
               if (action =? VERDICT_CONNECT) && (0 <? ip_len) && (ip_len <=? 16) then
                 let v := store deny_verdict.dest_ip_len ip_len v in
                 let v := store deny_verdict.dest_port port v in
                 let v := splice deny_verdict.dest_ip (zeros 16) v in
                 splice deny_verdict.dest_ip (take (Z.to_nat ip_len) ip) v
               else v
           | None => v
           end in
  let v := splice deny_verdict.path (zeros 256) v in
  match path with
  | Some path =>
      if (0 <? path_len) && (path_len <? MAX_PATH)
      then splice deny_verdict.path (bpf_probe_read_kernel E path 255).2 v else v
  | None => v
  end.

Definition emit_deny_ex (action rule_hash : Z) (path : option (list Z)) (path_len : Z)
    (ip : option (list Z)) (ip_len port : Z) : prog () :=
  v ← ask bpf_ringbuf_reserve;
  match v with
  | None => mret ()
  | Some v =>
      v ← ask (fun E => fill_deny_verdict E action rule_hash path path_len ip ip_len port v);
      modify (on_enforcer (fun m => set_deny_verdicts m (deny_verdicts m ++ [v])))
  end.

Definition emit_deny (action rule_hash : Z) (path : option (list Z)) (path_len : Z) : prog () :=
  emit_deny_ex action rule_hash path path_len None 0 0.

(** ** Path verdicts *)

Definition rule_applies (dec : Z) (verdict : Z) (write_intent : bool)
    (r : option path_rule) : option path_rule :=
  match r with
  | Some r =>
      if (decision r =? dec) && action_matches (action_mask r) verdict write_intent
      then Some r else None
  | None => None
  end.

Definition enforce_open_verdict (deny_rule allow_rule : option path_rule) (verdict : Z)
    (write_intent : bool) (path : option (list Z)) (path_len : Z) : prog Z :=
  let deny := rule_applies MAP_DECISION_DENY verdict write_intent deny_rule in
  let deny_match := bool_decide (is_Some deny) in
  let deny_spec := match deny with Some r => specificity r | None => 0 end in
  let deny_hash := match deny with Some r => rule_id_hash r | None => 0 end in
  if match rule_applies MAP_DECISION_ALLOW verdict write_intent allow_rule with
     | Some a => deny_spec <? specificity a
     | None => false
     end
  then mret 0
  else if deny_match then
    _ ← emit_deny verdict deny_hash path path_len;
    mret (- EPERM)
  else mret 0.

Definition inode_rule_lookup (map : enforcer_maps -> gmap inode_key path_rule) (f : file)
    : prog (option path_rule) :=
  match f_inode f with
  | None => mret None
  | Some i =>
      let ikey := mk_inode_key (i_ino i)
                    (u32 match i_sb i with Some sb => s_dev sb | None => 0 end) 0 in
      t ← enf map;
      mret (t !! ikey)
  end.

Definition enforce_path (path : option (list Z)) (len verdict : Z) (write_intent : bool) : prog Z :=
  match path with
  | None => mret 0
  | Some _ =>
      if (len <=? 0) || (MAX_PATH <=? len) then mret 0 else
      deny_rule ← path_lpm_lookup path_deny path len;
      allow_rule ← path_lpm_lookup path_allow path len;
      enforce_open_verdict deny_rule allow_rule verdict write_intent path len
  end.

(** ** Connect verdicts *)

Definition ip_lpm_lookup (map : enforcer_maps -> lpm_trie) (ip : option (list Z)) (ip_len : Z)
    : prog (option path_rule) :=
  key ← scratch_lpm_key;
  match key, ip with
  | Some _, Some ip =>
      if (ip_len <=? 0) || (16 <? ip_len) then mret None else
      let key := mk_lpm_key (u32 (u32 ip_len * 8))
                   (splice 0 (take (Z.to_nat ip_len) ip) (zeros 256)) in
      _ ← write_lpm_key key;
      t ← enf map;
      mret (lpm_lookup t key)
  | _, _ => mret None
  end.

Definition connect_rule_matches (ip_rule : option path_rule) (port_rule : option port_rule) : bool :=
  match ip_rule with
  | None => false
  | Some r =>
      if negb (nonzero (Z.land (action_mask r) (verdict_bit VERDICT_CONNECT))) then false else
      if negb (nonzero (requires_port r)) then true else
      match port_rule with
      | Some p => (pt_action p =? VERDICT_CONNECT) && (pt_rule_id_hash p =? rule_id_hash r)
      | None => false
      end
  end.

Definition ip_not_in_rule_matches (dip aip : option path_rule) (hash : Z) : bool :=
  match dip with
  | None => false
  | Some d =>
      if negb (rule_id_hash d =? hash) || negb (decision d =? MAP_DECISION_DENY) then false else
      match aip with
      | Some a => negb (rule_id_hash a =? hash)
      | None => true
      end
  end.

Definition port_not_in_rule_matches (dpt apt : option port_rule) (hash : Z) : bool :=
  match dpt with
  | None => false
  | Some d =>
      if negb (pt_rule_id_hash d =? hash) || negb (pt_decision d =? MAP_DECISION_DENY) then false else
      match apt with
      | Some a => negb (pt_rule_id_hash a =? hash)
      | None => true
      end
  end.

(** [emit_deny_ex] followed by [return -EPERM], as every deny branch below. *)
Definition deny_connect (hash : Z) (ip : list Z) (ip_len port : Z) : prog Z :=
  _ ← emit_deny_ex VERDICT_CONNECT hash None 0 (Some ip) ip_len port;
  mret (- EPERM).

Definition enforce_connect_parsed (ip : option (list Z)) (ip_len port : Z) : prog Z :=
  match ip with
  | None => mret 0
  | Some addr =>
    if ip_len <=? 0 then mret 0 else
    dip ← ip_lpm_lookup ip_deny ip ip_len;
    aip ← ip_lpm_lookup ip_allow ip ip_len;
    dpt ← enf (fun m => port_deny m !! port);
    apt ← enf (fun m => port_allow m !! port);
    dpt_catch ← enf (fun m => port_deny m !! 0);
    let deny hash := deny_connect hash addr ip_len port in
    early when (bool_decide (is_Some aip) && connect_rule_matches aip apt) (mret 0)
    otherwise
    (* dest_ip_not_in and dest_port_not_in of one rule *)
    early match dip, dpt_catch with
          | Some d, Some c =>
              if (rule_id_hash d =? pt_rule_id_hash c) && nonzero (requires_port d)
                   && nonzero (requires_ip c)
              then when (ip_not_in_rule_matches dip aip (rule_id_hash d)
                           && port_not_in_rule_matches dpt_catch apt (rule_id_hash d))
                     (deny (rule_id_hash d))
              else None
          | _, _ => None
          end
    otherwise
    (* an IP rule without port predicates *)
    early match dip with
          | Some d =>
              if negb (nonzero (requires_port d)) then
                if match aip with
                   | Some a => (decision a =? MAP_DECISION_ALLOW)
                                 && nonzero (Z.land (action_mask a) (verdict_bit VERDICT_CONNECT))
                                 && connect_rule_matches aip apt
                   | None => false
                   end
                then Some (mret 0)
                else when (ip_not_in_rule_matches dip aip (rule_id_hash d))
                       (deny (rule_id_hash d))
              else None
          | None => None
          end
    otherwise
    (* the dest_port_not_in catch-all of a rule without IP predicates *)
    early match dpt_catch with
          | Some c =>
              when (negb (nonzero (requires_ip c))
                      && port_not_in_rule_matches dpt_catch apt (pt_rule_id_hash c))
                (deny (pt_rule_id_hash c))
          | None => None
          end
    otherwise
    (* a rule with dest_ip_in and dest_port_in *)
    early match dip with
          | Some d =>
              if nonzero (requires_port d) && connect_rule_matches dip dpt then
                if match aip with Some a => specificity d <? specificity a | None => false end
                then Some (mret 0)
                else Some (deny (rule_id_hash d))
              else None
          | None => None
          end
    otherwise
    (* a port rule; the element pointers differ exactly when the keys do *)
    early match dpt with
          | Some p =>
              if negb (port =? 0) && (pt_decision p =? MAP_DECISION_DENY)
                   && (pt_action p =? VERDICT_CONNECT)
              then
                if match apt with
                   | Some a => pt_rule_id_hash a =? pt_rule_id_hash p
                   | None => false
                   end
                then Some (mret 0)
                else Some (deny (pt_rule_id_hash p))
              else None
          | None => None
          end
    otherwise
    mret 0
  end.

Definition enforce_connect (address : Z) : prog Z :=
  family ← ask (fun E => bpf_probe_read_user E address 2);
  if negb family.1 then mret 0 else
  let fam := le_val family.2 in
  if fam =? AF_INET then
    sin ← ask (fun E => bpf_probe_read_user E address sizeof_sockaddr_in);
    if negb sin.1 then mret 0 else
    let port := port_host (sin_port (sockaddr_in_of_bytes sin.2)) in
    (* the source address is the program's own local [sin.sin_addr] *)
    ip4 ← ask (fun E => bpf_probe_read_user E (stack_addr E) 4);
    if negb ip4.1 then mret 0 else
    enforce_connect_parsed (Some (splice 0 ip4.2 (zeros 16))) 4 port
  else if fam =? AF_INET6 then
    sin6 ← ask (fun E => bpf_probe_read_user E address sizeof_sockaddr_in6);
    if negb sin6.1 then mret 0 else
    let port := port_host (sin6_port (sockaddr_in6_of_bytes sin6.2)) in
    ip16 ← ask (fun E => bpf_probe_read_user E (stack_addr E) 16);
    if negb ip16.1 then mret 0 else
    enforce_connect_parsed (Some (splice 0 ip16.2 (zeros 16))) 16 port
  else mret 0.

(** ** Cgroup connect hooks: 1 allows, 0 denies *)

Definition cgroup_user_port (user_port : Z) : Z := port_host (u16 user_port).

Definition cgroup_connect_action (ip : list Z) (ip_len port : Z) : prog Z :=
  rc ← enforce_connect_parsed (Some ip) ip_len port;
  if nonzero rc then _ ← stat_inc STAT_CONNECT_DENY; mret 0 else mret 1.

(** [__builtin_bswap32]. *)
Definition u32_ntoh (be : Z) : Z :=
  Z.lor (Z.shiftl (Z.land be 0xff) 24)
    (Z.lor (Z.shiftl (Z.land (Z.shiftr be 8) 0xff) 16)
      (Z.lor (Z.shiftl (Z.land (Z.shiftr be 16) 0xff) 8)
        (Z.land (Z.shiftr be 24) 0xff))).

Definition be32_to_ip_bytes (ip : list Z) (off : nat) (be : Z) : list Z :=
  let a := u32_ntoh be in
  splice off [Z.land (Z.shiftr a 24) 0xff; Z.land (Z.shiftr a 16) 0xff;
              Z.land (Z.shiftr a 8) 0xff; Z.land a 0xff] ip.

Definition enforce_cgroup_connect4 (ctx : bpf_sock_addr) : prog Z :=
  let ip4 := user_ip4 ctx in
  let user_port := user_port ctx in
  should ← cgroup_should_enforce;
  if negb (should : bool) then mret 1 else
  live ← enforcement_live;
  if negb (live : bool) then _ ← stat_inc STAT_CONNECT_DENY; mret 0 else
  if ip4 =? 0 then mret 1 else
  _ ← stat_inc STAT_CGROUP_CONNECT;
  let ip := be32_to_ip_bytes (zeros 4) 0 ip4 in
  cgroup_connect_action ip 4 (cgroup_user_port user_port).

Definition enforce_cgroup_connect6 (ctx : bpf_sock_addr) : prog Z :=
  let w i := nth i (user_ip6 ctx) 0 in
  let user_port := user_port ctx in
  should ← cgroup_should_enforce;
  if negb (should : bool) then mret 1 else
  live ← enforcement_live;
  if negb (live : bool) then _ ← stat_inc STAT_CONNECT_DENY; mret 0 else
  if (w 0%nat =? 0) && (w 1%nat =? 0) && (w 2%nat =? 0) && (w 3%nat =? 0) then mret 1 else
  _ ← stat_inc STAT_CGROUP_CONNECT;
  let ip := be32_to_ip_bytes (zeros 16) 0 (w 0%nat) in
  let ip := be32_to_ip_bytes ip 4 (w 1%nat) in
  let ip := be32_to_ip_bytes ip 8 (w 2%nat) in
  let ip := be32_to_ip_bytes ip 12 (w 3%nat) in
  cgroup_connect_action ip 16 (cgroup_user_port user_port).

(** ** LSM hooks *)

Definition enforce_file_open (f : file) : prog Z :=
  _ ← stat_inc STAT_FILE_OPEN;
  gate ← enforce_gate;
  if negb (gate : bool) then mret 0 else
  live ← enforcement_live;
  if negb (live : bool) then _ ← stat_inc STAT_OPENAT_DENY; mret (- EPERM) else
  _ ← stat_inc STAT_GATE_PASS;
  let write_intent := nonzero (Z.land (f_flags f) O_ACCMODE) in
  deny_rule ← inode_rule_lookup inode_deny f;
  allow_rule ← inode_rule_lookup inode_allow f;
  enforce_open_verdict deny_rule allow_rule VERDICT_OPEN write_intent None 0.

Definition enforce_path_unlink : prog Z :=
  gate ← enforce_gate;
  if negb (gate : bool) then mret 0 else mret 0.

Definition enforce_path_rename : prog Z :=
  gate ← enforce_gate;
  if negb (gate : bool) then mret 0 else mret 0.

Definition enforce_socket_connect (address : Z) : prog Z :=
  gate ← enforce_gate;
  if negb (gate : bool) then mret 0 else
  live ← enforcement_live;
  if negb (live : bool) then _ ← stat_inc STAT_CONNECT_DENY; mret (- EPERM) else
  rc ← enforce_connect address;
  if nonzero rc then _ ← stat_inc STAT_CONNECT_DENY; mret rc else mret rc.

(** ** Syscall-entry hooks (fmod_ret), fed by the staged arguments *)

Definition enforce_openat_from_pending (pid : Z) : prog Z :=
  po ← enr (fun m => pending_open_paths m !! pid);
  po ← (if match po with Some po => negb (valid_path_len (po_len po)) | None => true end
        then this_cpu (fun s => pending_open_cpu (enroll s)) 0
        else mret po);
  path ← scratch_path_buf;
  match po, path with
  | Some po, Some _ =>
      if negb (valid_path_len (po_len po)) then mret 0 else
      cp ← copy_path_bounded path (po_path po) (po_len po);
      if cp.1 <? 0 then mret 0 else
      let write_intent := nonzero (Z.land (open_flags po) O_ACCMODE) in
      rc ← enforce_path (Some cp.2) cp.1 VERDICT_OPEN write_intent;
      if nonzero rc then _ ← stat_inc STAT_OPENAT_DENY; mret rc else mret rc
  | _, _ => mret 0
  end.

Definition enforce_connect_from_pending (pid : Z) : prog Z :=
  pc ← enr (fun m => pending_connects m !! pid);
  pc ← (if match pc with Some _ => false | None => true end
        then this_cpu (fun s => pending_connect_cpu (enroll s)) 0
        else mret pc);
  match pc with
  | None => mret 0
  | Some pc =>
      if negb (ip_len pc =? 4) && negb (ip_len pc =? 16) then mret 0 else
      rc ← enforce_connect_parsed (Some (ip pc)) (ip_len pc) (port pc);
      if nonzero rc then _ ← stat_inc STAT_CONNECT_DENY; mret rc else mret rc
  end.

Definition empty_path_flag (po : pending_open) : bool :=
  nonzero (Z.land (open_flags po) AT_EMPTY_PATH).

Definition enforce_unlink_from_pending (pid : Z) : prog Z :=
  po ← enr (fun m => pending_unlink_paths m !! pid);
  po ← (if match po with
           | Some po => negb (valid_path_len (po_len po)) && negb (empty_path_flag po)
           | None => true
           end
        then this_cpu (fun s => pending_unlink_cpu (enroll s)) 0
        else mret po);
  path ← scratch_path_buf;
  match po, path with
  | Some po, Some _ =>
      if negb (valid_path_len (po_len po)) || empty_path_flag po then
        _ ← stat_inc STAT_UNLINKAT_DENY; mret (- EPERM)
      else
      cp ← copy_path_bounded path (po_path po) (po_len po);
      if cp.1 <? 0 then mret (- EPERM) else
      rc ← enforce_path (Some cp.2) cp.1 VERDICT_UNLINK false;
      if nonzero rc then _ ← stat_inc STAT_UNLINKAT_DENY; mret rc else mret rc
  | _, _ => mret (- EPERM)
  end.

Definition valid_rename (pr : pending_rename) : bool :=
  valid_path_len (old_len pr) && valid_path_len (new_len pr).

Definition enforce_rename_from_pending (pid : Z) : prog Z :=
  pr ← enr (fun m => pending_rename_paths m !! pid);
  pr ← (if match pr with Some pr => negb (valid_rename pr) | None => true end
        then this_cpu (fun s => pending_rename_cpu (enroll s)) 0
        else mret pr);
  path ← scratch_path_buf;
  match pr, path with
  | Some pr, Some _ =>
      if negb (valid_rename pr) then mret (- EPERM) else
      cp ← copy_path_bounded path (old_path pr) (old_len pr);
      if cp.1 <? 0 then mret (- EPERM) else
      rc ← enforce_path (Some cp.2) cp.1 VERDICT_RENAME false;
      if nonzero rc then _ ← stat_inc STAT_RENAMEAT_DENY; mret rc else
      path ← scratch_path_buf;
      cp ← copy_path_bounded path (new_path pr) (new_len pr);
      if cp.1 <? 0 then mret (- EPERM) else
      rc ← enforce_path (Some cp.2) cp.1 VERDICT_RENAME false;
      if nonzero rc then _ ← stat_inc STAT_RENAMEAT_DENY; mret rc else mret rc
  | _, _ => mret (- EPERM)
  end.

Definition enforce_openat_entry : prog Z :=
  pid ← ask current_pid;
  _ ← stat_inc STAT_OPENAT_FMOD;
  gate ← enforce_gate;
  if negb (gate : bool) then mret 0 else
  live ← enforcement_live;
  if negb (live : bool) then _ ← stat_inc STAT_OPENAT_DENY; mret (- EPERM) else
  enforce_openat_from_pending pid.

Definition enforce_connect_entry : prog Z :=
  pid ← ask current_pid;
  _ ← stat_inc STAT_CONNECT_FMOD;
  gate ← enforce_gate;
  if negb (gate : bool) then mret 0 else
  live ← enforcement_live;
  if negb (live : bool) then _ ← stat_inc STAT_CONNECT_DENY; mret (- EPERM) else
  enforce_connect_from_pending pid.

Definition enforce_unlinkat_entry : prog Z :=
  pid ← ask current_pid;
  _ ← stat_inc STAT_UNLINKAT_FMOD;
  gate ← enforce_gate;
  if negb (gate : bool) then mret 0 else
  live ← enforcement_live;
  if negb (live : bool) then _ ← stat_inc STAT_UNLINKAT_DENY; mret (- EPERM) else
  enforce_unlink_from_pending pid.

Definition enforce_unlink_entry : prog Z :=
  pid ← ask current_pid;
  _ ← stat_inc STAT_UNLINKAT_FMOD;
  gate ← enforce_gate;
  if negb (gate : bool) then mret 0 else
  live ← enforcement_live;
  if negb (live : bool) then _ ← stat_inc STAT_UNLINKAT_DENY; mret (- EPERM) else
  enforce_unlink_from_pending pid.

Definition enforce_renameat2_entry : prog Z :=
  pid ← ask current_pid;
  _ ← stat_inc STAT_RENAMEAT_FMOD;
  gate ← enforce_gate;
  if negb (gate : bool) then mret 0 else
  live ← enforcement_live;
  if negb (live : bool) then _ ← stat_inc STAT_RENAMEAT_DENY; mret (- EPERM) else
  enforce_rename_from_pending pid.

End enforcer.
