(* ===== verification/Enroll.v ===== *)
(** * Enroll: the programs of [agent/bpf/enroll.bpf.c]

    The tracepoint programs that observe process lifecycle and action syscalls,
    keep the advisory tag map and stage syscall arguments for the enforcer.
    The per-CPU scratch record is a byte buffer, written field by field. *)

From S2P Require Import Prelude Types Bpf State.

(** ** Shared helpers *)

Definition inc_drop : prog () :=
  d ← this_cpu (fun s => drops (enroll s)) 0;
  match d with
  | None => mret ()
  | Some d => modify_env (fun E => on_enroll (fun m =>
      set_drops m (pc_write (cpu E) 0 (u64 (d + 1)) (drops m))))
  end.

(** [__builtin_bswap16((__u16)p)]. *)
Definition port_host (p : Z) : Z :=
  let p := u16 p in
  Z.lor (Z.shiftl (Z.land p 0xff) 8) (Z.land (Z.shiftr p 8) 0xff).

Definition path_len_from_user_str (ret : Z) : Z :=
  if ret <=? 1 then -1 else
  let ret := ret - 1 in
  if MAX_PATH <=? ret then MAX_PATH - 1 else ret.

Definition is_tagged_pid (pid : Z) : prog bool :=
  enr (fun m => bool_decide (is_Some (tagged_pids m !! pid))).

Definition tag_pid (pid : Z) : prog () :=
  modify_env (fun E => on_enroll (fun m =>
    set_tagged_pids m (hash_update (map_update_ok E M_tagged_pids) pid 1 (tagged_pids m)))).

Fixpoint tag_from_ancestor_loop (n : nat) (pid task : Z) : prog () :=
  match n with
  | O => mret ()
  | S n =>
      task ← ask (fun E => read_task E 0 real_parent task);
      if task =? 0 then mret () else
      walk_pid ← ask (fun E => u32 (read_task E 0 tgid task));
      if (walk_pid =? 0) || (walk_pid =? pid) then mret () else
      t ← is_tagged_pid walk_pid;
      if (t : bool) then tag_pid pid
      else tag_from_ancestor_loop n pid task
  end.

Definition ensure_tagged_from_ancestor (pid : Z) : prog () :=
  t ← is_tagged_pid pid;
  if (t : bool) then mret () else
  task ← ask bpf_get_current_task;
  tag_from_ancestor_loop 16 pid task.

Definition lookup_scratch : prog (option (list Z)) :=
  this_cpu (fun s => scratch (enroll s)) 0.

(** The buffer is modified in place: the bytes it holds from here on. *)
Definition write_scratch (b : list Z) : prog () :=
  modify_env (fun E => on_enroll (fun m => set_scratch m (pc_write (cpu E) 0 b (scratch m)))).

(** The header stores [init_action_header] and [handle_exec] make. *)
Definition store_header (E : env) (type : Z) (b : list Z) : list Z :=
  let task := bpf_get_current_task E in
  let b := store enroll_event.timestamp_ns (bpf_ktime_get_ns E) b in
  let b := store enroll_event.start_time_ns (read_task E 0 start_time task) b in
  let b := store enroll_event.cgroup_id (bpf_get_current_cgroup_id E) b in
  let b := store enroll_event.pid (current_pid E) b in
  let b := store enroll_event.ppid
             (read_task E 0 tgid (read_task E 0 real_parent task)) b in
  let b := store enroll_event.uid (current_uid E) b in
  let b := store enroll_event.event_type type b in
  splice enroll_event.comm (bpf_get_current_comm E) b.

Definition init_action_header (b : list Z) (type : Z) : prog (list Z) :=
  ask (fun E =>
    store_header E type (splice 0 (zeros (EVENT_HEADER_SIZE + ACTION_DETAIL_SIZE)) b)).

(** [bpf_ringbuf_output] of a whole record; failures are counted. *)
Definition ringbuf_output (rec : list Z) : prog Z :=
  ok ← ask ringbuf_output_ok;
  if (ok : bool) then
    _ ← modify (on_enroll (fun m => set_events m (events m ++ [rec])));
    mret 0
  else _ ← inc_drop; mret (-1).

Definition emit_action (b : list Z) : prog Z := ringbuf_output (take ACTION_RECORD_SIZE b).

(** A length field: the helper's result, cut at the region's size. *)
Definition str_len_field (plen : Z) : Z := if MAX_PATH <=? plen then MAX_PATH else u16 plen.

(** Offsets of the two path regions. *)
Definition path_off : nat := EVENT_HEADER_SIZE + ACTION_DETAIL_SIZE.
Definition path2_off : nat := EVENT_HEADER_SIZE + ACTION_DETAIL_SIZE + 256.

(** ** Process lifecycle *)

(** One bounded copy of an argv or env region of the new image. *)
Definition copy_region (off : nat) (len_field : field) (max start stop : Z) (b : list Z)
    : prog (list Z) :=
  if stop <=? start then mret b else
  let n := stop - start in
  let n := if max <? n then max else n in
  r ← ask (fun E => bpf_probe_read_user E start (Z.to_nat n));
  let b := splice off r.2 b in
  mret (if (r.1 : bool) then store len_field (u16 n) b else b).

Definition handle_exec (ctx : trace_event_raw_sched_process_exec) : prog Z :=
  let floc := Z.land (data_loc_filename ctx) 0xFFFF in
  b ← lookup_scratch;
  match b with
  | None => mret 0
  | Some b =>
      b ← ask (fun E => store_header E EVENT_EXEC (splice 0 (zeros EVENT_HEADER_SIZE) b));
      f ← ask (fun E => bpf_probe_read_kernel_str E (exec_ctx_addr ctx + floc) 256);
      let b := splice EVENT_HEADER_SIZE f.2 b in
      let b := if (0 <? f.1) then
                 store enroll_event.filename_len
                   (if MAX_FILENAME <=? f.1 then MAX_FILENAME else u16 f.1) b
               else b in
      m ← ask (fun E => read_task E None mm (bpf_get_current_task E));
      b ← match m with
          | None => mret b
          | Some m =>
              b ← copy_region 320 enroll_event.argv_len MAX_ARGV (arg_start m) (arg_end m) b;
              copy_region 832 enroll_event.env_len MAX_ENV (env_start m) (env_end m) b
          end;
      _ ← write_scratch b;
      _ ← ringbuf_output (take EVENT_RECORD_SIZE b);
      mret 0
  end.

Definition handle_fork (ctx : trace_event_raw_sched_process_fork) : prog Z :=
  let child_pid := u32 (child_pid ctx) in
  let parent_pid := u32 (parent_pid ctx) in
  comm ← ask (fun E => bpf_probe_read_kernel E (child_comm ctx) 16);
  t ← is_tagged_pid parent_pid;
  _ ← (if (t : bool) then tag_pid child_pid else mret ());
  e ← ask (fun E =>
    let e := zeros EVENT_HEADER_SIZE in
    let e := store enroll_event.timestamp_ns (bpf_ktime_get_ns E) e in
    let e := store enroll_event.cgroup_id (bpf_get_current_cgroup_id E) e in
    let e := store enroll_event.pid child_pid e in
    let e := store enroll_event.ppid parent_pid e in
    let e := store enroll_event.uid (current_uid E) e in
    let e := store enroll_event.event_type EVENT_FORK e in
    splice enroll_event.comm comm.2 e);
  _ ← ringbuf_output e;
  mret 0.

Definition handle_exit : prog Z :=
  tgid ← ask current_pid;
  pid ← ask current_tid;
  if negb (pid =? tgid) then mret 0 else
  e ← ask (fun E =>
    let start_time_ns := read_task E 0 start_time (bpf_get_current_task E) in
    let e := zeros EVENT_HEADER_SIZE in
    let e := store enroll_event.timestamp_ns (bpf_ktime_get_ns E) e in
    let e := store enroll_event.start_time_ns start_time_ns e in
    let e := store enroll_event.pid tgid e in
    let e := store enroll_event.event_type EVENT_EXIT e in
    splice enroll_event.comm (bpf_get_current_comm E) e);
  _ ← ringbuf_output e;
  mret 0.

(** ** Action syscalls *)

(** The two [bpf_map_update_elem] calls every connect branch makes. *)
Definition stage_pending_connect (pid : Z) (pc : pending_connect) : prog () :=
  _ ← modify_env (fun E => on_enroll (fun m => set_pending_connects m
        (hash_update (map_update_ok E M_pending_connects) pid pc (pending_connects m))));
  modify_env (fun E => on_enroll (fun m => set_pending_connect_cpu m
    (if map_update_ok E M_pending_connect_cpu
     then pc_write (cpu E) 0 pc (pending_connect_cpu m) else pending_connect_cpu m))).

Definition handle_connect (ctx : trace_event_raw_sys_enter) : prog Z :=
  pid ← ask current_pid;
  _ ← ensure_tagged_from_ancestor pid;
  t ← is_tagged_pid pid;
  if negb (t : bool) then mret 0 else
  let addr_ptr := arg ctx 1 in
  fam ← ask (fun E => bpf_probe_read_user E addr_ptr 2);
  if negb fam.1 then mret 0 else
  let family := le_val fam.2 in
  if negb (family =? AF_INET) && negb (family =? AF_INET6) then mret 0 else
  b ← lookup_scratch;
  match b with
  | None => mret 0
  | Some b =>
      b ← init_action_header b EVENT_CONNECT;
      let b := store action_detail.family (u8 family) b in
      _ ← write_scratch b;
      if family =? AF_INET then
        r ← ask (fun E => bpf_probe_read_user E addr_ptr sizeof_sockaddr_in);
        if negb r.1 then mret 0 else
        let sin := sockaddr_in_of_bytes r.2 in
        let dport := port_host (sin_port sin) in
        let b := store action_detail.dport dport b in
        let b := splice action_detail.addr (sin_addr sin) b in
        _ ← write_scratch b;
        _ ← stage_pending_connect pid
              (mk_pending_connect dport 4 0 (splice 0 (sin_addr sin) (zeros 16)));
        _ ← emit_action b;
        mret 0
      else
        r ← ask (fun E => bpf_probe_read_user E addr_ptr sizeof_sockaddr_in6);
        if negb r.1 then mret 0 else
        let sin6 := sockaddr_in6_of_bytes r.2 in
        let dport := port_host (sin6_port sin6) in
        let b := store action_detail.dport dport b in
        let b := splice action_detail.addr (sin6_addr sin6) b in
        _ ← write_scratch b;
        _ ← stage_pending_connect pid
              (mk_pending_connect dport 16 0 (splice 0 (sin6_addr sin6) (zeros 16)));
        _ ← emit_action b;
        mret 0
  end.

(** Copy of a scratch path region into a staged path: [path_buf] is the pointer
    into the scratch record, given by the bytes from there on. *)
Definition read_staged_path (path_buf : list Z) : prog (bool * list Z) :=
  r ← ask (fun E => bpf_probe_read_kernel E path_buf 255);
  mret (r.1, splice 0 r.2 (zeros 256)).

Definition stage_pending_open (pid flags : Z) (path_buf : list Z) (path_len : Z) : prog () :=
  if negb (0 <? path_len) then mret () else
  p ← read_staged_path path_buf;
  if negb p.1 then mret () else
  let po := mk_pending_open (u16 path_len) (u16 flags) p.2 in
  _ ← modify_env (fun E => on_enroll (fun m => set_pending_open_paths m
        (hash_update (map_update_ok E M_pending_open_paths) pid po (pending_open_paths m))));
  modify_env (fun E => on_enroll (fun m => set_pending_open_cpu m
    (if map_update_ok E M_pending_open_cpu
     then pc_write (cpu E) 0 po (pending_open_cpu m) else pending_open_cpu m))).

Definition handle_openat (ctx : trace_event_raw_sys_enter) : prog Z :=
  pid ← ask current_pid;
  _ ← ensure_tagged_from_ancestor pid;
  t ← is_tagged_pid pid;
  if negb (t : bool) then mret 0 else
  let path := arg ctx 1 in
  let flags := u32 (arg ctx 2) in
  b ← lookup_scratch;
  match b with
  | None => mret 0
  | Some b =>
      b ← init_action_header b EVENT_OPEN;
      let b := store action_detail.open_flags flags b in
      r ← ask (fun E => bpf_probe_read_user_str E path 256);
      let b := splice path_off r.2 b in
      let plen := r.1 in
      if plen <=? 0 then _ ← write_scratch b; mret 0 else
      let b := store enroll_event.argv_len (str_len_field plen) b in
      _ ← write_scratch b;
      _ ← stage_pending_open pid flags (drop path_off b) (path_len_from_user_str plen);
      _ ← emit_action b;
      mret 0
  end.

Definition stage_pending_unlink (pid flags : Z) (path_buf : list Z) (path_len : Z) : prog () :=
  p ← (if 0 <? path_len then read_staged_path path_buf else mret (true, zeros 256));
  if negb p.1 then mret () else
  let po := mk_pending_open (if 0 <? path_len then u16 path_len else 0) (u16 flags) p.2 in
  _ ← modify_env (fun E => on_enroll (fun m => set_pending_unlink_paths m
        (hash_update (map_update_ok E M_pending_unlink_paths) pid po (pending_unlink_paths m))));
  modify_env (fun E => on_enroll (fun m => set_pending_unlink_cpu m
    (if map_update_ok E M_pending_unlink_cpu
     then pc_write (cpu E) 0 po (pending_unlink_cpu m) else pending_unlink_cpu m))).

Definition handle_unlinkat (ctx : trace_event_raw_sys_enter) : prog Z :=
  pid ← ask current_pid;
  _ ← ensure_tagged_from_ancestor pid;
  t ← is_tagged_pid pid;
  if negb (t : bool) then mret 0 else
  let path := arg ctx 1 in
  let flags := u32 (arg ctx 2) in
  b ← lookup_scratch;
  match b with
  | None => mret 0
  | Some b =>
      b ← init_action_header b EVENT_UNLINK;
      r ← ask (fun E => bpf_probe_read_user_str E path 256);
      let b := splice path_off r.2 b in
      let plen := r.1 in
      if 0 <? plen then
        let b := store enroll_event.argv_len (str_len_field plen) b in
        _ ← write_scratch b;
        _ ← stage_pending_unlink pid flags (drop path_off b) (path_len_from_user_str plen);
        _ ← emit_action b;
        mret 0
      else
        _ ← write_scratch b;
        if nonzero (Z.land flags AT_EMPTY_PATH) then
          _ ← stage_pending_unlink pid flags (drop path_off b) 0;
          mret 0
        else mret 0
  end.

Definition handle_unlink (ctx : trace_event_raw_sys_enter) : prog Z :=
  pid ← ask current_pid;
  _ ← ensure_tagged_from_ancestor pid;
  t ← is_tagged_pid pid;
  if negb (t : bool) then mret 0 else
  let path := arg ctx 0 in
  b ← lookup_scratch;
  match b with
  | None => mret 0
  | Some b =>
      b ← init_action_header b EVENT_UNLINK;
      r ← ask (fun E => bpf_probe_read_user_str E path 256);
      let b := splice path_off r.2 b in
      let plen := r.1 in
      if plen <=? 0 then _ ← write_scratch b; mret 0 else
      let b := store enroll_event.argv_len (str_len_field plen) b in
      _ ← write_scratch b;
      _ ← stage_pending_unlink pid 0 (drop path_off b) (path_len_from_user_str plen);
      _ ← emit_action b;
      mret 0
  end.

(** The entry of [pending_rename_cpu] is filled in place, then copied into the
    per-pid map when both paths were read. *)
Definition stage_pending_rename (pid : Z) (path_buf path2_buf : list Z) (old_len new_len : Z)
    : prog () :=
  if negb ((0 <? old_len) && (0 <? new_len)) then mret () else
  pr ← this_cpu (fun s => pending_rename_cpu (enroll s)) 0;
  match pr with
  | None => mret ()
  | Some _ =>
      p1 ← read_staged_path path_buf;
      p2 ← (if (p1.1 : bool) then read_staged_path path2_buf else mret (false, zeros 256));
      let pr := mk_pending_rename (u16 old_len) (u16 new_len) p1.2 p2.2 in
      _ ← modify_env (fun E => on_enroll (fun m =>
            set_pending_rename_cpu m (pc_write (cpu E) 0 pr (pending_rename_cpu m))));
      if p1.1 && p2.1 then
        modify_env (fun E => on_enroll (fun m => set_pending_rename_paths m
          (hash_update (map_update_ok E M_pending_rename_paths) pid pr (pending_rename_paths m))))
      else mret ()
  end.

Definition handle_renameat2 (ctx : trace_event_raw_sys_enter) : prog Z :=
  pid ← ask current_pid;
  _ ← ensure_tagged_from_ancestor pid;
  t ← is_tagged_pid pid;
  if negb (t : bool) then mret 0 else
  let oldpath := arg ctx 1 in
  let newpath := arg ctx 3 in
  b ← lookup_scratch;
  match b with
  | None => mret 0
  | Some b =>
      b ← init_action_header b EVENT_RENAME;
      r1 ← ask (fun E => bpf_probe_read_user_str E oldpath 256);
      let b := splice path_off r1.2 b in
      if r1.1 <=? 0 then _ ← write_scratch b; mret 0 else
      let b := store enroll_event.argv_len (str_len_field r1.1) b in
      r2 ← ask (fun E => bpf_probe_read_user_str E newpath 256);
      let b := splice path2_off r2.2 b in
      if r2.1 <=? 0 then _ ← write_scratch b; mret 0 else
      let b := store enroll_event.env_len (str_len_field r2.1) b in
      _ ← write_scratch b;
      _ ← stage_pending_rename pid (drop path_off b) (drop path2_off b)
            (path_len_from_user_str r1.1) (path_len_from_user_str r2.1);
      _ ← emit_action b;
      mret 0
  end.
