(* ===== verification/Gate.v ===== *)
(** * Gate: who is enforced, and when

    The tag lookup with its ancestor walk, the enforcement gate of
    [enforcer.bpf.c], and what every enforcement program leaves unchanged. *)

From S2P Require Import Prelude Types Bpf State Logic.
From S2P Require Enforcer Enroll.
Import Enforcer.

(** The two objects carry their own copies of the tag helpers. *)
Lemma is_tagged_pid_copies : Enroll.is_tagged_pid = is_tagged_pid.
Proof. reflexivity. Qed.

Lemma ensure_tagged_copies : Enroll.ensure_tagged_from_ancestor = ensure_tagged_from_ancestor.
Proof. reflexivity. Qed.

Lemma port_host_copies p : 0 <= p < 2 ^ 16 -> Enroll.port_host p = Enforcer.port_host p.
Proof.
  intros. unfold Enroll.port_host, Enforcer.port_host, u16. cbv zeta.
  by rewrite Z.mod_small.
Qed.

(** ** Tags *)

Definition is_tagged (pid : Z) (s : kstate) : Prop := is_Some (tagged_pids (enroll s) !! pid).

#[global] Instance is_tagged_dec pid s : Decision (is_tagged pid s).
Proof. unfold is_tagged. apply _. Defined.

(** The [k]-th ancestor of a task along [real_parent]. *)
Definition ancestor (E : env) (k : nat) (task : Z) : Z := Nat.iter k (read_task E 0 real_parent) task.

Definition pid_of_task (E : env) (task : Z) : Z := u32 (read_task E 0 tgid task).

(** A tagged ancestor the walk reaches within [n] parent steps: nothing on the
    way is NULL, has pid 0 or is the process itself. *)
Definition tagged_ancestor (E : env) (s : kstate) (n : nat) (pid task : Z) : Prop :=
  exists k, (1 <= k <= n)%nat /\ is_tagged (pid_of_task E (ancestor E k task)) s /\
    forall j, (1 <= j <= k)%nat ->
      ancestor E j task <> 0 /\ pid_of_task E (ancestor E j task) <> 0 /\
      pid_of_task E (ancestor E j task) <> pid.

Lemma ancestor_succ E k task :
  ancestor E (S k) task = ancestor E k (read_task E 0 real_parent task).
Proof. unfold ancestor. by rewrite Nat.iter_succ_r. Qed.

Lemma tagged_ancestor_0 E s pid task : ~ tagged_ancestor E s 0 pid task.
Proof. intros (k & ? & _). lia. Qed.

Lemma tagged_ancestor_S E s n pid task :
  let parent := read_task E 0 real_parent task in
  tagged_ancestor E s (S n) pid task <->
  parent <> 0 /\ pid_of_task E parent <> 0 /\ pid_of_task E parent <> pid /\
  (is_tagged (pid_of_task E parent) s \/ tagged_ancestor E s n pid parent).
Proof.
  cbv zeta. split.
  - intros (k & Hk & Ht & Hpath).
    pose proof (Hpath 1%nat ltac:(lia)) as (H1 & H2 & H3). simpl in H1, H2, H3.
    split_and!; try done.
    destruct (decide (k = 1%nat)) as [->|Hne]; [by left|right].
    destruct k as [|k]; [lia|]. exists k. rewrite ancestor_succ in Ht. split_and!; [lia|lia|done|].
    intros j Hj. rewrite <- ancestor_succ. apply Hpath. lia.
  - intros (H1 & H2 & H3 & [Ht|(k & Hk & Ht & Hpath)]).
    + exists 1%nat. split_and!; [lia|lia|done|]. intros j Hj. by replace j with 1%nat by lia.
    + exists (S k). rewrite ancestor_succ. split_and!; [lia|lia|done|].
      intros [|j] Hj; [lia|]. destruct j as [|j]; [done|].
      rewrite ancestor_succ. apply Hpath. lia.
Qed.

(** The state after tagging [pid]. *)
Definition with_tag (E : env) (pid : Z) (s : kstate) : kstate :=
  on_enroll (fun m => set_tagged_pids m
    (hash_update (map_update_ok E M_tagged_pids) pid 1 (tagged_pids m))) s.

Lemma tag_loop_spec E n pid task s :
  (tagged_ancestor E s n pid task /\
     state_of (tag_from_ancestor_loop n pid task) E s = with_tag E pid s) \/
  (~ tagged_ancestor E s n pid task /\
     state_of (tag_from_ancestor_loop n pid task) E s = s).
Proof.
  revert task. induction n as [|n IH]; intros task.
  - right. split; [apply tagged_ancestor_0|done].
  - rewrite tagged_ancestor_S. cbn [tag_from_ancestor_loop].
    rewrite state_of_bind. cbn [ret_of state_of ask fst snd].
    set (p := read_task E 0 real_parent task). fold (ask (A := Z)).
    destruct (Z.eqb_spec p 0) as [->|Hp]; [right; split; [tauto|done]|].
    rewrite state_of_bind. cbn [ret_of state_of ask fst snd]. fold (pid_of_task E p).
    destruct (Z.eqb_spec (pid_of_task E p) 0) as [H0|H0]; [right; split; [tauto|done]|].
    destruct (Z.eqb_spec (pid_of_task E p) pid) as [Hs|Hs]; [right; split; [tauto|done]|].
    cbn [orb]. rewrite state_of_bind.
    change (ret_of (is_tagged_pid (pid_of_task E p)) E s)
      with (bool_decide (is_tagged (pid_of_task E p) s)).
    change (state_of (is_tagged_pid (pid_of_task E p)) E s) with s.
    case_bool_decide as Ht; [left; split; [tauto|done]|].
    destruct (IH p) as [[Ha ->]|[Ha ->]]; [left|right]; split; tauto || done.
Qed.

Definition task_of (E : env) : Z := bpf_get_current_task E.

(** What [ensure_tagged_from_ancestor] does, in one equation. *)
Lemma ensure_tagged_spec E pid s :
  (is_tagged pid s /\ state_of (ensure_tagged_from_ancestor pid) E s = s) \/
  (~ is_tagged pid s /\ tagged_ancestor E s 16 pid (task_of E) /\
     state_of (ensure_tagged_from_ancestor pid) E s = with_tag E pid s) \/
  (~ is_tagged pid s /\ ~ tagged_ancestor E s 16 pid (task_of E) /\
     state_of (ensure_tagged_from_ancestor pid) E s = s).
Proof.
  unfold ensure_tagged_from_ancestor. rewrite state_of_bind.
  change (ret_of (is_tagged_pid pid) E s) with (bool_decide (is_tagged pid s)).
  change (state_of (is_tagged_pid pid) E s) with s.
  case_bool_decide as Ht; [by left|right].
  rewrite state_of_bind. change (ret_of (ask bpf_get_current_task) E s) with (task_of E).
  change (state_of (ask bpf_get_current_task) E s) with s.
  destruct (tag_loop_spec E 16 pid (task_of E) s) as [[? ->]|[? ->]]; [left|right]; done.
Qed.

Lemma is_tagged_with_tag E pid pid' s :
  is_tagged pid' (with_tag E pid s) <->
  is_tagged pid' s \/ (pid' = pid /\ map_update_ok E M_tagged_pids = true).
Proof.
  unfold is_tagged, with_tag, hash_update. cbn.
  destruct (map_update_ok E M_tagged_pids); [|naive_solver].
  destruct (decide (pid' = pid)) as [->|Hne].
  - rewrite lookup_insert_eq. naive_solver.
  - rewrite lookup_insert_ne by done. naive_solver.
Qed.

(** ** The gate *)

(** The control word, when the array lookup answers. *)
Definition ctrl (s : kstate) : option policy_ctrl := policy_ctrl_map (enforcer s) !! 0%nat.

Definition active (s : kstate) : bool :=
  match ctrl s with Some c => nonzero (enforcement_active c) | None => false end.

Definition closed (s : kstate) : bool :=
  match ctrl s with Some c => nonzero (fail_closed c) | None => false end.

(** The process is enrolled: tagged, or a tagged ancestor is found and the tag
    can be written. *)
Definition enrolled (E : env) (s : kstate) : Prop :=
  is_tagged (current_pid E) s \/
  (tagged_ancestor E s 16 (current_pid E) (task_of E) /\ map_update_ok E M_tagged_pids = true).

(** State after the tag lookup of the gate. *)
Definition after_ensure (E : env) (s : kstate) : kstate :=
  state_of (ensure_tagged_from_ancestor (current_pid E)) E s.

Lemma ensure_tagged_enrolled E s :
  is_tagged (current_pid E) (after_ensure E s) <-> enrolled E s.
Proof.
  unfold after_ensure, enrolled.
  destruct (ensure_tagged_spec E (current_pid E) s) as [[? ->]|[(? & ? & ->)|(? & ? & ->)]];
    [tauto|rewrite is_tagged_with_tag; naive_solver|tauto].
Qed.

Lemma enforcement_live_run E s : enforcement_live E s = (active s, s).
Proof.
  unfold enforcement_live, active. rewrite (run_bind _ _ E s (ctrl s) s) by done.
  by destruct (ctrl s).
Qed.

Lemma fail_closed_regime_run E s : fail_closed_regime E s = (negb (active s) && closed s, s).
Proof.
  unfold fail_closed_regime, active, closed. rewrite (run_bind _ _ E s (ctrl s) s) by done.
  destruct (ctrl s) as [c|]; [|done].
  by destruct (nonzero (enforcement_active c)).
Qed.

Lemma cgroup_should_enforce_run E s : cgroup_should_enforce E s = (active s || closed s, s).
Proof.
  unfold cgroup_should_enforce. erewrite run_bind by apply enforcement_live_run.
  destruct (active s) eqn:Ha; [done|]. rewrite fail_closed_regime_run, Ha. done.
Qed.

(** [ensure] only touches the tag map. *)
Lemma after_ensure_frame E s :
  enforcer (after_ensure E s) = enforcer s /\
  enroll (after_ensure E s) = set_tagged_pids (enroll s) (tagged_pids (enroll (after_ensure E s))).
Proof.
  unfold after_ensure.
  destruct (ensure_tagged_spec E (current_pid E) s) as [[? ->]|[(? & ? & ->)|(? & ? & ->)]];
    (split; [done|]); destruct s as [[] ?]; reflexivity.
Qed.

Lemma ctrl_after_ensure E s : ctrl (after_ensure E s) = ctrl s.
Proof. unfold ctrl. by destruct (after_ensure_frame E s) as [-> _]. Qed.

Lemma active_after_ensure E s : active (after_ensure E s) = active s.
Proof. unfold active. by rewrite ctrl_after_ensure. Qed.

Lemma enforce_gate_run E s :
  enforce_gate E s =
  if active s || closed s
  then (bool_decide (is_tagged (current_pid E) (after_ensure E s)), after_ensure E s)
  else (false, s).
Proof.
  unfold enforce_gate, active, closed. rewrite (run_bind _ _ E s (ctrl s) s) by done.
  destruct (ctrl s) as [c|]; [|done].
  rewrite <- negb_orb. destruct (nonzero _ || nonzero _); done.
Qed.

(** The result of the gate, with the branches of its C code. *)
Lemma enforce_gate_cases E s :
  (active s || closed s = true /\ enrolled E s /\ enforce_gate E s = (true, after_ensure E s)) \/
  (active s || closed s = true /\ ~ enrolled E s /\ enforce_gate E s = (false, after_ensure E s)) \/
  (active s || closed s = false /\ enforce_gate E s = (false, s)).
Proof.
  rewrite enforce_gate_run. destruct (active s || closed s); [|by auto].
  case_bool_decide as Ht; rewrite ensure_tagged_enrolled in Ht; auto.
Qed.

(** The gate opens exactly for enrolled processes (tagged, or with a tagged
    ancestor within 16 parents whose tag can be written) when enforcement is active
    or fail-closed is set. *)
Theorem gate_opens_iff E s :
  (enforce_gate E s).1 = true <-> active s || closed s = true /\ enrolled E s.
Proof.
  destruct (enforce_gate_cases E s) as [(Ha & He & ->)|[(Ha & He & ->)|(Ha & ->)]];
    rewrite Ha; (split; [done|]); intros [? ?]; done.
Qed.

(** The ancestor walk tags the process itself when an ancestor within 16
    parents is tagged and the map update succeeds, and changes no other tag. *)
Theorem ensure_tags_exactly E pid q s :
  is_tagged q (state_of (ensure_tagged_from_ancestor pid) E s) <->
  is_tagged q s \/
  (q = pid /\ tagged_ancestor E s 16 pid (task_of E) /\ map_update_ok E M_tagged_pids = true).
Proof.
  destruct (ensure_tagged_spec E pid s) as [[Ht ->]|[(Hn & Ha & ->)|(Hn & Ha & ->)]].
  - naive_solver.
  - rewrite is_tagged_with_tag. naive_solver.
  - naive_solver.
Qed.
