(* ===== verification/PathVerdict.v ===== *)
(** * PathVerdict: the decision on a path

    The per-path lookup and verdict of [enforcer.bpf.c], run against the
    longest-prefix tries, and its specification on byte strings. *)

From S2P Require Import Prelude Types Bpf State Logic.
From S2P Require Import Enforcer.

(** ** Longest-prefix matching, as a relation *)

Definition longest_rule (t : lpm_trie) (k : lpm_key) (r : path_rule) : Prop :=
  exists e, (e, r) ∈ t /\ lpm_covers e k = true /\
    forall e' r', (e', r') ∈ t -> lpm_covers e' k = true -> prefixlen e' <= prefixlen e.

(** One value per prefix, as the kernel's trie has. *)
Definition lpm_functional (t : lpm_trie) : Prop :=
  forall e1 r1 e2 r2, (e1, r1) ∈ t -> (e2, r2) ∈ t -> prefixlen e1 = prefixlen e2 ->
    (forall i, (i < Z.to_nat (prefixlen e1))%nat -> key_bit (data e1) i = key_bit (data e2) i) ->
    r1 = r2.

Lemma lpm_covers_bits e k i :
  lpm_covers e k = true -> (i < Z.to_nat (prefixlen e))%nat ->
  key_bit (data e) i = key_bit (data k) i.
Proof.
  unfold lpm_covers. rewrite andb_true_iff, forallb_forall. intros [_ H] Hi.
  specialize (H i). rewrite in_seq in H. apply eqb_prop, H. lia.
Qed.

Lemma longest_rule_functional t k r r' :
  lpm_functional t -> longest_rule t k r -> longest_rule t k r' -> r = r'.
Proof.
  intros Hf (e & Hin & Hc & Hmax) (e' & Hin' & Hc' & Hmax').
  assert (prefixlen e = prefixlen e') as Heq
    by (apply Z.le_antisymm; [by eapply Hmax'|by eapply Hmax]).
  apply (Hf e r e' r'); [done..|]. intros i Hi.
  rewrite (lpm_covers_bits e k i), (lpm_covers_bits e' k i) by (done || by rewrite <- Heq).
  done.
Qed.

(** Coverage only looks at the bits inside the key's prefix. *)
Lemma lpm_covers_ext e k1 k2 n :
  prefixlen k1 = 8 * Z.of_nat n -> prefixlen k2 = 8 * Z.of_nat n ->
  take n (data k1) = take n (data k2) -> lpm_covers e k1 = lpm_covers e k2.
Proof.
  intros H1 H2 Htake. unfold lpm_covers. rewrite H1, H2.
  destruct (Z.leb_spec (prefixlen e) (8 * Z.of_nat n)) as [Hle|]; [|done].
  cbn [andb]. apply eq_true_iff_eq. rewrite !forallb_forall.
  assert (forall i, (i < Z.to_nat (prefixlen e))%nat ->
            key_bit (data k1) i = key_bit (data k2) i) as Hbit.
  { intros i Hi. unfold key_bit. f_equal.
    assert (i / 8 < n)%nat by (apply Nat.Div0.div_lt_upper_bound; lia).
    rewrite !nth_lookup. rewrite <- (lookup_take_lt (data k1) n), <- (lookup_take_lt (data k2) n) by done.
    by rewrite Htake. }
  split; intros H i Hi; pose proof Hi as Hi'; apply in_seq in Hi'; [rewrite <- Hbit by lia|rewrite Hbit by lia]; by apply H.
Qed.

(** The key of a byte string: its bytes, then zeros. *)
Definition path_key (p : list Z) : lpm_key :=
  mk_lpm_key (8 * Z.of_nat (length p)) (p ++ zeros (256 - length p)).

Section path_verdict.
Context `{L : LpmTrie, !LpmTrieSpec L}.

Lemma lpm_lookup_longest t k r :
  lpm_functional t -> lpm_lookup t k = Some r <-> longest_rule t k r.
Proof.
  intros Hf. split.
  - intros Hl. by apply lpm_lookup_Some in Hl.
  - intros Hr. destruct (lpm_lookup t k) as [r'|] eqn:Hl.
    + f_equal. apply (longest_rule_functional t k); [done| |done].
      by apply lpm_lookup_Some in Hl.
    + destruct Hr as (e & Hin & Hc & _).
      rewrite (lpm_lookup_None t k Hl e r Hin) in Hc. done.
Qed.

(** Keys that the same entries of the trie cover look up the same rule. *)
Lemma lpm_lookup_agree t k1 k2 :
  lpm_functional t -> (forall e r, (e, r) ∈ t -> lpm_covers e k1 = lpm_covers e k2) ->
  lpm_lookup t k1 = lpm_lookup t k2.
Proof.
  intros Hf Hc. apply option_eq. intros r. rewrite !lpm_lookup_longest by done.
  split; intros (e & Hin & He & Hmax); exists e; (split_and!; [done| |]).
  1: rewrite <- (Hc e r Hin). 3: rewrite (Hc e r Hin). 1, 3: done.
  all: intros e' r' Hin' He'; apply (Hmax e' r' Hin').
  - by rewrite (Hc e' r' Hin').
  - by rewrite <- (Hc e' r' Hin').
Qed.

Lemma lpm_lookup_ext t k1 k2 :
  lpm_functional t -> (forall e, lpm_covers e k1 = lpm_covers e k2) ->
  lpm_lookup t k1 = lpm_lookup t k2.
Proof. intros Hf Hc. by apply lpm_lookup_agree. Qed.

(** ** The verdict on a path *)

(** [enforce_open_verdict] without its effects: the hash of the denying rule. *)
Definition open_verdict (d a : option path_rule) (verdict : Z) (write_intent : bool) : option Z :=
  let deny := rule_applies MAP_DECISION_DENY verdict write_intent d in
  let deny_spec := match deny with Some r => specificity r | None => 0 end in
  match rule_applies MAP_DECISION_ALLOW verdict write_intent a with
  | Some a => if deny_spec <? specificity a then None else rule_id_hash <$> deny
  | None => rule_id_hash <$> deny
  end.

Definition path_verdict (m : enforcer_maps) (verdict : Z) (write_intent : bool) (p : list Z)
    : option Z :=
  open_verdict (lpm_lookup (path_deny m) (path_key p)) (lpm_lookup (path_allow m) (path_key p))
    verdict write_intent.

(** The specification: the longest deny rule on the path is a deny rule for the
    action, and the longest allow rule is not a more specific allow for it. *)
Definition rule_for (t : lpm_trie) (dec verdict : Z) (write_intent : bool) (p : list Z)
    (r : path_rule) : Prop :=
  longest_rule t (path_key p) r /\ decision r = dec /\
    action_matches (action_mask r) verdict write_intent = true.

Definition path_denied (m : enforcer_maps) (verdict : Z) (write_intent : bool) (p : list Z)
    (hash : Z) : Prop :=
  exists d, rule_for (path_deny m) MAP_DECISION_DENY verdict write_intent p d /\
    rule_id_hash d = hash /\
    ~ exists a, rule_for (path_allow m) MAP_DECISION_ALLOW verdict write_intent p a /\
    specificity d < specificity a.

Lemma rule_applies_rule_for t dec v wi p r :
  lpm_functional t ->
  rule_applies dec v wi (lpm_lookup t (path_key p)) = Some r <-> rule_for t dec v wi p r.
Proof.
  intros Hf. unfold rule_for. rewrite <- lpm_lookup_longest by done.
  destruct (lpm_lookup t (path_key p)) as [r'|]; simpl; [|by split; [|intros [[=] _]]].
  destruct ((decision r' =? dec) && action_matches (action_mask r') v wi) eqn:Hb.
  - rewrite andb_true_iff, Z.eqb_eq in Hb. split; [intros [= <-]; tauto|by intros [? _]].
  - rewrite andb_false_iff, Z.eqb_neq in Hb. split; [done|].
    intros ([= <-] & Hdec & Hact). destruct Hb; congruence.
Qed.

Definition tries_functional (m : enforcer_maps) : Prop :=
  lpm_functional (path_deny m) /\ lpm_functional (path_allow m).

Lemma path_verdict_denied m v wi p h :
  tries_functional m -> path_verdict m v wi p = Some h <-> path_denied m v wi p h.
Proof.
  intros [Hd Ha]. unfold path_verdict, path_denied, open_verdict.
  setoid_rewrite <- (rule_applies_rule_for _ _ _ _ _ _ Hd).
  setoid_rewrite <- (rule_applies_rule_for _ _ _ _ _ _ Ha).
  destruct (rule_applies MAP_DECISION_DENY _ _ _) as [d|];
    destruct (rule_applies MAP_DECISION_ALLOW _ _ _) as [a|]; simpl.
  1: destruct (Z.ltb_spec (specificity d) (specificity a)).
  1: split; [done|]; intros (d' & [= <-] & _ & Hn); exfalso; apply Hn; eauto.
  1,2: split; [|by intros (d' & [= <-] & <- & _)]; intros [= <-]; exists d;
    split_and!; [done..|]; intros (a' & [=] & ?); subst; lia.
  all: split; [by destruct (_ <? _) || done|by intros (? & [=] & _)].
Qed.

(** ** Running the programs *)

(** The per-CPU scratch entries of the CPU the program runs on. *)
Definition scratch_ready (E : env) (s : kstate) : Prop :=
  is_Some (pc_lookup (cpu E) 0 (lpm_scratch (enforcer s))) /\
  exists pb, pc_lookup (cpu E) 0 (path_scratch (enforcer s)) = Some pb /\ length pb = 256%nat.

(** [bpf_probe_read_kernel] on the program's own map memory succeeds. *)
Definition kernel_reads (E : env) : Prop :=
  forall src n, (n <= length src)%nat -> (bpf_probe_read_kernel E src n).1 = true.

Definition push_verdict (E : env) (action hash : Z) (path : option (list Z)) (path_len : Z)
    (ip : option (list Z)) (ip_len port : Z) (s : kstate) : kstate :=
  match bpf_ringbuf_reserve E with
  | None => s
  | Some g => on_enforcer (fun m => set_deny_verdicts m
      (deny_verdicts m ++ [fill_deny_verdict E action hash path path_len ip ip_len port g])) s
  end.

Lemma emit_deny_ex_run E action hash path path_len ip ip_len port s :
  emit_deny_ex action hash path path_len ip ip_len port E s =
  ((), push_verdict E action hash path path_len ip ip_len port s).
Proof.
  unfold emit_deny_ex, push_verdict. erewrite run_bind by done.
  by destruct (bpf_ringbuf_reserve E).
Qed.

Lemma enforce_open_verdict_run d a v wi path path_len E s :
  enforce_open_verdict d a v wi path path_len E s =
  match open_verdict d a v wi with
  | Some h => (- EPERM, push_verdict E v h path path_len None 0 0 s)
  | None => (0, s)
  end.
Proof.
  unfold enforce_open_verdict, open_verdict, emit_deny. cbv zeta.
  destruct (rule_applies MAP_DECISION_DENY v wi d) as [r|];
    destruct (rule_applies MAP_DECISION_ALLOW v wi a) as [r'|]; simpl;
    try destruct (Z.ltb _ _); try done; erewrite run_bind by apply emit_deny_ex_run; done.
Qed.

(** The scratch key a lookup leaves behind. *)
Definition set_key (E : env) (k : lpm_key) (s : kstate) : kstate :=
  on_enforcer (fun m => set_lpm_scratch m (pc_write (cpu E) 0 k (lpm_scratch m))) s.

Definition scratch_key (E : env) (buf : list Z) (len : Z) : lpm_key :=
  mk_lpm_key (u32 (u32 len * 8)) (splice 0 (bpf_probe_read_kernel E buf 255).2 (zeros 256)).

Lemma path_lpm_lookup_run map buf len E s :
  scratch_ready E s -> 0 < len < MAX_PATH ->
  path_lpm_lookup map (Some buf) len E s =
  (if (bpf_probe_read_kernel E buf 255).1
   then lpm_lookup (map (enforcer (set_key E (scratch_key E buf len) s))) (scratch_key E buf len)
   else None,
   set_key E (scratch_key E buf len) s).
Proof.
  intros [[k Hk] _] Hlen. unfold path_lpm_lookup.
  erewrite run_bind; [|unfold scratch_lpm_key, this_cpu; rewrite Hk; done].
  replace ((len <=? 0) || (MAX_PATH <=? len)) with false by (unfold MAX_PATH in *; lia).
  erewrite run_bind by done. cbv zeta. erewrite run_bind by done. 
  unfold set_key, scratch_key. by destruct (bpf_probe_read_kernel E buf 255) as [[] bs].
Qed.

Lemma scratch_key_path E `{!EnvOk E} buf len :
  kernel_reads E -> length buf = 256%nat -> 0 < len < MAX_PATH ->
  forall e, lpm_covers e (scratch_key E buf len) = lpm_covers e (path_key (take (Z.to_nat len) buf)).
Proof.
  intros Hk Hbuf Hlen e. unfold MAX_PATH in *.
  assert (length (take (Z.to_nat len) buf) = Z.to_nat len) as Hl
    by (rewrite length_take; lia).
  apply (lpm_covers_ext _ _ _ (Z.to_nat len)).
  - cbn. unfold u32. rewrite (Z.mod_small len), Z.mod_small by lia. lia.
  - unfold path_key. cbn [prefixlen]. by rewrite Hl.
  - unfold path_key, scratch_key. cbn [data].
    rewrite probe_read_kernel_ok by (solve [apply Hk; lia] || lia).
    rewrite take_app_le by lia. rewrite take_take, Nat.min_id.
    unfold splice. rewrite take_0, app_nil_l. rewrite take_app_le by (rewrite length_take; lia).
    rewrite take_take. f_equal. lia.
Qed.

(** Two writes of the same scratch entry: the last one stays. *)
Lemma set_key_twice E k k' s : set_key E k (set_key E k' s) = set_key E k s.
Proof.
  unfold set_key, on_enforcer, set_lpm_scratch, pc_write. cbn. rewrite list_alter_alter_eq.
  do 2 f_equal. apply list_alter_ext; [|done].
  intros row _. cbn. by rewrite list_insert_insert_eq.
Qed.

Lemma scratch_ready_set_key E k s : scratch_ready E s -> scratch_ready E (set_key E k s).
Proof.
  intros [H1 H2]. split; [|done]. cbn. rewrite pc_lookup_write by done. done.
Qed.

(** The verdict [enforce_path] computes when the buffer can be read. *)
Lemma enforce_path_run E `{!EnvOk E} s buf len v wi :
  kernel_reads E -> scratch_ready E s -> length buf = 256%nat -> 0 < len < MAX_PATH ->
  tries_functional (enforcer s) ->
  enforce_path (Some buf) len v wi E s =
  match path_verdict (enforcer s) v wi (take (Z.to_nat len) buf) with
  | Some h => (- EPERM, push_verdict E v h (Some buf) len None 0 0
                          (set_key E (scratch_key E buf len) s))
  | None => (0, set_key E (scratch_key E buf len) s)
  end.
Proof.
  intros Hk Hs Hbuf Hlen [Hd Ha]. unfold enforce_path.
  replace ((len <=? 0) || (MAX_PATH <=? len)) with false by (unfold MAX_PATH in *; lia).
  erewrite run_bind by by apply path_lpm_lookup_run.
  erewrite run_bind by (apply path_lpm_lookup_run; auto using scratch_ready_set_key).
  rewrite set_key_twice, enforce_open_verdict_run, Hk by lia.
  unfold path_verdict.
  erewrite (lpm_lookup_ext (path_deny _)), (lpm_lookup_ext (path_allow _));
    [done|done|by apply scratch_key_path|done|by apply scratch_key_path].
Qed.


(** The check of a path implements its specification: -EPERM exactly when the
    longest deny rule on the path is a deny rule for the action and the longest
    allow rule is not a more specific allow for it. *)
Theorem enforce_path_refines E `{!EnvOk E} s buf len v wi :
  kernel_reads E -> scratch_ready E s -> length buf = 256%nat -> 0 < len < MAX_PATH ->
  tries_functional (enforcer s) ->
  let rc := (enforce_path (Some buf) len v wi E s).1 in
  let denied := exists h, path_denied (enforcer s) v wi (take (Z.to_nat len) buf) h in
  (rc = - EPERM /\ denied) \/ (rc = 0 /\ ~ denied).
Proof.
  intros Hk Hs Hb Hl Hf. cbv zeta. rewrite enforce_path_run by done.
  destruct (path_verdict _ _ _ _) as [h|] eqn:Hv.
  - left. split; [done|]. exists h. by apply path_verdict_denied.
  - right. split; [done|]. intros [h Hh]. apply path_verdict_denied in Hh; [congruence|done].
Qed.

End path_verdict.
