(* ===== verification/Hooks.v ===== *)
(** * Hooks: the enforcement hooks as a whole

    The shape every gated hook shares, and the decision of the [fmod_ret] hooks
    on staged paths. *)

From S2P Require Import Prelude Types Bpf State Logic Enforcer Gate PathVerdict.

(** ** Quiet steps: counters and scratch writes *)

(** [s'] differs from [s] in counters and scratch contents only. *)
Record quiet (E : env) (s s' : kstate) : Prop := {
  q_enroll : enroll s' = enroll s;
  q_policy : pol_eq (enforcer s') (enforcer s);
  q_verdicts : deny_verdicts (enforcer s') = deny_verdicts (enforcer s);
  q_ready : scratch_ready E s -> scratch_ready E s'
}.

#[global] Instance quiet_refl E : Reflexive (quiet E).
Proof. by split. Qed.

#[global] Instance quiet_trans E : Transitive (quiet E).
Proof.
  intros s1 s2 s3 [He Hp Hv Hr] [He' Hp' Hv' Hr']. split; [congruence| |congruence|auto].
  by etrans.
Qed.

Definition bump (E : env) (i : Z) (s : kstate) : kstate := state_of (stat_inc i) E s.

Lemma stat_inc_run i E s : stat_inc i E s = ((), bump E i s).
Proof. unfold bump, state_of. by destruct (stat_inc i E s) as [[]]. Qed.

Lemma bump_quiet E i s : quiet E s (bump E i s).
Proof.
  unfold bump, stat_inc, state_of. erewrite run_bind by done.
  destruct (pc_lookup _ _ _); [|done]. by split.
Qed.

Lemma set_key_quiet E k s : quiet E s (set_key E k s).
Proof. split; [done|done|done|apply scratch_ready_set_key]. Qed.

Definition set_path_buf (E : env) (p : list Z) (s : kstate) : kstate :=
  on_enforcer (fun m => set_path_scratch m (pc_write (cpu E) 0 p (path_scratch m))) s.

Lemma set_path_buf_quiet E p s : length p = 256%nat -> quiet E s (set_path_buf E p s).
Proof.
  intros Hp. split; [done..|]. intros [H1 (pb & H2 & _)]. split; [done|].
  exists p. split; [|done]. cbn. apply pc_lookup_write. by eexists.
Qed.

Lemma path_verdict_proper `{L : LpmTrie} m m' v wi p :
  pol_eq m m' -> path_verdict m v wi p = path_verdict m' v wi p.
Proof. intros Heq. unfold path_verdict. by rewrite Heq. Qed.

Lemma tries_functional_proper m m' :
  pol_eq m m' -> tries_functional m -> tries_functional m'.
Proof. unfold tries_functional. by intros ->. Qed.

(** ** The common shape of the gated hooks *)

Definition gated (fmod_stat deny_stat : Z) (body : Z -> prog Z) : prog Z :=
  pid ← ask current_pid;
  _ ← stat_inc fmod_stat;
  gate ← enforce_gate;
  if negb (gate : bool) then mret 0 else
  live ← enforcement_live;
  if negb (live : bool) then _ ← stat_inc deny_stat; mret (- EPERM) else
  body pid.

Section gated.
Context `{L : LpmTrie}.

Lemma enforce_openat_entry_gated :
  enforce_openat_entry = gated STAT_OPENAT_FMOD STAT_OPENAT_DENY enforce_openat_from_pending.
Proof. reflexivity. Qed.
Lemma enforce_connect_entry_gated :
  enforce_connect_entry = gated STAT_CONNECT_FMOD STAT_CONNECT_DENY enforce_connect_from_pending.
Proof. reflexivity. Qed.
Lemma enforce_unlinkat_entry_gated :
  enforce_unlinkat_entry = gated STAT_UNLINKAT_FMOD STAT_UNLINKAT_DENY enforce_unlink_from_pending.
Proof. reflexivity. Qed.
Lemma enforce_unlink_entry_gated :
  enforce_unlink_entry = gated STAT_UNLINKAT_FMOD STAT_UNLINKAT_DENY enforce_unlink_from_pending.
Proof. reflexivity. Qed.
Lemma enforce_renameat2_entry_gated :
  enforce_renameat2_entry = gated STAT_RENAMEAT_FMOD STAT_RENAMEAT_DENY enforce_rename_from_pending.
Proof. reflexivity. Qed.
End gated.

Lemma enrolled_enroll E s s' : enroll s' = enroll s -> enrolled E s' <-> enrolled E s.
Proof. intros Heq. unfold enrolled, is_tagged, tagged_ancestor, is_tagged. by rewrite Heq. Qed.

Lemma ctrl_pol s s' : pol_eq (enforcer s') (enforcer s) -> ctrl s' = ctrl s.
Proof. intros Heq. unfold ctrl. by rewrite Heq. Qed.

Lemma active_pol s s' : pol_eq (enforcer s') (enforcer s) -> active s' = active s.
Proof. intros Heq. unfold active. by rewrite (ctrl_pol s s'). Qed.

Lemma closed_pol s s' : pol_eq (enforcer s') (enforcer s) -> closed s' = closed s.
Proof. intros Heq. unfold closed. by rewrite (ctrl_pol s s'). Qed.

(** Every way through a gated hook. *)
Lemma gated_run fs ds body E s :
  let s1 := bump E fs s in
  (active s || closed s = false /\ gated fs ds body E s = (0, s1)) \/
  (active s || closed s = true /\ ~ enrolled E s /\
     gated fs ds body E s = (0, after_ensure E s1)) \/
  (active s = false /\ closed s = true /\ enrolled E s /\
     gated fs ds body E s = (- EPERM, bump E ds (after_ensure E s1))) \/
  (active s = true /\ enrolled E s /\
     gated fs ds body E s = body (current_pid E) E (after_ensure E s1)).
Proof.
  cbv zeta. pose proof (bump_quiet E fs s) as Hq. destruct Hq as [He Hp _ _].
  unfold gated. erewrite run_bind by done. erewrite run_bind by apply stat_inc_run.
  rewrite <- (active_pol _ _ Hp), <- (closed_pol _ _ Hp), <- (enrolled_enroll _ _ _ He).
  destruct (enforce_gate_cases E (bump E fs s)) as [(Hac & Hen & Hg)|[(Hac & Hen & Hg)|(Hac & Hg)]];
    erewrite run_bind by apply Hg; cbn [negb]; [|by auto|by auto].
  erewrite run_bind by apply enforcement_live_run. rewrite active_after_ensure.
  destruct (active (bump E fs s)) eqn:Ha; cbn [negb]; [by auto 10|].
  erewrite run_bind by apply stat_inc_run. auto 10.
Qed.

(** ** Staged paths *)

(** A path of [n] bytes, staged as the tracepoints stage it. *)
Definition staged_path (buf : list Z) (len : Z) : Prop :=
  length buf = 256%nat /\ valid_path_len len = true.

(** The bytes of a staged path. *)
Definition path_of (buf : list Z) (len : Z) : list Z := take (Z.to_nat len) buf.

(** The first 255 bytes are all a copy carries over, and all a verdict reads. *)
Lemma path_of_take buf src len :
  valid_path_len len = true -> take 255 buf = take 255 src -> path_of buf len = path_of src len.
Proof.
  unfold valid_path_len, MAX_PATH, path_of. intros Hlen Heq.
  rewrite <- (Nat.min_l (Z.to_nat len) 255) by lia. by rewrite <- !take_take, Heq.
Qed.

(** The buffer holds the C string [p]: its bytes and the NUL. *)
Definition holds (buf p : list Z) : Prop := take (length p + 1) buf = p ++ [0].

Lemma holds_take buf p : holds buf p -> take (length p) buf = p.
Proof.
  unfold holds. intros H. apply (f_equal (take (length p))) in H.
  by rewrite take_take, take_app_length, Nat.min_l in H by lia.
Qed.

Lemma holds_path_of buf p : holds buf p -> path_of buf (Z.of_nat (length p)) = p.
Proof. intros H. unfold path_of. rewrite Nat2Z.id. by apply holds_take. Qed.

(** The verdict record ends its 255 copied bytes with a NUL of its own. *)
Lemma holds_cstr buf p :
  holds buf p -> Forall (fun b => b <> 0) p -> (length p <= 255)%nat ->
  cstr (take 255 buf ++ [0]) = p.
Proof.
  intros Hb Hnz Hl. destruct (decide (length p = 255%nat)) as [Heq|Hne].
  - rewrite <- Heq, (holds_take _ _ Hb). by apply cstr_app_nul.
  - assert (take 255 buf = p ++ 0 :: drop (length p + 1) (take 255 buf)) as ->.
    { rewrite <- (take_drop (length p + 1) (take 255 buf)) at 1.
      rewrite take_take, Nat.min_l, Hb by lia. by rewrite <- app_assoc. }
    rewrite <- app_assoc. cbn [app]. by apply cstr_app_nul.
Qed.

Definition emitted (E : env) (action hash : Z) (path : option (list Z)) (path_len : Z)
    (ip : option (list Z)) (ip_len port : Z) : list (list Z) :=
  match bpf_ringbuf_reserve E with
  | None => []
  | Some g => [fill_deny_verdict E action hash path path_len ip ip_len port g]
  end.

Lemma push_verdict_emitted E action hash path path_len ip ip_len port s :
  deny_verdicts (enforcer (push_verdict E action hash path path_len ip ip_len port s)) =
  deny_verdicts (enforcer s) ++ emitted E action hash path path_len ip ip_len port.
Proof.
  unfold push_verdict, emitted. destruct (bpf_ringbuf_reserve E); [done|]. by rewrite app_nil_r.
Qed.

(** [push_verdict] changes nothing but the ring. *)
Lemma push_verdict_frame E action hash path path_len ip ip_len port s :
  let s' := push_verdict E action hash path path_len ip ip_len port s in
  enroll s' = enroll s /\ pol_eq (enforcer s') (enforcer s) /\
  (scratch_ready E s -> scratch_ready E s').
Proof. unfold push_verdict. by destruct (bpf_ringbuf_reserve E). Qed.

(** Count a denial and return the code, as the hooks end. *)
Lemma count_denial_run E (m : prog Z) i s (o : option Z) f s2 :
  m E s = match o with Some h => (- EPERM, f h) | None => (0, s2) end ->
  (rc ← m; if nonzero rc then _ ← stat_inc i; mret rc else mret rc) E s =
  match o with Some h => (- EPERM, bump E i (f h)) | None => (0, s2) end.
Proof.
  intros H. destruct o as [h|]; erewrite run_bind by apply H; [|done].
  change (nonzero (- EPERM)) with true. cbn beta iota. by erewrite run_bind by apply stat_inc_run.
Qed.

Section staged.
Context `{L : LpmTrie, !LpmTrieSpec L}.
Context (E : env) `{!EnvOk E} (Hkr : kernel_reads E).

Lemma copy_path_bounded_run s dst src len :
  length dst = 256%nat -> staged_path src len ->
  exists buf, length buf = 256%nat /\ take 255 buf = take 255 src /\
    copy_path_bounded (Some dst) src len E s = ((len, buf), set_path_buf E buf s).
Proof.
  intros Hdst [Hsrc Hlen]. unfold copy_path_bounded. rewrite Hlen. cbn [negb].
  exists (splice 0 (take 255 src) dst).
  assert (length (take 255 src) = 255%nat) as Ht by (rewrite length_take; lia).
  split_and!.
  - rewrite length_splice; lia.
  - unfold splice. by rewrite take_0, app_nil_l, take_app_le, take_take by lia.
  - erewrite run_bind by done. cbv zeta. rewrite probe_read_kernel_ok by (solve [apply Hkr; lia] || lia).
    by rewrite Hkr by lia.
Qed.

(** Copy a staged path and decide it: the two calls every path hook makes. *)
Lemma check_staged_run s dst src len v wi :
  scratch_ready E s -> tries_functional (enforcer s) ->
  length dst = 256%nat -> staged_path src len ->
  exists buf s1 s2, take 255 buf = take 255 src /\ length buf = 256%nat /\
    quiet E s s1 /\ quiet E s s2 /\
    copy_path_bounded (Some dst) src len E s = ((len, buf), s1) /\
    enforce_path (Some buf) len v wi E s1 =
    match path_verdict (enforcer s) v wi (path_of src len) with
    | Some h => (- EPERM, push_verdict E v h (Some buf) len None 0 0 s2)
    | None => (0, s2)
    end.
Proof.
  intros Hs Hf Hdst Hsrc.
  destruct (copy_path_bounded_run s dst src len Hdst Hsrc) as (buf & Hbuf & Hp & Hrun).
  pose proof (set_path_buf_quiet E buf s Hbuf) as Hq.
  exists buf, (set_path_buf E buf s), (set_key E (scratch_key E buf len) (set_path_buf E buf s)).
  split_and!; [done|done|done| |done|].
  { etrans; [done|]. apply set_key_quiet. }
  destruct Hsrc as [_ Hlen]. pose proof Hlen as Hvalid. unfold valid_path_len in Hlen.
  rewrite enforce_path_run; [|done|done|by apply (q_ready _ _ _ Hq)|done|lia|].
  - change (take (Z.to_nat len) buf) with (path_of buf len). by rewrite (path_of_take buf src).
  - apply (tries_functional_proper (enforcer s)); [|done]. by rewrite (q_policy _ _ _ Hq).
Qed.

Lemma scratch_path_buf_run s dst :
  pc_lookup (cpu E) 0 (path_scratch (enforcer s)) = Some dst ->
  scratch_path_buf E s = (Some dst, s).
Proof. intros H. unfold scratch_path_buf, this_cpu. by rewrite H. Qed.

(** The entry an openat hook decides on: the process's own, or the one last staged
    on this CPU when that is not usable. *)
Definition open_source (s : kstate) (pid : Z) : option pending_open :=
  match pending_open_paths (enroll s) !! pid with
  | Some po => if negb (valid_path_len (po_len po))
               then pc_lookup (cpu E) 0 (pending_open_cpu (enroll s)) else Some po
  | None => pc_lookup (cpu E) 0 (pending_open_cpu (enroll s))
  end.

Lemma open_source_run {B} s pid (k : option pending_open -> prog B) :
  (po ← enr (fun m => pending_open_paths m !! pid);
   po ← (if match po with Some po => negb (valid_path_len (po_len po)) | None => true end
         then this_cpu (fun s => pending_open_cpu (enroll s)) 0
         else mret po);
   k po) E s = k (open_source s pid) E s.
Proof.
  unfold open_source. erewrite run_bind by done. cbn beta.
  destruct (pending_open_paths (enroll s) !! pid) as [po|]; [|done].
  by destruct (negb _).
Qed.

(** Open: the staged entry the hook finds is the one decided. *)
Lemma openat_source_run s pid po :
  scratch_ready E s -> tries_functional (enforcer s) ->
  open_source s pid = Some po -> staged_path (po_path po) (po_len po) ->
  let p := path_of (po_path po) (po_len po) in
  let wi := nonzero (Z.land (open_flags po) O_ACCMODE) in
  exists buf s2, take 255 buf = take 255 (po_path po) /\ length buf = 256%nat /\ quiet E s s2 /\
    enforce_openat_from_pending pid E s =
    match path_verdict (enforcer s) VERDICT_OPEN wi p with
    | Some h => (- EPERM, bump E STAT_OPENAT_DENY
                            (push_verdict E VERDICT_OPEN h (Some buf) (po_len po) None 0 0 s2))
    | None => (0, s2)
    end.
Proof.
  intros Hs Hf Hpo Hst. cbv zeta. unfold enforce_openat_from_pending.
  pose proof Hs as [_ (dst & Hdst & Hl)].
  destruct (check_staged_run s dst _ _ VERDICT_OPEN
              (nonzero (Z.land (open_flags po) O_ACCMODE)) Hs Hf Hl Hst)
    as (buf & s1 & s2 & Hp & Hbuf & _ & Hq & Hcp & Hen).
  exists buf, s2. split_and!; [done..|]. destruct Hst as [_ Hlen].
  rewrite open_source_run, Hpo. erewrite run_bind by by apply scratch_path_buf_run.
  cbn beta iota. rewrite Hlen. cbn [negb]. erewrite run_bind by apply Hcp. cbn [fst snd].
  unfold valid_path_len in Hlen. replace (po_len po <? 0) with false by lia.
  by apply count_denial_run.
Qed.

Lemma open_source_own s pid po :
  pending_open_paths (enroll s) !! pid = Some po -> valid_path_len (po_len po) = true ->
  open_source s pid = Some po.
Proof. intros Hpo Hv. unfold open_source. by rewrite Hpo, Hv. Qed.

(** Unlink: a resolvable staged path is decided, anything else is denied. *)
Lemma unlink_pending_run s pid po :
  scratch_ready E s -> tries_functional (enforcer s) ->
  pending_unlink_paths (enroll s) !! pid = Some po -> staged_path (po_path po) (po_len po) ->
  empty_path_flag po = false ->
  let p := path_of (po_path po) (po_len po) in
  exists buf s2, take 255 buf = take 255 (po_path po) /\ length buf = 256%nat /\ quiet E s s2 /\
    enforce_unlink_from_pending pid E s =
    match path_verdict (enforcer s) VERDICT_UNLINK false p with
    | Some h => (- EPERM, bump E STAT_UNLINKAT_DENY
                            (push_verdict E VERDICT_UNLINK h (Some buf) (po_len po) None 0 0 s2))
    | None => (0, s2)
    end.
Proof.
  intros Hs Hf Hpo Hst Hflag. cbv zeta. unfold enforce_unlink_from_pending.
  pose proof Hs as [_ (dst & Hdst & Hl)].
  destruct (check_staged_run s dst _ _ VERDICT_UNLINK false Hs Hf Hl Hst)
    as (buf & s1 & s2 & Hp & Hbuf & _ & Hq & Hcp & Hen).
  exists buf, s2. split_and!; [done..|]. destruct Hst as [_ Hlen].
  erewrite run_bind by done. cbn beta. rewrite Hpo, Hlen, Hflag. cbn [negb andb].
  erewrite run_bind by done. erewrite run_bind by by apply scratch_path_buf_run.
  cbn beta iota. rewrite Hlen, Hflag. cbn [negb orb]. erewrite run_bind by apply Hcp. cbn [fst snd].
  unfold valid_path_len in Hlen. replace (po_len po <? 0) with false by lia.
  by apply count_denial_run.
Qed.

(** The entry an unlink hook falls back to. *)
Definition unlink_source (s : kstate) (pid : Z) : option pending_open :=
  match pending_unlink_paths (enroll s) !! pid with
  | Some po => if negb (valid_path_len (po_len po)) && negb (empty_path_flag po)
               then pc_lookup (cpu E) 0 (pending_unlink_cpu (enroll s)) else Some po
  | None => pc_lookup (cpu E) 0 (pending_unlink_cpu (enroll s))
  end.

(** Fail closed: no resolvable path, from the process's own entry or from the
    per-CPU fallback, is a denial. *)
Lemma unlink_pending_fail_closed s pid :
  (forall po, unlink_source s pid = Some po ->
     valid_path_len (po_len po) = false \/ empty_path_flag po = true) ->
  ret_of (enforce_unlink_from_pending pid) E s = - EPERM.
Proof.
  intros Hsrc. unfold enforce_unlink_from_pending. rewrite ret_of_bind.
  change (ret_of (enr (fun m => pending_unlink_paths m !! pid)) E s)
    with (pending_unlink_paths (enroll s) !! pid).
  change (state_of (enr (fun m => pending_unlink_paths m !! pid)) E s) with s.
  assert (forall k : option pending_open -> prog Z,
    ret_of ((if match pending_unlink_paths (enroll s) !! pid with
                | Some po => negb (valid_path_len (po_len po)) && negb (empty_path_flag po)
                | None => true
                end
             then this_cpu (fun s => pending_unlink_cpu (enroll s)) 0
             else mret (pending_unlink_paths (enroll s) !! pid)) ≫= k) E s =
    ret_of (k (unlink_source s pid)) E s) as ->.
  { intros k. unfold unlink_source. destruct (pending_unlink_paths (enroll s) !! pid) as [po|]; [|done].
    by destruct (_ && _). }
  rewrite ret_of_bind.
  change (state_of scratch_path_buf E s) with s.
  destruct (unlink_source s pid) as [po|]; [|done].
  destruct (ret_of scratch_path_buf E s); [|done].
  replace (negb (valid_path_len (po_len po)) || empty_path_flag po) with true; [done|].
  destruct (Hsrc po eq_refl) as [-> | ->]; [done|]. by rewrite orb_true_r.
Qed.

(** The first denial of two checks. *)
Definition first_of {A} (o1 o2 : option A) : option A := match o1 with Some a => Some a | None => o2 end.

(** Rename: both staged paths are decided, the old one first. *)
Lemma rename_pending_run s pid pr :
  scratch_ready E s -> tries_functional (enforcer s) ->
  pending_rename_paths (enroll s) !! pid = Some pr ->
  staged_path (old_path pr) (old_len pr) -> staged_path (new_path pr) (new_len pr) ->
  let verdict buf len := path_verdict (enforcer s) VERDICT_RENAME false (path_of buf len) in
  exists s2 path len,
    (if verdict (old_path pr) (old_len pr)
     then take 255 path = take 255 (old_path pr) /\ len = old_len pr
     else take 255 path = take 255 (new_path pr) /\ len = new_len pr) /\
    length path = 256%nat /\ quiet E s s2 /\
    enforce_rename_from_pending pid E s =
    match first_of (verdict (old_path pr) (old_len pr)) (verdict (new_path pr) (new_len pr)) with
    | Some h => (- EPERM, bump E STAT_RENAMEAT_DENY
                            (push_verdict E VERDICT_RENAME h (Some path) len None 0 0 s2))
    | None => (0, s2)
    end.
Proof.
  intros Hs Hf Hpr Hold Hnew. cbv zeta. unfold enforce_rename_from_pending.
  pose proof Hs as [_ (dst & Hdst & Hl)].
  destruct (check_staged_run s dst _ _ VERDICT_RENAME false Hs Hf Hl Hold)
    as (buf & s1 & s2 & Hp & Hbuf & _ & Hq & Hcp & Hen).
  pose proof (q_ready _ _ _ Hq Hs) as Hs2. pose proof Hs2 as [_ (dst2 & Hdst2 & Hl2)].
  assert (tries_functional (enforcer s2)) as Hf2.
  { apply (tries_functional_proper (enforcer s)); [|done]. by rewrite (q_policy _ _ _ Hq). }
  destruct (check_staged_run s2 dst2 _ _ VERDICT_RENAME false Hs2 Hf2 Hl2 Hnew)
    as (buf' & s1' & s2' & Hp' & Hbuf' & _ & Hq' & Hcp' & Hen').
  rewrite (path_verdict_proper _ _ _ _ _ (q_policy _ _ _ Hq)) in Hen'.
  assert (valid_rename pr = true) as Hval
    by (unfold valid_rename; destruct Hold as [_ ->], Hnew as [_ ->]; done).
  destruct Hold as [_ Hol], Hnew as [_ Hnl]. unfold valid_path_len in Hol, Hnl.
  assert (0 <= old_len pr) by lia. assert (0 <= new_len pr) by lia.
  destruct (path_verdict (enforcer s) _ _ (path_of (old_path pr) _)) as [h|] eqn:Hv.
  - exists s2, buf, (old_len pr). split_and!; [done..|].
    erewrite run_bind by done. cbn beta. rewrite Hpr, Hval. cbn [negb].
    erewrite run_bind by done. erewrite run_bind by by apply scratch_path_buf_run.
    cbn beta iota. rewrite Hval. cbn [negb]. erewrite run_bind by apply Hcp. cbn [fst snd].
    replace (old_len pr <? 0) with false by lia. erewrite run_bind by apply Hen.
    change (nonzero (- EPERM)) with true. cbn beta iota. by erewrite run_bind by apply stat_inc_run.
  - exists s2', buf', (new_len pr). split_and!; [done..|by etrans|].
    erewrite run_bind by done. cbn beta. rewrite Hpr, Hval. cbn [negb].
    erewrite run_bind by done. erewrite run_bind by by apply scratch_path_buf_run.
    cbn beta iota. rewrite Hval. cbn [negb]. erewrite run_bind by apply Hcp. cbn [fst snd].
    replace (old_len pr <? 0) with false by lia. erewrite run_bind by apply Hen.
    change (nonzero 0) with false. cbn beta iota. erewrite run_bind by by apply scratch_path_buf_run.
    erewrite run_bind by apply Hcp'. cbn [fst snd].
    replace (new_len pr <? 0) with false by lia. by apply count_denial_run.
Qed.
End staged.
