(* ===== verification/Records.v ===== *)
(** * Records: the byte records the programs submit to the ring buffers

    The field layout of an enroll record and of a deny record: each store of
    [store_header] and [fill_deny_verdict] is what a load of that field reads
    back, and a record keeps its size and type while a handler fills it. *)

From S2P Require Import Prelude Types Bpf State.
From S2P Require Enforcer Enroll.
Import Enroll.

(** ** Enroll records *)

Lemma length_store_header E `{!EnvOk E} ty b :
  (64 <= length b)%nat -> length (store_header E ty b) = length b.
Proof.
  intros. unfold store_header. cbv zeta.
  repeat (rewrite length_splice || rewrite length_store); cbn; rewrite ?comm_length; lia.
Qed.

Definition header_buf (E : env) (ty : Z) (b : list Z) : list Z :=
  store_header E ty (splice 0 (zeros (EVENT_HEADER_SIZE + ACTION_DETAIL_SIZE)) b).

Lemma length_header_buf E `{!EnvOk E} ty b :
  (88 <= length b)%nat -> length (header_buf E ty b) = length b.
Proof.
  intros. unfold header_buf.
  assert (length (splice 0 (zeros (EVENT_HEADER_SIZE + ACTION_DETAIL_SIZE)) b) = length b) as Hl
    by (apply length_splice; cbn; lia).
  rewrite (length_store_header E); [done|]. rewrite Hl. lia.
Qed.

(** The record in the scratch buffer has its size and its type. *)
Record rec_inv (ty : Z) (b : list Z) : Prop := {
  rec_length : length b = EVENT_RECORD_SIZE;
  rec_type : load enroll_event.event_type b = ty
}.

Lemma rec_inv_splice ty off src b :
  rec_inv ty b -> (37 <= off)%nat -> (off + length src <= EVENT_RECORD_SIZE)%nat ->
  rec_inv ty (splice off src b).
Proof.
  intros [Hl Ht] ? ?. split; [rewrite length_splice; lia|].
  rewrite <- Ht. apply load_splice_other; [left; cbn; lia|lia].
Qed.

Lemma rec_inv_store ty f z b :
  rec_inv ty b -> (37 <= f_off f)%nat -> (f_off f + f_width f <= EVENT_RECORD_SIZE)%nat ->
  rec_inv ty (store f z b).
Proof. intros. apply rec_inv_splice; rewrite ?length_le_bytes; done. Qed.

Section header.
Context (E : env) `{!EnvOk E}.

(** The fields of a header, as [store_header] writes them. *)
Lemma load_header ty b :
  (64 <= length b)%nat ->
  let h := store_header E ty b in
  let task := bpf_get_current_task E in
  load enroll_event.timestamp_ns h = u64 (bpf_ktime_get_ns E) /\
  load enroll_event.start_time_ns h = u64 (read_task E 0 start_time task) /\
  load enroll_event.cgroup_id h = u64 (bpf_get_current_cgroup_id E) /\
  load enroll_event.pid h = current_pid E /\
  load enroll_event.ppid h = u32 (read_task E 0 tgid (read_task E 0 real_parent task)) /\
  load enroll_event.uid h = current_uid E /\
  load enroll_event.event_type h = u8 ty /\
  slice enroll_event.comm 16 h = bpf_get_current_comm E.
Proof.
  intros Hb. cbv zeta. unfold store_header. cbv zeta. pose proof comm_length as Hc.
  split_and!.
  all: repeat first
    [ rewrite load_store_same by len_ge | rewrite load_store_other by read_side
    | rewrite load_splice_other by (rewrite ?Hc; read_side)
    | rewrite slice_splice_same' by (rewrite ?Hc; read_side) ].
  all: cbn [f_width enroll_event.pid enroll_event.uid]; try done.
  all: unfold current_pid, current_uid, u32; apply Z.mod_mod; done.
Qed.

Lemma rec_inv_header ty n b :
  0 <= ty < 256 -> length b = EVENT_RECORD_SIZE -> (64 <= n <= EVENT_RECORD_SIZE)%nat ->
  rec_inv ty (store_header E ty (splice 0 (zeros n) b)).
Proof.
  intros Hty Hb Hn.
  assert (length (splice 0 (zeros n) b) = EVENT_RECORD_SIZE) as Hl.
  { rewrite length_splice; rewrite ?length_zeros; lia. }
  split; [rewrite (length_store_header E); layout_lia|].
  pose proof (load_header ty (splice 0 (zeros n) b)) as Hh.
  destruct Hh as (_ & _ & _ & _ & _ & _ & -> & _); [layout_lia|]. unfold u8. by apply Z.mod_small.
Qed.
End header.

(** What the agent may rely on for a submitted record: its size is the size of
    its type, so the fixed-offset decoder never runs off its end. *)
Definition record_ok (r : list Z) : Prop :=
  let ty := load enroll_event.event_type r in
  (ty = EVENT_EXEC /\ length r = EVENT_RECORD_SIZE) \/
  (EVENT_CONNECT <= ty <= EVENT_RENAME /\ length r = ACTION_RECORD_SIZE) \/
  ((ty = EVENT_FORK \/ ty = EVENT_EXIT) /\ length r = EVENT_HEADER_SIZE).

Lemma load_take f n b : (f_off f + f_width f <= n)%nat -> load f (take n b) = load f b.
Proof.
  intros. unfold load, slice. f_equal. rewrite skipn_firstn_comm, take_take. f_equal. lia.
Qed.

Lemma record_ok_exec b : rec_inv EVENT_EXEC b -> record_ok (take EVENT_RECORD_SIZE b).
Proof.
  intros [Hl Ht]. unfold record_ok. cbv zeta. left. rewrite load_take by (cbn; layout_lia). split; [done|].
  rewrite length_take. layout_lia.
Qed.

Lemma record_ok_action ty b :
  rec_inv ty b -> EVENT_CONNECT <= ty <= EVENT_RENAME -> record_ok (take ACTION_RECORD_SIZE b).
Proof.
  intros [Hl Ht] Hty. unfold record_ok. cbv zeta. right; left.
  rewrite load_take, Ht by (cbn; layout_lia). split; [done|].
  rewrite length_take, Hl. layout_lia.
Qed.

(** ** Deny records *)

Lemma length_fill_deny_verdict E `{!EnvOk E} action hash path path_len ip ip_len port v :
  length v = deny_verdict.size ->
  length (Enforcer.fill_deny_verdict E action hash path path_len ip ip_len port v) =
  deny_verdict.size.
Proof.
  intros Hv. unfold Enforcer.fill_deny_verdict. unfold deny_verdict.size in *.
  len_let. rewrite (probe_read_kernel_length (E := E)). lia.
Qed.
