(* ===== verification/Machine.v ===== *)
(** * Machine: every program as a step of one transition system

    A step runs one BPF program, in some environment, on the shared maps, or is
    an action of the userspace agent.  Programs of different processes and CPUs
    interleave freely; one invocation is atomic. *)

From S2P Require Import Prelude Types Bpf State Logic Records.
From S2P Require Enforcer Enroll.

Inductive hook :=
  | H_exec (ctx : trace_event_raw_sched_process_exec)
  | H_fork (ctx : trace_event_raw_sched_process_fork)
  | H_exit
  | H_connect (ctx : trace_event_raw_sys_enter)
  | H_openat (ctx : trace_event_raw_sys_enter)
  | H_unlinkat (ctx : trace_event_raw_sys_enter)
  | H_unlink (ctx : trace_event_raw_sys_enter)
  | H_renameat2 (ctx : trace_event_raw_sys_enter)
  | E_cgroup_connect4 (ctx : bpf_sock_addr)
  | E_cgroup_connect6 (ctx : bpf_sock_addr)
  | E_file_open (f : file)
  | E_path_unlink
  | E_path_rename
  | E_socket_connect (address : Z)
  | E_openat
  | E_connect
  | E_unlinkat
  | E_unlink
  | E_renameat2.

(** The enforcement hooks return a verdict; the others only observe. *)
Definition enforcement_hook (h : hook) : bool :=
  match h with
  | H_exec _ | H_fork _ | H_exit | H_connect _ | H_openat _ | H_unlinkat _ | H_unlink _
  | H_renameat2 _ => false
  | _ => true
  end.

Definition cgroup_hook (h : hook) : bool :=
  match h with E_cgroup_connect4 _ | E_cgroup_connect6 _ => true | _ => false end.

Definition run_hook `{L : LpmTrie} (h : hook) : prog Z :=
  match h with
  | H_exec ctx => Enroll.handle_exec ctx
  | H_fork ctx => Enroll.handle_fork ctx
  | H_exit => Enroll.handle_exit
  | H_connect ctx => Enroll.handle_connect ctx
  | H_openat ctx => Enroll.handle_openat ctx
  | H_unlinkat ctx => Enroll.handle_unlinkat ctx
  | H_unlink ctx => Enroll.handle_unlink ctx
  | H_renameat2 ctx => Enroll.handle_renameat2 ctx
  | E_cgroup_connect4 ctx => Enforcer.enforce_cgroup_connect4 ctx
  | E_cgroup_connect6 ctx => Enforcer.enforce_cgroup_connect6 ctx
  | E_file_open f => Enforcer.enforce_file_open f
  | E_path_unlink => Enforcer.enforce_path_unlink
  | E_path_rename => Enforcer.enforce_path_rename
  | E_socket_connect a => Enforcer.enforce_socket_connect a
  | E_openat => Enforcer.enforce_openat_entry
  | E_connect => Enforcer.enforce_connect_entry
  | E_unlinkat => Enforcer.enforce_unlinkat_entry
  | E_unlink => Enforcer.enforce_unlink_entry
  | E_renameat2 => Enforcer.enforce_renameat2_entry
  end.

(** ** Walking through every program

    Assertions that survive the individual stores survive the programs.  What is
    known of a stored value at its store is a premise of the store's hypothesis. *)
Section keeps_programs.
Context `{L : LpmTrie} (E : env) `{!EnvOk E} (I : kstate -> Prop).

Hypothesis I_path_len : forall s p,
  I s -> pc_lookup (cpu E) 0 (path_scratch (enforcer s)) = Some p -> length p = 256%nat.

Hypothesis I_stats : forall s i v, is_u64 v ->
  I s -> I (on_enforcer (fun m =>
    set_enforce_stats m (pc_write (cpu E) i v (enforce_stats m))) s).
Hypothesis I_key : forall s k,
  I s -> I (on_enforcer (fun m => set_lpm_scratch m (pc_write (cpu E) 0 k (lpm_scratch m))) s).
Hypothesis I_path : forall s p, length p = 256%nat ->
  I s -> I (on_enforcer (fun m => set_path_scratch m (pc_write (cpu E) 0 p (path_scratch m))) s).
Hypothesis I_verdicts : forall s v, length v = deny_verdict.size ->
  I s -> I (on_enforcer (fun m => set_deny_verdicts m (deny_verdicts m ++ [v])) s).
Hypothesis I_tag : forall s,
  I s -> I (on_enroll (fun m => set_tagged_pids m
    (hash_update (map_update_ok E M_tagged_pids) (current_pid E) 1 (tagged_pids m))) s).

Lemma is_u64_u64 z : is_u64 (u64 z).
Proof. apply Z.mod_pos_bound. done. Qed.

Lemma keeps_stat_inc i : keeps E I (Enforcer.stat_inc i).
Proof.
  unfold Enforcer.stat_inc. keeps_tac. apply keeps_modify_env. intros. apply I_stats; [|done].
  apply is_u64_u64.
Qed.

Lemma keeps_write_lpm_key k : keeps E I (Enforcer.write_lpm_key k).
Proof. apply keeps_modify_env. intros. by apply I_key. Qed.

Lemma keeps_write_path_buf p : length p = 256%nat -> keeps E I (Enforcer.write_path_buf p).
Proof. intros. apply keeps_modify_env. intros. by apply I_path. Qed.

Lemma keeps_emit a h p n i j q : keeps E I (Enforcer.emit_deny_ex a h p n i j q).
Proof.
  unfold Enforcer.emit_deny_ex. apply keeps_ask_bind.
  destruct (bpf_ringbuf_reserve E) as [g|] eqn:Hg; [|apply keeps_ret].
  apply keeps_ask_bind, keeps_modify. intros. apply I_verdicts; [|done].
  apply length_fill_deny_verdict; [done|]. by apply (ringbuf_reserve_length (E := E)).
Qed.

Lemma keeps_tag_loop n task : keeps E I (Enforcer.tag_from_ancestor_loop n (current_pid E) task).
Proof.
  revert task. induction n as [|n IH]; intros task; cbn [Enforcer.tag_from_ancestor_loop]; keeps_tac.
Qed.

Lemma keeps_ensure : keeps E I (Enforcer.ensure_tagged_from_ancestor (current_pid E)).
Proof.
  pose proof keeps_tag_loop. unfold Enforcer.ensure_tagged_from_ancestor, Enforcer.is_tagged_pid.
  keeps_tac.
Qed.

Lemma keeps_gate : keeps E I Enforcer.enforce_gate.
Proof.
  pose proof keeps_ensure.
  unfold Enforcer.enforce_gate, Enforcer.policy_ctrl_get, Enforcer.is_tagged_pid.
  apply keeps_bind; [keeps_tac|]. intros [c|]; [|keeps_tac].
  destruct (_ && _); keeps_tac.
Qed.

Lemma keeps_live : keeps E I Enforcer.enforcement_live.
Proof. unfold Enforcer.enforcement_live, Enforcer.policy_ctrl_get. keeps_tac. Qed.

Lemma keeps_should : keeps E I Enforcer.cgroup_should_enforce.
Proof.
  pose proof keeps_live.
  unfold Enforcer.cgroup_should_enforce, Enforcer.fail_closed_regime, Enforcer.policy_ctrl_get.
  keeps_tac.
Qed.

Hint Resolve keeps_stat_inc keeps_write_lpm_key keeps_emit keeps_gate
  keeps_live keeps_should : keeps.

Lemma keeps_path_lpm map p n : keeps E I (Enforcer.path_lpm_lookup map p n).
Proof. unfold Enforcer.path_lpm_lookup, Enforcer.scratch_lpm_key. keeps_tac. Qed.

Lemma keeps_ip_lpm map p n : keeps E I (Enforcer.ip_lpm_lookup map p n).
Proof. unfold Enforcer.ip_lpm_lookup, Enforcer.scratch_lpm_key. keeps_tac. Qed.

Lemma keeps_copy d p n :
  (forall b, d = Some b -> length b = 256%nat) -> keeps E I (Enforcer.copy_path_bounded d p n).
Proof.
  intros Hd. unfold Enforcer.copy_path_bounded. destruct d as [b|]; [|apply keeps_ret].
  destruct (negb _); [apply keeps_ret|]. apply keeps_ask_bind. cbv zeta.
  apply keeps_bind; [|intros _; keeps_tac].
  apply keeps_write_path_buf. apply length_splice_eq; [|auto].
  rewrite (probe_read_kernel_length (E := E)). lia.
Qed.

Lemma keeps_scratch_path {B} (f : option (list Z) -> prog B) :
  (forall o, (forall b, o = Some b -> length b = 256%nat) -> keeps E I (f o)) ->
  keeps E I (Enforcer.scratch_path_buf ≫= f).
Proof. apply keeps_entry_bind. apply I_path_len. Qed.

Lemma keeps_open_verdict d a v w p n : keeps E I (Enforcer.enforce_open_verdict d a v w p n).
Proof. unfold Enforcer.enforce_open_verdict, Enforcer.emit_deny. cbv zeta. keeps_tac. Qed.

Hint Resolve keeps_path_lpm keeps_ip_lpm keeps_copy keeps_open_verdict : keeps.

Lemma keeps_path p n v w : keeps E I (Enforcer.enforce_path p n v w).
Proof. unfold Enforcer.enforce_path. keeps_tac. Qed.

Lemma keeps_deny_connect h p n q : keeps E I (Enforcer.deny_connect h p n q).
Proof. unfold Enforcer.deny_connect. keeps_tac. Qed.

Hint Resolve keeps_path keeps_deny_connect : keeps.

Lemma keeps_connect_parsed p n q : keeps E I (Enforcer.enforce_connect_parsed p n q).
Proof. unfold Enforcer.enforce_connect_parsed, when. keeps_tac. Qed.

Hint Resolve keeps_connect_parsed : keeps.

Lemma keeps_cgroup_action p n q : keeps E I (Enforcer.cgroup_connect_action p n q).
Proof. unfold Enforcer.cgroup_connect_action. keeps_tac. Qed.

Lemma keeps_inode map f : keeps E I (Enforcer.inode_rule_lookup map f).
Proof. unfold Enforcer.inode_rule_lookup. keeps_tac. Qed.

Hint Resolve keeps_cgroup_action keeps_inode : keeps.

Lemma keeps_from_pending :
  (forall pid, keeps E I (Enforcer.enforce_openat_from_pending pid)) /\
  (forall pid, keeps E I (Enforcer.enforce_connect_from_pending pid)) /\
  (forall pid, keeps E I (Enforcer.enforce_unlink_from_pending pid)) /\
  (forall pid, keeps E I (Enforcer.enforce_rename_from_pending pid)).
Proof.
  unfold Enforcer.enforce_openat_from_pending, Enforcer.enforce_connect_from_pending,
    Enforcer.enforce_unlink_from_pending, Enforcer.enforce_rename_from_pending.
  split_and!; intros pid.
  all: repeat (first [solve [eauto with keeps] | apply keeps_scratch_path; intros ? ? | keeps_step]).
Qed.

(** Every enforcement hook. *)
Lemma keeps_enforcement h : enforcement_hook h = true -> keeps E I (run_hook h).
Proof.
  destruct keeps_from_pending as (? & ? & ? & ?).
  destruct h; try discriminate; intros _; cbn [run_hook].
  all: unfold Enforcer.enforce_cgroup_connect4, Enforcer.enforce_cgroup_connect6,
    Enforcer.enforce_file_open, Enforcer.enforce_path_unlink, Enforcer.enforce_path_rename,
    Enforcer.enforce_socket_connect, Enforcer.enforce_connect, Enforcer.enforce_openat_entry,
    Enforcer.enforce_connect_entry, Enforcer.enforce_unlinkat_entry,
    Enforcer.enforce_unlink_entry, Enforcer.enforce_renameat2_entry; keeps_tac.
Qed.
End keeps_programs.

(** Staged arguments as the tracepoints write them. *)
Definition open_ok (po : pending_open) : Prop :=
  length (po_path po) = 256%nat /\ 0 <= po_len po < MAX_PATH.
Definition connect_ok (pc : pending_connect) : Prop :=
  length (ip pc) = 16%nat /\ 0 <= ip_len pc <= 16.
Definition rename_ok (pr : pending_rename) : Prop :=
  length (old_path pr) = 256%nat /\ length (new_path pr) = 256%nat /\
  0 <= old_len pr < MAX_PATH /\ 0 <= new_len pr < MAX_PATH.

Lemma path_len_bound r : Enroll.path_len_from_user_str r < MAX_PATH.
Proof. unfold Enroll.path_len_from_user_str, MAX_PATH. cbv zeta. case_bools; lia. Qed.

Lemma u16_path_len n : 0 < n -> n < MAX_PATH -> 0 <= u16 n < MAX_PATH.
Proof. unfold u16, MAX_PATH. intros. rewrite Z.mod_small; lia. Qed.

Section keeps_enroll.
Context (E : env) `{!EnvOk E} (I : kstate -> Prop).

Hypothesis I_scratch_len : forall s b,
  I s -> pc_lookup (cpu E) 0 (scratch (enroll s)) = Some b -> length b = EVENT_RECORD_SIZE.
Hypothesis I_events : forall s r, record_ok r ->
  I s -> I (on_enroll (fun m => set_events m (events m ++ [r])) s).
Hypothesis I_scratch : forall s b, length b = EVENT_RECORD_SIZE ->
  I s -> I (on_enroll (fun m => set_scratch m (pc_write (cpu E) 0 b (scratch m))) s).
Hypothesis I_drops : forall s d, is_u64 d ->
  I s -> I (on_enroll (fun m => set_drops m (pc_write (cpu E) 0 d (drops m))) s).
Hypothesis I_tag : forall s pid,
  I s -> I (on_enroll (fun m => set_tagged_pids m
    (hash_update (map_update_ok E M_tagged_pids) pid 1 (tagged_pids m))) s).
Hypothesis I_open : forall s ok po, open_ok po ->
  I s -> I (on_enroll (fun m => set_pending_open_paths m
    (hash_update ok (current_pid E) po (pending_open_paths m))) s).
Hypothesis I_connect : forall s ok pc, connect_ok pc ->
  I s -> I (on_enroll (fun m => set_pending_connects m
    (hash_update ok (current_pid E) pc (pending_connects m))) s).
Hypothesis I_unlink : forall s ok po, open_ok po ->
  I s -> I (on_enroll (fun m => set_pending_unlink_paths m
    (hash_update ok (current_pid E) po (pending_unlink_paths m))) s).
Hypothesis I_rename : forall s ok pr, rename_ok pr ->
  I s -> I (on_enroll (fun m => set_pending_rename_paths m
    (hash_update ok (current_pid E) pr (pending_rename_paths m))) s).
Hypothesis I_open_cpu : forall s (ok : bool) po, open_ok po ->
  I s -> I (on_enroll (fun m => set_pending_open_cpu m
    (if ok then pc_write (cpu E) 0 po (pending_open_cpu m) else pending_open_cpu m)) s).
Hypothesis I_connect_cpu : forall s (ok : bool) pc, connect_ok pc ->
  I s -> I (on_enroll (fun m => set_pending_connect_cpu m
    (if ok then pc_write (cpu E) 0 pc (pending_connect_cpu m) else pending_connect_cpu m)) s).
Hypothesis I_unlink_cpu : forall s (ok : bool) po, open_ok po ->
  I s -> I (on_enroll (fun m => set_pending_unlink_cpu m
    (if ok then pc_write (cpu E) 0 po (pending_unlink_cpu m) else pending_unlink_cpu m)) s).
Hypothesis I_rename_cpu : forall s pr, rename_ok pr ->
  I s -> I (on_enroll (fun m => set_pending_rename_cpu m
    (pc_write (cpu E) 0 pr (pending_rename_cpu m))) s).

Lemma keeps_tag_pid pid : keeps E I (Enroll.tag_pid pid).
Proof. apply keeps_modify_env. auto. Qed.

Lemma keeps_ringbuf_output r : record_ok r -> keeps E I (Enroll.ringbuf_output r).
Proof.
  intros Hr. unfold Enroll.ringbuf_output, Enroll.inc_drop. keeps_tac.
  - apply keeps_modify. auto.
  - apply keeps_modify_env. intros. apply I_drops; [|done]. apply is_u64_u64.
Qed.

Lemma keeps_emit_action ty b :
  rec_inv ty b -> EVENT_CONNECT <= ty <= EVENT_RENAME -> keeps E I (Enroll.emit_action b).
Proof. intros. by eapply keeps_ringbuf_output, record_ok_action. Qed.

Lemma keeps_write_scratch ty b : rec_inv ty b -> keeps E I (Enroll.write_scratch b).
Proof. intros [Hl _]. apply keeps_modify_env. auto. Qed.

Lemma keeps_lookup_scratch {B} (f : option (list Z) -> prog B) :
  keeps E I (f None) ->
  (forall b, length b = EVENT_RECORD_SIZE -> keeps E I (f (Some b))) ->
  keeps E I (Enroll.lookup_scratch ≫= f).
Proof.
  intros Hn Hs. apply keeps_entry_bind with (φ := fun b => length b = EVENT_RECORD_SIZE);
    [by apply I_scratch_len|]. intros [b|] Hb; [|done]. by apply Hs, Hb.
Qed.

Lemma keeps_enroll_ensure : keeps E I (Enroll.ensure_tagged_from_ancestor (current_pid E)).
Proof.
  change (keeps E I (Enforcer.ensure_tagged_from_ancestor (current_pid E))).
  apply keeps_ensure. auto.
Qed.

Lemma keeps_stage_connect pc :
  connect_ok pc -> keeps E I (Enroll.stage_pending_connect (current_pid E) pc).
Proof.
  intros. unfold Enroll.stage_pending_connect.
  apply keeps_bind; [|intros _]; apply keeps_modify_env; auto.
Qed.

(** A staged copy always fills the 256-byte entry. *)
Lemma length_read_staged buf s : length (Enroll.read_staged_path buf E s).1.2 = 256%nat.
Proof.
  change (length (splice 0 (bpf_probe_read_kernel E buf 255).2 (zeros 256)) = 256%nat).
  apply length_splice_eq; [|done]. rewrite (probe_read_kernel_length (E := E)). lia.
Qed.

Lemma keeps_read_staged {B} buf (f : bool * list Z -> prog B) :
  (forall r, length r.2 = 256%nat -> keeps E I (f r)) ->
  keeps E I (Enroll.read_staged_path buf ≫= f).
Proof.
  intros Hf s Hs. apply Hf; [apply length_read_staged|done].
Qed.

Lemma keeps_stage_open fl b n :
  n < MAX_PATH -> keeps E I (Enroll.stage_pending_open (current_pid E) fl b n).
Proof.
  intros Hn. unfold Enroll.stage_pending_open. destruct (Z.ltb_spec 0 n); [|apply keeps_ret].
  cbn [negb]. apply keeps_read_staged. intros p Hp. destruct (negb _); [apply keeps_ret|].
  assert (open_ok (mk_pending_open (u16 n) (u16 fl) p.2)) by (split; [done|by apply u16_path_len]).
  apply keeps_bind; [|intros _]; apply keeps_modify_env; auto.
Qed.

Lemma keeps_stage_unlink fl b n :
  n < MAX_PATH -> keeps E I (Enroll.stage_pending_unlink (current_pid E) fl b n).
Proof.
  intros Hn. unfold Enroll.stage_pending_unlink.
  apply keeps_bind_known with (φ := fun p => length p.2 = 256%nat).
  { destruct (0 <? n); [|done]. intros s Hs. split; [apply length_read_staged|done]. }
  intros p Hp. destruct (negb _); [apply keeps_ret|].
  assert (open_ok (mk_pending_open (if 0 <? n then u16 n else 0) (u16 fl) p.2)).
  { split; [done|]. cbn. destruct (Z.ltb_spec 0 n); [by apply u16_path_len|done]. }
  apply keeps_bind; [|intros _]; apply keeps_modify_env; auto.
Qed.

Lemma keeps_stage_rename b b' n n' :
  n < MAX_PATH -> n' < MAX_PATH ->
  keeps E I (Enroll.stage_pending_rename (current_pid E) b b' n n').
Proof.
  intros Hn Hn'. unfold Enroll.stage_pending_rename.
  destruct (Z.ltb_spec 0 n), (Z.ltb_spec 0 n'); try apply keeps_ret. cbn [negb andb].
  apply keeps_bind; [apply keeps_this_cpu|]. intros [pr|]; [|apply keeps_ret].
  apply keeps_read_staged. intros p Hp.
  apply keeps_bind_known with (φ := fun p => length p.2 = 256%nat).
  { destruct p.1; [|done]. intros s Hs. split; [apply length_read_staged|done]. }
  intros p' Hp'. cbv zeta.
  assert (rename_ok (mk_pending_rename (u16 n) (u16 n') p.2 p'.2))
    by (split_and!; [done|done|by apply u16_path_len..]).
  apply keeps_bind; [|intros _; destruct (_ && _); [|apply keeps_ret]]; apply keeps_modify_env; auto.
Qed.

(** A handler's record keeps its size and type under stores past byte 36. *)
Lemma length_user_str a : (length (bpf_probe_read_user_str E a 256).2 <= 256)%nat.
Proof. apply probe_read_user_str_ok. lia. Qed.

Lemma rec_inv_path ty b off a :
  rec_inv ty b -> (37 <= off)%nat -> (off + 256 <= EVENT_RECORD_SIZE)%nat ->
  rec_inv ty (splice off (bpf_probe_read_user_str E a 256).2 b).
Proof. intros. pose proof (length_user_str a). apply rec_inv_splice; [done|done|lia]. Qed.

Lemma rec_inv_addr ty b n bs k :
  rec_inv ty b -> (n <= 16)%nat -> rec_inv ty (splice action_detail.addr (slice k n bs) b).
Proof.
  intros Hb Hn. apply rec_inv_splice; [done|layout_lia|].
  unfold slice. rewrite length_take. layout_lia.
Qed.

Ltac rec_tac :=
  repeat first
    [ apply rec_inv_store; [|layout_lia|layout_lia]
    | apply rec_inv_path; [|unfold Enroll.path_off, Enroll.path2_off; layout_lia ..]
    | apply rec_inv_addr; [|lia]
    | apply (rec_inv_header E); [split; done|done|layout_lia] ].

(** The record invariant, carried along a handler's buffer. *)
Lemma keeps_copy_region ty off f mx start stop b :
  rec_inv ty b -> (37 <= f_off f)%nat -> (f_off f + f_width f <= EVENT_RECORD_SIZE)%nat ->
  (37 <= off)%nat -> (off + Z.to_nat mx <= EVENT_RECORD_SIZE)%nat ->
  forall s, I s ->
    rec_inv ty (Enroll.copy_region off f mx start stop b E s).1 /\
    I (Enroll.copy_region off f mx start stop b E s).2.
Proof.
  intros Hb Hf Hf' Ho Ho' s Hs. unfold Enroll.copy_region.
  destruct (Z.leb_spec stop start); [done|]. split; [|done].
  unfold mbind, prog_bind, ask, mret, prog_ret. cbn [fst snd]. cbv zeta.
  set (n := if mx <? stop - start then mx else stop - start).
  assert (rec_inv ty (splice off (bpf_probe_read_user E start (Z.to_nat n)).2 b)).
  { apply rec_inv_splice; [done|done|]. rewrite (probe_read_user_length (E := E)).
    subst n. destruct (Z.ltb_spec mx (stop - start)); lia. }
  destruct (bpf_probe_read_user E start (Z.to_nat n)).1; [by apply rec_inv_store|done].
Qed.

Lemma keeps_handle_exec ctx : keeps E I (Enroll.handle_exec ctx).
Proof.
  unfold Enroll.handle_exec. cbv zeta. apply keeps_lookup_scratch; [apply keeps_ret|].
  intros b Hb. do 2 apply keeps_ask_bind.
  set (b1 := splice EVENT_HEADER_SIZE _ _).
  assert (rec_inv EVENT_EXEC b1) as Hb1.
  { apply rec_inv_splice; [rec_tac|layout_lia|].
    pose proof (probe_read_kernel_str_ok (E := E) (exec_ctx_addr ctx + Z.land (data_loc_filename ctx) 0xFFFF)
      256 ltac:(lia)) as [? _]. layout_lia. }
  apply keeps_ask_bind. set (b2 := if 0 <? _ then _ else _).
  assert (rec_inv EVENT_EXEC b2) as Hb2.
  { subst b2. destruct (0 <? _); rec_tac; done. }
  apply keeps_bind_known with (φ := rec_inv EVENT_EXEC).
  { intros s Hs. destruct (read_task E None mm _) as [m|]; [|done].
    unfold mbind at 1 2, prog_bind at 1 2. cbv zeta.
    destruct (keeps_copy_region EVENT_EXEC 320 enroll_event.argv_len MAX_ARGV (arg_start m) (arg_end m)
                b2 Hb2 ltac:(layout_lia) ltac:(layout_lia) ltac:(lia) ltac:(unfold MAX_ARGV; layout_lia) s Hs).
    apply keeps_copy_region; unfold MAX_ENV; done || layout_lia. }
  intros b3 Hb3. apply keeps_bind; [by eapply keeps_write_scratch|intros _].
  apply keeps_bind; [|intros _; apply keeps_ret]. by apply keeps_ringbuf_output, record_ok_exec.
Qed.

(** A record built in a zeroed local header. *)
Lemma record_ok_header e :
  length e = EVENT_HEADER_SIZE ->
  load enroll_event.event_type e = EVENT_FORK \/ load enroll_event.event_type e = EVENT_EXIT ->
  record_ok e.
Proof. intros. by right; right. Qed.

Lemma keeps_handle_fork ctx : keeps E I (Enroll.handle_fork ctx).
Proof.
  pose proof keeps_tag_pid. unfold Enroll.handle_fork, Enroll.is_tagged_pid. cbv zeta. apply keeps_ask_bind.
  apply keeps_bind; [apply keeps_gets|intros t]. apply keeps_bind; [keeps_tac|intros _].
  apply keeps_ask_bind, keeps_bind; [|intros _; apply keeps_ret].
  pose proof (probe_read_kernel_length (E := E) (child_comm ctx) 16) as Hc.
  apply keeps_ringbuf_output, record_ok_header.
  - repeat first [apply length_store_eq; [layout_lia|] | apply length_splice_eq; [rewrite Hc; layout_lia|]].
    done.
  - left. rewrite load_splice_other by (rewrite ?Hc; read_side). by rewrite load_store_same by len_ge.
Qed.

Lemma keeps_handle_exit : keeps E I Enroll.handle_exit.
Proof.
  unfold Enroll.handle_exit. do 2 apply keeps_ask_bind. destruct (negb _); [apply keeps_ret|].
  apply keeps_ask_bind, keeps_bind; [|intros _; apply keeps_ret]. cbv zeta.
  pose proof (comm_length (E := E)) as Hc.
  apply keeps_ringbuf_output, record_ok_header.
  - repeat first [apply length_store_eq; [layout_lia|] | apply length_splice_eq; [rewrite Hc; layout_lia|]].
    done.
  - right. rewrite load_splice_other by (rewrite ?Hc; read_side). by rewrite load_store_same by len_ge.
Qed.

(** The handlers of the action syscalls: gated, then a header in the scratch. *)
Lemma keeps_observed {B} (f : list Z -> prog B) (r : B) ty :
  0 <= ty < 256 ->
  (forall b, rec_inv ty b -> keeps E I (f b)) ->
  keeps E I (b ← Enroll.lookup_scratch;
             match b with
             | None => mret r
             | Some b => b ← Enroll.init_action_header b ty; f b
             end).
Proof.
  intros Hty Hf. apply keeps_lookup_scratch; [apply keeps_ret|]. intros b Hb.
  unfold Enroll.init_action_header. apply keeps_ask_bind, Hf. apply (rec_inv_header E); [done|done|layout_lia].
Qed.

Lemma keeps_tag_test {B} (f : prog B) (r : B) :
  keeps E I f ->
  keeps E I (_ ← Enroll.ensure_tagged_from_ancestor (current_pid E);
             t ← Enroll.is_tagged_pid (current_pid E);
             if negb (t : bool) then mret r else f).
Proof.
  intros Hf. apply keeps_bind; [apply keeps_enroll_ensure|intros _].
  apply keeps_bind; [apply keeps_gets|intros t]. destruct (negb t); [apply keeps_ret|done].
Qed.

Ltac observed_tac ty :=
  lazymatch goal with
  | |- keeps _ _ (mbind _ (ask _)) => apply keeps_ask_bind
  | |- keeps _ _ (mbind _ _) => apply keeps_bind; [|intros ?]
  | |- keeps _ _ (mret _) => apply keeps_ret
  | |- keeps _ _ (Enroll.write_scratch _) => eapply (keeps_write_scratch ty); rec_tac; done
  | |- keeps _ _ (Enroll.emit_action _) => apply (keeps_emit_action ty); [rec_tac; done|done]
  | |- keeps _ _ (Enroll.stage_pending_open _ _ _ _) => apply keeps_stage_open, path_len_bound
  | |- keeps _ _ (Enroll.stage_pending_unlink _ _ _ _) =>
      apply keeps_stage_unlink; first [apply path_len_bound|done]
  | |- keeps _ _ (Enroll.stage_pending_rename _ _ _ _ _) =>
      apply keeps_stage_rename; apply path_len_bound
  end.

Lemma keeps_handle_openat ctx : keeps E I (Enroll.handle_openat ctx).
Proof.
  unfold Enroll.handle_openat. apply keeps_ask_bind, keeps_tag_test. cbv zeta.
  apply keeps_observed; [done|]. intros b Hb. apply keeps_ask_bind.
  destruct (_ <=? 0); repeat observed_tac EVENT_OPEN.
Qed.

Lemma keeps_handle_unlinkat ctx : keeps E I (Enroll.handle_unlinkat ctx).
Proof.
  unfold Enroll.handle_unlinkat. apply keeps_ask_bind, keeps_tag_test. cbv zeta.
  apply keeps_observed; [done|]. intros b Hb. apply keeps_ask_bind.
  destruct (0 <? _); [repeat observed_tac EVENT_UNLINK|].
  destruct (nonzero _); repeat observed_tac EVENT_UNLINK.
Qed.

Lemma keeps_handle_unlink ctx : keeps E I (Enroll.handle_unlink ctx).
Proof.
  unfold Enroll.handle_unlink. apply keeps_ask_bind, keeps_tag_test. cbv zeta.
  apply keeps_observed; [done|]. intros b Hb. apply keeps_ask_bind.
  destruct (_ <=? 0); repeat observed_tac EVENT_UNLINK.
Qed.

Lemma keeps_handle_renameat2 ctx : keeps E I (Enroll.handle_renameat2 ctx).
Proof.
  unfold Enroll.handle_renameat2. apply keeps_ask_bind, keeps_tag_test. cbv zeta.
  apply keeps_observed; [done|]. intros b Hb. apply keeps_ask_bind.
  destruct (_ <=? 0); [repeat observed_tac EVENT_RENAME|]. apply keeps_ask_bind.
  destruct (_ <=? 0); repeat observed_tac EVENT_RENAME.
Qed.

Lemma staged_connect_ok dport n bs k :
  (n = 4 \/ n = 16)%nat ->
  connect_ok (mk_pending_connect dport (Z.of_nat n) 0 (splice 0 (slice k n bs) (zeros 16))).
Proof.
  intros Hn. split; cbn [ip ip_len]; [|lia]. apply length_splice_eq; [|done].
  unfold slice. rewrite length_take. lia.
Qed.

Lemma keeps_handle_connect ctx : keeps E I (Enroll.handle_connect ctx).
Proof.
  unfold Enroll.handle_connect. apply keeps_ask_bind, keeps_tag_test. cbv zeta. apply keeps_ask_bind.
  destruct (negb _); [apply keeps_ret|]. destruct (_ && _); [apply keeps_ret|].
  apply keeps_observed; [done|]. intros b Hb.
  apply keeps_bind; [repeat observed_tac EVENT_CONNECT|intros _].
  destruct (_ =? AF_INET); apply keeps_ask_bind; (destruct (negb _); [apply keeps_ret|]);
    (apply keeps_bind; [repeat observed_tac EVENT_CONNECT|intros _]);
    (apply keeps_bind; [|intros _; repeat observed_tac EVENT_CONNECT]).
  - apply keeps_stage_connect, (staged_connect_ok _ 4). lia.
  - apply keeps_stage_connect, (staged_connect_ok _ 16). lia.
Qed.

Hint Resolve keeps_handle_exec keeps_handle_fork keeps_handle_exit keeps_handle_connect
  keeps_handle_openat keeps_handle_unlinkat keeps_handle_unlink keeps_handle_renameat2 : keeps.

(** Every tracepoint program. *)
Lemma keeps_observation `{L : LpmTrie} h : enforcement_hook h = false -> keeps E I (run_hook h).
Proof. destruct h; try discriminate; intros _; cbn [run_hook]; auto with keeps. Qed.
End keeps_enroll.

(** ** The state invariant *)

(** [n] CPUs; every per-CPU array has its declared size, every staged entry its
    declared shape, and every submitted record is one the agent can decode. *)
Record wf (n : nat) (s : kstate) : Prop := {
  wf_events : Forall record_ok (events (enroll s));
  wf_scratch : pc_shape n 1 (fun b => length b = EVENT_RECORD_SIZE) (scratch (enroll s));
  wf_drops : pc_shape n 1 is_u64 (drops (enroll s));
  wf_open : map_Forall (fun _ => open_ok) (pending_open_paths (enroll s));
  wf_connects : map_Forall (fun _ => connect_ok) (pending_connects (enroll s));
  wf_open_cpu : pc_shape n 1 open_ok (pending_open_cpu (enroll s));
  wf_connect_cpu : pc_shape n 1 connect_ok (pending_connect_cpu (enroll s));
  wf_unlink : map_Forall (fun _ => open_ok) (pending_unlink_paths (enroll s));
  wf_rename : map_Forall (fun _ => rename_ok) (pending_rename_paths (enroll s));
  wf_unlink_cpu : pc_shape n 1 open_ok (pending_unlink_cpu (enroll s));
  wf_rename_cpu : pc_shape n 1 rename_ok (pending_rename_cpu (enroll s));
  wf_verdicts : Forall (fun v => length v = deny_verdict.size) (deny_verdicts (enforcer s));
  wf_key : pc_shape n 1 (fun _ => True) (lpm_scratch (enforcer s));
  wf_path : pc_shape n 1 (fun p => length p = 256%nat) (path_scratch (enforcer s));
  wf_stats : pc_shape n (Z.to_nat STAT_ENFORCE_MAX) is_u64 (enforce_stats (enforcer s))
}.

Lemma map_Forall_hash_update {V} (P : V -> Prop) ok k v (m : gmap Z V) :
  P v -> map_Forall (fun _ => P) m -> map_Forall (fun _ => P) (hash_update ok k v m).
Proof. intros. unfold hash_update. destruct ok; [|done]. by apply map_Forall_insert_2. Qed.

Lemma pc_shape_write_if {V} n k (P : V -> Prop) c i v m (ok : bool) :
  pc_shape n k P m -> P v -> pc_shape n k P (if ok then pc_write c i v m else m).
Proof. destruct ok; auto using pc_shape_write. Qed.

Lemma Forall_snoc {A} (P : A -> Prop) l x : Forall P l -> P x -> Forall P (l ++ [x]).
Proof. intros. apply Forall_app. by split; [|constructor]. Qed.

Hint Resolve map_Forall_hash_update pc_shape_write pc_shape_write_if Forall_snoc : core.

(** A store whose value is as the invariant wants it; a load of such a value. *)
Ltac wf_store :=
  match goal with H : wf _ _ |- _ => destruct H end;
  solve [ split; cbn; auto
        | by eapply (pc_shape_lookup_Some _ _ (fun p => length p = 256%nat))
        | by eapply (pc_shape_lookup_Some _ _ (fun b => length b = EVENT_RECORD_SIZE)) ].

Lemma keeps_wf `{L : LpmTrie} n E `{!EnvOk E} h : keeps E (wf n) (run_hook h).
Proof.
  destruct (enforcement_hook h) eqn:Hh;
    [apply keeps_enforcement|apply keeps_observation]; try done.
  all: intros; wf_store.
Qed.

(** ** Agent actions and reachable states *)

(** What the userspace agent does to the maps: it tags and untags processes,
    rewrites the policy, and consumes the two rings. *)
Inductive agent_step : kstate -> kstate -> Prop :=
  | agent_tag s pid :
      agent_step s (on_enroll (fun m => set_tagged_pids m (<[pid := 1]> (tagged_pids m))) s)
  | agent_untag s pid :
      agent_step s (on_enroll (fun m => set_tagged_pids m (delete pid (tagged_pids m))) s)
  | agent_policy s m' :
      deny_verdicts m' = deny_verdicts (enforcer s) -> lpm_scratch m' = lpm_scratch (enforcer s) ->
      path_scratch m' = path_scratch (enforcer s) -> enforce_stats m' = enforce_stats (enforcer s) ->
      agent_step s (mk_kstate (enroll s) m')
  | agent_read_events s k :
      agent_step s (on_enroll (fun m => set_events m (drop k (events m))) s)
  | agent_read_verdicts s k :
      agent_step s (on_enforcer (fun m => set_deny_verdicts m (drop k (deny_verdicts m))) s).

Inductive step `{L : LpmTrie} : kstate -> kstate -> Prop :=
  | step_hook E h s : EnvOk E -> step s (state_of (run_hook h) E s)
  | step_agent s s' : agent_step s s' -> step s s'.

(** Freshly loaded objects on [n] CPUs: empty maps, zeroed arrays. *)
Definition fresh {V} (n k : nat) (v : V) : percpu V := replicate n (replicate k v).

Definition init_enroll (n : nat) : enroll_maps :=
  mk_enroll_maps [] (fresh n 1 (zeros EVENT_RECORD_SIZE)) (fresh n 1 0) ∅ ∅ ∅
    (fresh n 1 pending_open0) (fresh n 1 pending_connect0) ∅ ∅
    (fresh n 1 pending_open0) (fresh n 1 pending_rename0).

Definition init_enforcer (n : nat) : enforcer_maps :=
  mk_enforcer_maps [mk_policy_ctrl 0 0 0 0 0] ∅ ∅ [] [] [] ∅ [] ∅ []
    (fresh n 1 lpm_key0) (fresh n 1 (zeros 256)) (fresh n (Z.to_nat STAT_ENFORCE_MAX) 0).

Definition init_state (n : nat) : kstate := mk_kstate (init_enroll n) (init_enforcer n).

Definition reachable `{L : LpmTrie} (n : nat) (s : kstate) : Prop := rtc step (init_state n) s.

Lemma pc_shape_fresh {V} n k (P : V -> Prop) v : P v -> pc_shape n k P (fresh n k v).
Proof.
  intros Hv. unfold fresh. split; [apply length_replicate|]. apply Forall_replicate.
  split; [apply length_replicate|]. by apply Forall_replicate.
Qed.

Lemma wf_init n : wf n (init_state n).
Proof.
  split; cbn [enroll enforcer init_state init_enroll init_enforcer]; try done.
  all: apply pc_shape_fresh; done || (repeat split; done).
Qed.

Lemma wf_step `{L : LpmTrie} n s s' : step s s' -> wf n s -> wf n s'.
Proof.
  intros [E h ? HE|? ? Ha] Hwf; [by apply (keeps_wf n E)|].
  destruct Ha; destruct Hwf; split; cbn in *; try done; try congruence.
  all: by apply Forall_drop.
Qed.

Lemma wf_reachable `{L : LpmTrie} n s : reachable n s -> wf n s.
Proof.
  unfold reachable. intros Hr. pose proof (wf_init n) as Hi. revert Hi.
  induction Hr as [|s1 s2 s3 Hs _ IH]; [done|]. intros. by eapply IH, wf_step.
Qed.

(** C37. No program and no agent action takes the maps out of their declared shape:
    per-CPU arrays keep their sizes and entry types, staged entries keep their
    length bounds, records their sizes and counters their width. *)
Theorem reachable_wf `{L : LpmTrie} n s : reachable n s -> wf n s.
Proof. apply wf_reachable. Qed.

(** ** Frame: what other processes' programs leave alone *)

(** As far as process [q] is concerned nothing was lost: the policy and its
    staged arguments are the same, and it is tagged if it was. *)
Record frame_for (q : Z) (s0 s : kstate) : Prop := {
  fr_policy : pol_eq (enforcer s) (enforcer s0);
  fr_open : pending_open_paths (enroll s) !! q = pending_open_paths (enroll s0) !! q;
  fr_connect : pending_connects (enroll s) !! q = pending_connects (enroll s0) !! q;
  fr_unlink : pending_unlink_paths (enroll s) !! q = pending_unlink_paths (enroll s0) !! q;
  fr_rename : pending_rename_paths (enroll s) !! q = pending_rename_paths (enroll s0) !! q;
  fr_tag : is_Some (tagged_pids (enroll s0) !! q) -> is_Some (tagged_pids (enroll s) !! q)
}.

#[global] Instance frame_for_refl q : Reflexive (frame_for q).
Proof. by split. Qed.

#[global] Instance frame_for_trans q : Transitive (frame_for q).
Proof. intros s1 s2 s3 [] []. split; try congruence; [by etrans|auto]. Qed.

Lemma hash_update_ne {V} ok k q (v : V) m : k <> q -> hash_update ok k v m !! q = m !! q.
Proof. intros. unfold hash_update. destruct ok; [|done]. by rewrite lookup_insert_ne. Qed.

Lemma hash_update_is_Some {V} ok k q (v : V) m :
  is_Some (m !! q) -> is_Some (hash_update ok k v m !! q).
Proof.
  unfold hash_update. destruct ok; [|done]. intros. destruct (decide (k = q)) as [->|Hne].
  - rewrite lookup_insert_eq. by eexists.
  - by rewrite lookup_insert_ne.
Qed.

Ltac frame_store :=
  match goal with H : frame_for _ _ _ |- _ => destruct H end;
  split; cbn; first
    [ done | by rewrite hash_update_ne | by auto using hash_update_is_Some
    | etrans; [|eassumption]; by split ].

Lemma run_hook_frame `{L : LpmTrie} n E `{!EnvOk E} h q s0 :
  current_pid E <> q -> keeps E (fun s => wf n s /\ frame_for q s0 s) (run_hook h).
Proof.
  intros Hq. destruct (enforcement_hook h) eqn:Hh;
    [apply keeps_enforcement|apply keeps_observation]; try done.
  all: intros; match goal with H : wf _ _ /\ _ |- _ => destruct H as [Hwf Hf] end.
  all: first [split; [clear Hf; wf_store|frame_store] | clear Hf; wf_store].
Qed.

(** What may happen between a process's tracepoint and its enforcement hook:
    programs of other processes, on any CPU, and the agent's bookkeeping. *)
Inductive other_step `{L : LpmTrie} (q : Z) : kstate -> kstate -> Prop :=
  | other_hook E h s :
      EnvOk E -> current_pid E <> q -> other_step q s (state_of (run_hook h) E s)
  | other_tag s pid :
      other_step q s (on_enroll (fun m => set_tagged_pids m (<[pid := 1]> (tagged_pids m))) s)
  | other_untag s pid :
      pid <> q ->
      other_step q s (on_enroll (fun m => set_tagged_pids m (delete pid (tagged_pids m))) s)
  | other_read_events s k :
      other_step q s (on_enroll (fun m => set_events m (drop k (events m))) s)
  | other_read_verdicts s k :
      other_step q s (on_enforcer (fun m => set_deny_verdicts m (drop k (deny_verdicts m))) s).

Lemma other_step_step `{L : LpmTrie} q s s' : other_step q s s' -> step s s'.
Proof.
  destruct 1; [by apply step_hook|apply step_agent..].
  - apply agent_tag.
  - apply agent_untag.
  - apply agent_read_events.
  - apply agent_read_verdicts.
Qed.

Lemma other_step_frame `{L : LpmTrie} n q s0 s s' :
  other_step q s s' -> wf n s -> frame_for q s0 s -> wf n s' /\ frame_for q s0 s'.
Proof.
  intros Hs Hwf Hf. split; [by eapply wf_step; [eapply other_step_step|]|].
  destruct Hs as [E h s HE Hq|s pid|s pid Hne|s k|s k].
  - by apply (run_hook_frame n E h q s0 Hq s).
  - destruct Hf. split; cbn; try done. intros ?%fr_tag0. by apply (hash_update_is_Some true).
  - destruct Hf. split; cbn; try done. intros ?%fr_tag0. by rewrite lookup_delete_ne.
  - by destruct Hf; split.
  - destruct Hf. split; cbn; try done. etrans; [|eassumption]. by split.
Qed.

Lemma other_steps_frame `{L : LpmTrie} n q s s' :
  rtc (other_step q) s s' -> wf n s -> wf n s' /\ frame_for q s s'.
Proof.
  enough (forall s0, frame_for q s0 s -> rtc (other_step q) s s' -> wf n s -> wf n s' /\ frame_for q s0 s')
    as H by (intros; by apply H).
  intros s0 Hf Hr. induction Hr as [s|s s1 s2 Hs _ IH]; [done|].
  intros Hwf. destruct (other_step_frame n q s0 s s1 Hs Hwf Hf). auto.
Qed.
