(* ===== verification/Programs.v ===== *)
(** * Programs: sections, attachment and helpers of the BPF programs

    What each program of the two objects is attached to (the [SEC] of its C
    function and the attach tables of [internal/ebpfloader]), and which kernel
    helpers it calls.  A program cannot tell apart two environments in which the
    helpers it calls behave alike ([helpers_decide]); in particular the verdict
    of an enforcement hook does not depend on user memory. *)

From stdpp Require Import strings.
From S2P Require Import Prelude Ctypes Types Bpf State.
From S2P Require Vmlinux Enforcer Enroll.
From S2P Require Import Logic Gate Machine.

(** ** Sections and attach tables *)

#[local] Open Scope string_scope.

(** C function and section, in file order. *)
Definition enroll_programs : list (string * string) := [
  ("handle_exec", "tracepoint/sched/sched_process_exec");
  ("handle_fork", "tracepoint/sched/sched_process_fork");
  ("handle_exit", "tracepoint/sched/sched_process_exit");
  ("handle_connect", "tracepoint/syscalls/sys_enter_connect");
  ("handle_openat", "tracepoint/syscalls/sys_enter_openat");
  ("handle_unlinkat", "tracepoint/syscalls/sys_enter_unlinkat");
  ("handle_unlink", "tracepoint/syscalls/sys_enter_unlink");
  ("handle_renameat2", "tracepoint/syscalls/sys_enter_renameat2")].

Definition enforcer_programs : list (string * string) := [
  ("enforce_cgroup_connect4", "cgroup/connect4");
  ("enforce_cgroup_connect6", "cgroup/connect6");
  ("enforce_file_open", "lsm/file_open");
  ("enforce_path_unlink", "lsm/path_unlink");
  ("enforce_path_rename", "lsm/path_rename");
  ("enforce_socket_connect", "lsm/socket_connect");
  ("enforce_openat_entry", "fmod_ret/__x64_sys_openat");
  ("enforce_connect_entry", "fmod_ret/__x64_sys_connect");
  ("enforce_unlinkat_entry", "fmod_ret/__x64_sys_unlinkat");
  ("enforce_unlink_entry", "fmod_ret/__x64_sys_unlink");
  ("enforce_renameat2_entry", "fmod_ret/__x64_sys_renameat2")].

(** The tables of loader.go and enforcer.go: group, name and program of a
    tracepoint; the LSM, fmod_ret and cgroup programs, with the attach types the
    loader passes for them. *)
Definition tracepoints : list (string * string * string) := [
  ("sched", "sched_process_exec", "handle_exec");
  ("sched", "sched_process_fork", "handle_fork");
  ("sched", "sched_process_exit", "handle_exit");
  ("syscalls", "sys_enter_connect", "handle_connect");
  ("syscalls", "sys_enter_openat", "handle_openat");
  ("syscalls", "sys_enter_unlinkat", "handle_unlinkat");
  ("syscalls", "sys_enter_unlink", "handle_unlink");
  ("syscalls", "sys_enter_renameat2", "handle_renameat2")].

Definition lsmPrograms : list string := [
  "enforce_file_open"; "enforce_path_unlink"; "enforce_path_rename"; "enforce_socket_connect"].

Definition syscallPrograms : list string := [
  "enforce_openat_entry"; "enforce_connect_entry"; "enforce_unlinkat_entry";
  "enforce_unlink_entry"; "enforce_renameat2_entry"].

Definition cgroupPrograms : list (string * string) := [
  ("enforce_cgroup_connect4", "BPF_CGROUP_INET4_CONNECT");
  ("enforce_cgroup_connect6", "BPF_CGROUP_INET6_CONNECT")].

(** The attach type [AttachSyscallEnforcement] passes. *)
Definition syscall_attach_type : string := "BPF_MODIFY_RETURN".

(** What [Attach], [AttachLSM], [AttachSyscallEnforcement] and
    [AttachCgroupEgress] attach: a program and the start of its section's name. *)
Definition attached_enroll : list (string * string) :=
  (fun '(g, n, p) => (p, "tracepoint/" ++ g ++ "/" ++ n)) <$> tracepoints.

Definition in_section (pre : string) (ps : list (string * string)) : list string :=
  fst <$> filter (fun p => String.prefix pre p.2 = true) ps.

(** ** Attaching

    The attach loops: programs missing from the object are an error, except that
    the fmod_ret programs, which the object only has on x86-64, are skipped.  What
    was attached is returned also on error. *)
Section attach.
Context (present : string -> bool).      (* the collection has the program *)
Context (link_ok : string -> bool).      (* attaching it succeeds *)

Fixpoint attach_loop (optional : bool) (prefix : string) (names attached : list string)
    : list string * bool :=
  match names with
  | [] => (attached, true)
  | n :: names =>
      if negb (present n) then
        if optional then attach_loop optional prefix names attached else (attached, false)
      else if negb (link_ok n) then (attached, false)
      else attach_loop optional prefix names (attached ++ [prefix ++ n])
  end.

Definition AttachLSM (attachSocketConnect : bool) : list string * bool :=
  attach_loop false "lsm/"
    (filter (fun n => negb (negb attachSocketConnect && String.eqb n "enforce_socket_connect") = true)
       lsmPrograms) [].

Definition AttachSyscallEnforcement : list string * bool :=
  attach_loop true "fmod_ret/" syscallPrograms [].

Definition AttachCgroupEgress : list string * bool :=
  attach_loop false "cgroup/" (fst <$> cgroupPrograms) [].
End attach.

(** ** Helpers *)

Inductive helper :=
  | BPF_FUNC_map_lookup_elem | BPF_FUNC_map_update_elem | BPF_FUNC_ktime_get_ns
  | BPF_FUNC_get_current_pid_tgid | BPF_FUNC_get_current_uid_gid | BPF_FUNC_get_current_comm
  | BPF_FUNC_get_current_task | BPF_FUNC_get_current_cgroup_id
  | BPF_FUNC_probe_read_user | BPF_FUNC_probe_read_user_str
  | BPF_FUNC_probe_read_kernel | BPF_FUNC_probe_read_kernel_str
  | BPF_FUNC_ringbuf_output | BPF_FUNC_ringbuf_reserve | BPF_FUNC_ringbuf_submit.

#[global] Instance helper_eq_dec : EqDecision helper.
Proof. solve_decision. Defined.

Definition helper_name (h : helper) : string :=
  match h with
  | BPF_FUNC_map_lookup_elem => "BPF_FUNC_map_lookup_elem"
  | BPF_FUNC_map_update_elem => "BPF_FUNC_map_update_elem"
  | BPF_FUNC_ktime_get_ns => "BPF_FUNC_ktime_get_ns"
  | BPF_FUNC_get_current_pid_tgid => "BPF_FUNC_get_current_pid_tgid"
  | BPF_FUNC_get_current_uid_gid => "BPF_FUNC_get_current_uid_gid"
  | BPF_FUNC_get_current_comm => "BPF_FUNC_get_current_comm"
  | BPF_FUNC_get_current_task => "BPF_FUNC_get_current_task"
  | BPF_FUNC_get_current_cgroup_id => "BPF_FUNC_get_current_cgroup_id"
  | BPF_FUNC_probe_read_user => "BPF_FUNC_probe_read_user"
  | BPF_FUNC_probe_read_user_str => "BPF_FUNC_probe_read_user_str"
  | BPF_FUNC_probe_read_kernel => "BPF_FUNC_probe_read_kernel"
  | BPF_FUNC_probe_read_kernel_str => "BPF_FUNC_probe_read_kernel_str"
  | BPF_FUNC_ringbuf_output => "BPF_FUNC_ringbuf_output"
  | BPF_FUNC_ringbuf_reserve => "BPF_FUNC_ringbuf_reserve"
  | BPF_FUNC_ringbuf_submit => "BPF_FUNC_ringbuf_submit"
  end.

(** The number a call instruction carries. *)
Definition helper_id (h : helper) : option Z := constant Vmlinux.enum_bpf_func_id (helper_name h).

(** The helpers a C function calls, its inlined callees included;
    [BPF_CORE_READ] is a call of [bpf_probe_read_kernel]. *)
Definition calls_ensure : list helper :=
  [BPF_FUNC_map_lookup_elem; BPF_FUNC_get_current_task; BPF_FUNC_probe_read_kernel;
   BPF_FUNC_map_update_elem].
Definition calls_header : list helper :=
  [BPF_FUNC_get_current_task; BPF_FUNC_get_current_pid_tgid; BPF_FUNC_ktime_get_ns;
   BPF_FUNC_probe_read_kernel; BPF_FUNC_get_current_cgroup_id; BPF_FUNC_get_current_uid_gid;
   BPF_FUNC_get_current_comm].
Definition calls_output : list helper := [BPF_FUNC_ringbuf_output; BPF_FUNC_map_lookup_elem].
Definition calls_gate : list helper := BPF_FUNC_get_current_pid_tgid :: calls_ensure.
Definition calls_emit_deny : list helper :=
  [BPF_FUNC_ringbuf_reserve; BPF_FUNC_ktime_get_ns; BPF_FUNC_get_current_pid_tgid;
   BPF_FUNC_ringbuf_submit].
Definition calls_path : list helper :=
  [BPF_FUNC_map_lookup_elem; BPF_FUNC_probe_read_kernel] ++ calls_emit_deny.
Definition calls_connect : list helper := BPF_FUNC_map_lookup_elem :: calls_emit_deny.
(** What every action tracepoint calls before and after its own work. *)
Definition calls_action : list helper :=
  BPF_FUNC_get_current_pid_tgid :: calls_ensure ++ calls_header ++ calls_output.

Definition helpers_of (h : hook) : list helper :=
  match h with
  | H_exec _ => BPF_FUNC_map_lookup_elem :: calls_header ++
      [BPF_FUNC_probe_read_kernel_str; BPF_FUNC_probe_read_user] ++ calls_output
  | H_fork _ => [BPF_FUNC_probe_read_kernel; BPF_FUNC_map_lookup_elem; BPF_FUNC_map_update_elem;
      BPF_FUNC_ktime_get_ns; BPF_FUNC_get_current_cgroup_id; BPF_FUNC_get_current_uid_gid] ++
      calls_output
  | H_exit => [BPF_FUNC_get_current_pid_tgid; BPF_FUNC_get_current_task;
      BPF_FUNC_probe_read_kernel; BPF_FUNC_get_current_comm; BPF_FUNC_ktime_get_ns] ++ calls_output
  | H_connect _ => BPF_FUNC_probe_read_user :: calls_action
  | H_openat _ | H_unlinkat _ | H_unlink _ | H_renameat2 _ =>
      BPF_FUNC_probe_read_user_str :: calls_action
  | E_cgroup_connect4 _ | E_cgroup_connect6 _ => calls_connect
  | E_file_open _ => calls_gate ++ calls_path
  | E_path_unlink | E_path_rename => calls_gate
  | E_socket_connect _ => calls_gate ++ BPF_FUNC_probe_read_user :: calls_connect
  | E_openat | E_unlinkat | E_unlink | E_renameat2 => calls_gate ++ calls_path
  | E_connect => calls_gate ++ calls_connect
  end.

(** ** Environments in which helpers behave alike *)

Section alike.
Context (E E' : env).

(** Lookups and the submit of a reserved record are determined by the maps. *)
Definition behaves_alike (h : helper) : Prop :=
  match h with
  | BPF_FUNC_map_lookup_elem | BPF_FUNC_ringbuf_submit => True
  | BPF_FUNC_map_update_elem => map_update_ok E = map_update_ok E'
  | BPF_FUNC_ktime_get_ns => bpf_ktime_get_ns E = bpf_ktime_get_ns E'
  | BPF_FUNC_get_current_pid_tgid => bpf_get_current_pid_tgid E = bpf_get_current_pid_tgid E'
  | BPF_FUNC_get_current_uid_gid => bpf_get_current_uid_gid E = bpf_get_current_uid_gid E'
  | BPF_FUNC_get_current_comm => bpf_get_current_comm E = bpf_get_current_comm E'
  | BPF_FUNC_get_current_task => bpf_get_current_task E = bpf_get_current_task E'
  | BPF_FUNC_get_current_cgroup_id => bpf_get_current_cgroup_id E = bpf_get_current_cgroup_id E'
  | BPF_FUNC_probe_read_user => bpf_probe_read_user E = bpf_probe_read_user E'
  | BPF_FUNC_probe_read_user_str => bpf_probe_read_user_str E = bpf_probe_read_user_str E'
  | BPF_FUNC_probe_read_kernel =>
      bpf_probe_read_kernel E = bpf_probe_read_kernel E' /\ task_at E = task_at E'
  | BPF_FUNC_probe_read_kernel_str => bpf_probe_read_kernel_str E = bpf_probe_read_kernel_str E'
  | BPF_FUNC_ringbuf_output => ringbuf_output_ok E = ringbuf_output_ok E'
  | BPF_FUNC_ringbuf_reserve => bpf_ringbuf_reserve E = bpf_ringbuf_reserve E'
  end.

Definition alike {A} (m : prog A) : Prop := forall s, m E s = m E' s.

Lemma alike_ret {A} (a : A) : alike (mret a).
Proof. done. Qed.

Lemma alike_bind {A B} (m : prog A) (f : A -> prog B) :
  alike m -> (forall a, alike (f a)) -> alike (m ≫= f).
Proof. intros Hm Hf s. unfold mbind, prog_bind. by rewrite Hm, Hf. Qed.

Lemma alike_gets {A} (f : kstate -> A) : alike (gets f).
Proof. done. Qed.

Lemma alike_modify f : alike (modify f).
Proof. done. Qed.

Lemma alike_ask {A} (f : env -> A) : f E = f E' -> alike (ask f).
Proof. intros H s. unfold ask. by rewrite H. Qed.

Lemma alike_modify_env f : (forall s, f E s = f E' s) -> alike (modify_env f).
Proof. intros H s. unfold modify_env. by rewrite H. Qed.

Lemma alike_this_cpu {V} (f : kstate -> percpu V) k : cpu E = cpu E' -> alike (this_cpu f k).
Proof. intros H s. unfold this_cpu. by rewrite H. Qed.
End alike.

#[export] Hint Resolve alike_ret alike_gets alike_modify : alike.

(** Helpers that behave alike give equal results, wherever they occur. *)
Ltac env_eq :=
  unfold Enforcer.fill_deny_verdict, Enroll.store_header, current_pid, current_tid, current_uid,
    read_task;
  repeat match goal with
  | H : behaves_alike _ _ BPF_FUNC_probe_read_kernel |- _ => destruct H
  | H : behaves_alike _ _ _ |- _ => cbn [behaves_alike] in H
  | H : ?f ?E = ?f ?E' |- context [?f ?E] => rewrite H
  end; reflexivity.

Ltac alike_step :=
  lazymatch goal with
  | |- alike _ _ (mbind _ _) => apply alike_bind; [|intros ?]
  | |- alike _ _ (mret _) => apply alike_ret
  | |- alike _ _ (ask _) => apply alike_ask; env_eq
  | |- alike _ _ (gets _) => apply alike_gets
  | |- alike _ _ (enr _) => apply alike_gets
  | |- alike _ _ (enf _) => apply alike_gets
  | |- alike _ _ (modify _) => apply alike_modify
  | |- alike _ _ (modify_env _) => apply alike_modify_env; intros ?; env_eq
  | |- alike _ _ (this_cpu _ _) => apply alike_this_cpu; assumption
  | |- alike _ _ (if ?b then _ else _) => destruct_innermost b; cbn iota
  | |- alike _ _ (match ?x with _ => _ end) => destruct_innermost x; cbn iota
  | |- alike _ _ (let _ := _ in _) => cbv zeta
  | |- alike _ _ _ => progress cbv beta zeta
  end.
Ltac alike_tac := repeat (first [solve [auto with alike] | alike_step]).

(** The facts about single helpers from those about a list of them, and back. *)
Ltac split_agree H := cbn [app] in H; repeat (apply Forall_cons in H as [? H]); clear H.
Ltac agree := solve [cbn [app]; repeat (constructor; [assumption || exact I|]); constructor].

(** *** The programs *)

Section programs_alike.
Context `{L : LpmTrie} (E E' : env).

(** The two runs are on the same CPU and have their locals at the same place. *)
Context (Hcpu : cpu E = cpu E') (Hstack : stack_addr E = stack_addr E').
Notation agrees hs := (Forall (behaves_alike E E') hs).
Notation alike := (alike E E').

Lemma alike_stat_inc i : alike (Enforcer.stat_inc i).
Proof. unfold Enforcer.stat_inc. alike_tac. Qed.

Lemma alike_tag_loop n pid task :
  agrees calls_ensure -> alike (Enforcer.tag_from_ancestor_loop n pid task).
Proof.
  intros H. split_agree H. revert task. induction n as [|n IH]; intros task;
    cbn [Enforcer.tag_from_ancestor_loop]; unfold Enforcer.is_tagged_pid; alike_tac.
Qed.

Lemma alike_ensure pid : agrees calls_ensure -> alike (Enforcer.ensure_tagged_from_ancestor pid).
Proof.
  intros H. pose proof (fun n task => alike_tag_loop n pid task H). split_agree H.
  unfold Enforcer.ensure_tagged_from_ancestor, Enforcer.is_tagged_pid. alike_tac.
Qed.

Lemma alike_gate : agrees calls_gate -> alike Enforcer.enforce_gate.
Proof.
  intros H. assert (agrees calls_ensure) as Hc by (split_agree H; agree).
  pose proof (fun pid => alike_ensure pid Hc). split_agree H.
  unfold Enforcer.enforce_gate, Enforcer.policy_ctrl_get, Enforcer.is_tagged_pid. alike_tac.
Qed.

Lemma alike_live : alike Enforcer.enforcement_live.
Proof. unfold Enforcer.enforcement_live, Enforcer.policy_ctrl_get. alike_tac. Qed.

Lemma alike_should : alike Enforcer.cgroup_should_enforce.
Proof.
  pose proof alike_live.
  unfold Enforcer.cgroup_should_enforce, Enforcer.fail_closed_regime, Enforcer.policy_ctrl_get. alike_tac.
Qed.

Lemma alike_emit a h n i j q : agrees calls_emit_deny -> alike (Enforcer.emit_deny_ex a h None n i j q).
Proof. intros H. split_agree H. unfold Enforcer.emit_deny_ex. alike_tac. Qed.

Lemma alike_emit_path a h p n i j q : agrees calls_path -> alike (Enforcer.emit_deny_ex a h p n i j q).
Proof. intros H. split_agree H. unfold Enforcer.emit_deny_ex. alike_tac. Qed.

Lemma alike_copy d p n : agrees calls_path -> alike (Enforcer.copy_path_bounded d p n).
Proof. intros H. split_agree H. unfold Enforcer.copy_path_bounded, Enforcer.write_path_buf. alike_tac. Qed.

Lemma alike_scratch_path : alike Enforcer.scratch_path_buf.
Proof. by apply alike_this_cpu. Qed.

Lemma alike_path_lpm map p n : agrees calls_path -> alike (Enforcer.path_lpm_lookup map p n).
Proof.
  intros H. split_agree H.
  unfold Enforcer.path_lpm_lookup, Enforcer.scratch_lpm_key, Enforcer.write_lpm_key. alike_tac.
Qed.

Lemma alike_open_verdict d a v w p n : agrees calls_path -> alike (Enforcer.enforce_open_verdict d a v w p n).
Proof.
  intros H. pose proof (fun a h p n i j q => alike_emit_path a h p n i j q H).
  unfold Enforcer.enforce_open_verdict, Enforcer.emit_deny. alike_tac.
Qed.

Lemma alike_path p n v w : agrees calls_path -> alike (Enforcer.enforce_path p n v w).
Proof.
  intros H. pose proof (fun m p n => alike_path_lpm m p n H).
  pose proof (fun d a v w p n => alike_open_verdict d a v w p n H).
  unfold Enforcer.enforce_path. alike_tac.
Qed.

Lemma alike_connect_parsed p n q : agrees calls_connect -> alike (Enforcer.enforce_connect_parsed p n q).
Proof.
  intros H. assert (agrees calls_emit_deny) as Hc by (split_agree H; agree).
  pose proof (fun a h n i j q => alike_emit a h n i j q Hc).
  unfold Enforcer.enforce_connect_parsed, Enforcer.deny_connect, Enforcer.ip_lpm_lookup,
    Enforcer.scratch_lpm_key, Enforcer.write_lpm_key, when. alike_tac.
Qed.

Lemma alike_from_pending :
  (forall pid, agrees calls_path -> alike (Enforcer.enforce_openat_from_pending pid)) /\
  (forall pid, agrees calls_connect -> alike (Enforcer.enforce_connect_from_pending pid)) /\
  (forall pid, agrees calls_path -> alike (Enforcer.enforce_unlink_from_pending pid)) /\
  (forall pid, agrees calls_path -> alike (Enforcer.enforce_rename_from_pending pid)).
Proof.
  pose proof alike_stat_inc as Hstat. pose proof alike_scratch_path as Hbuf.
  split_and!; intros pid H.
  2: pose proof (fun p n q => alike_connect_parsed p n q H).
  1,3,4: pose proof (fun d p n => alike_copy d p n H); pose proof (fun p n v w => alike_path p n v w H).
  - unfold Enforcer.enforce_openat_from_pending. alike_tac.
  - unfold Enforcer.enforce_unlink_from_pending. alike_tac.
  - unfold Enforcer.enforce_rename_from_pending. alike_tac.
  - unfold Enforcer.enforce_connect_from_pending. alike_tac.
Qed.

Lemma alike_enforcement h :
  enforcement_hook h = true -> agrees (helpers_of h) -> alike (run_hook h).
Proof.
  intros Hh H. pose proof alike_stat_inc as Hstat. pose proof alike_live as Hlive. pose proof alike_should as Hshould.
  destruct alike_from_pending as (Ho & Hc & Hu & Hr).
  destruct h; try discriminate Hh; cbn [run_hook helpers_of] in *.
  1,2: pose proof (fun p n q => alike_connect_parsed p n q H);
    unfold Enforcer.enforce_cgroup_connect4, Enforcer.enforce_cgroup_connect6,
      Enforcer.cgroup_connect_action; alike_tac.
  all: assert (agrees calls_gate) as Hg by (split_agree H; agree);
    pose proof (alike_gate Hg) as Hgate; clear Hg.
  - assert (agrees calls_path) as Hp by (split_agree H; agree).
    pose proof (fun d a v w p n => alike_open_verdict d a v w p n Hp).
    unfold Enforcer.enforce_file_open, Enforcer.inode_rule_lookup. alike_tac.
  - unfold Enforcer.enforce_path_unlink. alike_tac.
  - unfold Enforcer.enforce_path_rename. alike_tac.
  - assert (agrees calls_connect) as Hp by (split_agree H; agree).
    pose proof (fun p n q => alike_connect_parsed p n q Hp). split_agree H.
    unfold Enforcer.enforce_socket_connect, Enforcer.enforce_connect. alike_tac.
  - assert (agrees calls_path) as Hp by (split_agree H; agree). pose proof (fun p => Ho p Hp). split_agree H.
    unfold Enforcer.enforce_openat_entry. alike_tac.
  - assert (agrees calls_connect) as Hp by (split_agree H; agree). pose proof (fun p => Hc p Hp). split_agree H.
    unfold Enforcer.enforce_connect_entry. alike_tac.
  - assert (agrees calls_path) as Hp by (split_agree H; agree). pose proof (fun p => Hu p Hp). split_agree H.
    unfold Enforcer.enforce_unlinkat_entry. alike_tac.
  - assert (agrees calls_path) as Hp by (split_agree H; agree). pose proof (fun p => Hu p Hp). split_agree H.
    unfold Enforcer.enforce_unlink_entry. alike_tac.
  - assert (agrees calls_path) as Hp by (split_agree H; agree). pose proof (fun p => Hr p Hp). split_agree H.
    unfold Enforcer.enforce_renameat2_entry. alike_tac.
Qed.

Lemma alike_inc_drop : alike Enroll.inc_drop.
Proof. unfold Enroll.inc_drop. alike_tac. Qed.

Lemma alike_output r : agrees calls_output -> alike (Enroll.ringbuf_output r).
Proof. intros H. pose proof alike_inc_drop. split_agree H. unfold Enroll.ringbuf_output. alike_tac. Qed.

Lemma alike_scratch b : alike Enroll.lookup_scratch /\ alike (Enroll.write_scratch b).
Proof. split; unfold Enroll.lookup_scratch, Enroll.write_scratch; alike_tac. Qed.

Lemma alike_enroll_ensure pid : agrees calls_ensure -> alike (Enroll.ensure_tagged_from_ancestor pid).
Proof. rewrite ensure_tagged_copies. apply alike_ensure. Qed.

(** The staging functions. *)
Lemma alike_staging :
  agrees calls_ensure ->
  (forall pid pc, alike (Enroll.stage_pending_connect pid pc)) /\
  (forall pid f b n, alike (Enroll.stage_pending_open pid f b n)) /\
  (forall pid f b n, alike (Enroll.stage_pending_unlink pid f b n)) /\
  (forall pid b b2 n n2, alike (Enroll.stage_pending_rename pid b b2 n n2)).
Proof.
  intros Ha. split_agree Ha. split_and!; intros.
  - unfold Enroll.stage_pending_connect. alike_tac.
  - unfold Enroll.stage_pending_open, Enroll.read_staged_path. alike_tac.
  - unfold Enroll.stage_pending_unlink, Enroll.read_staged_path. alike_tac.
  - unfold Enroll.stage_pending_rename, Enroll.read_staged_path. alike_tac.
Qed.

Lemma alike_lifecycle h :
  match h with H_exec _ | H_fork _ | H_exit => True | _ => False end ->
  agrees (helpers_of h) -> alike (run_hook h).
Proof.
  intros Hh Ha. pose proof (fun b => proj1 (alike_scratch b)) as Hls.
  pose proof (fun b => proj2 (alike_scratch b)) as Hws.
  assert (agrees calls_output) as Ho by (destruct h; try done; cbn [helpers_of] in Ha; split_agree Ha; agree).
  pose proof (fun r => alike_output r Ho) as Hout. clear Ho.
  destruct h; try done; cbn [run_hook helpers_of] in *; split_agree Ha.
  - specialize (Hls []). unfold Enroll.handle_exec, Enroll.copy_region. alike_tac.
  - unfold Enroll.handle_fork, Enroll.is_tagged_pid, Enroll.tag_pid. alike_tac.
  - unfold Enroll.handle_exit. alike_tac.
Qed.

Lemma alike_action h :
  match h with H_connect _ | H_openat _ | H_unlinkat _ | H_unlink _ | H_renameat2 _ => True | _ => False end ->
  agrees (helpers_of h) -> alike (run_hook h).
Proof.
  intros Hh Ha. pose proof (proj1 (alike_scratch [])) as Hls.
  pose proof (fun b => proj2 (alike_scratch b)) as Hws.
  assert (agrees calls_output /\ agrees calls_ensure) as [Ho He]
    by (destruct h; try done; cbn [helpers_of] in Ha; split_agree Ha; split; agree).
  pose proof (fun r => alike_output r Ho) as Hout. pose proof (fun p => alike_enroll_ensure p He) as Hens.
  destruct (alike_staging He) as (Hsc & Hso & Hsu & Hsr). clear Ho He.
  destruct h; try done; cbn [run_hook helpers_of] in *; split_agree Ha.
  - unfold Enroll.handle_connect, Enroll.init_action_header, Enroll.emit_action, Enroll.is_tagged_pid. alike_tac.
  - unfold Enroll.handle_openat, Enroll.init_action_header, Enroll.emit_action, Enroll.is_tagged_pid. alike_tac.
  - unfold Enroll.handle_unlinkat, Enroll.init_action_header, Enroll.emit_action, Enroll.is_tagged_pid. alike_tac.
  - unfold Enroll.handle_unlink, Enroll.init_action_header, Enroll.emit_action, Enroll.is_tagged_pid. alike_tac.
  - unfold Enroll.handle_renameat2, Enroll.init_action_header, Enroll.emit_action, Enroll.is_tagged_pid. alike_tac.
Qed.

(** The helpers a program calls decide its run: two environments in which they
    behave alike give the same answer and the same maps, whatever the other helpers
    do. *)
Theorem helpers_decide h s :
  agrees (helpers_of h) -> run_hook h E s = run_hook h E' s.
Proof.
  intros H. revert s. change (alike (run_hook h)).
  destruct (enforcement_hook h) eqn:Hh; [by apply alike_enforcement|].
  destruct h; try discriminate Hh; first [by apply alike_lifecycle | by apply alike_action].
Qed.
End programs_alike.

(** ** User memory *)

(** The same environment with another user memory. *)
Definition with_user_memory (E : env) (rd : Z -> nat -> bool * list Z)
    (rds : Z -> nat -> Z * list Z) : env :=
  mk_env (cpu E) (bpf_get_current_pid_tgid E) (bpf_get_current_uid_gid E)
    (bpf_get_current_cgroup_id E) (bpf_ktime_get_ns E) (bpf_get_current_comm E)
    (bpf_get_current_task E) (task_at E) rd rds (bpf_probe_read_kernel E)
    (bpf_probe_read_kernel_str E) (stack_addr E) (map_update_ok E) (ringbuf_output_ok E)
    (bpf_ringbuf_reserve E).

Definition reads_user_memory (h : hook) : bool :=
  existsb (fun f => bool_decide (f = BPF_FUNC_probe_read_user \/ f = BPF_FUNC_probe_read_user_str))
    (helpers_of h).

(** C30. No check-then-use window on user memory: the answers of the enforcement
    programs, but for the LSM connect hook, and the state they leave do not depend
    on user memory at the time of the hook; they decide on what the tracepoint
    staged. *)
Theorem verdict_ignores_user_memory `{L : LpmTrie} h E s rd rds :
  enforcement_hook h = true -> (forall a, h <> E_socket_connect a) ->
  run_hook h (with_user_memory E rd rds) s = run_hook h E s.
Proof.
  intros Hh Hne. apply helpers_decide; [done|done|].
  assert (reads_user_memory h = false) as Hr.
  { destruct h; try discriminate Hh; try reflexivity. by destruct (Hne address). }
  unfold reads_user_memory in Hr. apply Forall_forall. intros f Hf.
  assert (f <> BPF_FUNC_probe_read_user /\ f <> BPF_FUNC_probe_read_user_str) as [H1 H2].
  { split; intros ->; apply not_true_iff_false in Hr; apply Hr, existsb_exists; eexists;
      (split; [by apply list_elem_of_In|]); apply bool_decide_eq_true; auto. }
  by destruct f.
Qed.

(** ** The tables *)

(** The attach tables name the programs of the objects: every tracepoint is
    attached where its section says, every enforcer program is in the table of its
    section's kind, and attach types and helpers are constants of the kernel's
    enumerations, numbered differently. *)
Theorem attach_tables_agree :
  enroll_programs = attached_enroll /\
  in_section "lsm/" enforcer_programs = lsmPrograms /\
  in_section "fmod_ret/" enforcer_programs = syscallPrograms /\
  in_section "cgroup/" enforcer_programs = cgroupPrograms.*1 /\
  length enforcer_programs = (length lsmPrograms + length syscallPrograms + length cgroupPrograms)%nat /\
  Forall (fun t => is_Some (constant Vmlinux.enum_bpf_attach_type t))
    (syscall_attach_type :: cgroupPrograms.*2) /\
  (forall h, is_Some (helper_id h)) /\
  (forall h h', helper_id h = helper_id h' -> h = h').
Proof.
  split_and!; try (vm_compute; reflexivity).
  - repeat (constructor; [vm_compute; by eexists|]). constructor.
  - intros []; vm_compute; by eexists.
  - intros [] []; vm_compute; done.
Qed.

(** ** Attaching *)

Section attach_facts.
Context (present link_ok : string -> bool).

(** The loop gets past a program. *)
Definition passes (optional : bool) (n : string) : bool :=
  if present n then link_ok n else optional.

Lemma attach_loop_spec optional prefix names acc :
  exists pre rest, names = (pre ++ rest)%list /\
    Forall (fun n => passes optional n = true) pre /\
    (attach_loop present link_ok optional prefix names acc).1 =
      (acc ++ (String.append prefix <$> filter (fun n => present n = true) pre))%list /\
    match rest with
    | [] => (attach_loop present link_ok optional prefix names acc).2 = true
    | n :: _ => passes optional n = false /\
        (attach_loop present link_ok optional prefix names acc).2 = false
    end.
Proof.
  revert acc. induction names as [|n names IH]; intros acc; cbn [attach_loop].
  - exists [], []. cbn. by rewrite app_nil_r.
  - destruct (passes optional n) eqn:Hn; pose proof Hn as Hn'; unfold passes in Hn;
      destruct (present n) eqn:Hp; rewrite ?Hn; cbn [negb].
    + destruct (IH (acc ++ [String.append prefix n])%list) as (pre & rest & -> & Hf & Heq & Hr).
      exists (n :: pre), rest. split_and!; [done|by constructor| |done].
      rewrite Heq, filter_cons_True, <- app_assoc by done. done.
    + subst optional. destruct (IH acc) as (pre & rest & -> & Hf & Heq & Hr). exists (n :: pre), rest.
      split_and!; [done|by constructor| |done]. by rewrite Heq, filter_cons_False by congruence.
    + exists [], (n :: names). cbn. rewrite app_nil_r. by split_and!.
    + subst optional. exists [], (n :: names). cbn. rewrite app_nil_r. by split_and!.
Qed.

(** AttachLSM attaches exactly the LSM programs present in the object,
    socket_connect only when asked, stops at the first that is missing or refused
    and reports what is attached. *)
Theorem attach_reports :
  ((AttachCgroupEgress present link_ok).2 = true ->
     (AttachCgroupEgress present link_ok).1 = (String.append "cgroup/" <$> cgroupPrograms.*1)) /\
  (forall b, (AttachLSM present link_ok b).2 = true ->
     (AttachLSM present link_ok b).1 =
       (String.append "lsm/" <$> filter (fun n => b = true \/ n <> "enforce_socket_connect") lsmPrograms)) /\
  ((AttachSyscallEnforcement present link_ok).2 = true ->
     (AttachSyscallEnforcement present link_ok).1 =
       (String.append "fmod_ret/" <$> filter (fun n => present n = true) syscallPrograms)) /\
  (forall optional prefix names,
     (attach_loop present link_ok optional prefix names []).2 = false ->
     exists pre n rest, names = (pre ++ n :: rest)%list /\ passes optional n = false /\
       (attach_loop present link_ok optional prefix names []).1 =
         (String.append prefix <$> filter (fun n => present n = true) pre)).
Proof.
  assert (forall optional prefix names,
    (attach_loop present link_ok optional prefix names []).2 = true ->
    Forall (fun n => passes optional n = true) names /\
    (attach_loop present link_ok optional prefix names []).1 =
      (String.append prefix <$> filter (fun n => present n = true) names)) as Hok.
  { intros o p names Hr. destruct (attach_loop_spec o p names []) as (pre & rest & -> & Hf & Heq & Hm).
    destruct rest; [|destruct Hm; congruence]. by rewrite app_nil_r in *. }
  assert (forall names, Forall (fun n => passes false n = true) names ->
    filter (fun n => present n = true) names = names) as Hall.
  { intros names. induction 1 as [|n names Hn _ IH]; [done|]. unfold passes in Hn.
    rewrite filter_cons_True, IH; [done|]. by destruct (present n). }
  split_and!.
  - intros [Hf Heq]%Hok. unfold AttachCgroupEgress. by rewrite Heq, Hall.
  - intros b [Hf Heq]%Hok. unfold AttachLSM. rewrite Heq, Hall by done. by destruct b.
  - intros [_ Heq]%Hok. exact Heq.
  - intros o p names Hr. destruct (attach_loop_spec o p names []) as (pre & [|n rest] & -> & Hf & Heq & Hm);
      [congruence|]. exists pre, n, rest. by destruct Hm.
Qed.
End attach_facts.
