(* ===== verification/Concrete.v ===== *)
(** * Concrete: environments and states to evaluate the programs on

    [env_of_memory] is a kernel with a given user memory, one task table and no
    failing helper; it satisfies [EnvOk], so the theorems apply to it.  The rest
    are the policies and machine states the witnesses and counterexamples use. *)

From Stdlib Require Import Ascii String.
From S2P Require Import Prelude Types Bpf State Logic.
From S2P Require Import Gate PathVerdict Hooks Records Machine.

(** User memory from an address to its byte; addresses outside are unmapped. *)
Definition user_bytes (mem : Z -> option Z) (a : Z) (n : nat) : option (list Z) :=
  mapM (fun i => mem (a + Z.of_nat i)) (seq 0 n).

(** Read up to [n] bytes of a string: its length with the NUL, or an error when
    an unmapped byte is met first. *)
Fixpoint user_str (mem : Z -> option Z) (a : Z) (n : nat) : option (list Z) :=
  match n with
  | O => Some []
  | S n => c ← mem a; if c =? 0 then Some [] else (fun r => c :: r) <$> user_str mem (a + 1) n
  end.

Definition read_user (mem : Z -> option Z) (a : Z) (n : nat) : bool * list Z :=
  if TASK_SIZE_MAX <=? a then (false, zeros n) else
  match user_bytes mem a n with
  | Some bs => (true, u8 <$> bs)
  | None => (false, zeros n)
  end.

Definition read_user_str (mem : Z -> option Z) (a : Z) (n : nat) : Z * list Z :=
  match user_str (fun a => u8 <$> mem a) a (n - 1) with
  | Some p => (Z.of_nat (length p) + 1, p ++ [0])
  | None => (-14, [])
  end.

Definition read_kernel (src : list Z) (n : nat) : bool * list Z :=
  if (n <=? length src)%nat then (true, take n src) else (false, zeros n).

Definition env_of_memory (c : nat) (pid_tgid : Z) (task : Z) (tasks : Z -> option task_struct)
    (mem : Z -> option Z) : env :=
  mk_env c pid_tgid 0 1 1000 (zeros 16) task tasks (read_user mem) (read_user_str mem)
    read_kernel (fun _ _ => (1, [0])) TASK_SIZE_MAX (fun _ => true) true
    (Some (zeros deny_verdict.size)).

Lemma user_bytes_length mem a n bs : user_bytes mem a n = Some bs -> length bs = n.
Proof. intros H%length_mapM. by rewrite length_seq in H. Qed.

Lemma user_str_spec mem a n p :
  user_str mem a n = Some p -> (length p <= n)%nat /\ Forall (fun b => b <> 0) p /\
  Forall (fun b => exists a, mem a = Some b) p.
Proof.
  revert a p. induction n as [|n IH]; intros a p; cbn; [intros [= <-]; split_and!; constructor|].
  destruct (mem a) as [c|] eqn:Hc; cbn; [|done].
  destruct (Z.eqb_spec c 0) as [|Hne]; [intros [= <-]; split_and!; [cbn; lia|constructor..]|].
  destruct (user_str mem (a + 1) n) as [r|] eqn:Hr; cbn; [|done]. intros [= <-].
  destruct (IH _ _ Hr) as (Hl & Hz & Hm). split_and!; [cbn; lia|by constructor|].
  constructor; [by eexists|done].
Qed.

Lemma is_byte_u8 z : is_byte (u8 z).
Proof. unfold is_byte, u8. apply Z.mod_pos_bound. done. Qed.

Lemma zeros_bytes n : Forall is_byte (zeros n).
Proof. apply Forall_replicate. done. Qed.

#[global] Instance env_of_memory_ok c pt task tasks mem : EnvOk (env_of_memory c pt task tasks mem).
Proof.
  split; cbn; try done.
  - apply (zeros_bytes 16).
  - intros a n. unfold read_user. destruct (_ <=? a); [apply length_zeros|].
    destruct (user_bytes mem a n) eqn:Hb; cbn; [|apply length_zeros].
    rewrite length_fmap. by eapply user_bytes_length.
  - intros a n. unfold read_user. destruct (_ <=? a); [apply zeros_bytes|].
    destruct (user_bytes mem a n) eqn:Hb; cbn; [|apply zeros_bytes].
    apply Forall_fmap, Forall_true. intros. apply is_byte_u8.
  - intros a n Ha. unfold read_user. by destruct (Z.leb_spec TASK_SIZE_MAX a); [|lia].
  - intros a n Hn. unfold str_read_ok, read_user_str.
    destruct (user_str _ a (n - 1)) as [p|] eqn:Hp; cbn; [|split; [lia|lia]].
    destruct (user_str_spec _ _ _ _ Hp) as (Hl & Hz & _). rewrite length_app. cbn. split; [lia|].
    intros _. exists p. split_and!; [done|lia|done].
  - intros a n. unfold read_user_str. destruct (user_str _ a (n - 1)) as [p|] eqn:Hp; cbn; [|constructor].
    destruct (user_str_spec _ _ _ _ Hp) as (_ & _ & Hm). apply Forall_app. split; [|by repeat constructor].
    apply (Forall_impl _ _ _ Hm). intros b [a' Hb]. destruct (mem a'); cbn in Hb; [|done].
    injection Hb as <-. apply is_byte_u8.
  - intros src n. unfold read_kernel. destruct (Nat.leb_spec n (length src)); cbn.
    + rewrite length_take. lia.
    + apply length_zeros.
  - intros src n. unfold read_kernel. by destruct (n <=? length src)%nat.
  - intros src n Hs. unfold read_kernel. destruct (n <=? length src)%nat; cbn; [by apply Forall_take|].
    apply zeros_bytes.
  - intros a n Hn. split; cbn; [lia|]. intros _. by exists [].
  - intros. by repeat constructor.
  - intros g [= <-]. done.
Qed.

Lemma env_of_memory_reads c pt task tasks mem : kernel_reads (env_of_memory c pt task tasks mem).
Proof. intros src n Hn. cbn. unfold read_kernel. by destruct (Nat.leb_spec n (length src)); [|lia]. Qed.

(** ** A machine to run *)

(** User memory from a list of regions. *)
Definition mem_of (rs : list (Z * list Z)) (a : Z) : option Z :=
  foldr (fun r k => if (r.1 <=? a) && (a <? r.1 + Z.of_nat (length r.2))
                    then r.2 !! Z.to_nat (a - r.1) else k) None rs.

Definition c_string (s : string) : list Z := bytes_of s ++ [0].

Definition SHADOW : Z := 4096.
Definition SCRATCH : Z := 8192.
Definition SOCK4 : Z := 12288.
Definition SOCK6 : Z := 16384.
Definition UNMAPPED : Z := 65536.

Definition demo_addr : list Z := [10; 0; 0; 7].
Definition demo_addr6 : list Z := [10; 0; 0; 7; 0; 0; 0; 0; 0; 0; 0; 0; 0; 0; 0; 1].

Definition demo_mem : Z -> option Z := mem_of
  [(SHADOW, c_string "/etc/shadow"); (SCRATCH, c_string "/tmp/scratch");
   (SOCK4, [2; 0; 1; 187] ++ demo_addr);
   (SOCK6, [10; 0; 1; 187; 0; 0; 0; 0] ++ demo_addr6 ++ [0; 0; 0; 0])].

(** The agent process 42 on CPU 0, a second thread of it on CPU 1, and an
    unrelated process. *)
Definition agent_env : env := env_of_memory 0 (42 * 2 ^ 32 + 42) 0 (fun _ => None) demo_mem.
Definition thread_env : env := env_of_memory 1 (42 * 2 ^ 32 + 43) 0 (fun _ => None) demo_mem.
Definition other_env : env := env_of_memory 0 (77 * 2 ^ 32 + 77) 0 (fun _ => None) demo_mem.

Definition all_actions : Z := 31.
Definition deny_rule (hash spec : Z) : path_rule := mk_path_rule MAP_DECISION_DENY all_actions 0 hash spec.
Definition allow_rule (hash spec : Z) : path_rule := mk_path_rule MAP_DECISION_ALLOW all_actions 0 hash spec.

Definition demo_maps (active closed : Z) (pd pa ipd ipa : lpm_trie) : enforcer_maps :=
  mk_enforcer_maps [mk_policy_ctrl active closed 1 0 1] ∅ ∅ pd pa ipd ∅ ipa ∅ []
    (fresh 2 1 lpm_key0) (fresh 2 1 (zeros 256)) (fresh 2 (Z.to_nat STAT_ENFORCE_MAX) 0).

(** Process 42 is tagged. *)
Definition demo_enroll : enroll_maps := set_tagged_pids (init_enroll 2) {[42 := 1]}.

(** Enforcement live, opening (and unlinking, renaming) /etc/shadow and
    connecting to 10.0.0.7 denied. *)
Definition live_maps : enforcer_maps :=
  demo_maps 1 0 [(path_key (bytes_of "/etc/shadow"), deny_rule 7 100)] []
    [(path_key demo_addr, deny_rule 9 100)] [].
Definition live_state : kstate := mk_kstate demo_enroll live_maps.

(** Enforcement off, fail closed. *)
Definition closed_state : kstate := mk_kstate demo_enroll (demo_maps 0 1 [] [] [] []).

Lemma wf_demo m :
  deny_verdicts m = [] -> lpm_scratch m = fresh 2 1 lpm_key0 ->
  path_scratch m = fresh 2 1 (zeros 256) ->
  enforce_stats m = fresh 2 (Z.to_nat STAT_ENFORCE_MAX) 0 -> wf 2 (mk_kstate demo_enroll m).
Proof.
  intros H1 H2 H3 H4. destruct (wf_init 2). split; try done; cbn [enforcer];
    rewrite ?H1, ?H2, ?H3, ?H4; done.
Qed.

Lemma wf_live : wf 2 live_state.
Proof. by apply wf_demo. Qed.

Lemma lpm_functional_nil : lpm_functional [].
Proof. intros ???? H. by apply not_elem_of_nil in H. Qed.

Lemma lpm_functional_singleton e r : lpm_functional [(e, r)].
Proof. intros e1 r1 e2 r2 H1%list_elem_of_singleton H2%list_elem_of_singleton. congruence. Qed.

Lemma live_tries : tries_functional live_maps.
Proof. split; [apply lpm_functional_singleton|apply lpm_functional_nil]. Qed.

Lemma live_ip_tries : lpm_functional (ip_deny live_maps) /\ lpm_functional (ip_allow live_maps).
Proof. split; [apply lpm_functional_singleton|apply lpm_functional_nil]. Qed.

Lemma enrolled_42 E m : current_pid E = 42 -> enrolled E (mk_kstate demo_enroll m).
Proof. intros Hp. left. rewrite Hp. by eexists. Qed.

Definition sys_open (path flags : Z) : trace_event_raw_sys_enter := mk_sys_enter [0; path; flags; 0; 0; 0].
Definition sys_unlink (path : Z) : trace_event_raw_sys_enter := mk_sys_enter [path; 0; 0; 0; 0; 0].
Definition sys_rename (old new : Z) : trace_event_raw_sys_enter := mk_sys_enter [0; old; 0; new; 0; 0].
Definition sys_connect (addr : Z) : trace_event_raw_sys_enter := mk_sys_enter [3; addr; 16; 0; 0; 0].
