(* ===== verification/CoreRead.v ===== *)
(** * CoreRead: kernel objects in memory

    [BPF_CORE_READ (p, f)] loads field [f] of the kernel object at [p], at the
    offset the object's type gives it, and yields 0 when the load faults.  With
    the layouts of [Vmlinux] the kernel objects of the model ([task_struct],
    [mm_struct], [file], [inode], [super_block]) are what these loads find in
    kernel memory, and the ancestor walk is a walk over memory. *)

From Stdlib Require Import String.
From S2P Require Import Prelude Ctypes Types Bpf State Logic.
From S2P Require Vmlinux Enforcer Enroll.
From S2P Require Import Gate PathVerdict Hooks Records Machine Concrete.

(** ** Objects of a C type *)

Definition BPF_CORE_READ (km : Z -> option Z) (t : ctype) (a : Z) (f : access) : Z :=
  default 0 (fd ← field_of t f; bs ← user_bytes km (a + Z.of_nat (f_off fd)) (f_width fd);
             Some (le_val bs)).

(** Stores of the named fields of an object into its bytes. *)
Fixpoint encode (t : ctype) (fs : list (access * Z)) (raw : list Z) : list Z :=
  match fs with
  | [] => raw
  | (f, v) :: fs =>
      match field_of t f with
      | Some fd => store fd v (encode t fs raw)
      | None => encode t fs raw
      end
  end.

(** The fields exist and do not share bytes. *)
Fixpoint separate (t : ctype) (names : list access) : bool :=
  match names with
  | [] => true
  | f :: names =>
      match field_of t f with
      | Some fd => forallb (fun g => match field_of t g with
                                     | Some gd => bool_decide (disjoint_fields fd gd)
                                     | None => false
                                     end) names
      | None => false
      end && separate t names
  end.

(** The value is one the field's width can hold. *)
Definition fits (t : ctype) (fv : access * Z) : Prop :=
  forall fd, field_of t fv.1 = Some fd -> 0 <= fv.2 < 2 ^ (8 * Z.of_nat (f_width fd)).

Definition holds_at (km : Z -> option Z) (a : Z) (bs : list Z) : Prop :=
  forall i, (i < length bs)%nat -> km (a + Z.of_nat i) = bs !! i.

Lemma user_bytes_holds km a bs o n :
  holds_at km a bs -> (o + n <= length bs)%nat ->
  user_bytes km (a + Z.of_nat o) n = Some (slice o n bs).
Proof.
  intros Hh Hl. unfold user_bytes, slice. apply mapM_Some_2, Forall2_same_length_lookup_2.
  - rewrite length_take, length_drop, length_seq. lia.
  - intros i x y Hx Hy. apply lookup_seq in Hx as [-> Hi].
    rewrite lookup_take_lt, lookup_drop in Hy by lia.
    rewrite <- Z.add_assoc, <- Nat2Z.inj_add. cbn [Nat.add].
    by rewrite Hh, Hy by lia.
Qed.

(** A load from an object whose bytes are known. *)
Lemma core_read_holds km t a bs f fd :
  wf_ctype t = true -> length bs = Z.to_nat (sizeof t) -> holds_at km a bs ->
  field_of t f = Some fd -> BPF_CORE_READ km t a f = load fd bs.
Proof.
  intros Hwf Hl Hh Hf. pose proof (field_of_bounds t f fd Hwf Hf).
  unfold BPF_CORE_READ. rewrite Hf. cbn [mbind option_bind].
  by rewrite (user_bytes_holds _ _ _ _ _ Hh) by lia.
Qed.

Lemma length_encode t fs raw :
  wf_ctype t = true -> length raw = Z.to_nat (sizeof t) ->
  length (encode t fs raw) = Z.to_nat (sizeof t).
Proof.
  intros Hwf Hl. induction fs as [|[f v] fs IH]; cbn; [done|].
  destruct (field_of t f) as [fd|] eqn:Hf; [|done].
  pose proof (field_of_bounds t f fd Hwf Hf). rewrite length_store; lia.
Qed.

Lemma separate_cons t f names :
  separate t (f :: names) = true ->
  exists fd, field_of t f = Some fd /\ separate t names = true /\
    forall g gd, g ∈ names -> field_of t g = Some gd -> disjoint_fields fd gd.
Proof.
  cbn. intros [H1 H2]%andb_true_iff. destruct (field_of t f) as [fd|]; [|done].
  exists fd. split_and!; [done|done|]. intros g gd Hg Hgd.
  rewrite forallb_forall in H1. specialize (H1 g (proj1 (list_elem_of_In _ _) Hg)).
  rewrite Hgd in H1. by apply bool_decide_eq_true in H1.
Qed.

Lemma load_encode t fs raw f v fd :
  wf_ctype t = true -> length raw = Z.to_nat (sizeof t) -> separate t fs.*1 = true ->
  (f, v) ∈ fs -> field_of t f = Some fd ->
  load fd (encode t fs raw) = v mod 2 ^ (8 * Z.of_nat (f_width fd)).
Proof.
  intros Hwf Hl. induction fs as [|[g w] fs IH]; cbn [fmap list_fmap fst]; intros Hs Hin Hf;
    [by apply not_elem_of_nil in Hin|].
  destruct (separate_cons _ _ _ Hs) as (gd & Hg & Hs' & Hdis). cbn. rewrite Hg.
  pose proof (field_of_bounds t g gd Hwf Hg) as Hgb. pose proof (length_encode t fs raw Hwf Hl) as Hle.
  apply elem_of_cons in Hin as [[= -> ->]|Hin].
  - rewrite Hf in Hg. injection Hg as ->. apply load_store_same. lia.
  - rewrite load_store_other; [by apply IH| |lia].
    assert (disjoint_fields gd fd) as [?|?]; [|right; lia|left; lia].
    apply (Hdis f fd); [|done]. apply list_elem_of_fmap. by exists (f, v).
Qed.

(** Reading back what an object in memory holds: [BPF_CORE_READ] returns the value
    of every field that was stored, whatever the other bytes of the object are. *)
Theorem core_read_roundtrip km t a raw fs f v :
  wf_ctype t = true -> length raw = Z.to_nat (sizeof t) -> separate t fs.*1 = true ->
  Forall (fits t) fs -> holds_at km a (encode t fs raw) -> (f, v) ∈ fs ->
  BPF_CORE_READ km t a f = v.
Proof.
  intros Hwf Hl Hs Hfit Hh Hin.
  assert (exists fd, field_of t f = Some fd) as [fd Hf].
  { clear Hfit Hh. induction fs as [|[g w] fs IH]; [by apply not_elem_of_nil in Hin|].
    destruct (separate_cons _ _ _ Hs) as (gd & Hg & Hs' & _).
    apply elem_of_cons in Hin as [[= -> ->]|Hin]; [by exists gd|by apply IH]. }
  rewrite (core_read_holds km t a _ f fd Hwf (length_encode t fs raw Hwf Hl) Hh Hf).
  rewrite (load_encode t fs raw f v fd Hwf Hl Hs Hin Hf).
  apply Z.mod_small. rewrite Forall_forall in Hfit. by apply (Hfit (f, v) Hin).
Qed.

(** Loads are compared by object and field, never by evaluating the layout. *)
#[local] Opaque BPF_CORE_READ.

(** ** The kernel objects the programs read *)

Section objects.
Context (km : Z -> option Z).

Definition mm_of_memory (p : Z) : option mm_struct :=
  if p =? 0 then None else
  let rd := BPF_CORE_READ km Vmlinux.struct_mm_struct p in
  Some (mk_mm (rd "arg_start"%string) (rd "arg_end"%string) (rd "env_start"%string)
          (rd "env_end"%string)).

Definition task_of_memory (a : Z) : task_struct :=
  let rd := BPF_CORE_READ km Vmlinux.struct_task_struct a in
  mk_task (rd "tgid"%string) (rd "real_parent"%string) (rd "start_time"%string)
    (mm_of_memory (rd "mm"%string)).

Definition super_block_of_memory (p : Z) : option super_block :=
  if p =? 0 then None else
  Some (mk_super_block (BPF_CORE_READ km Vmlinux.struct_super_block p "s_dev"%string)).

Definition inode_of_memory (p : Z) : option inode :=
  if p =? 0 then None else
  let rd := BPF_CORE_READ km Vmlinux.struct_inode p in
  Some (mk_inode (super_block_of_memory (rd "i_sb"%string)) (rd "i_ino"%string)).

Definition file_of_memory (a : Z) : file :=
  let rd := BPF_CORE_READ km Vmlinux.struct_file a in
  mk_file (rd "f_flags"%string) (inode_of_memory (rd "f_inode"%string)).
End objects.

(** A kernel whose task table is the memory [km]. *)
Definition env_of_kernel_memory (c : nat) (pid_tgid : Z) (task : Z) (km mem : Z -> option Z) : env :=
  env_of_memory c pid_tgid task (fun a => Some (task_of_memory km a)) mem.

#[global] Instance env_of_kernel_memory_ok c pt task km mem :
  EnvOk (env_of_kernel_memory c pt task km mem).
Proof. apply env_of_memory_ok. Qed.

(** ** Lineage in memory *)

Definition task_fields (pid parent : Z) : list (access * Z) :=
  [(Fld "tgid"%string, pid); (Fld "real_parent"%string, parent)].

(** At [a] there is a task with this tgid and parent. *)
Definition task_at_memory (km : Z -> option Z) (a pid parent : Z) : Prop :=
  exists raw, length raw = Z.to_nat (sizeof Vmlinux.struct_task_struct) /\
    is_u32 pid /\ is_u64 parent /\
    holds_at km a (encode Vmlinux.struct_task_struct (task_fields pid parent) raw).

Lemma task_struct_wf : wf_ctype Vmlinux.struct_task_struct = true.
Proof. vm_compute. reflexivity. Qed.

Lemma task_fields_separate pid parent :
  separate Vmlinux.struct_task_struct (task_fields pid parent).*1 = true.
Proof. vm_compute. reflexivity. Qed.

Lemma task_at_memory_reads km a pid parent :
  task_at_memory km a pid parent ->
  tgid (task_of_memory km a) = pid /\ real_parent (task_of_memory km a) = parent.
Proof.
  intros (raw & Hl & Hp & Hpar & Hh).
  assert (Forall (fits Vmlinux.struct_task_struct) (task_fields pid parent)) as Hfit.
  { constructor; [|constructor; [|constructor]].
    all: intros fd Hfd; vm_compute in Hfd; injection Hfd as <-; done. }
  assert (forall f v, (f, v) ∈ task_fields pid parent ->
            BPF_CORE_READ km Vmlinux.struct_task_struct a f = v) as Hrd.
  { intros f v Hin. exact (core_read_roundtrip _ _ _ _ _ f v task_struct_wf Hl
      (task_fields_separate pid parent) Hfit Hh Hin). }
  split; apply Hrd; [by left|by right; left].
Qed.

(** Tasks linked by [real_parent]: the current task at [a], its ancestors at the
    listed addresses with the listed pids, nearest first. *)
Fixpoint lineage (km : Z -> option Z) (a pid : Z) (ancestors : list (Z * Z)) : Prop :=
  match ancestors with
  | [] => True
  | (a', pid') :: rest => task_at_memory km a pid a' /\
      (exists parent, task_at_memory km a' pid' parent) /\ lineage km a' pid' rest
  end.

Lemma lineage_ancestor E km a pid l k a' pid' :
  task_at E = (fun a => Some (task_of_memory km a)) ->
  lineage km a pid l -> l !! k = Some (a', pid') ->
  ancestor E (S k) a = a' /\ pid_of_task E a' = u32 pid'.
Proof.
  intros HE. revert a pid k. induction l as [|[a1 p1] l IH]; intros a pid k; [done|].
  cbn [lineage]. intros (Ht & [p2 Ht'] & Hl).
  destruct (task_at_memory_reads _ _ _ _ Ht) as [_ Hpar].
  assert (read_task E 0 real_parent a = a1) as Hr by (unfold read_task; by rewrite HE).
  rewrite ancestor_succ, Hr. destruct k as [|k]; cbn [lookup list_lookup].
  - intros [= <- <-]. split; [done|]. unfold pid_of_task, read_task. rewrite HE.
    by destruct (task_at_memory_reads _ _ _ _ Ht') as [-> _].
  - intros Hk. by apply (IH a1 p1 k).
Qed.

(** A process is enrolled through the kernel's own data structures: when the
    task objects in memory link the current task to a tagged process within 16
    real_parent steps, without meeting a NULL pointer, pid 0 or the process itself
    on the way, the tag lookup tags the process. *)
Theorem memory_lineage_enrolls c pt task km mem pid l a t s :
  let E := env_of_kernel_memory c pt task km mem in
  lineage km task pid (l ++ [(a, t)]) -> (length l < 16)%nat ->
  Forall (fun x => x.1 <> 0 /\ x.2 <> 0 /\ x.2 <> current_pid E) (l ++ [(a, t)]) ->
  is_tagged t s ->
  is_tagged (current_pid E) (state_of (Enforcer.ensure_tagged_from_ancestor (current_pid E)) E s).
Proof.
  intros E Hlin Hlen Hnz Ht.
  assert (forall k a' pid', (l ++ [(a, t)]) !! k = Some (a', pid') ->
            ancestor E (S k) task = a' /\ pid_of_task E a' = pid') as Hanc.
  { intros k a' pid' Hk. destruct (lineage_ancestor E km task pid _ k a' pid' eq_refl Hlin Hk) as [-> ->].
    split; [done|].
    assert (is_u32 pid') as Hu; [|unfold u32; by apply Z.mod_small].
    clear -Hlin Hk. revert task pid k Hlin Hk.
    induction (l ++ [(a, t)]) as [|[a1 p1] r IH]; intros task pid k Hlin Hk; [done|].
    destruct Hlin as (_ & (p2 & raw & _ & Hu & _) & Hl). destruct k as [|k]; cbn in Hk.
    - by injection Hk as <- <-.
    - by apply (IH a1 p1 k). }
  change (is_tagged (current_pid E) (after_ensure E s)). apply ensure_tagged_enrolled.
  right. split; [|done]. exists (S (length l)). split; [lia|].
  assert ((l ++ [(a, t)]) !! length l = Some (a, t)) as Hlast by (by rewrite lookup_app_r, Nat.sub_diag).
  split.
  - destruct (Hanc _ _ _ Hlast) as [Ha Hp]. change (task_of E) with task. by rewrite Ha, Hp.
  - intros j Hj. destruct j as [|j]; [lia|]. change (task_of E) with task.
    destruct (lookup_lt_is_Some_2 (l ++ [(a, t)]) j) as [[a' p'] Hj'].
    { rewrite length_app. cbn. lia. }
    destruct (Hanc _ _ _ Hj') as [-> ->]. rewrite Forall_lookup in Hnz.
    by destruct (Hnz _ _ Hj').
Qed.
