(* ===== verification/Staging.v ===== *)
(** * Staging: what the tracepoints leave for the enforcer

    The effect of [handle_openat], [handle_unlinkat], [handle_unlink],
    [handle_renameat2] and [handle_connect] on the staged-argument maps and on
    the event ring, on every branch. *)

From S2P Require Import Prelude Types Bpf State Logic Gate.
From S2P Require Import PathVerdict Hooks Records.
From S2P Require Enforcer.
From S2P Require Import Enroll.

(** ** The common prefix: only enrolled processes are observed *)

Definition observed (body : Z -> prog Z) : prog Z :=
  pid ← ask current_pid;
  _ ← ensure_tagged_from_ancestor pid;
  t ← is_tagged_pid pid;
  if negb (t : bool) then mret 0 else body pid.

Lemma ensure_run E s :
  ensure_tagged_from_ancestor (current_pid E) E s = ((), after_ensure E s).
Proof.
  unfold after_ensure, state_of. rewrite ensure_tagged_copies.
  by destruct (Enforcer.ensure_tagged_from_ancestor _ _ _) as [[]].
Qed.

Lemma observed_run body E s :
  observed body E s =
  if bool_decide (is_tagged (current_pid E) (after_ensure E s))
  then body (current_pid E) E (after_ensure E s) else (0, after_ensure E s).
Proof.
  unfold observed. erewrite run_bind by done. erewrite run_bind by apply ensure_run.
  erewrite run_bind by done. cbn beta. unfold is_tagged.
  by destruct (bool_decide _).
Qed.

Lemma observed_enrolled body E s :
  enrolled E s -> observed body E s = body (current_pid E) E (after_ensure E s).
Proof.
  intros He. rewrite observed_run. apply ensure_tagged_enrolled in He.
  by rewrite bool_decide_true.
Qed.

Lemma observed_other body E s :
  ~ enrolled E s -> observed body E s = (0, after_ensure E s).
Proof.
  intros He. rewrite observed_run. rewrite <- ensure_tagged_enrolled in He.
  by rewrite bool_decide_false.
Qed.

(** Step through the prefix of a handler for an enrolled process. *)
Ltac run_observed He :=
  erewrite run_bind by done; erewrite run_bind by apply ensure_run; erewrite run_bind by done;
  cbn beta; rewrite bool_decide_true by (by apply ensure_tagged_enrolled in He); cbn [negb].

(** ** Stores as state updates *)

Definition set_scratch_buf (E : env) (b : list Z) (s : kstate) : kstate :=
  on_enroll (fun m => set_scratch m (pc_write (cpu E) 0 b (scratch m))) s.

Definition stage_open (E : env) (po : pending_open) (s : kstate) : kstate :=
  on_enroll (fun m => set_pending_open_cpu
    (set_pending_open_paths m
      (hash_update (map_update_ok E M_pending_open_paths) (current_pid E) po (pending_open_paths m)))
    (if map_update_ok E M_pending_open_cpu
     then pc_write (cpu E) 0 po (pending_open_cpu m) else pending_open_cpu m)) s.

Definition stage_unlink (E : env) (po : pending_open) (s : kstate) : kstate :=
  on_enroll (fun m => set_pending_unlink_cpu
    (set_pending_unlink_paths m
      (hash_update (map_update_ok E M_pending_unlink_paths) (current_pid E) po (pending_unlink_paths m)))
    (if map_update_ok E M_pending_unlink_cpu
     then pc_write (cpu E) 0 po (pending_unlink_cpu m) else pending_unlink_cpu m)) s.

Definition stage_rename (E : env) (pr : pending_rename) (s : kstate) : kstate :=
  on_enroll (fun m => set_pending_rename_paths
    (set_pending_rename_cpu m (pc_write (cpu E) 0 pr (pending_rename_cpu m)))
    (hash_update (map_update_ok E M_pending_rename_paths) (current_pid E) pr (pending_rename_paths m))) s.

Definition stage_connect (E : env) (pc : pending_connect) (s : kstate) : kstate :=
  on_enroll (fun m => set_pending_connect_cpu
    (set_pending_connects m
      (hash_update (map_update_ok E M_pending_connects) (current_pid E) pc (pending_connects m)))
    (if map_update_ok E M_pending_connect_cpu
     then pc_write (cpu E) 0 pc (pending_connect_cpu m) else pending_connect_cpu m)) s.

(** A record submitted to the event ring, or a counted drop. *)
Definition output (E : env) (rec : list Z) (s : kstate) : kstate :=
  if ringbuf_output_ok E then on_enroll (fun m => set_events m (events m ++ [rec])) s
  else match pc_lookup (cpu E) 0 (drops (enroll s)) with
       | Some d => on_enroll (fun m => set_drops m (pc_write (cpu E) 0 (u64 (d + 1)) (drops m))) s
       | None => s
       end.

Lemma ringbuf_output_run E rec s :
  exists rc, ringbuf_output rec E s = (rc, output E rec s).
Proof.
  unfold ringbuf_output, output. erewrite run_bind by done. cbn beta.
  destruct (ringbuf_output_ok E); [by eexists|].
  unfold inc_drop, this_cpu. unfold mbind, prog_bind. cbn.
  destruct (pc_lookup (cpu E) 0 (drops (enroll s))); by eexists.
Qed.

(** A submitted record changes the event ring or the drop counter only. *)
Lemma output_frame E r s :
  enforcer (output E r s) = enforcer s /\
  exists ev dr, enroll (output E r s) = set_events (set_drops (enroll s) dr) ev.
Proof.
  destruct s as [en ef]. unfold output.
  destruct (ringbuf_output_ok E); [|destruct (pc_lookup _ _ _) as [d|]];
    (split; [done|]); destruct en as [ev sc dr tp po pc poc pcc pu pr puc prc]; cbn.
  - by exists (ev ++ [r]), dr.
  - by exists ev, (pc_write (cpu E) 0 (u64 (d + 1)) dr).
  - by exists ev, dr.
Qed.

(** ** Reading a path from user memory *)

(** The user string at [addr] reads as [p]; longer strings read as their first
    255 bytes, which is then [p]. *)
Definition reads_path (E : env) (addr : Z) (p : list Z) : Prop :=
  bpf_probe_read_user_str E addr 256 = (Z.of_nat (length p) + 1, p ++ [0]).

Lemma reads_path_length E `{!EnvOk E} addr p :
  reads_path E addr p -> (length p <= 255)%nat.
Proof.
  intros H. destruct (probe_read_user_str_ok addr 256) as [Hlen _]; [lia|].
  unfold reads_path in H. rewrite H in Hlen. cbn in Hlen. rewrite length_app in Hlen. cbn in Hlen. lia.
Qed.

(** Every successful read is of this form. *)
Lemma reads_path_intro E `{!EnvOk E} addr :
  0 < (bpf_probe_read_user_str E addr 256).1 -> exists p : list Z, reads_path E addr p /\ Forall (fun b => b <> 0) p.
Proof.
  intros Hpos. destruct (probe_read_user_str_ok addr 256) as [_ H]; [lia|].
  destruct (H Hpos) as (p & Hp & Hret & Hnz). exists p. split; [|done].
  unfold reads_path. destruct (bpf_probe_read_user_str E addr 256) as [r bs]. cbn in *. subst bs.
  f_equal. rewrite length_app in Hret. cbn in Hret. lia.
Qed.

Lemma reads_path_no_nul E `{!EnvOk E} addr p :
  reads_path E addr p -> Forall (fun b => b <> 0) p.
Proof.
  intros Hr. destruct (reads_path_intro E addr) as (p' & Hr' & Hnz).
  { unfold reads_path in Hr. rewrite Hr. cbn. lia. }
  unfold reads_path in Hr, Hr'. rewrite Hr in Hr'. injection Hr' as _ Heq.
  by apply app_inj_2 in Heq as [-> _].
Qed.

Lemma path_len_reads (p : list Z) :
  (1 <= length p <= 255)%nat ->
  path_len_from_user_str (Z.of_nat (length p) + 1) = Z.of_nat (length p).
Proof.
  intros. unfold path_len_from_user_str, MAX_PATH. cbv zeta.
  replace (Z.of_nat (length p) + 1 <=? 1) with false by lia.
  replace (256 <=? Z.of_nat (length p) + 1 - 1) with false by lia. lia.
Qed.

(** The staged copy of a scratch region holding [p]. *)
Lemma read_staged_path_run E `{!EnvOk E} (Hk : kernel_reads E) buf p s :
  (255 <= length buf)%nat -> (length p <= 255)%nat -> holds buf p ->
  exists cp, read_staged_path buf E s = ((true, cp), s) /\
    length cp = 256%nat /\ holds cp p.
Proof.
  intros Hb Hl Hp. unfold read_staged_path. erewrite run_bind by done.
  rewrite Hk, probe_read_kernel_ok by (solve [apply Hk; lia] || lia).
  assert (length (take 255 buf) = 255%nat) as Ht by (rewrite length_take; lia).
  exists (splice 0 (take 255 buf) (zeros 256)). split_and!; [done| |].
  - rewrite length_splice; rewrite length_zeros; lia.
  - unfold holds, splice. rewrite take_0, app_nil_l, Ht. cbn [Nat.add].
    destruct (decide (length p = 255%nat)) as [Heq|Hne].
    + assert (take 255 buf = p) as -> by (rewrite <- Heq; by apply holds_take).
      by rewrite take_app_add.
    + rewrite take_app_le, take_take, Nat.min_l by lia. done.
Qed.

(** ** The scratch record *)

(** A field of the header or detail does not overlap the path regions. *)
Lemma slice_store_before f z o n buf :
  (f_off f + f_width f <= o)%nat -> (f_off f <= length buf)%nat ->
  slice o n (store f z buf) = slice o n buf.
Proof. intros. unfold store. apply slice_splice_after; rewrite ?length_le_bytes; lia. Qed.

(** The scratch entry of the CPU a tracepoint runs on. *)
Definition scratch_buf (E : env) (s : kstate) (b : list Z) : Prop :=
  pc_lookup (cpu E) 0 (scratch (enroll s)) = Some b /\ length b = EVENT_RECORD_SIZE.

Lemma lookup_scratch_run E s b :
  scratch_buf E s b -> lookup_scratch E (after_ensure E s) = (Some b, after_ensure E s).
Proof.
  intros [Hb _]. unfold lookup_scratch, this_cpu.
  destruct (after_ensure_frame E s) as [_ ->]. cbn [scratch set_tagged_pids]. by rewrite Hb.
Qed.

(** A record whose first path region was read from user memory. *)
Definition path_buf1 (r : Z * list Z) (b : list Z) : list Z :=
  store enroll_event.argv_len (str_len_field r.1) (splice path_off r.2 b).

Definition path_buf2 (r : Z * list Z) (b : list Z) : list Z :=
  store enroll_event.env_len (str_len_field r.1) (splice path2_off r.2 b).

Ltac sizes := unfold path_off, path2_off, EVENT_HEADER_SIZE, ACTION_DETAIL_SIZE,
  EVENT_RECORD_SIZE, ACTION_RECORD_SIZE in *; cbn [f_off f_width snd fst] in *.

Lemma length_path_buf1 p r b :
  length b = EVENT_RECORD_SIZE -> (length p <= 255)%nat ->
  length (path_buf1 (r, p ++ [0]) b) = EVENT_RECORD_SIZE.
Proof.
  intros Hb Hp. unfold path_buf1, enroll_event.argv_len. sizes.
  assert (length (p ++ [0%Z]) <= 256)%nat by (rewrite length_app; cbn; lia).
  assert (length (splice (64 + 24) (p ++ [0]) b) = length b) by (apply length_splice; lia).
  rewrite length_store; cbn [f_off f_width]; lia.
Qed.

Lemma path_buf1_region p r b :
  length b = EVENT_RECORD_SIZE ->
  slice path_off (length p + 1) (path_buf1 (r, p ++ [0]) b) = p ++ [0].
Proof.
  intros Hb. unfold path_buf1. cbn [snd fst].
  rewrite slice_store_before; unfold enroll_event.argv_len; sizes.
  - replace (length p + 1)%nat with (length (p ++ [0%Z])) by (rewrite length_app; done).
    apply slice_splice_same. lia.
  - lia.
  - unfold splice. rewrite length_app, length_take. lia.
Qed.

Lemma path_buf1_prefix p r b :
  length b = EVENT_RECORD_SIZE -> holds (drop path_off (path_buf1 (r, p ++ [0]) b)) p.
Proof. apply path_buf1_region. Qed.

Lemma length_path_buf2 p r b :
  length b = EVENT_RECORD_SIZE -> (length p <= 255)%nat ->
  length (path_buf2 (r, p ++ [0]) b) = EVENT_RECORD_SIZE.
Proof.
  intros Hb Hp. unfold path_buf2, enroll_event.env_len. sizes.
  assert (length (p ++ [0%Z]) <= 256)%nat by (rewrite length_app; cbn; lia).
  assert (length (splice (64 + 24 + 256) (p ++ [0]) b) = length b) by (apply length_splice; lia).
  rewrite length_store; cbn [f_off f_width]; lia.
Qed.

Lemma path_buf2_region p r b :
  length b = EVENT_RECORD_SIZE ->
  slice path2_off (length p + 1) (path_buf2 (r, p ++ [0]) b) = p ++ [0].
Proof.
  intros Hb. unfold path_buf2. cbn [snd fst].
  rewrite slice_store_before; unfold enroll_event.env_len; sizes.
  - replace (length p + 1)%nat with (length (p ++ [0%Z])) by (rewrite length_app; done).
    apply slice_splice_same. lia.
  - lia.
  - unfold splice. rewrite length_app, length_take. lia.
Qed.

(** The second region and its length do not disturb the first. *)
Lemma path_buf2_other p r b n :
  length b = EVENT_RECORD_SIZE -> (n <= 256)%nat ->
  slice path_off n (path_buf2 (r, p) b) = slice path_off n b.
Proof.
  intros Hb Hn. unfold path_buf2. cbn [snd fst].
  rewrite slice_store_before; unfold enroll_event.env_len; sizes.
  - apply slice_splice_before; lia.
  - lia.
  - unfold splice. rewrite length_app, length_take. lia.
Qed.

Section handlers.
Context (E : env) `{!EnvOk E} (Hkr : kernel_reads E).

(** ** Open *)

Definition open_buf (flags : Z) (r : Z * list Z) (b : list Z) : list Z :=
  path_buf1 r (store action_detail.open_flags flags (header_buf E EVENT_OPEN b)).

Lemma length_open_hdr flags b :
  length b = EVENT_RECORD_SIZE ->
  length (store action_detail.open_flags flags (header_buf E EVENT_OPEN b)) = EVENT_RECORD_SIZE.
Proof.
  intros Hb. assert (length (header_buf E EVENT_OPEN b) = EVENT_RECORD_SIZE) as Hh
    by (rewrite (length_header_buf E), Hb; sizes; lia).
  unfold action_detail.open_flags. rewrite length_store; [done|]. sizes. lia.
Qed.

Lemma stage_pending_open_run flags buf p s :
  (255 <= length buf)%nat -> (1 <= length p <= 255)%nat -> holds buf p ->
  exists cp, length cp = 256%nat /\ holds cp p /\
    stage_pending_open (current_pid E) flags buf (Z.of_nat (length p)) E s =
    ((), stage_open E (mk_pending_open (Z.of_nat (length p)) (u16 flags) cp) s).
Proof.
  intros Hb Hl Hp. unfold stage_pending_open.
  destruct (read_staged_path_run E Hkr buf p s) as (cp & Hrun & Hcp & Hpath); [lia..|done|].
  exists cp. split_and!; [done..|].
  replace (0 <? Z.of_nat (length p)) with true by lia. cbn [negb].
  erewrite run_bind by apply Hrun. cbn [negb fst snd]. cbv zeta.
  replace (u16 (Z.of_nat (length p))) with (Z.of_nat (length p))
    by (unfold u16; rewrite Z.mod_small; lia).
  by erewrite run_bind by done.
Qed.

Lemma handle_openat_run ctx s b p :
  enrolled E s -> scratch_buf E s b ->
  reads_path E (arg ctx 1) p -> p <> [] ->
  let flags := u32 (arg ctx 2) in
  let b' := open_buf flags (Z.of_nat (length p) + 1, p ++ [0]) b in
  exists cp, length cp = 256%nat /\ holds cp p /\
    handle_openat ctx E s =
    (0, output E (take ACTION_RECORD_SIZE b')
          (stage_open E (mk_pending_open (Z.of_nat (length p)) (u16 flags) cp)
             (set_scratch_buf E b' (after_ensure E s)))).
Proof.
  intros He Hb Hr Hne. cbv zeta.
  pose proof (reads_path_length E _ _ Hr) as Hl. pose proof Hb as [_ Hlb].
  assert (1 <= length p)%nat by (destruct p; cbn; [done|lia]).
  set (flags := u32 (arg ctx 2)).
  set (h := store action_detail.open_flags flags (header_buf E EVENT_OPEN b)).
  assert (length h = EVENT_RECORD_SIZE) as Hh by by apply length_open_hdr.
  set (b' := open_buf _ _ _).
  assert (length b' = EVENT_RECORD_SIZE) as Hb' by (apply length_path_buf1; done).
  destruct (stage_pending_open_run flags (drop path_off b') p
              (set_scratch_buf E b' (after_ensure E s))) as (cp & Hcp & Hpath & Hst).
  { rewrite length_drop, Hb'. sizes. lia. }
  { lia. }
  { by apply path_buf1_prefix. }
  exists cp. split_and!; [done..|].
  unfold handle_openat. run_observed He. cbv zeta.
  erewrite run_bind by by apply lookup_scratch_run. cbn beta iota.
  erewrite run_bind by done. unfold reads_path in Hr. erewrite run_bind by done. cbn beta.
  rewrite Hr. cbn [fst snd].
  replace (Z.of_nat (length p) + 1 <=? 0) with false by lia.
  fold flags. fold (header_buf E EVENT_OPEN b). fold h.
  change (store enroll_event.argv_len _ (splice path_off _ h)) with b'.
  erewrite run_bind by done. rewrite path_len_reads by lia.
  erewrite run_bind by apply Hst. unfold emit_action.
  edestruct ringbuf_output_run as [rc Hrc]. by erewrite run_bind by apply Hrc.
Qed.

(** The path cannot be read (or is not mapped in): nothing is staged and no
    record is emitted; the entry of an earlier open stays. *)
Lemma handle_openat_unreadable ctx s b :
  enrolled E s -> scratch_buf E s b -> (bpf_probe_read_user_str E (arg ctx 1) 256).1 <= 0 ->
  exists b', handle_openat ctx E s = (0, set_scratch_buf E b' (after_ensure E s)).
Proof.
  intros He Hb Hr. eexists. unfold handle_openat. run_observed He. cbv zeta.
  erewrite run_bind by by apply lookup_scratch_run. cbn beta iota.
  erewrite run_bind by done. erewrite run_bind by done. cbn beta.
  replace (_ <=? 0) with true by lia. by erewrite run_bind by done.
Qed.

(** ** Unlink *)

Lemma stage_pending_unlink_run flags buf p s :
  (255 <= length buf)%nat -> (1 <= length p <= 255)%nat -> holds buf p ->
  exists cp, length cp = 256%nat /\ holds cp p /\
    stage_pending_unlink (current_pid E) flags buf (Z.of_nat (length p)) E s =
    ((), stage_unlink E (mk_pending_open (Z.of_nat (length p)) (u16 flags) cp) s).
Proof.
  intros Hb Hl Hp. unfold stage_pending_unlink.
  destruct (read_staged_path_run E Hkr buf p s) as (cp & Hrun & Hcp & Hpath); [lia..|done|].
  exists cp. split_and!; [done..|].
  replace (0 <? Z.of_nat (length p)) with true by lia.
  erewrite run_bind by apply Hrun. cbn [negb fst snd]. cbv zeta.
  replace (u16 (Z.of_nat (length p))) with (Z.of_nat (length p))
    by (unfold u16; rewrite Z.mod_small; lia).
  by erewrite run_bind by done.
Qed.

Definition unlink_buf (r : Z * list Z) (b : list Z) : list Z :=
  path_buf1 r (header_buf E EVENT_UNLINK b).

Lemma length_unlink_buf r p b :
  length b = EVENT_RECORD_SIZE -> (length p <= 255)%nat ->
  length (unlink_buf (r, p ++ [0]) b) = EVENT_RECORD_SIZE.
Proof.
  intros Hb Hp. apply length_path_buf1; [|done]. rewrite (length_header_buf E); [done|].
  rewrite Hb. sizes. lia.
Qed.

Lemma unlink_buf_prefix r p b :
  length b = EVENT_RECORD_SIZE -> holds (drop path_off (unlink_buf (r, p ++ [0]) b)) p.
Proof.
  intros Hb. apply path_buf1_prefix. rewrite (length_header_buf E); [done|].
  rewrite Hb. sizes. lia.
Qed.

Lemma handle_unlinkat_run ctx s b p :
  enrolled E s -> scratch_buf E s b ->
  reads_path E (arg ctx 1) p -> p <> [] ->
  let flags := u32 (arg ctx 2) in
  let b' := unlink_buf (Z.of_nat (length p) + 1, p ++ [0]) b in
  exists cp, length cp = 256%nat /\ holds cp p /\
    handle_unlinkat ctx E s =
    (0, output E (take ACTION_RECORD_SIZE b')
          (stage_unlink E (mk_pending_open (Z.of_nat (length p)) (u16 flags) cp)
             (set_scratch_buf E b' (after_ensure E s)))).
Proof.
  intros He Hb Hr Hne. cbv zeta.
  pose proof (reads_path_length E _ _ Hr) as Hl. pose proof Hb as [_ Hlb].
  assert (1 <= length p)%nat by (destruct p; cbn; [done|lia]).
  set (flags := u32 (arg ctx 2)). set (b' := unlink_buf _ _).
  assert (length b' = EVENT_RECORD_SIZE) as Hb' by by apply length_unlink_buf.
  destruct (stage_pending_unlink_run flags (drop path_off b') p
              (set_scratch_buf E b' (after_ensure E s))) as (cp & Hcp & Hpath & Hst).
  { rewrite length_drop, Hb'. sizes. lia. }
  { lia. }
  { by apply unlink_buf_prefix. }
  exists cp. split_and!; [done..|].
  unfold handle_unlinkat. run_observed He. cbv zeta.
  erewrite run_bind by by apply lookup_scratch_run. cbn beta iota.
  erewrite run_bind by done. unfold reads_path in Hr. erewrite run_bind by done. cbn beta.
  rewrite Hr. cbn [fst snd].
  replace (0 <? Z.of_nat (length p) + 1) with true by lia.
  fold flags. fold (header_buf E EVENT_UNLINK b).
  change (store enroll_event.argv_len _ (splice path_off _ _)) with b'.
  erewrite run_bind by done. rewrite path_len_reads by lia.
  erewrite run_bind by apply Hst. unfold emit_action.
  edestruct ringbuf_output_run as [rc Hrc]. by erewrite run_bind by apply Hrc.
Qed.

Lemma handle_unlink_run ctx s b p :
  enrolled E s -> scratch_buf E s b ->
  reads_path E (arg ctx 0) p -> p <> [] ->
  let b' := unlink_buf (Z.of_nat (length p) + 1, p ++ [0]) b in
  exists cp, length cp = 256%nat /\ holds cp p /\
    handle_unlink ctx E s =
    (0, output E (take ACTION_RECORD_SIZE b')
          (stage_unlink E (mk_pending_open (Z.of_nat (length p)) 0 cp)
             (set_scratch_buf E b' (after_ensure E s)))).
Proof.
  intros He Hb Hr Hne. cbv zeta.
  pose proof (reads_path_length E _ _ Hr) as Hl. pose proof Hb as [_ Hlb].
  assert (1 <= length p)%nat by (destruct p; cbn; [done|lia]).
  set (b' := unlink_buf _ _).
  assert (length b' = EVENT_RECORD_SIZE) as Hb' by by apply length_unlink_buf.
  destruct (stage_pending_unlink_run 0 (drop path_off b') p
              (set_scratch_buf E b' (after_ensure E s))) as (cp & Hcp & Hpath & Hst).
  { rewrite length_drop, Hb'. sizes. lia. }
  { lia. }
  { by apply unlink_buf_prefix. }
  exists cp. split_and!; [done..|].
  unfold handle_unlink. run_observed He. cbv zeta.
  erewrite run_bind by by apply lookup_scratch_run. cbn beta iota.
  erewrite run_bind by done. unfold reads_path in Hr. erewrite run_bind by done. cbn beta.
  rewrite Hr. cbn [fst snd].
  replace (Z.of_nat (length p) + 1 <=? 0) with false by lia.
  fold (header_buf E EVENT_UNLINK b).
  change (store enroll_event.argv_len _ (splice path_off _ _)) with b'.
  erewrite run_bind by done. rewrite path_len_reads by lia.
  erewrite run_bind by apply Hst. unfold emit_action.
  edestruct ringbuf_output_run as [rc Hrc]. by erewrite run_bind by apply Hrc.
Qed.

(** An unreadable path: with AT_EMPTY_PATH an empty entry is staged, without it
    nothing is, and the entry of an earlier unlink stays. *)
Lemma handle_unlinkat_unreadable ctx s b :
  enrolled E s -> scratch_buf E s b -> (bpf_probe_read_user_str E (arg ctx 1) 256).1 <= 0 ->
  let flags := u32 (arg ctx 2) in
  exists b', handle_unlinkat ctx E s =
    (0, if nonzero (Z.land flags AT_EMPTY_PATH)
        then stage_unlink E (mk_pending_open 0 (u16 flags) (zeros 256))
               (set_scratch_buf E b' (after_ensure E s))
        else set_scratch_buf E b' (after_ensure E s)).
Proof.
  intros He Hb Hr. eexists. unfold handle_unlinkat. run_observed He. cbv zeta.
  erewrite run_bind by by apply lookup_scratch_run. cbn beta iota.
  erewrite run_bind by done. erewrite run_bind by done. cbn beta.
  replace (0 <? _) with false by lia. erewrite run_bind by done.
  by destruct (nonzero _).
Qed.

(** unlink has no flags: nothing is staged. *)
Lemma handle_unlink_unreadable ctx s b :
  enrolled E s -> scratch_buf E s b -> (bpf_probe_read_user_str E (arg ctx 0) 256).1 <= 0 ->
  exists b', handle_unlink ctx E s = (0, set_scratch_buf E b' (after_ensure E s)).
Proof.
  intros He Hb Hr. eexists. unfold handle_unlink. run_observed He. cbv zeta.
  erewrite run_bind by by apply lookup_scratch_run. cbn beta iota.
  erewrite run_bind by done. erewrite run_bind by done. cbn beta.
  replace (_ <=? 0) with true by lia. by erewrite run_bind by done.
Qed.

(** The empty string: an entry without a path, whatever the flags. *)
Lemma handle_unlinkat_empty ctx s b :
  enrolled E s -> scratch_buf E s b -> reads_path E (arg ctx 1) [] ->
  exists b' rec, handle_unlinkat ctx E s =
    (0, output E rec (stage_unlink E (mk_pending_open 0 (u16 (u32 (arg ctx 2))) (zeros 256))
                        (set_scratch_buf E b' (after_ensure E s)))).
Proof.
  intros He Hb Hr. do 2 eexists. unfold handle_unlinkat. run_observed He. cbv zeta.
  erewrite run_bind by by apply lookup_scratch_run. cbn beta iota.
  erewrite run_bind by done. unfold reads_path in Hr. erewrite run_bind by done. cbn beta.
  rewrite Hr. cbn [fst snd length app]. change (0 <? Z.of_nat 0 + 1) with true. cbn iota.
  erewrite run_bind by done. change (path_len_from_user_str (Z.of_nat 0 + 1)) with (-1).
  unfold stage_pending_unlink. change (0 <? -1) with false. cbn iota.
  erewrite run_bind by done. unfold emit_action.
  edestruct ringbuf_output_run as [rc Hrc]. erewrite run_bind by apply Hrc. done.
Qed.

(** ** Rename *)

Definition rename_buf (r1 r2 : Z * list Z) (b : list Z) : list Z :=
  path_buf2 r2 (path_buf1 r1 (header_buf E EVENT_RENAME b)).

Lemma length_rename_hdr b :
  length b = EVENT_RECORD_SIZE -> length (header_buf E EVENT_RENAME b) = EVENT_RECORD_SIZE.
Proof. intros Hb. rewrite (length_header_buf E); [done|]. rewrite Hb. sizes. lia. Qed.

Lemma rename_buf_regions r1 r2 p1 p2 b :
  length b = EVENT_RECORD_SIZE -> (length p1 <= 255)%nat -> (length p2 <= 255)%nat ->
  let b' := rename_buf (r1, p1 ++ [0]) (r2, p2 ++ [0]) b in
  length b' = EVENT_RECORD_SIZE /\
  slice path_off (length p1 + 1) b' = p1 ++ [0] /\
  slice path2_off (length p2 + 1) b' = p2 ++ [0].
Proof.
  intros Hb H1 H2. cbv zeta. unfold rename_buf.
  pose proof (length_rename_hdr b Hb) as Hh.
  assert (length (path_buf1 (r1, p1 ++ [0]) (header_buf E EVENT_RENAME b)) = EVENT_RECORD_SIZE)
    as Hb1 by by apply length_path_buf1.
  split_and!.
  - by apply length_path_buf2.
  - rewrite path_buf2_other by (done || lia). by apply path_buf1_region.
  - by apply path_buf2_region.
Qed.

Lemma stage_pending_rename_run buf buf2 p1 p2 s :
  (255 <= length buf)%nat -> (255 <= length buf2)%nat ->
  (1 <= length p1 <= 255)%nat -> (1 <= length p2 <= 255)%nat ->
  holds buf p1 -> holds buf2 p2 ->
  is_Some (pc_lookup (cpu E) 0 (pending_rename_cpu (enroll s))) ->
  exists c1 c2, length c1 = 256%nat /\ length c2 = 256%nat /\
    holds c1 p1 /\ holds c2 p2 /\
    stage_pending_rename (current_pid E) buf buf2 (Z.of_nat (length p1)) (Z.of_nat (length p2)) E s =
    ((), stage_rename E (mk_pending_rename (Z.of_nat (length p1)) (Z.of_nat (length p2)) c1 c2) s).
Proof.
  intros Hb1 Hb2 Hl1 Hl2 Hp1 Hp2 [pr Hpr]. unfold stage_pending_rename.
  destruct (read_staged_path_run E Hkr buf p1 s) as (c1 & Hr1 & Hc1 & Hpath1); [lia..|done|].
  destruct (read_staged_path_run E Hkr buf2 p2 s) as (c2 & Hr2 & Hc2 & Hpath2); [lia..|done|].
  exists c1, c2. split_and!; [done..|].
  replace (negb _) with false by lia.
  erewrite run_bind by (unfold this_cpu; rewrite Hpr; done). cbn beta iota.
  erewrite run_bind by apply Hr1. cbn [fst snd].
  erewrite run_bind by apply Hr2. cbn [fst snd negb andb]. cbv zeta.
  replace (u16 (Z.of_nat (length p1))) with (Z.of_nat (length p1))
    by (unfold u16; rewrite Z.mod_small; lia).
  replace (u16 (Z.of_nat (length p2))) with (Z.of_nat (length p2))
    by (unfold u16; rewrite Z.mod_small; lia).
  by erewrite run_bind by done.
Qed.

Lemma handle_renameat2_run ctx s b p1 p2 :
  enrolled E s -> scratch_buf E s b ->
  is_Some (pc_lookup (cpu E) 0 (pending_rename_cpu (enroll s))) ->
  reads_path E (arg ctx 1) p1 -> p1 <> [] -> reads_path E (arg ctx 3) p2 -> p2 <> [] ->
  let b' := rename_buf (Z.of_nat (length p1) + 1, p1 ++ [0]) (Z.of_nat (length p2) + 1, p2 ++ [0]) b in
  exists c1 c2, length c1 = 256%nat /\ length c2 = 256%nat /\
    holds c1 p1 /\ holds c2 p2 /\
    handle_renameat2 ctx E s =
    (0, output E (take ACTION_RECORD_SIZE b')
          (stage_rename E (mk_pending_rename (Z.of_nat (length p1)) (Z.of_nat (length p2)) c1 c2)
             (set_scratch_buf E b' (after_ensure E s)))).
Proof.
  intros He Hb Hcpu Hr1 Hn1 Hr2 Hn2. cbv zeta. pose proof Hb as [_ Hlb].
  pose proof (reads_path_length E _ _ Hr1) as Hl1. pose proof (reads_path_length E _ _ Hr2) as Hl2.
  assert (1 <= length p1)%nat by (destruct p1; cbn; [done|lia]).
  assert (1 <= length p2)%nat by (destruct p2; cbn; [done|lia]).
  set (r1 := Z.of_nat (length p1) + 1). set (r2 := Z.of_nat (length p2) + 1).
  destruct (rename_buf_regions r1 r2 p1 p2 b Hlb Hl1 Hl2) as (Hb' & Hreg1 & Hreg2).
  set (b' := rename_buf _ _ _) in *.
  destruct (stage_pending_rename_run (drop path_off b') (drop path2_off b') p1 p2
              (set_scratch_buf E b' (after_ensure E s))) as (c1 & c2 & Hc1 & Hc2 & Hp1 & Hp2 & Hst).
  { rewrite length_drop, Hb'. sizes. lia. }
  { rewrite length_drop, Hb'. sizes. lia. }
  { lia. }
  { lia. }
  { done. }
  { done. }
  { cbn. destruct (after_ensure_frame E s) as [_ ->]. done. }
  exists c1, c2. split_and!; [done..|].
  unfold handle_renameat2. run_observed He. cbv zeta.
  erewrite run_bind by by apply lookup_scratch_run. cbn beta iota.
  unfold reads_path in Hr1, Hr2.
  erewrite run_bind by done. erewrite run_bind by done. cbn beta.
  rewrite Hr1. cbn [fst snd]. replace (Z.of_nat (length p1) + 1 <=? 0) with false by lia.
  erewrite run_bind by done. cbn beta. rewrite Hr2. cbn [fst snd].
  replace (Z.of_nat (length p2) + 1 <=? 0) with false by lia.
  fold (header_buf E EVENT_RENAME b). fold r1 r2.
  change (store enroll_event.env_len _ (splice path2_off _ _)) with b'.
  erewrite run_bind by done. unfold r1, r2. rewrite !path_len_reads by lia.
  erewrite run_bind by apply Hst. unfold emit_action.
  edestruct ringbuf_output_run as [rc Hrc]. by erewrite run_bind by apply Hrc.
Qed.

(** ** Connect *)

Definition reads_bytes (addr : Z) (n : nat) (bs : list Z) : Prop :=
  bpf_probe_read_user E addr n = (true, bs).

Definition connect_buf (fam dport : Z) (a : list Z) (b : list Z) : list Z :=
  splice action_detail.addr a
    (store action_detail.dport dport
       (store action_detail.family (u8 fam) (header_buf E EVENT_CONNECT b))).

(** The staged target of a connect: host-order port and address bytes. *)
Definition staged_target (dport : Z) (a : list Z) : pending_connect :=
  mk_pending_connect dport (Z.of_nat (length a)) 0 (splice 0 a (zeros 16)).

Lemma write_scratch_twice b1 b2 s :
  set_scratch_buf E b2 (set_scratch_buf E b1 s) = set_scratch_buf E b2 s.
Proof.
  unfold set_scratch_buf, on_enroll, set_scratch, pc_write. cbn. rewrite list_alter_alter_eq.
  do 2 f_equal. apply list_alter_ext; [|done].
  intros row _. cbn. by rewrite list_insert_insert_eq.
Qed.

(** A socket address in user memory: the family, the big-endian port and the
    address, followed (for AF_INET6) by the scope id. *)
Definition sockaddr4 (hi lo : Z) (a : list Z) : list Z := le_bytes 2 AF_INET ++ [hi; lo] ++ a.
Definition sockaddr6 (hi lo : Z) (flow a scope : list Z) : list Z :=
  le_bytes 2 AF_INET6 ++ [hi; lo] ++ flow ++ a ++ scope.

Lemma sockaddr4_fields hi lo a :
  length a = 4%nat ->
  sin_port (sockaddr_in_of_bytes (sockaddr4 hi lo a)) = le_val [hi; lo] /\
  sin_addr (sockaddr_in_of_bytes (sockaddr4 hi lo a)) = a.
Proof. intros Hla. by destruct a as [|a0 [|a1 [|a2 [|a3 [|]]]]]; try discriminate Hla. Qed.

Lemma sockaddr6_fields hi lo flow a scope :
  length flow = 4%nat -> length a = 16%nat ->
  sin6_port (sockaddr_in6_of_bytes (sockaddr6 hi lo flow a scope)) = le_val [hi; lo] /\
  sin6_addr (sockaddr_in6_of_bytes (sockaddr6 hi lo flow a scope)) = a.
Proof.
  intros Hlf Hla. split; [done|]. unfold sockaddr_in6_of_bytes, sockaddr6. cbn [sin6_addr].
  destruct flow as [|f0 [|f1 [|f2 [|f3 [|]]]]]; try discriminate Hlf.
  change (take 16 (a ++ scope) = a). by rewrite take_app_le, take_ge by lia.
Qed.

Lemma handle_connect_run4 ctx s b fam sin :
  enrolled E s -> scratch_buf E s b ->
  reads_bytes (arg ctx 1) 2 fam -> le_val fam = AF_INET ->
  reads_bytes (arg ctx 1) 8 sin ->
  let dport := port_host (sin_port (sockaddr_in_of_bytes sin)) in
  let a := sin_addr (sockaddr_in_of_bytes sin) in
  let b' := connect_buf AF_INET dport a b in
  handle_connect ctx E s =
  (0, output E (take ACTION_RECORD_SIZE b')
        (stage_connect E (staged_target dport a) (set_scratch_buf E b' (after_ensure E s)))).
Proof.
  intros He Hb Hf Hfam Hsin. cbv zeta. unfold reads_bytes in *.
  unfold handle_connect. run_observed He. cbv zeta.
  erewrite run_bind by done. cbn beta. rewrite Hf. cbn [fst snd negb]. rewrite Hfam.
  change (negb (AF_INET =? AF_INET) && negb (AF_INET =? AF_INET6)) with false. cbn iota.
  erewrite run_bind by by apply lookup_scratch_run. cbn beta iota.
  erewrite run_bind by done. erewrite run_bind by done.
  change (AF_INET =? AF_INET) with true. cbn iota. erewrite run_bind by done. cbn beta.
  change (bpf_probe_read_user E (arg ctx 1) sizeof_sockaddr_in)
    with (bpf_probe_read_user E (arg ctx 1) 8).
  rewrite Hsin. cbn [fst snd negb].
  assert (length sin = 8%nat) as Hl.
  { pose proof (probe_read_user_length (E := E) (arg ctx 1) 8) as H. by rewrite Hsin in H. }
  erewrite run_bind by done. erewrite run_bind by done.
  unfold emit_action. edestruct ringbuf_output_run as [rc Hrc]. erewrite run_bind by apply Hrc.
  rewrite <- (write_scratch_twice (store action_detail.family (u8 AF_INET) (header_buf E EVENT_CONNECT b))).
  unfold staged_target. replace (length _) with 4%nat; [done|].
  unfold sockaddr_in_of_bytes. cbn [sin_addr]. rewrite length_slice; lia.
Qed.

Lemma handle_connect_run6 ctx s b fam sin6 :
  enrolled E s -> scratch_buf E s b ->
  reads_bytes (arg ctx 1) 2 fam -> le_val fam = AF_INET6 ->
  reads_bytes (arg ctx 1) 28 sin6 ->
  let dport := port_host (sin6_port (sockaddr_in6_of_bytes sin6)) in
  let a := sin6_addr (sockaddr_in6_of_bytes sin6) in
  let b' := connect_buf AF_INET6 dport a b in
  handle_connect ctx E s =
  (0, output E (take ACTION_RECORD_SIZE b')
        (stage_connect E (staged_target dport a) (set_scratch_buf E b' (after_ensure E s)))).
Proof.
  intros He Hb Hf Hfam Hsin. cbv zeta. unfold reads_bytes in *.
  unfold handle_connect. run_observed He. cbv zeta.
  erewrite run_bind by done. cbn beta. rewrite Hf. cbn [fst snd negb]. rewrite Hfam.
  change (negb (AF_INET6 =? AF_INET) && negb (AF_INET6 =? AF_INET6)) with false. cbn iota.
  erewrite run_bind by by apply lookup_scratch_run. cbn beta iota.
  erewrite run_bind by done. erewrite run_bind by done.
  change (AF_INET6 =? AF_INET) with false. cbn iota. erewrite run_bind by done. cbn beta.
  change (bpf_probe_read_user E (arg ctx 1) sizeof_sockaddr_in6)
    with (bpf_probe_read_user E (arg ctx 1) 28).
  rewrite Hsin. cbn [fst snd negb].
  assert (length sin6 = 28%nat) as Hl.
  { pose proof (probe_read_user_length (E := E) (arg ctx 1) 28) as H. by rewrite Hsin in H. }
  erewrite run_bind by done. erewrite run_bind by done.
  unfold emit_action. edestruct ringbuf_output_run as [rc Hrc]. erewrite run_bind by apply Hrc.
  rewrite <- (write_scratch_twice (store action_detail.family (u8 AF_INET6) (header_buf E EVENT_CONNECT b))).
  unfold staged_target. replace (length _) with 16%nat; [done|].
  unfold sockaddr_in6_of_bytes. cbn [sin6_addr]. rewrite length_slice; lia.
Qed.
End handlers.
