(* ===== verification/Formats.v ===== *)
(** * Formats: the agent's decoders of the two rings

    [Parse] of [agent/internal/event/event.go] and of
    [agent/internal/deny/verdict.go], and the round trips: what the BPF programs
    write is what the agent reads.  The textual form of an address is not
    modelled: a decoded address is its family and bytes. *)

From S2P Require Import Prelude Types Bpf State Logic Gate PathVerdict Hooks Records Machine.
From S2P Require Enforcer.
From S2P Require Import Enroll Staging.

(** A decoded destination: [formatAddr] and [parseDestIP] yield the empty
    string, the text of 4 bytes, or the text of 16 bytes. *)
Inductive address := NoAddr | V4 (b : list Z) | V6 (b : list Z).

Definition formatAddr (family : Z) (addr : list Z) : address :=
  if family =? AF_INET then (if (length addr <? 4)%nat then NoAddr else V4 (take 4 addr))
  else if family =? AF_INET6 then (if (length addr <? 16)%nat then NoAddr else V6 (take 16 addr))
  else NoAddr.

(** ** package deny *)

Module deny.
Definition verdictSize : nat := 8 + 4 + 4 + 1 + 1 + 2 + 16 + 256.

Record Verdict := mk_Verdict {
  TimestampNS : Z;
  PID : Z;
  RuleIDHash : Z;
  Action : Z;
  Path : list Z;
  DestIP : address;
  DestPort : Z
}.

Definition Parse (raw : list Z) : option Verdict :=
  if (length raw <? verdictSize)%nat then None else
  let ipLen := load deny_verdict.dest_ip_len raw in
  let dest :=
    if (0 <? ipLen) && (ipLen <=? 16) then
      formatAddr (if ipLen =? 16 then AF_INET6 else AF_INET)
        (slice deny_verdict.dest_ip (Z.to_nat ipLen) raw)
    else NoAddr in
  Some (mk_Verdict (load deny_verdict.timestamp_ns raw) (load deny_verdict.pid raw)
          (load deny_verdict.rule_id_hash raw) (load deny_verdict.action raw)
          (cstr (slice deny_verdict.path 256 raw)) dest (load deny_verdict.dest_port raw)).
End deny.

(** ** package event *)

Module event.
Record Event := mk_Event {
  TimestampNs : Z;
  StartTimeNs : Z;
  CgroupID : Z;
  PID : Z;
  PPID : Z;
  UID : Z;
  Type_ : Z;
  Comm : list Z;
  Filename : list Z;
  Argv : list (list Z);
  Env : list (list Z);
  Family : Z;
  DestIP : address;
  DestPort : Z;
  OpenFlags : Z;
  Path : list Z;
  Path2 : list Z
}.

(** [nil] and the empty slice decode the same way here. *)
Definition sliceBytes (data : list Z) (off : nat) (n max : Z) : list Z :=
  if n <=? 0 then [] else
  let n := if max <? n then max else n in
  if (length data <? off + Z.to_nat n)%nat then [] else slice off (Z.to_nat n) data.

Definition sliceStr (data : list Z) (off : nat) (n max : Z) : list Z :=
  cstr (sliceBytes data off n max).

(** Non-empty runs between NULs; [cur] is the run being read. *)
Fixpoint splitNul_from (cur b : list Z) : list (list Z) :=
  match b with
  | [] => match cur with [] => [] | _ => [cur] end
  | c :: b =>
      if c =? 0 then
        match cur with
        | [] => splitNul_from [] b
        | _ => cur :: splitNul_from [] b
        end
      else splitNul_from (cur ++ [c]) b
  end.

Definition splitNul (b : list Z) : list (list Z) := splitNul_from [] b.

Definition Parse (data : list Z) : option Event :=
  if (length data <? EVENT_HEADER_SIZE)%nat then None else
  let ty := load enroll_event.event_type data in
  let pathLen := load enroll_event.argv_len data in
  let path2Len := load enroll_event.env_len data in
  let fnLen := load enroll_event.filename_len data in
  let mk := mk_Event (load enroll_event.timestamp_ns data)
              (load enroll_event.start_time_ns data) (load enroll_event.cgroup_id data)
              (load enroll_event.pid data) (load enroll_event.ppid data)
              (load enroll_event.uid data) ty (cstr (slice enroll_event.comm 16 data)) in
  if ty =? EVENT_EXEC then
    if (length data <? EVENT_RECORD_SIZE)%nat then None else
    Some (mk (sliceStr data 64 fnLen MAX_FILENAME)
            (splitNul (sliceBytes data 320 pathLen MAX_ARGV))
            (splitNul (sliceBytes data 832 path2Len MAX_ENV)) 0 NoAddr 0 0 [] [])
  else if (EVENT_CONNECT <=? ty) && (ty <=? EVENT_RENAME) then
    if (length data <? ACTION_RECORD_SIZE)%nat then None else
    let family := load action_detail.family data in
    Some (mk [] [] [] family (formatAddr family (slice action_detail.addr 16 data))
            (load action_detail.dport data) (load action_detail.open_flags data)
            (sliceStr data path_off pathLen MAX_PATH)
            (sliceStr data path2_off path2Len MAX_PATH))
  else Some (mk [] [] [] 0 NoAddr 0 0 [] []).
End event.

(** No record the programs submit is rejected as short. *)
Lemma event_parse_total r : record_ok r -> is_Some (event.Parse r).
Proof.
  unfold record_ok, event.Parse. cbv zeta.
  intros [(Ht & Hl)|[(Ht & Hl)|(Ht & Hl)]]; rewrite Hl.
  - rewrite Ht. by eexists.
  - change (ACTION_RECORD_SIZE <? EVENT_HEADER_SIZE)%nat with false. cbn iota.
    unfold EVENT_CONNECT, EVENT_RENAME, EVENT_EXEC in *.
    replace (_ =? 1) with false by lia. replace ((4 <=? _) && (_ <=? 7)) with true by lia.
    by eexists.
  - destruct Ht as [-> | ->]; by eexists.
Qed.

(** C36. In every reachable state, whatever the interleaving of programs and agent
    actions, both ring buffers hold only records the agent's decoders accept. *)
Theorem reachable_decodable `{L : LpmTrie} n s :
  reachable n s ->
  Forall (fun r => is_Some (event.Parse r)) (events (enroll s)) /\
  Forall (fun v => is_Some (deny.Parse v)) (deny_verdicts (enforcer s)).
Proof.
  intros Hwf%wf_reachable. split.
  - eapply Forall_impl; [apply (wf_events _ _ Hwf)|]. apply event_parse_total.
  - eapply Forall_impl; [apply (wf_verdicts _ _ Hwf)|]. intros v Hv.
    unfold deny.Parse. rewrite Hv. by eexists.
Qed.

(** ** Deny records round trip *)

Section roundtrip.
Context (E : env) `{!EnvOk E}.

(** What a load reads back of a stored field that already has its width. *)
Lemma u32_current_pid : u32 (current_pid E) = current_pid E.
Proof. unfold current_pid, u32. by apply Z.mod_mod. Qed.

(** A denied path: the record decodes to the rule and the path. *)
Lemma deny_parse_path v h buf len g :
kernel_reads E -> length g = deny_verdict.size -> length buf = 256%nat ->
Enforcer.valid_path_len len = true ->
deny.Parse (Enforcer.fill_deny_verdict E v h (Some buf) len None 0 0 g) =
Some (deny.mk_Verdict (u64 (bpf_ktime_get_ns E)) (current_pid E) (u32 h) (u8 v)
        (cstr (take 255 buf ++ [0])) NoAddr 0).
Proof.
intros Hk Hg Hb Hlen.
pose proof (length_fill_deny_verdict E v h (Some buf) len None 0 0 g Hg) as Hl.
unfold deny.Parse. rewrite Hl.
change (deny_verdict.size <? deny.verdictSize)%nat with false. cbn iota.
unfold Enforcer.fill_deny_verdict. unfold Enforcer.valid_path_len in Hlen. rewrite Hlen. cbv zeta.
rewrite probe_read_kernel_ok by (solve [apply Hk; lia] || lia).
assert (length (take 255 buf) = 255%nat) as Ht by (rewrite length_take; lia).
unfold deny_verdict.size in Hg.
set (w := splice deny_verdict.dest_ip (zeros 16) _).
assert (296 <= length w)%nat by (subst w; len_ge).
rewrite slice_splice_zeros, Ht by (rewrite ?Ht; layout_lia). change (256 - 255)%nat with 1%nat.
set (r := splice deny_verdict.path (take 255 buf) _).
assert (load deny_verdict.dest_ip_len r = 0) as ->.
{ subst r w. repeat first [rewrite load_splice_other by (rewrite ?Ht, ?length_zeros; read_side) | read_buf]. done. }
change ((0 <? 0) && (0 <=? 16)) with false. cbn iota. f_equal.
subst r w. f_equal; repeat first [rewrite load_splice_other by (rewrite ?Ht, ?length_zeros; read_side) | read_buf].
all: try done. apply u32_current_pid.
Qed.

(** The address of a staged or cgroup target, as the record carries it. *)
Definition decoded_addr (a : list Z) : address :=
formatAddr (if (length a =? 16)%nat then AF_INET6 else AF_INET) a.

Lemma decoded_addr_4 a : length a = 4%nat -> decoded_addr a = V4 a.
Proof.
intros Ha. unfold decoded_addr, formatAddr. rewrite Ha. change (V4 (take 4 a) = V4 a).
by rewrite take_ge by lia.
Qed.

Lemma decoded_addr_16 a : length a = 16%nat -> decoded_addr a = V6 a.
Proof.
intros Ha. unfold decoded_addr, formatAddr. rewrite Ha. change (V6 (take 16 a) = V6 a).
by rewrite take_ge by lia.
Qed.

(** A denied connect: the record decodes to the rule, the address and the port. *)
Lemma deny_parse_connect h buf len pt g :
length g = deny_verdict.size -> (Z.to_nat len <= length buf)%nat -> 0 < len <= 16 ->
0 <= pt < 2 ^ 16 ->
deny.Parse (Enforcer.fill_deny_verdict E VERDICT_CONNECT h None 0 (Some buf) len pt g) =
Some (deny.mk_Verdict (u64 (bpf_ktime_get_ns E)) (current_pid E) (u32 h) VERDICT_CONNECT
        [] (decoded_addr (take (Z.to_nat len) buf)) pt).
Proof.
intros Hg Hb Hlen Hpt.
pose proof (length_fill_deny_verdict E VERDICT_CONNECT h None 0 (Some buf) len pt g Hg) as Hl.
unfold deny.Parse. rewrite Hl.
change (deny_verdict.size <? deny.verdictSize)%nat with false. cbn iota.
unfold Enforcer.fill_deny_verdict. change (VERDICT_CONNECT =? VERDICT_CONNECT) with true.
replace (true && (0 <? len) && (len <=? 16)) with true by lia. cbv zeta.
set (a := take (Z.to_nat len) buf).
assert (length a = Z.to_nat len) as Ha by (subst a; rewrite length_take; lia).
unfold deny_verdict.size in Hg.
set (w := splice deny_verdict.dest_ip a _).
assert (296 <= length w)%nat by (subst w; len_ge).
set (r := splice deny_verdict.path (zeros 256) w).
assert (slice deny_verdict.path 256 r = zeros 256) as ->.
{ subst r. apply slice_splice_same'; [done|layout_lia]. }
assert (load deny_verdict.dest_ip_len r = len) as ->.
{ subst r w. repeat first [rewrite load_splice_other by (rewrite ?Ha, ?length_zeros; read_side) | read_buf].
  apply Z.mod_small. cbn. lia. }
replace ((0 <? len) && (len <=? 16)) with true by lia.
assert (slice deny_verdict.dest_ip (Z.to_nat len) r = a) as ->.
{ subst r w. rewrite slice_splice_other by (rewrite ?length_zeros; first [len_ge|layout_lia]).
  apply slice_splice_same'; [done|len_ge]. }
replace (if len =? 16 then AF_INET6 else AF_INET)
  with (if (length a =? 16)%nat then AF_INET6 else AF_INET).
2: { rewrite Ha. destruct (Z.eqb_spec len 16), (Nat.eqb_spec (Z.to_nat len) 16); lia || done. }
f_equal. subst r w.
f_equal; repeat first [rewrite load_splice_other by (rewrite ?Ha, ?length_zeros; read_side) | read_buf].
all: try done. 
- apply u32_current_pid.
- by apply Z.mod_small.
Qed.

(** ** Enroll records round trip *)

(** Header fields the decoder reads, besides the lengths. *)
Definition header_fields (b : list Z) :=
(load enroll_event.timestamp_ns b, load enroll_event.start_time_ns b,
 load enroll_event.cgroup_id b, load enroll_event.pid b, load enroll_event.ppid b,
 load enroll_event.uid b, load enroll_event.event_type b, slice enroll_event.comm 16 b).

Lemma header_fields_splice off src b :
(60 <= off)%nat \/ (38 <= off /\ off + length src <= 44)%nat -> (off <= length b)%nat ->
header_fields (splice off src b) = header_fields b.
Proof.
intros Ho Hb. unfold header_fields.
rewrite !load_splice_other by (layout_lia || done).
by rewrite slice_splice_other by (layout_lia || done).
Qed.

Lemma header_fields_store f z b :
(60 <= f_off f)%nat \/ (38 <= f_off f /\ f_off f + f_width f <= 44)%nat ->
(f_off f <= length b)%nat -> header_fields (store f z b) = header_fields b.
Proof. intros. apply header_fields_splice; by rewrite ?length_le_bytes. Qed.

Lemma header_fields_store_header ty b :
(64 <= length b)%nat ->
header_fields (store_header E ty b) =
(let task := bpf_get_current_task E in
 (u64 (bpf_ktime_get_ns E), u64 (read_task E 0 start_time task),
  u64 (bpf_get_current_cgroup_id E), current_pid E,
  u32 (read_task E 0 tgid (read_task E 0 real_parent task)), current_uid E, u8 ty,
  bpf_get_current_comm E)).
Proof.
intros Hb. unfold header_fields.
by destruct (load_header E ty b Hb) as (-> & -> & -> & -> & -> & -> & -> & ->).
Qed.

(** The event an action record decodes to. *)
Definition action_event (ty family : Z) (dest : address) (dport flags : Z) (p1 p2 : list Z)
  : event.Event :=
let task := bpf_get_current_task E in
event.mk_Event (u64 (bpf_ktime_get_ns E)) (u64 (read_task E 0 start_time task))
  (u64 (bpf_get_current_cgroup_id E)) (current_pid E)
  (u32 (read_task E 0 tgid (read_task E 0 real_parent task))) (current_uid E) (u8 ty)
  (cstr (bpf_get_current_comm E)) [] [] [] family dest dport flags p1 p2.

(** A path region holding a string and its length with the NUL. *)
Lemma sliceStr_holds b off p :
(off + 256 <= length b)%nat -> (length p <= 255)%nat -> Forall (fun c => c <> 0) p ->
slice off (length p + 1) b = p ++ [0] ->
event.sliceStr b off (Z.of_nat (length p) + 1) MAX_PATH = p.
Proof.
intros Hb Hl Hnz Hs. unfold event.sliceStr, event.sliceBytes, MAX_PATH.
replace (_ <=? 0) with false by lia. replace (256 <? _) with false by lia. cbv zeta.
replace (Z.to_nat (Z.of_nat (length p) + 1)) with (length p + 1)%nat by lia.
destruct (Nat.ltb_spec (length b) (off + (length p + 1))); [lia|].
rewrite Hs. by apply cstr_app_nul.
Qed.

Lemma sliceStr_zero b off mx : event.sliceStr b off 0 mx = [].
Proof. done. Qed.

Lemma slice_take_in o k n (b : list Z) : (o + k <= n)%nat -> slice o k (take n b) = slice o k b.
Proof. intros. unfold slice. rewrite skipn_firstn_comm, take_take. f_equal. lia. Qed.

Lemma parse_action ty b p1 p2 l1 l2 :
length b = EVENT_RECORD_SIZE -> EVENT_CONNECT <= ty <= EVENT_RENAME ->
header_fields b = header_fields (header_buf E ty (zeros EVENT_RECORD_SIZE)) ->
load enroll_event.argv_len b = l1 -> load enroll_event.env_len b = l2 ->
event.sliceStr (take ACTION_RECORD_SIZE b) path_off l1 MAX_PATH = p1 ->
event.sliceStr (take ACTION_RECORD_SIZE b) path2_off l2 MAX_PATH = p2 ->
event.Parse (take ACTION_RECORD_SIZE b) =
Some (action_event ty (load action_detail.family b)
        (formatAddr (load action_detail.family b) (slice action_detail.addr 16 b))
        (load action_detail.dport b) (load action_detail.open_flags b) p1 p2).
Proof.
intros Hb Hty Hh H1 H2 Hp1 Hp2.
unfold header_buf in Hh. rewrite header_fields_store_header in Hh by len_ge.
unfold header_fields in Hh. injection Hh as Ht1 Ht2 Ht3 Ht4 Ht5 Ht6 Ht7 Ht8.
assert (length (take ACTION_RECORD_SIZE b) = ACTION_RECORD_SIZE) as Hl
  by (rewrite length_take, Hb; layout_lia).
unfold event.Parse. rewrite Hl. change (ACTION_RECORD_SIZE <? EVENT_HEADER_SIZE)%nat with false.
cbn iota. cbv zeta. rewrite !load_take by layout_lia.
rewrite !slice_take_in by layout_lia.
rewrite H1, H2, Hp1, Hp2, Ht1, Ht2, Ht3, Ht4, Ht5, Ht6, Ht7, Ht8.
unfold EVENT_CONNECT, EVENT_RENAME, EVENT_EXEC, u8 in *. rewrite (Z.mod_small ty) by lia.
replace (ty =? 1) with false by lia. replace ((4 <=? ty) && (ty <=? 7)) with true by lia.
change (ACTION_RECORD_SIZE <? ACTION_RECORD_SIZE)%nat with false. cbn iota.
unfold action_event. unfold u8. by rewrite (Z.mod_small ty) by lia.
Qed.

Lemma header_fields_buf ty b :
length b = EVENT_RECORD_SIZE ->
header_fields (header_buf E ty b) = header_fields (header_buf E ty (zeros EVENT_RECORD_SIZE)).
Proof.
intros Hb. unfold header_buf.
by rewrite !header_fields_store_header by (etrans; [|apply length_splice_ge]; rewrite ?length_zeros; layout_lia).
Qed.

(** The detail block and the length fields start out zero. *)
Lemma header_buf_slice ty b o n :
length b = EVENT_RECORD_SIZE ->
(38 <= o /\ o + n <= 44 \/ 60 <= o /\ o + n <= 88)%nat ->
slice o n (header_buf E ty b) = zeros n.
Proof.
intros Hb Hf. pose proof (comm_length (E := E)) as Hc.
unfold header_buf, store_header. cbv zeta. unfold EVENT_RECORD_SIZE in Hb.
rewrite slice_splice_other by (rewrite ?Hc; first [len_ge|layout_lia]).
repeat rewrite slice_store_other by first [len_ge|layout_lia].
rewrite slice_splice_inside by (rewrite ?length_zeros; layout_lia).
apply slice_zeros. layout_lia.
Qed.

Lemma header_buf_load ty b f :
length b = EVENT_RECORD_SIZE ->
(38 <= f_off f /\ f_off f + f_width f <= 44 \/ 60 <= f_off f /\ f_off f + f_width f <= 88)%nat ->
load f (header_buf E ty b) = 0.
Proof. intros. unfold load. rewrite header_buf_slice by done. apply le_val_zeros. Qed.

Lemma str_len_stored (p : list Z) :
(length p <= 255)%nat ->
str_len_field (Z.of_nat (length p) + 1) mod 2 ^ (8 * Z.of_nat 2) = Z.of_nat (length p) + 1.
Proof.
intros. unfold str_len_field, MAX_PATH, u16. change (2 ^ (8 * Z.of_nat 2)) with 65536.
change (2 ^ 16) with 65536.
destruct (Z.leb_spec 256 (Z.of_nat (length p) + 1)); rewrite ?Z.mod_mod, ?Z.mod_small; lia.
Qed.

(** What the path regions leave alone. *)
Lemma path_buf1_load f r x :
length x = EVENT_RECORD_SIZE -> disjoint_fields f enroll_event.argv_len ->
(f_off f + f_width f <= 88)%nat -> load f (path_buf1 r x) = load f x.
Proof.
intros Hx Hd Hf. unfold path_buf1, EVENT_RECORD_SIZE in *.
rewrite load_store_other by (done || len_ge).
apply load_splice_other; unfold path_off; layout_lia.
Qed.

Lemma path_buf2_load f r x :
length x = EVENT_RECORD_SIZE -> disjoint_fields f enroll_event.env_len ->
(f_off f + f_width f <= 88)%nat -> load f (path_buf2 r x) = load f x.
Proof.
intros Hx Hd Hf. unfold path_buf2, EVENT_RECORD_SIZE in *.
rewrite load_store_other by (done || len_ge).
apply load_splice_other; unfold path2_off; layout_lia.
Qed.

Lemma path_buf1_fields r x :
length x = EVENT_RECORD_SIZE -> header_fields (path_buf1 r x) = header_fields x.
Proof.
intros Hx. unfold path_buf1. pose proof (length_splice_ge path_off r.2 x).
rewrite header_fields_store by layout_lia.
apply header_fields_splice; unfold path_off; layout_lia.
Qed.

Lemma path_buf2_fields r x :
length x = EVENT_RECORD_SIZE -> header_fields (path_buf2 r x) = header_fields x.
Proof.
intros Hx. unfold path_buf2. pose proof (length_splice_ge path2_off r.2 x).
rewrite header_fields_store by layout_lia.
apply header_fields_splice; unfold path2_off; layout_lia.
Qed.

Definition str_read (p : list Z) : Z * list Z := (Z.of_nat (length p) + 1, p ++ [0]).

Lemma path_buf1_len p x :
length x = EVENT_RECORD_SIZE -> (length p <= 255)%nat ->
load enroll_event.argv_len (path_buf1 (str_read p) x) = Z.of_nat (length p) + 1.
Proof.
intros Hx Hp. unfold path_buf1, EVENT_RECORD_SIZE in *.
rewrite load_store_same by len_ge. by apply str_len_stored.
Qed.

Lemma path_buf2_len p x :
length x = EVENT_RECORD_SIZE -> (length p <= 255)%nat ->
load enroll_event.env_len (path_buf2 (str_read p) x) = Z.of_nat (length p) + 1.
Proof.
intros Hx Hp. unfold path_buf2, EVENT_RECORD_SIZE in *.
rewrite load_store_same by len_ge. by apply str_len_stored.
Qed.

(** The decoded path of a region of the submitted record. *)
Lemma record_path b off p :
length b = EVENT_RECORD_SIZE -> (off + 256 <= ACTION_RECORD_SIZE)%nat ->
(length p <= 255)%nat -> Forall (fun c => c <> 0) p ->
slice off (length p + 1) b = p ++ [0] ->
event.sliceStr (take ACTION_RECORD_SIZE b) off (Z.of_nat (length p) + 1) MAX_PATH = p.
Proof.
intros Hb Ho Hl Hnz Hs. apply sliceStr_holds; [|done|done|].
- rewrite length_take, Hb. layout_lia.
- rewrite slice_take_in by lia. done.
Qed.

Lemma open_record_roundtrip flags p b :
length b = EVENT_RECORD_SIZE -> (length p <= 255)%nat -> Forall (fun c => c <> 0) p ->
event.Parse (take ACTION_RECORD_SIZE (open_buf E flags (str_read p) b)) =
Some (action_event EVENT_OPEN 0 NoAddr 0 (u32 flags) p []).
Proof.
intros Hb Hl Hnz. unfold open_buf.
pose proof (length_open_hdr E flags b Hb) as Hh.
pose proof (length_header_buf E EVENT_OPEN b ltac:(layout_lia)) as Hhb. rewrite Hb in Hhb.
set (h := store action_detail.open_flags flags _) in *.
pose proof (length_path_buf1 p (str_read p).1 h Hh Hl) as Hb'.
rewrite (parse_action EVENT_OPEN _ p [] (Z.of_nat (length p) + 1) 0).
- rewrite !path_buf1_load by (done || layout_lia || disjoint).
  subst h. rewrite load_store_same by layout_lia.
  rewrite !load_store_other by (disjoint || layout_lia).
  by rewrite !header_buf_load by layout_lia.
- done.
- done.
- rewrite path_buf1_fields by done. subst h.
  rewrite header_fields_store by layout_lia. by apply header_fields_buf.
- by apply path_buf1_len.
- rewrite path_buf1_load by (done || layout_lia || disjoint).
  subst h. rewrite load_store_other by (disjoint || layout_lia).
  apply header_buf_load; layout_lia.
- apply record_path; [done|unfold path_off; layout_lia|done|done|]. by apply path_buf1_region.
- done.
Qed.

Lemma unlink_record_roundtrip p b :
length b = EVENT_RECORD_SIZE -> (length p <= 255)%nat -> Forall (fun c => c <> 0) p ->
event.Parse (take ACTION_RECORD_SIZE (unlink_buf E (str_read p) b)) =
Some (action_event EVENT_UNLINK 0 NoAddr 0 0 p []).
Proof.
intros Hb Hl Hnz. unfold unlink_buf.
pose proof (length_header_buf E EVENT_UNLINK b ltac:(layout_lia)) as Hh. rewrite Hb in Hh.
set (h := header_buf E EVENT_UNLINK b) in *.
pose proof (length_path_buf1 p (str_read p).1 h Hh Hl) as Hb'.
rewrite (parse_action EVENT_UNLINK _ p [] (Z.of_nat (length p) + 1) 0).
- rewrite !path_buf1_load by (done || layout_lia || disjoint).
  subst h. by rewrite !header_buf_load by layout_lia.
- done.
- done.
- rewrite path_buf1_fields by done. by apply header_fields_buf.
- by apply path_buf1_len.
- rewrite path_buf1_load by (done || layout_lia || disjoint). apply header_buf_load; layout_lia.
- apply record_path; [done|unfold path_off; layout_lia|done|done|]. by apply path_buf1_region.
- done.
Qed.

Lemma rename_record_roundtrip p1 p2 b :
length b = EVENT_RECORD_SIZE ->
(length p1 <= 255)%nat -> Forall (fun c => c <> 0) p1 ->
(length p2 <= 255)%nat -> Forall (fun c => c <> 0) p2 ->
event.Parse (take ACTION_RECORD_SIZE (rename_buf E (str_read p1) (str_read p2) b)) =
Some (action_event EVENT_RENAME 0 NoAddr 0 0 p1 p2).
Proof.
intros Hb Hl1 Hnz1 Hl2 Hnz2.
destruct (rename_buf_regions E (str_read p1).1 (str_read p2).1 p1 p2 b Hb Hl1 Hl2)
  as (Hb' & Hr1 & Hr2).
change (_, p1 ++ [0]) with (str_read p1) in *. change (_, p2 ++ [0]) with (str_read p2) in *.
pose proof (length_header_buf E EVENT_RENAME b ltac:(layout_lia)) as Hh. rewrite Hb in Hh.
pose proof (length_path_buf1 p1 (str_read p1).1 _ Hh Hl1) as Hx.
change (_, p1 ++ [0]) with (str_read p1) in Hx.
rewrite (parse_action EVENT_RENAME _ p1 p2 (Z.of_nat (length p1) + 1) (Z.of_nat (length p2) + 1)).
- unfold rename_buf.
  rewrite !path_buf2_load, !path_buf1_load by (done || layout_lia || disjoint).
  by rewrite !header_buf_load by layout_lia.
- done.
- done.
- unfold rename_buf. rewrite path_buf2_fields, path_buf1_fields by done. by apply header_fields_buf.
- unfold rename_buf. rewrite path_buf2_load by (done || layout_lia || disjoint). by apply path_buf1_len.
- by apply path_buf2_len.
- by apply record_path; [|unfold path_off; layout_lia|..].
- by apply record_path; [|unfold path2_off; layout_lia|..].
Qed.

Lemma connect_record_roundtrip fam dport a b :
length b = EVENT_RECORD_SIZE -> 0 <= dport < 2 ^ 16 ->
(fam = AF_INET /\ length a = 4%nat \/ fam = AF_INET6 /\ length a = 16%nat) ->
event.Parse (take ACTION_RECORD_SIZE (connect_buf E fam dport a b)) =
Some (action_event EVENT_CONNECT fam (decoded_addr a) dport 0 [] []).
Proof.
intros Hb Hdp Hfam. unfold connect_buf.
pose proof (length_header_buf E EVENT_CONNECT b ltac:(layout_lia)) as Hh. rewrite Hb in Hh.
pose proof (header_fields_buf EVENT_CONNECT b Hb) as Hf.
pose proof (fun f => header_buf_load EVENT_CONNECT b f Hb) as Hz.
pose proof (header_buf_slice EVENT_CONNECT b) as Hzs.
set (h := header_buf E EVENT_CONNECT b) in *.
assert (length a <= 16)%nat as Ha by lia.
set (x := store action_detail.dport dport _).
assert (length x = EVENT_RECORD_SIZE) as Hx.
{ subst x. by repeat (apply length_store_eq; [layout_lia|]). }
set (y := splice action_detail.addr a x).
assert (length y = EVENT_RECORD_SIZE) as Hy.
{ apply length_splice_eq; [layout_lia|done]. }
assert (forall f, (f_off f + f_width f <= 72)%nat -> load f y = load f x) as Hyx.
{ intros f Hfo. subst y. apply load_splice_other; layout_lia. }
assert (0 <= fam < 256) as Hfr by (destruct Hfam as [[-> _]|[-> _]]; done).
assert (load action_detail.family y = fam) as Hyf.
{ rewrite Hyx by layout_lia. subst x. unfold EVENT_RECORD_SIZE in *.
  rewrite load_store_other by (disjoint || len_ge).
  rewrite load_store_same by layout_lia. unfold u8. cbn. by rewrite !(Z.mod_small fam) by lia. }
assert (load action_detail.dport y = dport) as Hyd.
{ rewrite Hyx by layout_lia. subst x. unfold EVENT_RECORD_SIZE in *.
  rewrite load_store_same by len_ge. by apply Z.mod_small. }
assert (forall f, (f_off f + f_width f <= 72)%nat -> disjoint_fields f action_detail.dport ->
  disjoint_fields f action_detail.family -> load f y = load f h) as Hyh.
{ intros f Hfo H1 H2. rewrite Hyx by done. subst x. unfold EVENT_RECORD_SIZE in *.
  rewrite !load_store_other by (done || len_ge). done. }
assert (formatAddr fam (slice action_detail.addr 16 y) = decoded_addr a) as Hya.
{ assert (take (length a) (slice action_detail.addr 16 y) = a) as Hs.
  { unfold slice. rewrite take_take, Nat.min_l by lia. apply slice_splice_same. layout_lia. }
  assert (length (slice action_detail.addr 16 y) = 16%nat) as Hls
    by (apply length_slice; layout_lia).
  unfold decoded_addr, formatAddr. rewrite Hls.
  destruct Hfam as [[-> Hla]|[-> Hla]]; rewrite Hla in *; cbn -[take].
  - by rewrite Hs, <- Hla, firstn_all.
  - by rewrite Hs, <- Hla, firstn_all. }
rewrite (parse_action EVENT_CONNECT _ [] [] 0 0).
- rewrite Hyf, Hyd, Hya, Hyh by (disjoint || layout_lia). by rewrite Hz by layout_lia.
- done.
- done.
- subst y. rewrite header_fields_splice by layout_lia. subst x. unfold EVENT_RECORD_SIZE in *.
  rewrite !header_fields_store by (layout_lia || len_ge). done.
- rewrite Hyh by (disjoint || layout_lia). apply Hz. layout_lia.
- rewrite Hyh by (disjoint || layout_lia). apply Hz. layout_lia.
- done.
- done.
Qed.
End roundtrip.
