(* ===== verification/ConnectVerdict.v ===== *)
(** * ConnectVerdict: the decision on a connect target

    [enforce_connect_parsed] without its effects, the specification of its
    precedence order, and what a denial or an allowance rests on. *)

From S2P Require Import Prelude Types Bpf State Logic Enforcer Gate PathVerdict Hooks.

(** ** Byte order *)

Lemma port_host_spec p : 0 <= p -> port_host p = 256 * (p mod 256) + (p / 256) mod 256.
Proof.
  intros. unfold port_host. rewrite !land_ff, Z.shiftr_div_pow2 by lia.
  change (2 ^ 8) with 256. pose proof (Z.mod_pos_bound (p / 256) 256).
  rewrite lor_shiftl_add by lia. lia.
Qed.

(** The host-order value of a 16-bit field stored big-endian in memory. *)
Lemma port_host_be hi lo :
  is_byte hi -> is_byte lo -> port_host (le_val [hi; lo]) = 256 * hi + lo.
Proof.
  unfold is_byte. intros. cbn [le_val]. rewrite port_host_spec by lia.
  Z.div_mod_to_equations. lia.
Qed.

Lemma enroll_port_be hi lo :
  is_byte hi -> is_byte lo -> Enroll.port_host (le_val [hi; lo]) = 256 * hi + lo.
Proof.
  intros Hhi Hlo. rewrite port_host_copies; [by apply port_host_be|].
  unfold is_byte in *. cbn [le_val]. lia.
Qed.

Lemma port_host_range p : 0 <= p -> 0 <= port_host p < 2 ^ 16.
Proof. intros. rewrite port_host_spec by done. Z.div_mod_to_equations. lia. Qed.

Lemma u32_ntoh_be b0 b1 b2 b3 :
  is_byte b0 -> is_byte b1 -> is_byte b2 -> is_byte b3 ->
  u32_ntoh (le_val [b0; b1; b2; b3]) = ((b0 * 256 + b1) * 256 + b2) * 256 + b3.
Proof.
  unfold is_byte. intros. set (w := le_val _). unfold u32_ntoh.
  rewrite !land_ff, !Z.shiftr_div_pow2 by lia. cbn [le_val] in w.
  assert (w mod 256 = b0) as -> by (subst w; Z.div_mod_to_equations; lia).
  assert ((w / 2 ^ 8) mod 256 = b1) as -> by (subst w; Z.div_mod_to_equations; lia).
  assert ((w / 2 ^ 16) mod 256 = b2) as -> by (subst w; Z.div_mod_to_equations; lia).
  assert ((w / 2 ^ 24) mod 256 = b3) as -> by (subst w; Z.div_mod_to_equations; lia).
  rewrite (lor_shiftl_add b2 b3 8), (lor_shiftl_add b1 _ 16), (lor_shiftl_add b0 _ 24) by lia. lia.
Qed.

(** The address word of a cgroup context is stored as the address's bytes. *)
Lemma be32_to_ip_bytes_be buf off b0 b1 b2 b3 :
  is_byte b0 -> is_byte b1 -> is_byte b2 -> is_byte b3 ->
  be32_to_ip_bytes buf off (le_val [b0; b1; b2; b3]) = splice off [b0; b1; b2; b3] buf.
Proof.
  intros. unfold be32_to_ip_bytes. rewrite u32_ntoh_be by done. cbv zeta.
  rewrite !land_ff, !Z.shiftr_div_pow2 by lia. unfold is_byte in *.
  set (a := ((b0 * 256 + b1) * 256 + b2) * 256 + b3).
  assert ((a / 2 ^ 24) mod 256 = b0) as -> by (subst a; Z.div_mod_to_equations; lia).
  assert ((a / 2 ^ 16) mod 256 = b1) as -> by (subst a; Z.div_mod_to_equations; lia).
  assert ((a / 2 ^ 8) mod 256 = b2) as -> by (subst a; Z.div_mod_to_equations; lia).
  assert (a mod 256 = b3) as -> by (subst a; Z.div_mod_to_equations; lia). done.
Qed.

(** ** The verdict *)

Section connect_verdict.
Context `{L : LpmTrie}.

Definition ip_key (addr : list Z) : lpm_key := path_key addr.

(** The decision in the order of the C code: the first test that applies. *)
Definition connect_verdict (m : enforcer_maps) (addr : list Z) (port : Z) : option Z :=
  let dip := lpm_lookup (ip_deny m) (ip_key addr) in
  let aip := lpm_lookup (ip_allow m) (ip_key addr) in
  let dpt := port_deny m !! port in
  let apt := port_allow m !! port in
  let dpt_catch := port_deny m !! 0 in
  if connect_rule_matches aip apt then None else
  early match dip, dpt_catch with
        | Some d, Some c =>
            if (rule_id_hash d =? pt_rule_id_hash c) && nonzero (requires_port d)
                 && nonzero (requires_ip c)
            then when (ip_not_in_rule_matches dip aip (rule_id_hash d)
                         && port_not_in_rule_matches dpt_catch apt (rule_id_hash d))
                   (Some (rule_id_hash d))
            else None
        | _, _ => None
        end
  otherwise
  early match dip with
        | Some d =>
            if negb (nonzero (requires_port d))
            then when (ip_not_in_rule_matches dip aip (rule_id_hash d)) (Some (rule_id_hash d))
            else None
        | None => None
        end
  otherwise
  early match dpt_catch with
        | Some c =>
            when (negb (nonzero (requires_ip c))
                    && port_not_in_rule_matches dpt_catch apt (pt_rule_id_hash c))
              (Some (pt_rule_id_hash c))
        | None => None
        end
  otherwise
  early match dip with
        | Some d =>
            if nonzero (requires_port d) && connect_rule_matches dip dpt then
              Some (if match aip with Some a => specificity d <? specificity a | None => false end
                    then None else Some (rule_id_hash d))
            else None
        | None => None
        end
  otherwise
  early match dpt with
        | Some p =>
            if negb (port =? 0) && (pt_decision p =? MAP_DECISION_DENY)
                 && (pt_action p =? VERDICT_CONNECT)
            then Some (if match apt with
                          | Some a => pt_rule_id_hash a =? pt_rule_id_hash p
                          | None => false
                          end
                       then None else Some (pt_rule_id_hash p))
            else None
        | None => None
        end
  otherwise None.

Context `{!LpmTrieSpec L}.

Definition ip_tries_functional (m : enforcer_maps) : Prop :=
  lpm_functional (ip_deny m) /\ lpm_functional (ip_allow m).

(** The bytes of an address inside a (possibly longer) buffer. *)
Definition addr_of (buf : list Z) (len : Z) : list Z := take (Z.to_nat len) buf.

Definition ip_scratch_key (buf : list Z) (len : Z) : lpm_key :=
  mk_lpm_key (u32 (u32 len * 8)) (splice 0 (addr_of buf len) (zeros 256)).

Lemma ip_lpm_lookup_run map buf len E s :
  scratch_ready E s -> 0 < len <= 16 ->
  ip_lpm_lookup map (Some buf) len E s =
  (lpm_lookup (map (enforcer (set_key E (ip_scratch_key buf len) s))) (ip_scratch_key buf len),
   set_key E (ip_scratch_key buf len) s).
Proof.
  intros [[k Hk] _] Hlen. unfold ip_lpm_lookup.
  erewrite run_bind; [|unfold scratch_lpm_key, this_cpu; rewrite Hk; done].
  replace ((len <=? 0) || (16 <? len)) with false by lia. cbv zeta.
  by erewrite run_bind by done.
Qed.

Lemma ip_scratch_key_covers buf len :
  (Z.to_nat len <= length buf)%nat -> 0 < len <= 16 ->
  forall e, lpm_covers e (ip_scratch_key buf len) = lpm_covers e (ip_key (addr_of buf len)).
Proof.
  intros Hbuf Hlen e. unfold addr_of.
  assert (length (take (Z.to_nat len) buf) = Z.to_nat len) as Hl by (rewrite length_take; lia).
  apply (lpm_covers_ext _ _ _ (Z.to_nat len)).
  - cbn. unfold u32. rewrite (Z.mod_small len), Z.mod_small by lia. lia.
  - unfold ip_key, path_key. cbn [prefixlen]. by rewrite Hl.
  - unfold ip_key, path_key, ip_scratch_key, addr_of. cbn [data].
    unfold splice. rewrite take_0, app_nil_l, !take_app_le by lia. done.
Qed.

Lemma ip_lookup_addr t buf len :
  lpm_functional t -> (Z.to_nat len <= length buf)%nat -> 0 < len <= 16 ->
  lpm_lookup t (ip_scratch_key buf len) = lpm_lookup t (ip_key (addr_of buf len)).
Proof. intros. apply lpm_lookup_ext; [done|]. by apply ip_scratch_key_covers. Qed.

Lemma deny_connect_run hash buf len port E s :
  deny_connect hash buf len port E s =
  (- EPERM, push_verdict E VERDICT_CONNECT hash None 0 (Some buf) len port s).
Proof. unfold deny_connect. by erewrite run_bind by apply emit_deny_ex_run. Qed.

(** An allow entry that passes the first test is not tested again. *)
Lemma connect_rule_matches_None apt : connect_rule_matches None apt = false.
Proof. done. Qed.

(** The run and its decision, test by test: a result, and an early return of one
    that corresponds to an early decision of the other. *)
Definition connect_result (buf : list Z) (len port : Z) (E : env) (s : kstate) (o : option Z)
    : Z * kstate :=
  match o with
  | Some h => (- EPERM, push_verdict E VERDICT_CONNECT h None 0 (Some buf) len port s)
  | None => (0, s)
  end.

Definition agrees (buf : list Z) (len port : Z) (E : env) (s : kstate) (m : option (prog Z))
    (v : option (option Z)) : Prop :=
  match m, v with
  | Some m, Some o => m E s = connect_result buf len port E s o
  | None, None => True
  | _, _ => False
  end.

Lemma early_agrees buf len port E s m v k o :
  agrees buf len port E s m v -> k E s = connect_result buf len port E s o ->
  (early m otherwise k) E s = connect_result buf len port E s (early v otherwise o).
Proof. by destruct m, v. Qed.

Lemma agrees_deny buf len port E s (b : bool) h :
  agrees buf len port E s (if b then Some (deny_connect h buf len port) else None)
    (if b then Some (Some h) else None).
Proof. destruct b; [apply deny_connect_run|done]. Qed.

Lemma enforce_connect_parsed_run E s buf len port :
  scratch_ready E s -> ip_tries_functional (enforcer s) ->
  (Z.to_nat len <= length buf)%nat -> 0 < len <= 16 ->
  enforce_connect_parsed (Some buf) len port E s =
  connect_result buf len port E (set_key E (ip_scratch_key buf len) s)
    (connect_verdict (enforcer s) (addr_of buf len) port).
Proof.
  intros Hs [Hd Ha] Hbuf Hlen. unfold enforce_connect_parsed.
  replace (len <=? 0) with false by lia.
  erewrite run_bind by by apply ip_lpm_lookup_run.
  erewrite run_bind by (apply ip_lpm_lookup_run; auto using scratch_ready_set_key).
  rewrite set_key_twice.
  change (ip_deny (enforcer (set_key E (ip_scratch_key buf len) s))) with (ip_deny (enforcer s)).
  change (ip_allow (enforcer (set_key E (ip_scratch_key buf len) s))) with (ip_allow (enforcer s)).
  rewrite !ip_lookup_addr by done.
  erewrite run_bind by done. erewrite run_bind by done. erewrite run_bind by done. cbn beta.
  change (port_deny (enforcer (set_key E (ip_scratch_key buf len) s))) with (port_deny (enforcer s)).
  change (port_allow (enforcer (set_key E (ip_scratch_key buf len) s))) with (port_allow (enforcer s)).
  unfold connect_verdict. cbv zeta.
  set (dip := lpm_lookup (ip_deny _) _). set (aip := lpm_lookup (ip_allow _) _).
  set (dpt := port_deny _ !! port). set (apt := port_allow _ !! port). set (c := port_deny _ !! 0).
  clearbody dip aip dpt apt c.
  replace (bool_decide (is_Some aip) && connect_rule_matches aip apt)
    with (connect_rule_matches aip apt) by by destruct aip.
  unfold when. destruct (connect_rule_matches aip apt) eqn:Hallow; [done|].
  repeat (apply early_agrees; [|try done]).
  - destruct dip as [d|], c as [c|]; try done.
    destruct (_ && _ && nonzero (requires_ip c)); [apply agrees_deny|done].
  - destruct dip as [d|]; [|done]. destruct (negb _); [|done].
    destruct aip; [rewrite andb_false_r|]; apply agrees_deny.
  - destruct c as [c|]; [apply agrees_deny|done].
  - destruct dip as [d|]; [|done]. destruct (_ && _); [|done].
    destruct (match aip with Some _ => _ | None => false end); [done|apply deny_connect_run].
  - destruct dpt as [p|]; [|done]. destruct (_ && (pt_action p =? _)); [|done].
    destruct (match apt with Some _ => _ | None => false end); [done|apply deny_connect_run].
Qed.

(** ** The hooks that decide a connect *)

Lemma connect_verdict_proper m m' addr pt :
  pol_eq m m' -> connect_verdict m addr pt = connect_verdict m' addr pt.
Proof.
  intros Heq. unfold connect_verdict.
  by rewrite (eq_ip_deny _ _ Heq), (eq_ip_allow _ _ Heq), (eq_port_deny _ _ Heq),
    (eq_port_allow _ _ Heq).
Qed.

Lemma ip_tries_functional_proper m m' :
  pol_eq m m' -> ip_tries_functional m -> ip_tries_functional m'.
Proof. unfold ip_tries_functional. by intros ->. Qed.

(** An address family's length. *)
Definition addr_len (len : Z) : Prop := len = 4 \/ len = 16.

Lemma connect_pending_run E s pid pc :
  scratch_ready E s -> ip_tries_functional (enforcer s) ->
  pending_connects (enroll s) !! pid = Some pc -> addr_len (ip_len pc) -> length (ip pc) = 16%nat ->
  exists s2, quiet E s s2 /\
    enforce_connect_from_pending pid E s =
    match connect_verdict (enforcer s) (addr_of (ip pc) (ip_len pc)) (port pc) with
    | Some h => (- EPERM, bump E STAT_CONNECT_DENY
                  (push_verdict E VERDICT_CONNECT h None 0 (Some (ip pc)) (ip_len pc) (port pc) s2))
    | None => (0, s2)
    end.
Proof.
  intros Hs Hf Hpc Hlen Hip. unfold enforce_connect_from_pending.
  exists (set_key E (ip_scratch_key (ip pc) (ip_len pc)) s). split; [apply set_key_quiet|].
  erewrite run_bind by done. cbn beta. rewrite Hpc. erewrite run_bind by done. cbn beta iota.
  replace (negb (ip_len pc =? 4) && negb (ip_len pc =? 16)) with false
    by (destruct Hlen as [-> | ->]; done).
  apply count_denial_run. rewrite enforce_connect_parsed_run; [done|done|done| |];
    destruct Hlen as [-> | ->]; lia.
Qed.

(** The cgroup hooks: the same decision, with 0 for a denial. *)
Lemma cgroup_connect_action_run E s buf len pt :
  scratch_ready E s -> ip_tries_functional (enforcer s) ->
  (Z.to_nat len <= length buf)%nat -> 0 < len <= 16 ->
  ret_of (cgroup_connect_action buf len pt) E s =
  if connect_verdict (enforcer s) (addr_of buf len) pt then 0 else 1.
Proof.
  intros Hs Hf Hb Hl. unfold cgroup_connect_action. rewrite ret_of_bind.
  unfold ret_of at 2, state_of. rewrite enforce_connect_parsed_run by done.
  by destruct (connect_verdict _ _ _).
Qed.

(** The bytes of the target address, as they lie in the context. *)
Definition cgroup_address4 (ctx : bpf_sock_addr) : list Z := le_bytes 4 (user_ip4 ctx).
Definition cgroup_address6 (ctx : bpf_sock_addr) : list Z := flat_map (le_bytes 4) (user_ip6 ctx).

Lemma be32_to_ip_bytes_le buf off w :
  is_u32 w -> be32_to_ip_bytes buf off w = splice off (le_bytes 4 w) buf.
Proof.
  intros Hw. pose proof (le_bytes_is_byte 4 w) as Hb.
  assert (le_val (le_bytes 4 w) = w) as Hv.
  { rewrite le_val_le_bytes. change (8 * Z.of_nat 4) with 32. by apply Z.mod_small. }
  cbn [le_bytes] in *. rewrite !Forall_cons in Hb. destruct Hb as (?&?&?&?&_).
  rewrite <- Hv at 1. by apply be32_to_ip_bytes_be.
Qed.

(** What the two cgroup hooks have in common once enforcement is live. *)
Lemma cgroup_live_run E s (k : prog Z) :
  active s = true ->
  ret_of (should ← cgroup_should_enforce;
          if negb (should : bool) then mret 1 else
          live ← enforcement_live;
          if negb (live : bool) then _ ← stat_inc STAT_CONNECT_DENY; mret 0 else k) E s =
  ret_of k E s.
Proof.
  intros Ha. unfold ret_of. erewrite run_bind by apply cgroup_should_enforce_run. rewrite Ha.
  cbn [orb negb]. erewrite run_bind by apply enforcement_live_run. by rewrite Ha.
Qed.

Lemma cgroup_counted_run E s buf len pt :
  scratch_ready E s -> ip_tries_functional (enforcer s) ->
  (Z.to_nat len <= length buf)%nat -> 0 < len <= 16 ->
  ret_of (_ ← stat_inc STAT_CGROUP_CONNECT; cgroup_connect_action buf len pt) E s =
  if connect_verdict (enforcer s) (addr_of buf len) pt then 0 else 1.
Proof.
  intros Hs Hf Hb Hl. unfold ret_of. erewrite run_bind by apply stat_inc_run.
  destruct (bump_quiet E STAT_CGROUP_CONNECT s) as [_ Hp _ Hr].
  rewrite <- (connect_verdict_proper _ _ _ _ Hp).
  apply cgroup_connect_action_run; [by apply Hr| |done|done].
  by apply (ip_tries_functional_proper (enforcer s)).
Qed.

Lemma cgroup_connect4_run E s ctx :
  scratch_ready E s -> ip_tries_functional (enforcer s) -> active s = true ->
  is_u32 (user_ip4 ctx) -> user_ip4 ctx <> 0 ->
  ret_of (enforce_cgroup_connect4 ctx) E s =
  if connect_verdict (enforcer s) (cgroup_address4 ctx) (cgroup_user_port (user_port ctx))
  then 0 else 1.
Proof.
  intros Hs Hf Ha Hip Hnz. unfold enforce_cgroup_connect4. cbv zeta.
  rewrite cgroup_live_run by done. replace (user_ip4 ctx =? 0) with false by lia.
  rewrite be32_to_ip_bytes_le, cgroup_counted_run; done.
Qed.

Lemma cgroup_connect6_run E s ctx :
  scratch_ready E s -> ip_tries_functional (enforcer s) -> active s = true ->
  length (user_ip6 ctx) = 4%nat -> Forall is_u32 (user_ip6 ctx) ->
  Exists (fun w => w <> 0) (user_ip6 ctx) ->
  ret_of (enforce_cgroup_connect6 ctx) E s =
  if connect_verdict (enforcer s) (cgroup_address6 ctx) (cgroup_user_port (user_port ctx))
  then 0 else 1.
Proof.
  intros Hs Hf Ha Hl Hw Hnz. unfold enforce_cgroup_connect6, cgroup_address6. cbv zeta.
  rewrite cgroup_live_run by done.
  destruct (user_ip6 ctx) as [|w0 [|w1 [|w2 [|w3 [|]]]]]; try discriminate Hl. cbn [nth].
  rewrite !Forall_cons in Hw. destruct Hw as (H0 & H1 & H2 & H3 & _).
  rewrite !Exists_cons, Exists_nil in Hnz.
  replace (_ && _ && _ && _) with false by lia.
  rewrite !be32_to_ip_bytes_le by done. rewrite cgroup_counted_run; done.
Qed.

(** ** What a decision rests on *)

(** A live allow: the longest allow entry for the address covers connect and
    needs no port, or the port's allow entry belongs to the same rule. *)
Definition connect_allowed (m : enforcer_maps) (addr : list Z) (pt : Z) : Prop :=
  exists a, longest_rule (ip_allow m) (ip_key addr) a /\
    nonzero (Z.land (action_mask a) (verdict_bit VERDICT_CONNECT)) = true /\
    (requires_port a = 0 \/
     exists p, port_allow m !! pt = Some p /\ pt_action p = VERDICT_CONNECT /\
       pt_rule_id_hash p = rule_id_hash a).

Lemma connect_rule_matches_true o1 o2 :
  connect_rule_matches o1 o2 = true <->
  exists r, o1 = Some r /\ nonzero (Z.land (action_mask r) (verdict_bit VERDICT_CONNECT)) = true /\
    (requires_port r = 0 \/
     exists p, o2 = Some p /\ pt_action p = VERDICT_CONNECT /\ pt_rule_id_hash p = rule_id_hash r).
Proof.
  unfold connect_rule_matches, nonzero. destruct o1 as [r|]; [|split; [done|by intros (? & [=] & _)]].
  split.
  - intros H. exists r. split; [done|].
    destruct (Z.land (action_mask r) (verdict_bit VERDICT_CONNECT) =? 0); [done|]. split; [done|].
    destruct (Z.eqb_spec (requires_port r) 0); [by left|]. right.
    destruct o2 as [p|]; [|done]. cbn in H. apply andb_true_iff in H as [H1 H2].
    exists p. split_and!; [done|lia|lia].
  - intros (r' & [= <-] & Hm & Hor). rewrite Hm. cbn [negb].
    destruct Hor as [-> | (p & -> & H1 & H2)]; [done|].
    destruct (requires_port r =? 0); [done|]. cbn. lia.
Qed.

Lemma connect_allowed_matches m addr pt :
  ip_tries_functional m ->
  connect_allowed m addr pt <->
  connect_rule_matches (lpm_lookup (ip_allow m) (ip_key addr)) (port_allow m !! pt) = true.
Proof.
  intros [_ Ha]. rewrite connect_rule_matches_true. unfold connect_allowed.
  by setoid_rewrite <- (lpm_lookup_longest _ _ _ Ha).
Qed.

(** A denial names a deny entry of the policy: one for the address, for the port,
    or the catch-all entry at port 0. *)
Definition deny_entry (m : enforcer_maps) (addr : list Z) (pt h : Z) : Prop :=
  (exists d, longest_rule (ip_deny m) (ip_key addr) d /\ rule_id_hash d = h) \/
  (exists p, (port_deny m !! pt = Some p \/ port_deny m !! 0 = Some p) /\
     pt_decision p = MAP_DECISION_DENY /\ pt_rule_id_hash p = h).

Lemma connect_verdict_cases m addr pt h :
  connect_verdict m addr pt = Some h ->
  connect_rule_matches (lpm_lookup (ip_allow m) (ip_key addr)) (port_allow m !! pt) = false /\
  ((exists d, lpm_lookup (ip_deny m) (ip_key addr) = Some d /\ rule_id_hash d = h) \/
   (exists p, (port_deny m !! pt = Some p \/ port_deny m !! 0 = Some p) /\
      pt_decision p = MAP_DECISION_DENY /\ pt_rule_id_hash p = h)).
Proof.
  unfold connect_verdict, when. cbv zeta.
  set (dip := lpm_lookup (ip_deny m) _). set (aip := lpm_lookup (ip_allow m) _).
  destruct (connect_rule_matches aip _) eqn:Hal; [done|]. intros H. split; [done|].
  destruct (match dip with Some d => _ | None => None end) as [o|] eqn:H1 in H.
  { left. destruct dip as [d|]; [|done]. destruct (port_deny m !! 0) as [c|]; [|done].
    exists d. case_bools; simplify_eq; done. }
  destruct (match dip with Some d => _ | None => None end) as [o|] eqn:H2 in H.
  { left. destruct dip as [d|]; [|done]. exists d. case_bools; simplify_eq; done. }
  destruct (match port_deny m !! 0 with Some c => _ | None => None end) as [o|] eqn:H3 in H.
  { right. destruct (port_deny m !! 0) as [c|]; [|done]. exists c.
    destruct (negb (nonzero (requires_ip c))); [|done]. cbn [andb] in H3.
    unfold port_not_in_rule_matches in H3. rewrite Z.eqb_refl in H3. cbn [negb orb] in H3.
    destruct (Z.eqb_spec (pt_decision c) MAP_DECISION_DENY); [|done]. cbn [negb] in H3.
    split_and!; [by right|done|]. case_bools; simplify_eq; done. }
  destruct (match dip with Some d => _ | None => None end) as [o|] eqn:H4 in H.
  { left. destruct dip as [d|]; [|done]. exists d. case_bools; simplify_eq; done. }
  destruct (match port_deny m !! pt with Some p => _ | None => None end) as [o|] eqn:H5 in H; [|done].
  right. destruct (port_deny m !! pt) as [p|]; [|done]. exists p.
  destruct (_ && _) eqn:Hb in H5; [|done]. apply andb_true_iff in Hb as [Hb _].
  apply andb_true_iff in Hb as [_ Hb]. split_and!; [by left|lia|]. case_bools; simplify_eq; done.
Qed.

(** No entry of that rule is there to except the target. *)
Definition not_of {A} (hash : A -> Z) (o : option A) (h : Z) : Prop := forall a, o = Some a -> hash a <> h.

(** The entries a denial comes from, test by test: rules on addresses and on the ports
    of an exclusion, on addresses alone, on the ports of an exclusion alone, on an
    address and the port, and on the port. *)
Inductive denied_by (dip aip : option path_rule) (dpt apt catch : option port_rule) (pt h : Z) : Prop :=
  | by_both d c : dip = Some d -> catch = Some c -> rule_id_hash d = h -> pt_rule_id_hash c = h ->
      not_of rule_id_hash aip h -> not_of pt_rule_id_hash apt h -> denied_by dip aip dpt apt catch pt h
  | by_address d : dip = Some d -> rule_id_hash d = h -> requires_port d = 0 ->
      not_of rule_id_hash aip h -> denied_by dip aip dpt apt catch pt h
  | by_other_ports c : catch = Some c -> pt_rule_id_hash c = h -> requires_ip c = 0 ->
      not_of pt_rule_id_hash apt h -> denied_by dip aip dpt apt catch pt h
  | by_pair d p : dip = Some d -> dpt = Some p -> rule_id_hash d = h -> pt_rule_id_hash p = h ->
      denied_by dip aip dpt apt catch pt h
  | by_port p : dpt = Some p -> pt_rule_id_hash p = h -> pt <> 0 ->
      not_of pt_rule_id_hash apt h -> denied_by dip aip dpt apt catch pt h.

Lemma ip_not_in_true dip aip h :
  ip_not_in_rule_matches dip aip h = true -> not_of rule_id_hash aip h.
Proof.
  unfold ip_not_in_rule_matches, not_of. destruct dip as [d|]; [|done]. intros H a ->. case_bools; [done..|lia].
Qed.

Lemma port_not_in_true dpt apt h :
  port_not_in_rule_matches dpt apt h = true -> not_of pt_rule_id_hash apt h.
Proof.
  unfold port_not_in_rule_matches, not_of. destruct dpt as [d|]; [|done]. intros H a ->. case_bools; [done..|lia].
Qed.

Lemma connect_verdict_denied_by m addr pt h :
  connect_verdict m addr pt = Some h ->
  denied_by (lpm_lookup (ip_deny m) (ip_key addr)) (lpm_lookup (ip_allow m) (ip_key addr))
    (port_deny m !! pt) (port_allow m !! pt) (port_deny m !! 0) pt h.
Proof.
  unfold connect_verdict, when. cbv zeta.
  destruct (connect_rule_matches (lpm_lookup (ip_allow m) (ip_key addr)) _); [done|].
  set (dip := lpm_lookup (ip_deny m) _). set (aip := lpm_lookup (ip_allow m) _).
  set (dpt := port_deny m !! pt). set (apt := port_allow m !! pt). set (catch := port_deny m !! 0).
  clearbody dip aip dpt apt catch. intros H.
  destruct (match dip with Some d => _ | None => None end) as [o|] eqn:H1 in H.
  { destruct dip as [d|]; [|done]. destruct catch as [c|]; [|done].
    case_bools; simplify_eq. rewrite !andb_true_iff in *. destruct_and!.
    eapply by_both; [done..|lia| |]; eauto using ip_not_in_true, port_not_in_true. }
  destruct (match dip with Some d => _ | None => None end) as [o|] eqn:H2 in H.
  { clear H1. destruct dip as [d|]; [|done]. unfold nonzero in H2. rewrite negb_involutive in H2.
    case_bools; simplify_eq. eapply by_address; [done..|lia|]. by eapply ip_not_in_true. }
  destruct (match catch with Some c => _ | None => None end) as [o|] eqn:H3 in H.
  { clear H1 H2. destruct catch as [c|]; [|done]. unfold nonzero in H3. rewrite negb_involutive in H3.
    case_bools; simplify_eq. rewrite !andb_true_iff in *. destruct_and!.
    eapply by_other_ports; [done..|lia|]. by eapply port_not_in_true. }
  destruct (match dip with Some d => _ | None => None end) as [o|] eqn:H4 in H.
  { clear H1 H2 H3. destruct dip as [d|]; [|done].
    destruct (nonzero (requires_port d) && _) eqn:Hm; [|done]. apply andb_true_iff in Hm as [Hrp Hm].
    assert (h = rule_id_hash d) as -> by (case_bools; simplify_eq; done).
    apply connect_rule_matches_true in Hm as (d' & [= <-] & _ & [H0|(p & Hp & _ & Hh)]).
    - by rewrite H0 in Hrp.
    - eapply by_pair; done. }
  destruct (match dpt with Some p => _ | None => None end) as [o|] eqn:H5 in H; [|done].
  clear H1 H2 H3 H4. destruct dpt as [p|]; [|done]. destruct (_ && (pt_action p =? _)) eqn:Hm; [|done].
  rewrite !andb_true_iff in Hm. destruct_and!. injection H5 as <-.
  destruct (match apt with Some _ => _ | None => false end) eqn:Ha; [done|]. injection H as <-.
  eapply by_port; [done..|lia|]. intros a ->. lia.
Qed.

(** A live allow entry (the longest allow entry of the address covers connect
    and needs no port, or its port entry is of the same rule) decides: no deny
    entry, however specific, denies past it. *)
Theorem connect_allow_decides m addr pt :
  ip_tries_functional m -> connect_allowed m addr pt -> connect_verdict m addr pt = None.
Proof.
  intros Hf Ha%connect_allowed_matches; [|done].
  destruct (connect_verdict m addr pt) as [h|] eqn:Hv; [|done].
  apply connect_verdict_cases in Hv as [Hn _]. congruence.
Qed.

(** A denied connect is not covered by a live allow entry, and the reported
    hash is that of the longest deny entry of the address, or of a deny entry of the
    port or of the catch-all port 0. *)
Theorem connect_denial_sound m addr pt h :
  ip_tries_functional m -> connect_verdict m addr pt = Some h ->
  ~ connect_allowed m addr pt /\ deny_entry m addr pt h.
Proof.
  intros Hf Hv. apply connect_verdict_cases in Hv as [Hn Hd]. split.
  - rewrite connect_allowed_matches by done. by rewrite Hn.
  - unfold deny_entry. destruct Hf as [Hf _].
    destruct Hd as [(d & Hd & Hh)|?]; [left|by right].
    exists d. by rewrite <- (lpm_lookup_longest _ _ _ Hf).
Qed.

(** An address rule without port predicates denies every address it is the
    longest deny entry of, on every port, unless a live allow covers the target or
    the rule's own exception is the longest allow entry. *)
Theorem connect_ip_rule_denies m addr pt d :
  ip_tries_functional m -> longest_rule (ip_deny m) (ip_key addr) d ->
  decision d = MAP_DECISION_DENY -> requires_port d = 0 ->
  ~ connect_allowed m addr pt ->
  (forall a, longest_rule (ip_allow m) (ip_key addr) a -> rule_id_hash a <> rule_id_hash d) ->
  connect_verdict m addr pt = Some (rule_id_hash d).
Proof.
  intros Hf Hd Hdec Hrp Hna Hex. rewrite connect_allowed_matches in Hna by done.
  destruct Hf as [Hfd Hfa]. apply (lpm_lookup_longest _ _ _ Hfd) in Hd.
  unfold connect_verdict, when, ip_not_in_rule_matches. cbv zeta. rewrite Hd, Hrp, Hdec, !Z.eqb_refl.
  destruct (connect_rule_matches _ _); [done|]. cbn [negb orb nonzero Z.eqb andb].
  assert (match lpm_lookup (ip_allow m) (ip_key addr) with
          | Some a => negb (rule_id_hash a =? rule_id_hash d) | None => true end = true) as ->.
  { destruct (lpm_lookup (ip_allow m) _) as [a|] eqn:Ha; [|done].
    apply (lpm_lookup_longest _ _ _ Hfa), Hex in Ha. lia. }
  destruct (port_deny m !! 0) as [c|]; [|done]. by rewrite !andb_false_r.
Qed.

(** ** Address families

    A key holds the address bytes and nothing that tells the family. *)

Lemma short_prefix_covers e (a rest : list Z) :
  prefixlen e <= 8 * Z.of_nat (length a) -> (length (a ++ rest) <= 256)%nat ->
  lpm_covers e (ip_key (a ++ rest)) = lpm_covers e (ip_key a).
Proof.
  intros He Hlen. unfold ip_key, path_key, lpm_covers. cbn [prefixlen data].
  rewrite length_app. assert (prefixlen e <= 8 * Z.of_nat (length a + length rest)) by lia.
  replace (prefixlen e <=? 8 * Z.of_nat (length a + length rest)) with true by (symmetry; apply Z.leb_le; done).
  replace (prefixlen e <=? 8 * Z.of_nat (length a)) with true by lia. cbn [andb].
  apply eq_true_iff_eq. rewrite !forallb_forall.
  assert (forall i, (i < Z.to_nat (prefixlen e))%nat ->
            key_bit ((a ++ rest) ++ zeros (256 - (length a + length rest))) i =
            key_bit (a ++ zeros (256 - length a)) i) as Hbit.
  { intros i Hi. unfold key_bit. f_equal.
    assert (i / 8 < length a)%nat by (apply Nat.Div0.div_lt_upper_bound; lia).
    rewrite !app_nth1; rewrite ?length_app; try done; lia. }
  split; intros Hb i Hi; pose proof Hi as Hi'; apply in_seq in Hi';
    [rewrite <- Hbit by lia|rewrite Hbit by lia]; by apply Hb.
Qed.

(** Address keys carry no family: when every address rule is a prefix of at
    most 32 bits, an IPv6 target is decided exactly as the IPv4 target of its first
    four bytes. *)
Theorem ipv6_decided_by_first_bytes m (a rest : list Z) pt :
  ip_tries_functional m -> length a = 4%nat -> length rest = 12%nat ->
  (forall e r, (e, r) ∈ ip_deny m ++ ip_allow m -> prefixlen e <= 32) ->
  connect_verdict m (a ++ rest) pt = connect_verdict m a pt.
Proof.
  intros [Hfd Hfa] Ha Hr Hv4. unfold connect_verdict.
  rewrite (lpm_lookup_agree (ip_deny m) (ip_key (a ++ rest)) (ip_key a)),
    (lpm_lookup_agree (ip_allow m) (ip_key (a ++ rest)) (ip_key a)); [done|done| |done|].
  all: intros e r Hin; apply short_prefix_covers; [|rewrite length_app; lia].
  all: rewrite Ha; apply (Hv4 e r), elem_of_app; auto.
Qed.

(** ** The cgroup hooks decide as the syscall hook does *)

Lemma cgroup_port_be hi lo :
  is_byte hi -> is_byte lo -> cgroup_user_port (le_val [hi; lo; 0; 0]) = 256 * hi + lo.
Proof.
  intros Hhi Hlo. unfold cgroup_user_port.
  assert (u16 (le_val [hi; lo; 0; 0]) = le_val [hi; lo]) as ->; [|by apply port_host_be].
  unfold is_byte in *. cbn [le_val]. unfold u16. rewrite Z.mod_small; lia.
Qed.

Lemma le_bytes_of_word (a : list Z) : Forall is_byte a -> length a = 4%nat -> le_bytes 4 (le_val a) = a.
Proof. intros Hb <-. by apply le_bytes_le_val. Qed.

Lemma is_u32_word (a : list Z) : Forall is_byte a -> length a = 4%nat -> is_u32 (le_val a).
Proof. intros Hb Hl. pose proof (le_val_bound a Hb) as H. rewrite Hl in H. exact H. Qed.

(** C35. The cgroup connect4 hook decides as the syscall hook: in the live regime it
    answers 0 (deny) exactly when the address is not 0.0.0.0 and the connect verdict
    on the same address and host-order port is a denial, and 1 otherwise. *)
Theorem cgroup4_decides E s (a : list Z) hi lo w6 :
  scratch_ready E s -> ip_tries_functional (enforcer s) -> active s = true ->
  Forall is_byte a -> length a = 4%nat -> is_byte hi -> is_byte lo ->
  ret_of (enforce_cgroup_connect4 (mk_bpf_sock_addr (le_val a) w6 (le_val [hi; lo; 0; 0]))) E s =
  if decide (a = zeros 4) then 1 else
  if connect_verdict (enforcer s) a (256 * hi + lo) then 0 else 1.
Proof.
  intros Hs Hf Ha Hb Hl Hhi Hlo. destruct (decide (a = zeros 4)) as [->|Hnz].
  { unfold enforce_cgroup_connect4. cbv zeta. by rewrite cgroup_live_run. }
  rewrite cgroup_connect4_run; cbn [user_ip4]; try done.
  - unfold cgroup_address4. cbn [user_ip4 user_port].
    by rewrite le_bytes_of_word, cgroup_port_be.
  - by apply is_u32_word.
  - intros H0%le_val_zero; [|done]. by rewrite Hl in H0.
Qed.

(** The cgroup connect6 hook decides as the syscall hook: in the live regime it
    answers 0 (deny) exactly when the connect verdict on the same 16 address bytes
    and host-order port is a denial. *)
Theorem cgroup6_decides E s (a0 a1 a2 a3 : list Z) hi lo w4 :
  scratch_ready E s -> ip_tries_functional (enforcer s) -> active s = true ->
  Forall (fun a => Forall is_byte a /\ length a = 4%nat) [a0; a1; a2; a3] ->
  a0 ++ a1 ++ a2 ++ a3 <> zeros 16 -> is_byte hi -> is_byte lo ->
  ret_of (enforce_cgroup_connect6
    (mk_bpf_sock_addr w4 [le_val a0; le_val a1; le_val a2; le_val a3] (le_val [hi; lo; 0; 0]))) E s =
  if connect_verdict (enforcer s) (a0 ++ a1 ++ a2 ++ a3) (256 * hi + lo) then 0 else 1.
Proof.
  intros Hs Hf Ha Hall Hnz Hhi Hlo. rewrite !Forall_cons in Hall.
  destruct Hall as ([H0 L0] & [H1 L1] & [H2 L2] & [H3 L3] & _).
  rewrite cgroup_connect6_run; cbn [user_ip6]; try done.
  - unfold cgroup_address6. cbn [user_ip6 user_port flat_map].
    by rewrite !le_bytes_of_word, cgroup_port_be, app_nil_r.
  - repeat constructor; by apply is_u32_word.
  - rewrite !Exists_cons, Exists_nil.
    destruct (decide (le_val a0 = 0)) as [Z0|]; [|tauto].
    destruct (decide (le_val a1 = 0)) as [Z1|]; [|tauto].
    destruct (decide (le_val a2 = 0)) as [Z2|]; [|tauto].
    destruct (decide (le_val a3 = 0)) as [Z3|]; [|tauto].
    apply le_val_zero in Z0, Z1, Z2, Z3; try done.
    rewrite Z0, Z1, Z2, Z3, L0, L1, L2, L3 in Hnz. done.
Qed.
End connect_verdict.
