(* ===== verification/Observe.v ===== *)
(** * Observe: the events the agent decodes

    Every tracepoint of an enrolled process submits one record, or counts one
    drop; the record decodes to the action the process is about to take.
    Process lifecycle records decode to the process. *)

From S2P Require Import Prelude Types Bpf State Logic.
From S2P Require Enforcer.
From S2P Require Import Gate PathVerdict Hooks Records Machine Enroll Staging Formats.
From S2P Require ConnectVerdict.

(** One record: at the end of the ring, or a drop counted on this CPU. *)
Definition submitted (E : env) (rec : list Z) (s s' : kstate) : Prop :=
  if ringbuf_output_ok E
  then events (enroll s') = events (enroll s) ++ [rec] /\ drops (enroll s') = drops (enroll s)
  else events (enroll s') = events (enroll s) /\
       pc_lookup (cpu E) 0 (drops (enroll s')) =
         (fun d => u64 (d + 1)) <$> pc_lookup (cpu E) 0 (drops (enroll s)).

(** The run submitted a record the agent decodes to [e]. *)
Definition observed_as (E : env) (e : event.Event) (s s' : kstate) : Prop :=
  exists rec, submitted E rec s s' /\ event.Parse rec = Some e.

Lemma output_submitted E rec s s0 :
  events (enroll s0) = events (enroll s) -> drops (enroll s0) = drops (enroll s) ->
  submitted E rec s (output E rec s0).
Proof.
  intros He Hd. unfold submitted, output. destruct (ringbuf_output_ok E).
  - cbn. by rewrite He, Hd.
  - rewrite Hd. destruct (pc_lookup (cpu E) 0 (drops (enroll s))) as [d|] eqn:Hl; cbn.
    + split; [done|]. rewrite Hd. apply pc_lookup_write. by rewrite Hl.
    + rewrite Hd. by rewrite Hl.
Qed.

Lemma after_ensure_events E s :
  events (enroll (after_ensure E s)) = events (enroll s) /\
  drops (enroll (after_ensure E s)) = drops (enroll s).
Proof. by destruct (after_ensure_frame E s) as [_ ->]. Qed.

Section observe.
Context (E : env) `{!EnvOk E} (Hkr : kernel_reads E).

(** The openat tracepoint of an enrolled process submits one record, or counts
    one drop; the record decodes to an open event with the process's identity, the
    flags and the path it passed. *)
Theorem openat_observed ctx s b p :
  enrolled E s -> scratch_buf E s b -> reads_path E (arg ctx 1) p -> p <> [] ->
  observed_as E (action_event E EVENT_OPEN 0 NoAddr 0 (u32 (arg ctx 2)) p []) s
    (state_of (handle_openat ctx) E s).
Proof.
  intros He Hb Hr Hne. unfold state_of. pose proof (reads_path_length E _ _ Hr).
  pose proof (reads_path_no_nul E _ _ Hr). pose proof Hb as [_ Hl].
  destruct (handle_openat_run E Hkr ctx s b p He Hb Hr Hne) as (cp & _ & _ & ->).
  eexists. split; [apply output_submitted; cbn; apply after_ensure_events|].
  rewrite <- (Z.mod_mod (arg ctx 2) (2 ^ 32)) at 2 by done.
  by apply (open_record_roundtrip E (u32 (arg ctx 2))).
Qed.

(** The unlinkat tracepoint of an enrolled process submits one record, or
    counts one drop; the record decodes to an unlink event with the path. *)
Theorem unlinkat_observed ctx s b p :
  enrolled E s -> scratch_buf E s b -> reads_path E (arg ctx 1) p -> p <> [] ->
  observed_as E (action_event E EVENT_UNLINK 0 NoAddr 0 0 p []) s
    (state_of (handle_unlinkat ctx) E s).
Proof.
  intros He Hb Hr Hne. unfold state_of. pose proof (reads_path_length E _ _ Hr).
  pose proof (reads_path_no_nul E _ _ Hr). pose proof Hb as [_ Hl].
  destruct (handle_unlinkat_run E Hkr ctx s b p He Hb Hr Hne) as (cp & _ & _ & ->).
  eexists. split; [apply output_submitted; cbn; apply after_ensure_events|].
  by apply unlink_record_roundtrip.
Qed.

(** The renameat2 tracepoint of an enrolled process submits one record, or
    counts one drop; the record decodes to a rename event with both paths. *)
Theorem renameat2_observed ctx s b p1 p2 :
  enrolled E s -> scratch_buf E s b ->
  is_Some (pc_lookup (cpu E) 0 (pending_rename_cpu (enroll s))) ->
  reads_path E (arg ctx 1) p1 -> p1 <> [] -> reads_path E (arg ctx 3) p2 -> p2 <> [] ->
  observed_as E (action_event E EVENT_RENAME 0 NoAddr 0 0 p1 p2) s
    (state_of (handle_renameat2 ctx) E s).
Proof.
  intros He Hb Hcpu Hr1 Hn1 Hr2 Hn2. unfold state_of. pose proof Hb as [_ Hl].
  pose proof (reads_path_length E _ _ Hr1). pose proof (reads_path_no_nul E _ _ Hr1).
  pose proof (reads_path_length E _ _ Hr2). pose proof (reads_path_no_nul E _ _ Hr2).
  destruct (handle_renameat2_run E Hkr ctx s b p1 p2 He Hb Hcpu Hr1 Hn1 Hr2 Hn2)
    as (c1 & c2 & _ & _ & _ & _ & ->).
  eexists. split; [apply output_submitted; cbn; apply after_ensure_events|].
  by apply rename_record_roundtrip.
Qed.

(** The connect tracepoint of an enrolled process submits, for an IPv4 socket
    address, one record, or counts one drop; the record decodes to a connect event
    with the address and the host-order port. *)
Theorem connect4_observed ctx s b hi lo a :
  enrolled E s -> scratch_buf E s b -> is_byte hi -> is_byte lo -> length a = 4%nat ->
  reads_bytes E (arg ctx 1) 2 (le_bytes 2 AF_INET) ->
  reads_bytes E (arg ctx 1) 8 (sockaddr4 hi lo a) ->
  observed_as E (action_event E EVENT_CONNECT AF_INET (V4 a) (256 * hi + lo) 0 [] []) s
    (state_of (handle_connect ctx) E s).
Proof.
  intros He Hb Hhi Hlo Hla Hr2 Hr8. unfold state_of. pose proof Hb as [_ Hl].
  rewrite (handle_connect_run4 E ctx s b _ _ He Hb Hr2 eq_refl Hr8).
  destruct (sockaddr4_fields hi lo a Hla) as [-> ->].
  rewrite (ConnectVerdict.enroll_port_be hi lo Hhi Hlo).
  eexists. split; [apply output_submitted; cbn; apply after_ensure_events|].
  rewrite <- (decoded_addr_4 a Hla).
  apply connect_record_roundtrip; [done|done|unfold is_byte in *; lia|by left].
Qed.

(** The connect tracepoint of an enrolled process submits, for an IPv6 socket
    address, one record, or counts one drop; the record decodes to a connect event
    with the address and the host-order port. *)
Theorem connect6_observed ctx s b hi lo flow a scope :
  enrolled E s -> scratch_buf E s b -> is_byte hi -> is_byte lo ->
  length flow = 4%nat -> length a = 16%nat -> length scope = 4%nat ->
  reads_bytes E (arg ctx 1) 2 (le_bytes 2 AF_INET6) ->
  reads_bytes E (arg ctx 1) 28 (sockaddr6 hi lo flow a scope) ->
  observed_as E (action_event E EVENT_CONNECT AF_INET6 (V6 a) (256 * hi + lo) 0 [] []) s
    (state_of (handle_connect ctx) E s).
Proof.
  intros He Hb Hhi Hlo Hlf Hla Hls Hr2 Hr8. unfold state_of. pose proof Hb as [_ Hl].
  rewrite (handle_connect_run6 E ctx s b _ _ He Hb Hr2 eq_refl Hr8).
  destruct (sockaddr6_fields hi lo flow a scope Hlf Hla) as [-> ->].
  rewrite (ConnectVerdict.enroll_port_be hi lo Hhi Hlo).
  eexists. split; [apply output_submitted; cbn; apply after_ensure_events|].
  rewrite <- (decoded_addr_16 a Hla).
  apply connect_record_roundtrip; [done|done|unfold is_byte in *; lia|by right].
Qed.

(** ** Process lifecycle *)

(** A record that is only a header: the fields that were stored, zero otherwise. *)
Definition lifecycle_event (ty ts start cg pid ppid uid : Z) (comm : list Z) : event.Event :=
  event.mk_Event ts start cg pid ppid uid ty (cstr comm) [] [] [] 0 NoAddr 0 0 [] [].

Lemma parse_header ty e :
  length e = EVENT_HEADER_SIZE -> load enroll_event.event_type e = ty ->
  ty = EVENT_FORK \/ ty = EVENT_EXIT ->
  event.Parse e = Some (lifecycle_event ty (load enroll_event.timestamp_ns e)
    (load enroll_event.start_time_ns e) (load enroll_event.cgroup_id e) (load enroll_event.pid e)
    (load enroll_event.ppid e) (load enroll_event.uid e) (slice enroll_event.comm 16 e)).
Proof.
  intros Hl Hty Hor. unfold event.Parse. rewrite Hl, Hty.
  change (EVENT_HEADER_SIZE <? EVENT_HEADER_SIZE)%nat with false. cbn iota. cbv zeta.
  by destruct Hor as [-> | ->].
Qed.

Lemma load_zeros f n : (f_off f + f_width f <= n)%nat -> load f (zeros n) = 0.
Proof. intros. unfold load. rewrite slice_zeros by done. apply le_val_zeros. Qed.

Lemma u32_current_uid : u32 (current_uid E) = current_uid E.
Proof. unfold current_uid, u32. by apply Z.mod_mod. Qed.

Lemma u32_u32 z : u32 (u32 z) = u32 z.
Proof. unfold u32. by apply Z.mod_mod. Qed.

(** The header [handle_fork] builds in a local. *)
Definition fork_header (child parent : Z) (cm : list Z) : list Z :=
  splice enroll_event.comm cm
    (store enroll_event.event_type EVENT_FORK
    (store enroll_event.uid (current_uid E)
    (store enroll_event.ppid parent
    (store enroll_event.pid child
    (store enroll_event.cgroup_id (bpf_get_current_cgroup_id E)
    (store enroll_event.timestamp_ns (bpf_ktime_get_ns E) (zeros EVENT_HEADER_SIZE))))))).

Definition exit_header (cm : list Z) : list Z :=
  splice enroll_event.comm cm
    (store enroll_event.event_type EVENT_EXIT
    (store enroll_event.pid (current_pid E)
    (store enroll_event.start_time_ns (read_task E 0 start_time (bpf_get_current_task E))
    (store enroll_event.timestamp_ns (bpf_ktime_get_ns E) (zeros EVENT_HEADER_SIZE))))).

Ltac header_tac Hc :=
  repeat first
    [ rewrite load_store_same by len_ge | rewrite load_store_other by read_side
    | rewrite load_splice_other by (rewrite ?Hc; read_side)
    | rewrite slice_splice_same' by (rewrite ?Hc; read_side)
    | rewrite load_zeros by layout_lia ].

Lemma parse_fork child parent cm :
  length cm = 16%nat ->
  event.Parse (fork_header (u32 child) (u32 parent) cm) =
  Some (lifecycle_event EVENT_FORK (u64 (bpf_ktime_get_ns E)) 0 (u64 (bpf_get_current_cgroup_id E))
    (u32 child) (u32 parent) (current_uid E) cm).
Proof.
  intros Hc. unfold fork_header. rewrite (parse_header EVENT_FORK).
  - header_tac Hc. cbn [f_width enroll_event.pid enroll_event.ppid enroll_event.uid].
    change (2 ^ (8 * Z.of_nat 4)) with (2 ^ 32). fold (u32 (u32 child)) (u32 (u32 parent)).
    fold (u32 (current_uid E)). by rewrite !u32_u32, u32_current_uid.
  - repeat first [apply length_store_eq; [layout_lia|] | apply length_splice_eq; [rewrite Hc; layout_lia|]].
    apply length_zeros.
  - header_tac Hc. done.
  - by left.
Qed.

Lemma parse_exit cm :
  length cm = 16%nat ->
  event.Parse (exit_header cm) =
  Some (lifecycle_event EVENT_EXIT (u64 (bpf_ktime_get_ns E))
    (u64 (read_task E 0 start_time (bpf_get_current_task E))) 0 (current_pid E) 0 0 cm).
Proof.
  intros Hc. unfold exit_header. rewrite (parse_header EVENT_EXIT).
  - header_tac Hc. cbn [f_width enroll_event.pid]. change (2 ^ (8 * Z.of_nat 4)) with (2 ^ 32).
    fold (u32 (current_pid E)). by rewrite u32_current_pid.
  - repeat first [apply length_store_eq; [layout_lia|] | apply length_splice_eq; [rewrite Hc; layout_lia|]].
    apply length_zeros.
  - header_tac Hc. done.
  - by right.
Qed.

(** A record built from the environment is submitted as the last step. *)
Lemma output_last (e : env -> list Z) s st :
  events (enroll st) = events (enroll s) -> drops (enroll st) = drops (enroll s) ->
  submitted E (e E) s (state_of (e ← ask e; _ ← ringbuf_output e; mret (A := Z) 0) E st).
Proof.
  intros He Hd. rewrite state_of_bind. change (state_of (ask e) E st) with st.
  change (ret_of (ask e) E st) with (e E). rewrite state_of_bind.
  destruct (ringbuf_output_run E (e E) st) as [rc Hrc]. unfold state_of at 2. rewrite Hrc.
  by apply output_submitted.
Qed.

(** The fork tracepoint submits one record, or counts one drop, whatever the
    tags; the record decodes to a fork event with both pids. *)
Theorem fork_observed ctx s :
  observed_as E (lifecycle_event EVENT_FORK (u64 (bpf_ktime_get_ns E)) 0
      (u64 (bpf_get_current_cgroup_id E)) (u32 (child_pid ctx)) (u32 (parent_pid ctx))
      (current_uid E) (bpf_probe_read_kernel E (child_comm ctx) 16).2) s
    (state_of (handle_fork ctx) E s).
Proof.
  eexists. split; [|apply parse_fork; apply (probe_read_kernel_length (E := E))].
  unfold handle_fork. rewrite state_of_bind, state_of_bind, state_of_bind.
  apply (output_last (fun E => _)).
  - by destruct (ret_of (is_tagged_pid _) E _).
  - by destruct (ret_of (is_tagged_pid _) E _).
Qed.

(** The exit tracepoint submits one record, or counts one drop, when the
    exiting thread is its group's leader, and changes nothing otherwise; the record
    decodes to an exit event. *)
Theorem exit_observed s :
  if current_tid E =? current_pid E
  then observed_as E (lifecycle_event EVENT_EXIT (u64 (bpf_ktime_get_ns E))
         (u64 (read_task E 0 start_time (bpf_get_current_task E))) 0 (current_pid E) 0 0
         (bpf_get_current_comm E)) s (state_of handle_exit E s)
  else state_of handle_exit E s = s.
Proof.
  unfold handle_exit. rewrite state_of_bind, state_of_bind.
  change (ret_of (ask current_tid) E _) with (current_tid E).
  change (ret_of (ask current_pid) E _) with (current_pid E).
  destruct (current_tid E =? current_pid E); [|done]. cbn [negb].
  eexists. split; [|apply parse_exit; apply comm_length].
  by apply (output_last (fun E => _)).
Qed.

(** ** Exec *)

(** The bytes of an argv or environment region the record carries. *)
Definition region (mx start stop : Z) : list Z :=
  if stop <=? start then [] else
  let n := stop - start in
  let n := if mx <? n then mx else n in
  let r := bpf_probe_read_user E start (Z.to_nat n) in
  if (r.1 : bool) then r.2 else [].

Lemma length_region mx start stop : 0 < mx -> Z.of_nat (length (region mx start stop)) <= mx.
Proof.
  intros Hm. unfold region. destruct (Z.leb_spec stop start); [cbn; lia|]. cbv zeta.
  destruct (bpf_probe_read_user E start _).1; [|cbn; lia].
  rewrite (probe_read_user_length (E := E)). destruct (Z.ltb_spec mx (stop - start)); lia.
Qed.

Lemma load_slice f b b' : slice (f_off f) (f_width f) b = slice (f_off f) (f_width f) b' -> load f b = load f b'.
Proof. unfold load. by intros ->. Qed.

(** The header region ends at 64; a copy goes past it and stores its length. *)
Lemma copy_region_spec off f mx start stop b s :
  length b = EVENT_RECORD_SIZE -> (64 <= off)%nat -> (off + Z.to_nat mx <= EVENT_RECORD_SIZE)%nat ->
  0 < mx <= 512 -> (f_off f + 2 <= 44)%nat -> (38 <= f_off f)%nat -> f_width f = 2%nat -> load f b = 0 ->
  let b' := (copy_region off f mx start stop b E s).1 in
  (copy_region off f mx start stop b E s).2 = s /\ length b' = EVENT_RECORD_SIZE /\
  load f b' = Z.of_nat (length (region mx start stop)) /\
  slice off (length (region mx start stop)) b' = region mx start stop /\
  header_fields b' = header_fields b /\
  (forall g, disjoint_fields g f -> (f_off g + f_width g <= 64)%nat -> load g b' = load g b) /\
  (forall o n, (64 <= o)%nat -> (o + n <= off \/ off + Z.to_nat mx <= o)%nat -> slice o n b' = slice o n b).
Proof.
  intros Hb Ho Hm Hmx Hf1 Hf2 Hfw Hl0. cbv zeta. unfold copy_region, region.
  destruct (Z.leb_spec stop start); [split_and!; try done; intros; unfold slice; by rewrite take_0|].
  unfold mbind, prog_bind, ask, mret, prog_ret. cbv zeta. cbn [fst snd].
  set (n := if mx <? stop - start then mx else stop - start).
  assert (0 < n <= mx) as Hn by (subst n; destruct (Z.ltb_spec mx (stop - start)); lia).
  pose proof (probe_read_user_length (E := E) start (Z.to_nat n)) as Hr.
  destruct (bpf_probe_read_user E start (Z.to_nat n)) as [ok r]. cbn [fst snd] in *.
  assert (length (splice off r b) = EVENT_RECORD_SIZE) as Hs by (apply length_splice_eq; [lia|done]).
  assert (forall g, (f_off g + f_width g <= 64)%nat -> load g (splice off r b) = load g b) as Hg.
  { intros g Hgo. apply load_splice_other; lia. }
  assert (header_fields (splice off r b) = header_fields b) as Hh
    by (apply header_fields_splice; lia).
  assert (forall o k, (64 <= o)%nat -> (o + k <= off \/ off + Z.to_nat mx <= o)%nat ->
            slice o k (splice off r b) = slice o k b) as Hsl.
  { intros o k H1 H2. apply slice_splice_other; lia. }
  destruct ok; split_and!; try done.
  - apply length_store_eq; [rewrite Hfw; layout_lia|done].
  - rewrite load_store_same by layout_lia. rewrite Hfw, Hr. change (2 ^ (8 * Z.of_nat 2)) with (2 ^ 16).
    fold (u16 (u16 n)). unfold u16. rewrite Z.mod_mod, Z.mod_small by lia. lia.
  - rewrite slice_store_other by layout_lia. rewrite slice_splice_same; [done|layout_lia].
  - rewrite header_fields_store; [done|lia|layout_lia].
  - intros g Hd Hgo. rewrite load_store_other by (done || layout_lia). by apply Hg.
  - intros o k H1 H2. rewrite slice_store_other by layout_lia. by apply Hsl.
  - by rewrite Hg by lia.
  - intros g _ Hgo. by apply Hg.
Qed.

Lemma exec_header_load b g :
  length b = EVENT_RECORD_SIZE -> (38 <= f_off g)%nat -> (f_off g + f_width g <= 44)%nat ->
  load g (store_header E EVENT_EXEC (splice 0 (zeros EVENT_HEADER_SIZE) b)) = 0.
Proof.
  intros Hb H1 H2. pose proof (comm_length (E := E)) as Hc. unfold store_header. cbv zeta.
  unfold EVENT_RECORD_SIZE in Hb.
  rewrite load_splice_other by (rewrite ?Hc; first [len_ge|layout_lia]).
  repeat rewrite load_store_other by first [len_ge|unfold disjoint_fields; layout_lia].
  unfold load. rewrite slice_splice_inside by (rewrite ?length_zeros; layout_lia).
  rewrite slice_zeros by layout_lia. apply le_val_zeros.
Qed.

(** The file name as the kernel string helper read it. *)
Definition exec_name (f : Z * list Z) : list Z := if 0 <? f.1 then cstr f.2 else [].

Definition exec_buf (f : Z * list Z) (b : list Z) : list Z :=
  let b1 := splice EVENT_HEADER_SIZE f.2
              (store_header E EVENT_EXEC (splice 0 (zeros EVENT_HEADER_SIZE) b)) in
  if 0 <? f.1 then
    store enroll_event.filename_len (if MAX_FILENAME <=? f.1 then MAX_FILENAME else u16 f.1) b1
  else b1.

Lemma exec_buf_spec f b :
  length b = EVENT_RECORD_SIZE -> str_read_ok 256 f ->
  let b2 := exec_buf f b in
  length b2 = EVENT_RECORD_SIZE /\
  header_fields b2 = header_fields (store_header E EVENT_EXEC (splice 0 (zeros EVENT_HEADER_SIZE) b)) /\
  load enroll_event.argv_len b2 = 0 /\ load enroll_event.env_len b2 = 0 /\
  0 <= load enroll_event.filename_len b2 <= 256 /\
  cstr (slice 64 (Z.to_nat (load enroll_event.filename_len b2)) b2) = exec_name f.
Proof.
  intros Hb [Hfl Hf]. cbv zeta. unfold exec_buf, exec_name.
  set (b0 := store_header _ _ _).
  assert (length b0 = EVENT_RECORD_SIZE) as H0.
  { subst b0. assert (length (splice 0 (zeros EVENT_HEADER_SIZE) b) = EVENT_RECORD_SIZE) as Hl.
    { apply length_splice_eq; [rewrite length_zeros; layout_lia|done]. }
    rewrite (length_store_header E); layout_lia. }
  pose proof (exec_header_load b) as Hz. fold b0 in Hz.
  assert (length (splice EVENT_HEADER_SIZE f.2 b0) = EVENT_RECORD_SIZE) as H1
    by (apply length_splice_eq; layout_lia).
  assert (forall g, (f_off g + f_width g <= 64)%nat -> load g (splice EVENT_HEADER_SIZE f.2 b0) = load g b0) as Hg.
  { intros g Hgo. apply load_splice_other; layout_lia. }
  assert (header_fields (splice EVENT_HEADER_SIZE f.2 b0) = header_fields b0) as Hh
    by (apply header_fields_splice; layout_lia).
  destruct (Z.ltb_spec 0 f.1) as [Hpos|Hneg].
  - destruct (Hf Hpos) as (p & Hp & Hr & Hnz). unfold MAX_FILENAME.
    assert ((if 256 <=? f.1 then 256 else u16 f.1) = f.1) as ->.
    { unfold u16. destruct (Z.leb_spec 256 f.1); [lia|]. by rewrite Z.mod_small by lia. }
    unfold EVENT_RECORD_SIZE in *. rewrite load_store_same by len_ge.
    change (2 ^ (8 * Z.of_nat (f_width enroll_event.filename_len))) with (2 ^ 16).
    rewrite (Z.mod_small f.1) by lia.
    split_and!; [by apply length_store_eq; [layout_lia|]| | | |lia|lia|].
    + rewrite header_fields_store; [done|layout_lia|layout_lia].
    + rewrite load_store_other, Hg by first [disjoint|layout_lia]. apply Hz; layout_lia.
    + rewrite load_store_other, Hg by first [disjoint|layout_lia]. apply Hz; layout_lia.
    + rewrite slice_store_other by layout_lia. rewrite <- Hr, Nat2Z.id.
      change 64%nat with EVENT_HEADER_SIZE. by rewrite slice_splice_same by layout_lia.
  - rewrite !Hg by layout_lia. rewrite !Hz by (done || layout_lia).
    by split_and!.
Qed.

(** The event an exec record decodes to. *)
Definition exec_event (name argv envp : list Z) : event.Event :=
  let task := bpf_get_current_task E in
  event.mk_Event (u64 (bpf_ktime_get_ns E)) (u64 (read_task E 0 start_time task))
    (u64 (bpf_get_current_cgroup_id E)) (current_pid E)
    (u32 (read_task E 0 tgid (read_task E 0 real_parent task))) (current_uid E) EVENT_EXEC
    (cstr (bpf_get_current_comm E)) name (event.splitNul argv) (event.splitNul envp)
    0 NoAddr 0 0 [] [].

Definition exec_argv : list Z :=
  match read_task E None mm (bpf_get_current_task E) with
  | Some m => region MAX_ARGV (arg_start m) (arg_end m)
  | None => []
  end.

Definition exec_env : list Z :=
  match read_task E None mm (bpf_get_current_task E) with
  | Some m => region MAX_ENV (env_start m) (env_end m)
  | None => []
  end.

Lemma sliceBytes_region b off r mx :
  (off + Z.to_nat mx <= length b)%nat -> Z.of_nat (length r) <= mx ->
  slice off (length r) b = r -> event.sliceBytes b off (Z.of_nat (length r)) mx = r.
Proof.
  intros Hb Hm Hs. unfold event.sliceBytes. destruct (Z.leb_spec (Z.of_nat (length r)) 0).
  { by destruct r; [|cbn in *; lia]. }
  replace (mx <? Z.of_nat (length r)) with false by lia. cbv zeta. rewrite Nat2Z.id.
  destruct (Nat.ltb_spec (length b) (off + length r)); [lia|done].
Qed.

Lemma parse_exec b b0 name argv envp :
  length b = EVENT_RECORD_SIZE -> (64 <= length b0)%nat ->
  header_fields b = header_fields (store_header E EVENT_EXEC b0) ->
  0 <= load enroll_event.filename_len b <= 256 ->
  cstr (slice 64 (Z.to_nat (load enroll_event.filename_len b)) b) = name ->
  load enroll_event.argv_len b = Z.of_nat (length argv) -> Z.of_nat (length argv) <= MAX_ARGV ->
  slice 320 (length argv) b = argv ->
  load enroll_event.env_len b = Z.of_nat (length envp) -> Z.of_nat (length envp) <= MAX_ENV ->
  slice 832 (length envp) b = envp ->
  event.Parse (take EVENT_RECORD_SIZE b) = Some (exec_event name argv envp).
Proof.
  intros Hb Hb0 Hh Hfn Hname Hal Ham Has Hel Hem Hes.
  rewrite header_fields_store_header in Hh by done.
  unfold header_fields in Hh. injection Hh as Ht1 Ht2 Ht3 Ht4 Ht5 Ht6 Ht7 Ht8.
  rewrite take_ge by lia. unfold event.Parse. rewrite Hb.
  change (EVENT_RECORD_SIZE <? EVENT_HEADER_SIZE)%nat with false. cbn iota. cbv zeta.
  rewrite Hal, Hel, Ht1, Ht2, Ht3, Ht4, Ht5, Ht6, Ht7, Ht8.
  change (u8 EVENT_EXEC =? EVENT_EXEC) with true. cbn iota.
  change (EVENT_RECORD_SIZE <? EVENT_RECORD_SIZE)%nat with false. cbn iota.
  rewrite !sliceBytes_region by (done || (rewrite Hb; unfold MAX_ARGV, MAX_ENV; layout_lia)).
  unfold exec_event. do 2 f_equal. subst name. unfold event.sliceStr, event.sliceBytes, MAX_FILENAME.
  destruct (Z.leb_spec (load enroll_event.filename_len b) 0).
  { replace (load enroll_event.filename_len b) with 0 by lia. unfold slice. by rewrite take_0. }
  replace (256 <? _) with false by lia. cbv zeta. rewrite Hb.
  destruct (Nat.ltb_spec EVENT_RECORD_SIZE (64 + Z.to_nat (load enroll_event.filename_len b)));
    [layout_lia|done].
Qed.

(** Both copies of [handle_exec], argv then the environment. *)
Lemma exec_copies_spec (m : option mm_struct) b s :
  length b = EVENT_RECORD_SIZE -> load enroll_event.argv_len b = 0 ->
  load enroll_event.env_len b = 0 ->
  let argv := match m with Some m => region MAX_ARGV (arg_start m) (arg_end m) | None => [] end in
  let envp := match m with Some m => region MAX_ENV (env_start m) (env_end m) | None => [] end in
  exists b', (match m with
    | None => mret b
    | Some m =>
        b ← copy_region 320 enroll_event.argv_len MAX_ARGV (arg_start m) (arg_end m) b;
        copy_region 832 enroll_event.env_len MAX_ENV (env_start m) (env_end m) b
    end) E s = (b', s) /\
  length b' = EVENT_RECORD_SIZE /\ header_fields b' = header_fields b /\
  load enroll_event.filename_len b' = load enroll_event.filename_len b /\
  (forall n, (n <= 256)%nat -> slice 64 n b' = slice 64 n b) /\
  load enroll_event.argv_len b' = Z.of_nat (length argv) /\ slice 320 (length argv) b' = argv /\
  load enroll_event.env_len b' = Z.of_nat (length envp) /\ slice 832 (length envp) b' = envp.
Proof.
  intros Hb Ha He. destruct m as [m|]; cbv zeta.
  2: { exists b. split_and!; try done; by rewrite ?Ha, ?He. }
  destruct (copy_region_spec 320 enroll_event.argv_len MAX_ARGV (arg_start m) (arg_end m) b s)
    as (Hs1 & Hl1 & Hn1 & Hr1 & Hh1 & Hg1 & Ho1);
    [done|lia|unfold MAX_ARGV; layout_lia|unfold MAX_ARGV; lia|layout_lia|layout_lia|done|done|].
  set (b1 := (copy_region 320 _ _ _ _ b E s).1) in *.
  destruct (copy_region_spec 832 enroll_event.env_len MAX_ENV (env_start m) (env_end m) b1 s)
    as (Hs2 & Hl2 & Hn2 & Hr2 & Hh2 & Hg2 & Ho2);
    [done|lia|unfold MAX_ENV; layout_lia|unfold MAX_ENV; lia|layout_lia|layout_lia|done| |].
  { rewrite Hg1 by first [disjoint|layout_lia]. done. }
  set (b2 := (copy_region 832 _ _ _ _ b1 E s).1) in *.
  pose proof (length_region MAX_ARGV (arg_start m) (arg_end m) ltac:(done)) as Hla. unfold MAX_ARGV in Hla.
  exists b2. split_and!; try done.
  - unfold mbind, prog_bind. cbv zeta. fold b1. rewrite Hs1, (surjective_pairing (copy_region 832 _ _ _ _ b1 E s)).
    by rewrite Hs2.
  - congruence.
  - rewrite Hg2, Hg1 by first [disjoint|layout_lia]. done.
  - intros n Hn. rewrite Ho2, Ho1 by lia. done.
  - rewrite Hg2 by first [disjoint|layout_lia]. done.
  - rewrite Ho2 by (unfold MAX_ARGV in *; lia). done.
Qed.

(** C32. What the agent decodes of an exec is what happened: the exec tracepoint of
    any process, given its scratch buffer, submits one record, or counts one drop
    when the ring buffer has no room; the record decodes to an exec event with the
    time and the start time, cgroup, pid, parent, user and command name of the
    process, the file name the kernel's record points to (empty when it cannot be
    read), and the argument and environment regions of the new image, cut at their
    bounds and split at their NUL bytes (empty without an image or when they cannot
    be read). *)
Theorem exec_observed ctx s b :
  scratch_buf E s b ->
  observed_as E (exec_event
      (exec_name (bpf_probe_read_kernel_str E
         (exec_ctx_addr ctx + Z.land (data_loc_filename ctx) 0xFFFF) 256))
      exec_argv exec_env) s
    (state_of (handle_exec ctx) E s).
Proof.
  intros [Hsb Hb]. set (f := bpf_probe_read_kernel_str E _ 256).
  pose proof (probe_read_kernel_str_ok (E := E) (exec_ctx_addr ctx + Z.land (data_loc_filename ctx) 0xFFFF)
    256 ltac:(lia)) as Hf. fold f in Hf.
  destruct (exec_buf_spec f b Hb Hf) as (Hl2 & Hh2 & Ha2 & He2 & Hn2 & Hname).
  destruct (exec_copies_spec (read_task E None mm (bpf_get_current_task E)) (exec_buf f b) s Hl2 Ha2 He2)
    as (b' & Hrun & Hl & Hh & Hn & Hfs & Ha & Has & He & Hes).
  assert (handle_exec ctx E s = (0, output E (take EVENT_RECORD_SIZE b') (set_scratch_buf E b' s))) as Hex.
  { unfold handle_exec. cbv zeta.
    erewrite run_bind by (unfold lookup_scratch, this_cpu; rewrite Hsb; done). cbn beta iota.
    erewrite run_bind by done. erewrite run_bind by done. erewrite run_bind by done. cbn beta. fold f.
    change (if 0 <? f.1 then _ else _) with (exec_buf f b).
    erewrite run_bind by apply Hrun. erewrite run_bind by done.
    destruct (ringbuf_output_run E (take EVENT_RECORD_SIZE b') (set_scratch_buf E b' s)) as [rc Hrc].
    by erewrite run_bind by apply Hrc. }
  unfold state_of. rewrite Hex. cbn [snd]. eexists. split; [by apply output_submitted|].
  eapply parse_exec; [done| |by rewrite Hh, Hh2|by rewrite Hn| |done| |done|done| |done].
  - rewrite length_splice; rewrite ?length_zeros, ?Hb; layout_lia.
  - rewrite Hn, Hfs by lia. done.
  - unfold exec_argv. destruct (read_task E None mm _); [by apply length_region|done].
  - unfold exec_env. destruct (read_task E None mm _); [by apply length_region|done].
Qed.
End observe.
