(* ===== verification/Pipeline.v ===== *)
(** * Pipeline: from the syscall's arguments to the enforcer's answer

    A syscall of an enrolled process runs its enroll tracepoint, which stages the
    arguments, then - after any steps of other processes - its [fmod_ret] hook,
    which decides on what was staged.  The theorems relate the answer to the
    policy and to the arguments the process passed. *)

From S2P Require Import Prelude Types Bpf State Logic.
From S2P Require Enforcer Enroll.
From S2P Require Import Gate PathVerdict Hooks Records Machine Staging Formats ConnectVerdict.

Lemma wf_scratch_buf n E s :
  wf n s -> (cpu E < n)%nat -> exists b, scratch_buf E s b.
Proof.
  intros Hwf Hc. destruct (pc_shape_lookup n 1 _ (cpu E) 0 _ (wf_scratch _ _ Hwf) Hc) as (b & Hb & Hl);
    [lia|]. by exists b.
Qed.

Lemma wf_scratch_ready n E s : wf n s -> (cpu E < n)%nat -> scratch_ready E s.
Proof.
  intros Hwf Hc. split.
  - destruct (pc_shape_lookup n 1 _ (cpu E) 0 _ (wf_key _ _ Hwf) Hc) as (k & Hk & _); [lia|].
    by exists k.
  - destruct (pc_shape_lookup n 1 _ (cpu E) 0 _ (wf_path _ _ Hwf) Hc) as (p & Hp & Hl); [lia|].
    by exists p.
Qed.

Lemma wf_rename_entry n E s :
  wf n s -> (cpu E < n)%nat -> is_Some (pc_lookup (cpu E) 0 (pending_rename_cpu (enroll s))).
Proof.
  intros Hwf Hc.
  destruct (pc_shape_lookup n 1 _ (cpu E) 0 _ (wf_rename_cpu _ _ Hwf) Hc) as (k & Hk & _); [lia|].
  by exists k.
Qed.

(** Low bits survive the casts of a flags argument. *)
Lemma land_mod_pow2 z m k : 0 <= k -> 0 <= m < 2 ^ k -> Z.land (z mod 2 ^ k) m = Z.land z m.
Proof.
  intros Hk Hm. apply Z.bits_inj'. intros i Hi. rewrite !Z.land_spec.
  destruct (Z.ltb_spec i k).
  - by rewrite Z.mod_pow2_bits_low by lia.
  - assert (Z.testbit m i = false) as ->; [|by rewrite !andb_false_r].
    rewrite <- (Z.mod_small m (2 ^ k)) by done. apply Z.mod_pow2_bits_high. lia.
Qed.

Lemma land_u32 z m : 0 <= m < 2 ^ 16 -> Z.land (u32 z) m = Z.land z m.
Proof. intros. apply land_mod_pow2; lia. Qed.

Lemma land_u16_u32 z m : 0 <= m < 2 ^ 16 -> Z.land (u16 (u32 z)) m = Z.land z m.
Proof. intros. unfold u16. rewrite land_mod_pow2 by lia. by apply land_u32. Qed.

Section live.
Context `{L : LpmTrie}.

(** A gated hook of an enrolled process while enforcement is live: the body runs
    on a state that differs in counters and in tags only. *)
Lemma live_entry fs ds body E s :
  active s = true -> enrolled E s ->
  exists s', gated fs ds body E s = body (current_pid E) E s' /\
    pol_eq (enforcer s') (enforcer s) /\
    deny_verdicts (enforcer s') = deny_verdicts (enforcer s) /\
    (scratch_ready E s -> scratch_ready E s') /\
    exists t, enroll s' = set_tagged_pids (enroll s) t.
Proof.
  intros Ha He. destruct (gated_run fs ds body E s) as [(H & _)|[(_ & H & _)|[(H & _)|(_ & _ & H)]]];
    [by rewrite Ha in H|done|by rewrite Ha in H|].
  destruct (bump_quiet E fs s) as [Hq1 Hq2 Hq3 Hq4].
  destruct (after_ensure_frame E (bump E fs s)) as [Hf1 Hf2].
  eexists. split; [done|]. rewrite Hf1. split_and!; [done|done| |].
  - intros Hr. unfold scratch_ready. rewrite Hf1. by apply Hq4.
  - rewrite Hf2, Hq1. by eexists.
Qed.
End live.

(** ** The answer to a path syscall *)

(** The denial as the agent reads it from the ring: rule, process and path. *)
Definition reported (E : env) (v h : Z) (p : list Z) (vs vs' : list (list Z)) : Prop :=
  match bpf_ringbuf_reserve E with
  | None => vs' = vs
  | Some _ => exists rec, vs' = vs ++ [rec] /\
      deny.Parse rec = Some (deny.mk_Verdict (u64 (bpf_ktime_get_ns E)) (current_pid E) (u32 h)
                               v p NoAddr 0)
  end.

(** The hook answers for path [p]: -EPERM with a report when the policy denies
    it, 0 and silence when it does not. *)
Definition answers (E : env) (m : enforcer_maps) (v : Z) (wi : bool) (p : list Z) (s : kstate)
    (r : Z * kstate) : Prop :=
  (r.1 = - EPERM /\ exists h, path_denied m v wi p h /\
     reported E v h p (deny_verdicts (enforcer s)) (deny_verdicts (enforcer r.2))) \/
  (r.1 = 0 /\ (~ exists h, path_denied m v wi p h) /\
     deny_verdicts (enforcer r.2) = deny_verdicts (enforcer s)).

Lemma bump_verdicts E i s : deny_verdicts (enforcer (bump E i s)) = deny_verdicts (enforcer s).
Proof. by destruct (bump_quiet E i s). Qed.

Lemma reported_push E `{!EnvOk E} v h buf src p s :
  kernel_reads E -> 0 <= v < 256 -> length buf = 256%nat -> take 255 buf = take 255 src ->
  holds src p -> Forall (fun b => b <> 0) p -> (1 <= length p <= 255)%nat ->
  reported E v h p (deny_verdicts (enforcer s))
    (deny_verdicts (enforcer (push_verdict E v h (Some buf) (Z.of_nat (length p)) None 0 0 s))).
Proof.
  intros Hk Hv Hb Ht Hh Hnz Hl. rewrite push_verdict_emitted. unfold reported, emitted.
  destruct (bpf_ringbuf_reserve E) as [g|] eqn:Hg; [|by rewrite app_nil_r].
  eexists. split; [done|]. rewrite deny_parse_path; [|done|done| |done|].
  - rewrite Ht, (holds_cstr src p) by (done || lia). unfold u8. by rewrite Z.mod_small.
  - by apply (ringbuf_reserve_length (E := E)).
  - unfold Enforcer.valid_path_len, MAX_PATH. lia.
Qed.

Lemma holds_length (buf p : list Z) :
  holds buf p -> length buf = 256%nat -> (length p <= 255)%nat.
Proof.
  unfold holds. intros H Hb. apply (f_equal length) in H. rewrite length_take, length_app in H.
  cbn in H. lia.
Qed.

Lemma holds_staged (buf p : list Z) :
  holds buf p -> length buf = 256%nat -> p <> [] ->
  staged_path buf (Z.of_nat (length p)) /\ (1 <= length p <= 255)%nat.
Proof.
  intros Hh Hb Hne. pose proof (holds_length _ _ Hh Hb).
  assert (1 <= length p)%nat by (destruct p; cbn; [done|lia]).
  split; [|lia]. split; [done|]. unfold Enforcer.valid_path_len, MAX_PATH. lia.
Qed.

(** What the stores of a tracepoint leave behind. *)
Record left_by (E : env) (s s1 : kstate) : Prop := {
  lb_enforcer : enforcer s1 = enforcer s;
  lb_tags : tagged_pids (enroll s1) = tagged_pids (enroll (after_ensure E s))
}.

Lemma hash_update_ok_eq {V} k (v : V) m : hash_update true k v m !! k = Some v.
Proof. apply lookup_insert_eq. Qed.

Ltac left_by_tac :=
  intros ->;
  match goal with |- context [output ?E ?r ?st] =>
    let He := fresh in let Hen := fresh in
    destruct (output_frame E r st) as (He & ? & ? & Hen);
    split; [split; [rewrite He; cbn; apply after_ensure_frame|by rewrite Hen]
           |let Hok := fresh in intros Hok; rewrite Hen; cbn; rewrite Hok; apply hash_update_ok_eq]
  end.

Lemma open_left E s s1 r po b :
  s1 = output E r (stage_open E po (set_scratch_buf E b (after_ensure E s))) ->
  left_by E s s1 /\
  (map_update_ok E M_pending_open_paths = true ->
   pending_open_paths (enroll s1) !! current_pid E = Some po).
Proof. left_by_tac. Qed.

Lemma unlink_left E s s1 r po b :
  s1 = output E r (stage_unlink E po (set_scratch_buf E b (after_ensure E s))) ->
  left_by E s s1 /\
  (map_update_ok E M_pending_unlink_paths = true ->
   pending_unlink_paths (enroll s1) !! current_pid E = Some po).
Proof. left_by_tac. Qed.

Lemma rename_left E s s1 r pr b :
  s1 = output E r (stage_rename E pr (set_scratch_buf E b (after_ensure E s))) ->
  left_by E s s1 /\
  (map_update_ok E M_pending_rename_paths = true ->
   pending_rename_paths (enroll s1) !! current_pid E = Some pr).
Proof. left_by_tac. Qed.

Lemma connect_left E s s1 r pc b :
  s1 = output E r (stage_connect E pc (set_scratch_buf E b (after_ensure E s))) ->
  left_by E s s1 /\
  (map_update_ok E M_pending_connects = true ->
   pending_connects (enroll s1) !! current_pid E = Some pc).
Proof. left_by_tac. Qed.

(** ** The answer to a connect *)

Definition reported_connect (E : env) (h : Z) (a : list Z) (pt : Z) (vs vs' : list (list Z)) : Prop :=
  match bpf_ringbuf_reserve E with
  | None => vs' = vs
  | Some _ => exists rec, vs' = vs ++ [rec] /\
      deny.Parse rec = Some (deny.mk_Verdict (u64 (bpf_ktime_get_ns E)) (current_pid E) (u32 h)
                               VERDICT_CONNECT [] (decoded_addr a) pt)
  end.

Definition answers_connect `{L : LpmTrie} (E : env) (m : enforcer_maps) (a : list Z) (pt : Z)
    (s : kstate) (r : Z * kstate) : Prop :=
  match connect_verdict m a pt with
  | Some h => r.1 = - EPERM /\
      reported_connect E h a pt (deny_verdicts (enforcer s)) (deny_verdicts (enforcer r.2))
  | None => r.1 = 0 /\ deny_verdicts (enforcer r.2) = deny_verdicts (enforcer s)
  end.

Lemma reported_connect_push E `{!EnvOk E} h buf len pt s :
  (Z.to_nat len <= length buf)%nat -> 0 < len <= 16 -> 0 <= pt < 2 ^ 16 ->
  reported_connect E h (addr_of buf len) pt (deny_verdicts (enforcer s))
    (deny_verdicts (enforcer (push_verdict E VERDICT_CONNECT h None 0 (Some buf) len pt s))).
Proof.
  intros Hb Hl Hpt. rewrite push_verdict_emitted. unfold reported_connect, emitted.
  destruct (bpf_ringbuf_reserve E) as [g|] eqn:Hg; [|by rewrite app_nil_r].
  eexists. split; [done|]. apply deny_parse_connect; try done.
  by apply (ringbuf_reserve_length (E := E)).
Qed.

Section pipeline.
Context `{L : LpmTrie, !LpmTrieSpec L}.
Context (n : nat) (E1 E2 : env) `{!EnvOk E1, !EnvOk E2}.
Context (Hk1 : kernel_reads E1) (Hk2 : kernel_reads E2).
Context (Hpid : current_pid E2 = current_pid E1).
Context (Hc1 : (cpu E1 < n)%nat) (Hc2 : (cpu E2 < n)%nat).

(** [s1] is a state the tracepoint left behind, [s2] the one the hook finds. *)
Lemma hook_finds s s1 s2 :
  left_by E1 s s1 -> enrolled E1 s -> wf n s1 ->
  rtc (other_step (current_pid E1)) s1 s2 -> active s = true ->
  pol_eq (enforcer s2) (enforcer s) /\ active s2 = true /\ enrolled E2 s2 /\
  scratch_ready E2 s2 /\ frame_for (current_pid E1) s1 s2.
Proof.
  intros [Hef Ht] He Hwf Hr Ha. destruct (other_steps_frame n _ _ _ Hr Hwf) as [Hwf2 Hf].
  pose proof (fr_policy _ _ _ Hf) as Hp. rewrite Hef in Hp. split_and!; [done| | | |done].
  - by rewrite (active_pol _ _ Hp).
  - left. rewrite Hpid. apply (fr_tag _ _ _ Hf). unfold is_tagged. rewrite Ht.
    by apply ensure_tagged_enrolled.
  - by eapply wf_scratch_ready.
Qed.

(** From the run of a decision to its answer. *)
Lemma decision_answers m v wi src p i s3 s4 buf s2 r :
  0 <= v < 256 -> tries_functional m -> pol_eq (enforcer s3) m ->
  deny_verdicts (enforcer s3) = deny_verdicts (enforcer s2) ->
  holds src p -> length src = 256%nat -> p <> [] -> Forall (fun b => b <> 0) p ->
  take 255 buf = take 255 src -> length buf = 256%nat -> quiet E2 s3 s4 ->
  r = match path_verdict (enforcer s3) v wi (path_of src (Z.of_nat (length p))) with
      | Some h => (- EPERM, bump E2 i (push_verdict E2 v h (Some buf) (Z.of_nat (length p)) None 0 0 s4))
      | None => (0, s4)
      end ->
  answers E2 m v wi p s2 r.
Proof.
  intros Hv Hf Hp Hd Hh Hl Hne Hnz Ht Hb Hq ->. destruct (holds_staged _ _ Hh Hl Hne) as [_ Hlp].
  rewrite (holds_path_of _ _ Hh), (path_verdict_proper _ _ _ _ _ Hp).
  assert (deny_verdicts (enforcer s4) = deny_verdicts (enforcer s2)) as Hd4
    by (destruct Hq; congruence).
  destruct (path_verdict m v wi p) as [h|] eqn:Hpv.
  - left. split; [done|]. exists h. split; [by apply path_verdict_denied|].
    cbn [snd]. rewrite bump_verdicts, <- Hd4. by eapply reported_push.
  - right. split; [done|]. split; [|done]. intros [h Hh']. apply path_verdict_denied in Hh'; [|done].
    congruence.
Qed.

Lemma write_intent_staged flags :
  nonzero (Z.land (u16 (u32 flags)) O_ACCMODE) = nonzero (Z.land flags O_ACCMODE).
Proof. by rewrite land_u16_u32. Qed.

Lemma openat_run ctx s s2 p :
  wf n s -> tries_functional (enforcer s) -> active s = true -> enrolled E1 s ->
  map_update_ok E1 M_pending_open_paths = true ->
  reads_path E1 (arg ctx 1) p -> p <> [] ->
  rtc (other_step (current_pid E1)) (state_of (Enroll.handle_openat ctx) E1 s) s2 ->
  answers E2 (enforcer s) VERDICT_OPEN (nonzero (Z.land (arg ctx 2) O_ACCMODE)) p s2
    (Enforcer.enforce_openat_entry E2 s2).
Proof.
  intros Hwf Hf Ha He Hok Hr Hne Hsteps.
  pose proof (reads_path_no_nul E1 _ _ Hr) as Hnz.
  destruct (wf_scratch_buf n E1 s Hwf Hc1) as [b Hb].
  destruct (handle_openat_run E1 Hk1 ctx s b p He Hb Hr Hne) as (cp & Hcp & Hh & Hrun).
  pose proof (keeps_wf n E1 (H_openat ctx) s Hwf) as Hwf1. cbn [run_hook] in Hwf1.
  unfold state_of in Hsteps. rewrite Hrun in Hsteps, Hwf1. cbn [snd] in Hsteps, Hwf1.
  set (po := mk_pending_open _ _ _) in *.
  match type of Hsteps with rtc _ ?st _ =>
    destruct (open_left E1 s st _ _ _ eq_refl) as [Hleft Hpo] end.
  destruct (hook_finds _ _ _ Hleft He Hwf1 Hsteps Ha) as (Hp2 & Ha2 & He2 & Hs2 & Hfr).
  specialize (Hpo Hok). rewrite <- (fr_open _ _ _ Hfr) in Hpo.
  rewrite enforce_openat_entry_gated.
  destruct (live_entry STAT_OPENAT_FMOD STAT_OPENAT_DENY Enforcer.enforce_openat_from_pending
              E2 s2 Ha2 He2) as (s3 & -> & Hp3 & Hv3 & Hs3 & t & Hen3).
  rewrite Hpid.
  destruct (holds_staged _ _ Hh Hcp Hne) as [Hst _].
  destruct (openat_source_run E2 Hk2 s3 (current_pid E1) po) as (buf & s4 & Ht & Hbuf & Hq & Hrun2).
  { by apply Hs3. }
  { apply (tries_functional_proper (enforcer s)); [|done]. by rewrite Hp3, Hp2. }
  { apply open_source_own; [rewrite Hen3; cbn; apply Hpo|apply Hst]. }
  { done. }
  eapply decision_answers; [done|done| |done|done|done|done|done|done|done|done|].
  - by rewrite Hp3.
  - rewrite Hrun2. subst po. cbn [open_flags po_len po_path]. by rewrite write_intent_staged.
Qed.

(** C3. An openat of an enrolled process, end to end: when enforcement is live and
    the path is readable and not empty, the tracepoint stages it and, after any
    steps of other processes, the fmod_ret hook answers -EPERM exactly when the
    policy's longest deny rule on the path is not overridden by a more specific
    allow, and reports the rule, process and path in a record the agent decodes;
    otherwise it answers 0 and reports nothing. *)
Theorem openat_answers ctx s s2 p :
  wf n s -> tries_functional (enforcer s) -> active s = true -> enrolled E1 s ->
  map_update_ok E1 M_pending_open_paths = true ->
  reads_path E1 (arg ctx 1) p -> p <> [] ->
  rtc (other_step (current_pid E1)) (state_of (Enroll.handle_openat ctx) E1 s) s2 ->
  answers E2 (enforcer s) VERDICT_OPEN (nonzero (Z.land (arg ctx 2) O_ACCMODE)) p s2
    (Enforcer.enforce_openat_entry E2 s2).
Proof. exact (openat_run ctx s s2 p). Qed.

(** The unlink hooks share their body; the tracepoints differ in the flags. *)
Lemma unlink_hook_answers s s1 s2 src flags p :
  tries_functional (enforcer s) -> active s = true -> enrolled E1 s ->
  left_by E1 s s1 -> wf n s1 -> rtc (other_step (current_pid E1)) s1 s2 ->
  pending_unlink_paths (enroll s1) !! current_pid E1
    = Some (mk_pending_open (Z.of_nat (length p)) flags src) ->
  nonzero (Z.land flags AT_EMPTY_PATH) = false ->
  holds src p -> length src = 256%nat -> p <> [] -> Forall (fun b => b <> 0) p ->
  answers E2 (enforcer s) VERDICT_UNLINK false p s2
    (gated STAT_UNLINKAT_FMOD STAT_UNLINKAT_DENY Enforcer.enforce_unlink_from_pending E2 s2).
Proof.
  intros Hf Ha He Hleft Hwf1 Hsteps Hpo Hflag Hh Hsrc Hne Hnz.
  destruct (hook_finds _ _ _ Hleft He Hwf1 Hsteps Ha) as (Hp2 & Ha2 & He2 & Hs2 & Hfr).
  rewrite <- (fr_unlink _ _ _ Hfr) in Hpo.
  destruct (live_entry STAT_UNLINKAT_FMOD STAT_UNLINKAT_DENY Enforcer.enforce_unlink_from_pending
              E2 s2 Ha2 He2) as (s3 & -> & Hp3 & Hv3 & Hs3 & t & Hen3).
  rewrite Hpid. destruct (holds_staged _ _ Hh Hsrc Hne) as [Hst _].
  destruct (unlink_pending_run E2 Hk2 s3 (current_pid E1) (mk_pending_open (Z.of_nat (length p)) flags src) (Hs3 Hs2)) as (buf & s4 & Ht & Hbuf & Hq & Hrun2).
  { apply (tries_functional_proper (enforcer s)); [|done]. by rewrite Hp3, Hp2. }
  { rewrite Hen3. cbn. apply Hpo. }
  { done. }
  { done. }
  eapply decision_answers; [done|done| |done|done|done|done|done|done|done|done|exact Hrun2].
  by rewrite Hp3.
Qed.

(** C6. An unlinkat without AT_EMPTY_PATH of an enrolled process, end to end, while
    enforcement is live: when the path can be read, is not empty and is staged, the
    answer and the report after any steps of other processes are those of the path
    the process passed. *)
Theorem unlinkat_answers ctx s s2 p :
  wf n s -> tries_functional (enforcer s) -> active s = true -> enrolled E1 s ->
  map_update_ok E1 M_pending_unlink_paths = true ->
  reads_path E1 (arg ctx 1) p -> p <> [] -> Z.land (arg ctx 2) AT_EMPTY_PATH = 0 ->
  rtc (other_step (current_pid E1)) (state_of (Enroll.handle_unlinkat ctx) E1 s) s2 ->
  answers E2 (enforcer s) VERDICT_UNLINK false p s2 (Enforcer.enforce_unlinkat_entry E2 s2).
Proof.
  intros Hwf Hf Ha He Hok Hr Hne Hfl Hsteps.
  pose proof (reads_path_no_nul E1 _ _ Hr) as Hnz.
  destruct (wf_scratch_buf n E1 s Hwf Hc1) as [b Hb].
  destruct (handle_unlinkat_run E1 Hk1 ctx s b p He Hb Hr Hne) as (cp & Hcp & Hh & Hrun).
  pose proof (keeps_wf n E1 (H_unlinkat ctx) s Hwf) as Hwf1. cbn [run_hook] in Hwf1.
  unfold state_of in Hsteps. rewrite Hrun in Hsteps, Hwf1. cbn [snd] in Hsteps, Hwf1.
  match type of Hsteps with rtc _ ?st _ =>
    destruct (unlink_left E1 s st _ _ _ eq_refl) as [Hleft Hpo] end.
  rewrite enforce_unlinkat_entry_gated.
  eapply unlink_hook_answers; [done|done|done|done|done|done|by apply Hpo| |done..].
  by rewrite land_u16_u32, Hfl.
Qed.

(** An unlink of an enrolled process, end to end: the answer and the report are
    those of the path the process passed. *)
Theorem unlink_answers ctx s s2 p :
  wf n s -> tries_functional (enforcer s) -> active s = true -> enrolled E1 s ->
  map_update_ok E1 M_pending_unlink_paths = true ->
  reads_path E1 (arg ctx 0) p -> p <> [] ->
  rtc (other_step (current_pid E1)) (state_of (Enroll.handle_unlink ctx) E1 s) s2 ->
  answers E2 (enforcer s) VERDICT_UNLINK false p s2 (Enforcer.enforce_unlink_entry E2 s2).
Proof.
  intros Hwf Hf Ha He Hok Hr Hne Hsteps.
  pose proof (reads_path_no_nul E1 _ _ Hr) as Hnz.
  destruct (wf_scratch_buf n E1 s Hwf Hc1) as [b Hb].
  destruct (handle_unlink_run E1 Hk1 ctx s b p He Hb Hr Hne) as (cp & Hcp & Hh & Hrun).
  pose proof (keeps_wf n E1 (H_unlink ctx) s Hwf) as Hwf1. cbn [run_hook] in Hwf1.
  unfold state_of in Hsteps. rewrite Hrun in Hsteps, Hwf1. cbn [snd] in Hsteps, Hwf1.
  match type of Hsteps with rtc _ ?st _ =>
    destruct (unlink_left E1 s st _ _ _ eq_refl) as [Hleft Hpo] end.
  rewrite enforce_unlink_entry_gated.
  eapply unlink_hook_answers; [done|done|done|done|done|done|by apply Hpo|done..].
Qed.

(** An unlink whose path the tracepoint cannot read stages nothing, and the
    hook then decides, and reports, the path of the process's previous unlink. *)
Theorem stale_unlink_path_decides ctx s s2 src flags p :
  wf n s -> tries_functional (enforcer s) -> active s = true -> enrolled E1 s ->
  pending_unlink_paths (enroll s) !! current_pid E1
    = Some (mk_pending_open (Z.of_nat (length p)) flags src) ->
  nonzero (Z.land flags AT_EMPTY_PATH) = false ->
  holds src p -> length src = 256%nat -> p <> [] -> Forall (fun b => b <> 0) p ->
  (bpf_probe_read_user_str E1 (arg ctx 0) 256).1 <= 0 ->
  rtc (other_step (current_pid E1)) (state_of (Enroll.handle_unlink ctx) E1 s) s2 ->
  answers E2 (enforcer s) VERDICT_UNLINK false p s2 (Enforcer.enforce_unlink_entry E2 s2).
Proof.
  intros Hwf Hf Ha He Hpo Hfl Hh Hsrc Hne Hnz Hu Hsteps.
  destruct (wf_scratch_buf n E1 s Hwf Hc1) as [b Hb].
  destruct (handle_unlink_unreadable E1 ctx s b He Hb Hu) as (b' & Hrun).
  pose proof (keeps_wf n E1 (H_unlink ctx) s Hwf) as Hwf1. cbn [run_hook] in Hwf1.
  unfold state_of in Hsteps. rewrite Hrun in Hsteps, Hwf1. cbn [snd] in Hsteps, Hwf1.
  destruct (after_ensure_frame E1 s) as [Henf Henr].
  rewrite enforce_unlink_entry_gated.
  eapply unlink_hook_answers; [done|done|done| |done|done| |done..].
  - by split; [exact Henf|].
  - cbn. rewrite Henr. exact Hpo.
Qed.

(** C7. While enforcement is live, an unlinkat with AT_EMPTY_PATH of an enrolled
    process, staged by its tracepoint, is denied whatever its path argument reads as
    (unreadable, empty or a path). *)
Theorem unlinkat_empty_path_denied ctx s s2 :
  wf n s -> active s = true -> enrolled E1 s ->
  map_update_ok E1 M_pending_unlink_paths = true ->
  Z.land (arg ctx 2) AT_EMPTY_PATH <> 0 ->
  rtc (other_step (current_pid E1)) (state_of (Enroll.handle_unlinkat ctx) E1 s) s2 ->
  ret_of Enforcer.enforce_unlinkat_entry E2 s2 = - EPERM.
Proof.
  intros Hwf Ha He Hok Hfl Hsteps. unfold ret_of.
  destruct (wf_scratch_buf n E1 s Hwf Hc1) as [b Hb].
  pose proof (keeps_wf n E1 (H_unlinkat ctx) s Hwf) as Hwf1. cbn [run_hook] in Hwf1.
  assert (nonzero (Z.land (u16 (u32 (arg ctx 2))) AT_EMPTY_PATH) = true) as Hfl'.
  { rewrite land_u16_u32 by done. unfold nonzero. lia. }
  assert (exists po, Enforcer.empty_path_flag po = true /\
            left_by E1 s (Enroll.handle_unlinkat ctx E1 s).2 /\
            pending_unlink_paths (enroll (Enroll.handle_unlinkat ctx E1 s).2) !! current_pid E1 = Some po)
    as (po & Hpf & Hleft & Hpo).
  { destruct (Z.leb_spec (bpf_probe_read_user_str E1 (arg ctx 1) 256).1 0) as [Hu|Hpos].
    - destruct (handle_unlinkat_unreadable E1 ctx s b He Hb Hu) as [b' ->].
      rewrite land_u32, <- (land_u16_u32 (arg ctx 2)), Hfl' by done.
      exists (mk_pending_open 0 (u16 (u32 (arg ctx 2))) (zeros 256)). split_and!; [exact Hfl'| |].
      + split; cbn; [|done]. apply after_ensure_frame.
      + cbn. rewrite Hok. apply hash_update_ok_eq.
    - destruct (reads_path_intro E1 (arg ctx 1) Hpos) as (p & Hr & _).
      destruct (decide (p = [])) as [->|Hne].
      + destruct (handle_unlinkat_empty E1 ctx s b He Hb Hr) as (b' & r & ->).
        edestruct unlink_left as [Hleft Hpo]; [done|].
        exists (mk_pending_open 0 (u16 (u32 (arg ctx 2))) (zeros 256)).
        split_and!; [exact Hfl'|done|by apply Hpo].
      + destruct (handle_unlinkat_run E1 Hk1 ctx s b p He Hb Hr Hne) as (cp & _ & _ & ->).
        edestruct unlink_left as [Hleft Hpo]; [done|].
        exists (mk_pending_open (Z.of_nat (length p)) (u16 (u32 (arg ctx 2))) cp).
        split_and!; [exact Hfl'|done|by apply Hpo]. }
  destruct (hook_finds _ _ _ Hleft He Hwf1 Hsteps Ha) as (Hp2 & Ha2 & He2 & Hs2 & Hfr).
  rewrite <- (fr_unlink _ _ _ Hfr) in Hpo. rewrite enforce_unlinkat_entry_gated.
  destruct (live_entry STAT_UNLINKAT_FMOD STAT_UNLINKAT_DENY Enforcer.enforce_unlink_from_pending
              E2 s2 Ha2 He2) as (s3 & -> & _ & _ & _ & t & Hen3).
  apply unlink_pending_fail_closed. intros po'. unfold unlink_source. rewrite Hpid, Hen3. cbn.
  rewrite Hpo, Hpf, andb_false_r. intros [= <-]. by right.
Qed.

(** C4. A renameat2 of an enrolled process, end to end, while enforcement is live:
    when both paths can be read, are not empty and are staged, they are decided in
    order after any steps of other processes, and the answer and the report are
    those of the old path when the policy denies it and of the new path when it does
    not. *)
Theorem renameat2_answers ctx s s2 p1 p2 :
  wf n s -> tries_functional (enforcer s) -> active s = true -> enrolled E1 s ->
  map_update_ok E1 M_pending_rename_paths = true ->
  reads_path E1 (arg ctx 1) p1 -> p1 <> [] -> reads_path E1 (arg ctx 3) p2 -> p2 <> [] ->
  rtc (other_step (current_pid E1)) (state_of (Enroll.handle_renameat2 ctx) E1 s) s2 ->
  let denied p := exists h, path_denied (enforcer s) VERDICT_RENAME false p h in
  let r := Enforcer.enforce_renameat2_entry E2 s2 in
  (denied p1 /\ answers E2 (enforcer s) VERDICT_RENAME false p1 s2 r) \/
  (~ denied p1 /\ answers E2 (enforcer s) VERDICT_RENAME false p2 s2 r).
Proof.
  intros Hwf Hf Ha He Hok Hr1 Hne1 Hr2 Hne2 Hsteps. cbv zeta.
  pose proof (reads_path_no_nul E1 _ _ Hr1) as Hnz1. pose proof (reads_path_no_nul E1 _ _ Hr2) as Hnz2.
  destruct (wf_scratch_buf n E1 s Hwf Hc1) as [b Hb].
  destruct (handle_renameat2_run E1 Hk1 ctx s b p1 p2 He Hb (wf_rename_entry n E1 s Hwf Hc1)
              Hr1 Hne1 Hr2 Hne2) as (c1 & c2 & Hl1 & Hl2 & Hh1 & Hh2 & Hrun).
  pose proof (keeps_wf n E1 (H_renameat2 ctx) s Hwf) as Hwf1. cbn [run_hook] in Hwf1.
  unfold state_of in Hsteps. rewrite Hrun in Hsteps, Hwf1. cbn [snd] in Hsteps, Hwf1.
  set (pr := mk_pending_rename _ _ _ _) in *.
  match type of Hsteps with rtc _ ?st _ =>
    destruct (rename_left E1 s st _ _ _ eq_refl) as [Hleft Hpr] end. specialize (Hpr Hok).
  destruct (hook_finds _ _ _ Hleft He Hwf1 Hsteps Ha) as (Hp2 & Ha2 & He2 & Hs2 & Hfr).
  rewrite <- (fr_rename _ _ _ Hfr) in Hpr. rewrite enforce_renameat2_entry_gated.
  destruct (live_entry STAT_RENAMEAT_FMOD STAT_RENAMEAT_DENY Enforcer.enforce_rename_from_pending
              E2 s2 Ha2 He2) as (s3 & -> & Hp3 & Hv3 & Hs3 & t & Hen3).
  rewrite Hpid.
  destruct (holds_staged _ _ Hh1 Hl1 Hne1) as [Hst1 _]. destruct (holds_staged _ _ Hh2 Hl2 Hne2) as [Hst2 _].
  assert (tries_functional (enforcer s3)) as Hf3.
  { apply (tries_functional_proper (enforcer s)); [|done]. by rewrite Hp3, Hp2. }
  assert (pol_eq (enforcer s3) (enforcer s)) as Hp by by rewrite Hp3.
  destruct (rename_pending_run E2 Hk2 s3 (current_pid E1) pr (Hs3 Hs2) Hf3) as
    (s4 & buf & len & Hwhich & Hbuf & Hq & Hrun2); [by rewrite Hen3|done|done|].
  cbn [old_path old_len new_path new_len pr] in Hwhich, Hrun2.
  rewrite (holds_path_of _ _ Hh1), (holds_path_of _ _ Hh2) in *.
  rewrite (path_verdict_proper _ _ _ _ _ Hp) in Hwhich.
  rewrite !(path_verdict_proper _ _ _ _ _ Hp) in Hrun2.
  destruct (path_verdict (enforcer s) VERDICT_RENAME false p1) as [h|] eqn:Hv1.
  - left. split; [exists h; by apply path_verdict_denied|]. destruct Hwhich as [Ht ->].
    eapply decision_answers; [done|done|exact Hp|done|exact Hh1|done|done|done|exact Ht|done|exact Hq|].
    rewrite (holds_path_of _ _ Hh1), (path_verdict_proper _ _ _ _ _ Hp), Hv1. exact Hrun2.
  - right. split; [intros [h Hh]; apply path_verdict_denied in Hh; [congruence|done]|].
    destruct Hwhich as [Ht ->].
    eapply decision_answers; [done|done|exact Hp|done|exact Hh2|done|done|done|exact Ht|done|exact Hq|].
    rewrite (holds_path_of _ _ Hh2), (path_verdict_proper _ _ _ _ _ Hp). exact Hrun2.
Qed.

(** The connect hook decides the staged target. *)
Lemma connect_hook_answers s s1 s2 pt a :
  ip_tries_functional (enforcer s) -> active s = true -> enrolled E1 s ->
  left_by E1 s s1 -> wf n s1 -> rtc (other_step (current_pid E1)) s1 s2 ->
  pending_connects (enroll s1) !! current_pid E1 = Some (staged_target pt a) ->
  (length a = 4 \/ length a = 16)%nat -> 0 <= pt < 2 ^ 16 ->
  answers_connect E2 (enforcer s) a pt s2 (Enforcer.enforce_connect_entry E2 s2).
Proof.
  intros Hf Ha He Hleft Hwf1 Hsteps Hpc Hla Hpt.
  destruct (hook_finds _ _ _ Hleft He Hwf1 Hsteps Ha) as (Hp2 & Ha2 & He2 & Hs2 & Hfr).
  rewrite <- (fr_connect _ _ _ Hfr) in Hpc. rewrite enforce_connect_entry_gated.
  destruct (live_entry STAT_CONNECT_FMOD STAT_CONNECT_DENY Enforcer.enforce_connect_from_pending
              E2 s2 Ha2 He2) as (s3 & -> & Hp3 & Hv3 & Hs3 & t & Hen3).
  rewrite Hpid.
  assert (length (splice 0 a (zeros 16)) = 16%nat) as Hl
    by (apply length_splice_eq; [lia|done]).
  assert (addr_of (splice 0 a (zeros 16)) (Z.of_nat (length a)) = a) as Hao.
  { unfold addr_of, splice. rewrite Nat2Z.id, take_0, app_nil_l, take_app_le, firstn_all by lia. done. }
  assert (pol_eq (enforcer s3) (enforcer s)) as Hp by by rewrite Hp3.
  destruct (connect_pending_run E2 s3 (current_pid E1) (staged_target pt a) (Hs3 Hs2))
    as (s4 & Hq & Hrun).
  { by apply (ip_tries_functional_proper (enforcer s)). }
  { rewrite Hen3. cbn. apply Hpc. }
  { unfold addr_len. cbn. lia. }
  { done. }
  rewrite Hrun. unfold staged_target. cbn [ip ip_len port]. rewrite Hao, (connect_verdict_proper _ _ _ _ Hp).
  assert (deny_verdicts (enforcer s4) = deny_verdicts (enforcer s2)) as Hd4
    by (destruct Hq; congruence).
  unfold answers_connect. destruct (connect_verdict (enforcer s) a pt) as [h|]; [|done].
  split; [done|]. cbn [snd]. rewrite bump_verdicts, <- Hd4. rewrite <- Hao at 1.
  apply reported_connect_push; [done|lia|lia|done].
Qed.

Lemma connect4_run ctx s s2 hi lo a :
  wf n s -> ip_tries_functional (enforcer s) -> active s = true -> enrolled E1 s ->
  map_update_ok E1 M_pending_connects = true ->
  is_byte hi -> is_byte lo -> length a = 4%nat ->
  reads_bytes E1 (arg ctx 1) 2 (le_bytes 2 AF_INET) ->
  reads_bytes E1 (arg ctx 1) 8 (sockaddr4 hi lo a) ->
  rtc (other_step (current_pid E1)) (state_of (Enroll.handle_connect ctx) E1 s) s2 ->
  answers_connect E2 (enforcer s) a (256 * hi + lo) s2 (Enforcer.enforce_connect_entry E2 s2).
Proof.
  intros Hwf Hf Ha He Hok Hhi Hlo Hla Hr2 Hr8 Hsteps.
  destruct (wf_scratch_buf n E1 s Hwf Hc1) as [b Hb].
  pose proof (handle_connect_run4 E1 ctx s b _ _ He Hb Hr2 eq_refl Hr8) as Hrun. cbv zeta in Hrun.
  pose proof (keeps_wf n E1 (H_connect ctx) s Hwf) as Hwf1. cbn [run_hook] in Hwf1.
  unfold state_of in Hsteps. rewrite Hrun in Hsteps, Hwf1. cbn [snd] in Hsteps, Hwf1.
  destruct (sockaddr4_fields hi lo a Hla) as [Hport Haddr]. rewrite Hport, Haddr in *.
  match type of Hsteps with rtc _ ?st _ =>
    destruct (connect_left E1 s st _ _ _ eq_refl) as [Hleft Hpc] end. specialize (Hpc Hok).
  rewrite (enroll_port_be hi lo Hhi Hlo) in *.
  eapply connect_hook_answers; try done; [lia|]. unfold is_byte in *. lia.
Qed.

(** C5. An IPv4 connect of an enrolled process, end to end, while enforcement is
    live: when the socket address can be read and is staged, then after any steps of
    other processes the hook decides on its address bytes and host-order port,
    answers -EPERM and reports rule, process, address and port exactly when the
    connect verdict is a denial, and otherwise answers 0 and reports nothing. *)
Theorem connect4_answers ctx s s2 hi lo a :
  wf n s -> ip_tries_functional (enforcer s) -> active s = true -> enrolled E1 s ->
  map_update_ok E1 M_pending_connects = true ->
  is_byte hi -> is_byte lo -> length a = 4%nat ->
  reads_bytes E1 (arg ctx 1) 2 (le_bytes 2 AF_INET) ->
  reads_bytes E1 (arg ctx 1) 8 (sockaddr4 hi lo a) ->
  rtc (other_step (current_pid E1)) (state_of (Enroll.handle_connect ctx) E1 s) s2 ->
  answers_connect E2 (enforcer s) a (256 * hi + lo) s2 (Enforcer.enforce_connect_entry E2 s2).
Proof. exact (connect4_run ctx s s2 hi lo a). Qed.

(** An IPv6 connect of an enrolled process, end to end: as for IPv4, with the 16
    address bytes of the socket address. *)
Theorem connect6_answers ctx s s2 hi lo flow a scope :
  wf n s -> ip_tries_functional (enforcer s) -> active s = true -> enrolled E1 s ->
  map_update_ok E1 M_pending_connects = true ->
  is_byte hi -> is_byte lo -> length flow = 4%nat -> length a = 16%nat -> length scope = 4%nat ->
  reads_bytes E1 (arg ctx 1) 2 (le_bytes 2 AF_INET6) ->
  reads_bytes E1 (arg ctx 1) 28 (sockaddr6 hi lo flow a scope) ->
  rtc (other_step (current_pid E1)) (state_of (Enroll.handle_connect ctx) E1 s) s2 ->
  answers_connect E2 (enforcer s) a (256 * hi + lo) s2 (Enforcer.enforce_connect_entry E2 s2).
Proof.
  intros Hwf Hf Ha He Hok Hhi Hlo Hlf Hla Hls Hr2 Hr8 Hsteps.
  destruct (wf_scratch_buf n E1 s Hwf Hc1) as [b Hb].
  pose proof (handle_connect_run6 E1 ctx s b _ _ He Hb Hr2 eq_refl Hr8) as Hrun. cbv zeta in Hrun.
  pose proof (keeps_wf n E1 (H_connect ctx) s Hwf) as Hwf1. cbn [run_hook] in Hwf1.
  unfold state_of in Hsteps. rewrite Hrun in Hsteps, Hwf1. cbn [snd] in Hsteps, Hwf1.
  destruct (sockaddr6_fields hi lo flow a scope Hlf Hla) as [Hport Haddr].
  rewrite Hport, Haddr in *.
  match type of Hsteps with rtc _ ?st _ =>
    destruct (connect_left E1 s st _ _ _ eq_refl) as [Hleft Hpc] end. specialize (Hpc Hok).
  rewrite (enroll_port_be hi lo Hhi Hlo) in *.
  eapply connect_hook_answers; try done; [lia|]. unfold is_byte in *. lia.
Qed.
End pipeline.
