(* ===== verification/Fallback.v ===== *)
(** * Fallback: hooks without the syscall's own arguments

    The tracepoint that stages a syscall's arguments may fail to (an unreadable
    path, a full map).  The hook then decides on what it finds: the entry of an
    earlier syscall of the process, or the entry last staged on this CPU, by
    whichever process.  This file says what each hook answers when nothing usable
    is found, that the fallback decides on another process's path, and that staged
    entries are never removed. *)

From S2P Require Import Prelude Types Bpf State Logic.
From S2P Require Enforcer Enroll.
From S2P Require Import Gate PathVerdict Hooks Records Machine Staging Formats ConnectVerdict Pipeline.

(** ** What the hooks find *)

Definition connect_source (E : env) (s : kstate) (pid : Z) : option pending_connect :=
  match pending_connects (enroll s) !! pid with
  | Some pc => Some pc
  | None => pc_lookup (cpu E) 0 (pending_connect_cpu (enroll s))
  end.

Definition rename_source (E : env) (s : kstate) (pid : Z) : option pending_rename :=
  match pending_rename_paths (enroll s) !! pid with
  | Some pr => if negb (Enforcer.valid_rename pr)
               then pc_lookup (cpu E) 0 (pending_rename_cpu (enroll s)) else Some pr
  | None => pc_lookup (cpu E) 0 (pending_rename_cpu (enroll s))
  end.

(** A target of neither address family. *)
Definition no_address (pc : pending_connect) : Prop := ip_len pc <> 4 /\ ip_len pc <> 16.

Section fallback.
Context `{L : LpmTrie} (E : env).

Lemma openat_pending_unusable s pid :
  (forall po, open_source E s pid = Some po -> Enforcer.valid_path_len (po_len po) = false) ->
  ret_of (Enforcer.enforce_openat_from_pending pid) E s = 0.
Proof.
  intros Hu. unfold ret_of, Enforcer.enforce_openat_from_pending. rewrite open_source_run.
  destruct (open_source E s pid) as [po|]; unfold Enforcer.scratch_path_buf, this_cpu;
    erewrite run_bind by done; [|done].
  rewrite (Hu po eq_refl). cbn [negb]. by destruct (pc_lookup _ _ _).
Qed.

Lemma connect_pending_unusable s pid :
  (forall pc, connect_source E s pid = Some pc -> no_address pc) ->
  ret_of (Enforcer.enforce_connect_from_pending pid) E s = 0.
Proof.
  intros Hu. unfold ret_of, Enforcer.enforce_connect_from_pending. erewrite run_bind by done. cbn beta.
  assert (forall k : option pending_connect -> prog Z,
    ((if match pending_connects (enroll s) !! pid with Some _ => false | None => true end
      then this_cpu (fun s => pending_connect_cpu (enroll s)) 0
      else mret (pending_connects (enroll s) !! pid)) ≫= k) E s =
    k (connect_source E s pid) E s) as ->.
  { intros k. unfold connect_source. by destruct (pending_connects (enroll s) !! pid). }
  destruct (connect_source E s pid) as [pc|]; [|done]. destruct (Hu pc eq_refl).
  replace (ip_len pc =? 4) with false by lia. by replace (ip_len pc =? 16) with false by lia.
Qed.

Lemma rename_pending_unusable s pid :
  (forall pr, rename_source E s pid = Some pr -> Enforcer.valid_rename pr = false) ->
  ret_of (Enforcer.enforce_rename_from_pending pid) E s = - EPERM.
Proof.
  intros Hu. unfold ret_of, Enforcer.enforce_rename_from_pending. erewrite run_bind by done. cbn beta.
  assert (forall k : option pending_rename -> prog Z,
    ((if match pending_rename_paths (enroll s) !! pid with
         | Some pr => negb (Enforcer.valid_rename pr) | None => true end
      then this_cpu (fun s => pending_rename_cpu (enroll s)) 0
      else mret (pending_rename_paths (enroll s) !! pid)) ≫= k) E s =
    k (rename_source E s pid) E s) as ->.
  { intros k. unfold rename_source. destruct (pending_rename_paths (enroll s) !! pid) as [pr|]; [|done].
    by destruct (negb _). }
  destruct (rename_source E s pid) as [pr|]; unfold Enforcer.scratch_path_buf, this_cpu;
    erewrite run_bind by done; [|done].
  rewrite (Hu pr eq_refl). cbn [negb]. by destruct (pc_lookup _ _ _).
Qed.

(** A hook in the live regime answers as its body does on the staged arguments
    of the state it was entered in. *)
Lemma live_ret fs ds body s r :
  active s = true -> enrolled E s ->
  (forall s', (exists t, enroll s' = set_tagged_pids (enroll s) t) ->
     ret_of (body (current_pid E)) E s' = r) ->
  ret_of (gated fs ds body) E s = r.
Proof.
  intros Ha He Hb. destruct (live_entry fs ds body E s Ha He) as (s' & Heq & _ & _ & _ & Ht).
  unfold ret_of at 1. rewrite Heq. by apply Hb.
Qed.

(** Without usable staged arguments an enrolled process in the live regime is
    let through by the openat and connect hooks and denied by the unlink and rename
    hooks. *)
Theorem nothing_usable_answers s :
  active s = true -> enrolled E s ->
  let pid := current_pid E in
  ((forall po, open_source E s pid = Some po -> Enforcer.valid_path_len (po_len po) = false) ->
     ret_of Enforcer.enforce_openat_entry E s = 0) /\
  ((forall pc, connect_source E s pid = Some pc -> no_address pc) ->
     ret_of Enforcer.enforce_connect_entry E s = 0) /\
  ((forall po, unlink_source E s pid = Some po ->
      Enforcer.valid_path_len (po_len po) = false \/ Enforcer.empty_path_flag po = true) ->
     ret_of Enforcer.enforce_unlinkat_entry E s = - EPERM /\
     ret_of Enforcer.enforce_unlink_entry E s = - EPERM) /\
  ((forall pr, rename_source E s pid = Some pr -> Enforcer.valid_rename pr = false) ->
     ret_of Enforcer.enforce_renameat2_entry E s = - EPERM).
Proof.
  intros Ha He. cbv zeta.
  rewrite enforce_openat_entry_gated, enforce_connect_entry_gated, enforce_unlinkat_entry_gated,
    enforce_unlink_entry_gated, enforce_renameat2_entry_gated.
  split_and!; intros Hu; [| |split|]; apply live_ret; try done; intros s' [t Hs'].
  - apply openat_pending_unusable. unfold open_source in *. by rewrite Hs'.
  - apply connect_pending_unusable. unfold connect_source in *. by rewrite Hs'.
  - apply unlink_pending_fail_closed. unfold unlink_source in *. by rewrite Hs'.
  - apply unlink_pending_fail_closed. unfold unlink_source in *. by rewrite Hs'.
  - apply rename_pending_unusable. unfold rename_source in *. by rewrite Hs'.
Qed.
End fallback.

(** ** Another process's path *)

Section borrowed.
Context `{L : LpmTrie, !LpmTrieSpec L}.
Context (n : nat) (E1 E2 : env) `{!EnvOk E1, !EnvOk E2}.
Context (Hk1 : kernel_reads E1) (Hk2 : kernel_reads E2).
Context (Hcpu : cpu E2 = cpu E1) (Hc : (cpu E1 < n)%nat).

(** The per-CPU entry the openat tracepoint leaves. *)
Lemma open_cpu_left s s1 r po b :
  s1 = output E1 r (stage_open E1 po (set_scratch_buf E1 b (after_ensure E1 s))) -> wf n s ->
  map_update_ok E1 M_pending_open_cpu = true ->
  pc_lookup (cpu E1) 0 (pending_open_cpu (enroll s1)) = Some po /\
  forall q, q <> current_pid E1 ->
    pending_open_paths (enroll s1) !! q = pending_open_paths (enroll s) !! q.
Proof.
  intros -> Hwf Hok. destruct (output_frame E1 r (stage_open E1 po (set_scratch_buf E1 b (after_ensure E1 s))))
    as (_ & ev & dr & Hen).
  destruct (after_ensure_frame E1 s) as [_ Hae]. rewrite Hen. cbn. rewrite Hok, Hae. cbn. split.
  - apply pc_lookup_write. destruct (pc_shape_lookup _ _ _ (cpu E1) 0 _ (wf_open_cpu _ _ Hwf) Hc) as (v & Hv & _);
      [cbn; lia|]. by eexists.
  - intros q Hq. by apply hash_update_ne.
Qed.

(** An open whose path the tracepoint of its own process cannot stage is
    decided on the entry another process left on the CPU: the answer and the report
    are those of the other process's path. *)
Theorem cpu_entry_decides ctx s p :
  let s1 := state_of (Enroll.handle_openat ctx) E1 s in
  wf n s -> tries_functional (enforcer s) -> active s = true -> enrolled E1 s ->
  map_update_ok E1 M_pending_open_cpu = true ->
  reads_path E1 (arg ctx 1) p -> p <> [] ->
  current_pid E2 <> current_pid E1 -> enrolled E2 s1 ->
  pending_open_paths (enroll s) !! current_pid E2 = None ->
  answers E2 (enforcer s) VERDICT_OPEN (nonzero (Z.land (arg ctx 2) O_ACCMODE)) p s1
    (Enforcer.enforce_openat_entry E2 s1).
Proof.
  intros s1 Hwf Hf Ha He Hok Hr Hne Hpid He2 Hnone.
  pose proof (reads_path_no_nul E1 _ _ Hr) as Hnz.
  destruct (wf_scratch_buf n E1 s Hwf Hc) as [b Hb].
  destruct (handle_openat_run E1 Hk1 ctx s b p He Hb Hr Hne) as (cp & Hcp & Hh & Hrun).
  pose proof (keeps_wf n E1 (H_openat ctx) s Hwf) as Hwf1. cbn [run_hook] in Hwf1.
  change (snd _) with s1 in Hwf1. assert (s1 = s1) as Hs1 by done. unfold s1 at 2, state_of in Hs1.
  rewrite Hrun in Hs1. cbn [snd] in Hs1. set (po := mk_pending_open _ _ _) in *.
  destruct (open_left E1 s s1 _ _ _ Hs1) as [[Hef _] _].
  destruct (open_cpu_left s s1 _ _ _ Hs1 Hwf Hok) as [Hpo Hq].
  pose proof (wf_scratch_ready n E2 s1 Hwf1 ltac:(rewrite Hcpu; exact Hc)) as Hready.
  assert (active s1 = true) as Ha1 by (rewrite (active_pol s s1); [done|by rewrite Hef]).
  rewrite enforce_openat_entry_gated.
  destruct (live_entry STAT_OPENAT_FMOD STAT_OPENAT_DENY Enforcer.enforce_openat_from_pending
              E2 s1 Ha1 He2) as (s3 & -> & Hp3 & Hv3 & Hs3 & t & Hen3).
  destruct (holds_staged _ _ Hh Hcp Hne) as [Hst _].
  destruct (openat_source_run E2 Hk2 s3 (current_pid E2) po) as (buf & s4 & Ht & Hbuf & Hqu & Hrun2).
  { by apply Hs3. }
  { apply (tries_functional_proper (enforcer s)); [|done]. by rewrite Hp3, Hef. }
  { unfold open_source. rewrite Hen3. cbn. rewrite (Hq (current_pid E2) Hpid), Hnone, Hcpu. exact Hpo. }
  { done. }
  eapply (decision_answers E2 Hk2 _ _ _ cp p _ s3 s4 buf); [done|done| |done|done|done|done|done|done|done|done|].
  - by rewrite <- Hef.
  - rewrite Hrun2. subst po. cbn [open_flags po_len po_path]. by rewrite write_intent_staged.
Qed.
End borrowed.

(** ** Staged entries stay *)

(** Process [q]'s staged entries of [s0] are still there, if not with the same
    contents. *)
Record still_staged (q : Z) (s0 s : kstate) : Prop := {
  st_open : is_Some (pending_open_paths (enroll s0) !! q) -> is_Some (pending_open_paths (enroll s) !! q);
  st_connect : is_Some (pending_connects (enroll s0) !! q) -> is_Some (pending_connects (enroll s) !! q);
  st_unlink : is_Some (pending_unlink_paths (enroll s0) !! q) -> is_Some (pending_unlink_paths (enroll s) !! q);
  st_rename : is_Some (pending_rename_paths (enroll s0) !! q) -> is_Some (pending_rename_paths (enroll s) !! q)
}.

#[global] Instance still_staged_refl q : Reflexive (still_staged q).
Proof. by split. Qed.

Lemma run_hook_still_staged `{L : LpmTrie} n E `{!EnvOk E} h q s0 :
  keeps E (fun s => wf n s /\ still_staged q s0 s) (run_hook h).
Proof.
  destruct (enforcement_hook h) eqn:Hh; [apply keeps_enforcement|apply keeps_observation]; try done.
  all: intros; match goal with H : wf _ _ /\ _ |- _ => destruct H as [Hwf Hf] end.
  all: first [split; [clear Hf; wf_store|destruct Hf; split; cbn; auto using hash_update_is_Some]
             | clear Hf; wf_store].
Qed.

Lemma step_still_staged `{L : LpmTrie} n q s0 s s' :
  step s s' -> wf n s -> still_staged q s0 s -> still_staged q s0 s'.
Proof.
  intros Hs Hwf Hf. destruct Hs as [E h s HE|s s' Hag].
  - by apply (run_hook_still_staged n E h q s0 s).
  - by destruct Hag; destruct Hf; split.
Qed.

(** No program removes a staged entry: whatever a process staged is still there
    after any steps, replaced at most, so the staging maps only grow, up to their
    4096 entries. *)
Theorem staged_entries_persist `{L : LpmTrie} n q s s' :
  wf n s -> rtc step s s' -> still_staged q s s'.
Proof.
  enough (forall s0, still_staged q s0 s -> wf n s -> rtc step s s' -> still_staged q s0 s') as H
    by (intros; by apply H).
  intros s0 Hf Hwf Hr. induction Hr as [s|s s1 s2 Hs _ IH]; [done|].
  apply IH; [by eapply step_still_staged|by eapply wf_step].
Qed.
