(* ===== verification/Safety.v ===== *)
(** * Safety: what holds of every hook, whatever the state

    Return codes, what the two objects may change, who is enforced, and the
    three regimes of the enforcer (live, fail closed, off). *)

From S2P Require Import Prelude Types Bpf State Logic.
From S2P Require Enforcer Enroll.
From S2P Require Import Gate PathVerdict Hooks Records Machine Staging.

(** ** Return codes *)

Definition yields {A} (E : env) (Q : A -> Prop) (m : prog A) : Prop := forall s, Q (m E s).1.

Lemma yields_ret {A} E (Q : A -> Prop) a : Q a -> yields E Q (mret a).
Proof. by intros ? s. Qed.

Lemma yields_bind {A B} E (Q : B -> Prop) (m : prog A) (f : A -> prog B) :
  (forall a, yields E Q (f a)) -> yields E Q (m ≫= f).
Proof. intros H s. apply H. Qed.

(** The value a call yields is known to its continuation. *)
Lemma yields_bind_known {A B} E (P : A -> Prop) (Q : B -> Prop) (m : prog A) (f : A -> prog B) :
  yields E P m -> (forall a, P a -> yields E Q (f a)) -> yields E Q (m ≫= f).
Proof. intros Hm Hf s. apply Hf, Hm. Qed.

Create HintDb yields discriminated.

Ltac yields_step :=
  lazymatch goal with
  | |- yields _ _ (mbind _ _) => apply yields_bind; intros ?
  | |- yields _ _ (mret _) => apply yields_ret; first [by left|by right|done]
  | |- yields _ _ (if ?b then _ else _) => destruct_innermost b; cbn iota
  | |- yields _ _ (match ?x with _ => _ end) => destruct_innermost x; cbn iota
  | |- yields _ _ _ => progress cbv beta zeta
  end.

Ltac yields_tac := repeat (first [solve [eauto with yields] | yields_step]).

(** 0 or -EPERM. *)
Definition errno (rc : Z) : Prop := rc = 0 \/ rc = - EPERM.

Section codes.
Context `{L : LpmTrie} (E : env).

Lemma open_verdict_code d a v w p n :
  yields E errno (Enforcer.enforce_open_verdict d a v w p n).
Proof. unfold Enforcer.enforce_open_verdict. cbv zeta. yields_tac. Qed.

Lemma deny_connect_code h p n q : yields E errno (Enforcer.deny_connect h p n q).
Proof. unfold Enforcer.deny_connect. yields_tac. Qed.

Hint Resolve open_verdict_code deny_connect_code : yields.

Lemma enforce_path_code p n v w : yields E errno (Enforcer.enforce_path p n v w).
Proof. unfold Enforcer.enforce_path. yields_tac. Qed.

Lemma connect_parsed_code p n q : yields E errno (Enforcer.enforce_connect_parsed p n q).
Proof. unfold Enforcer.enforce_connect_parsed, when. yields_tac. Qed.

Hint Resolve enforce_path_code connect_parsed_code : yields.

Lemma connect_code a : yields E errno (Enforcer.enforce_connect a).
Proof. unfold Enforcer.enforce_connect. yields_tac. Qed.

(** A hook that ends by returning a callee's code. *)
Lemma pass_code (m : prog Z) i :
  yields E errno m ->
  yields E errno (rc ← m; if nonzero rc then _ ← Enforcer.stat_inc i; mret rc else mret rc).
Proof.
  intros Hm. apply (yields_bind_known E errno); [done|].
  intros rc Hrc. destruct (nonzero rc); [apply yields_bind; intros _|]; by apply yields_ret.
Qed.

Hint Resolve connect_code pass_code : yields.

Lemma openat_pending_code pid : yields E errno (Enforcer.enforce_openat_from_pending pid).
Proof. unfold Enforcer.enforce_openat_from_pending. yields_tac. Qed.

Lemma connect_pending_code pid : yields E errno (Enforcer.enforce_connect_from_pending pid).
Proof. unfold Enforcer.enforce_connect_from_pending. yields_tac. Qed.

Lemma unlink_pending_code pid : yields E errno (Enforcer.enforce_unlink_from_pending pid).
Proof. unfold Enforcer.enforce_unlink_from_pending. yields_tac. Qed.

Lemma rename_pending_code pid : yields E errno (Enforcer.enforce_rename_from_pending pid).
Proof.
  unfold Enforcer.enforce_rename_from_pending.
  apply yields_bind; intros o. apply yields_bind; intros [pr|]; apply yields_bind; intros [path|];
    try (apply yields_ret; by right).
  destruct (negb _); [apply yields_ret; by right|]. apply yields_bind; intros cp.
  destruct (_ <? 0); [apply yields_ret; by right|].
  apply (yields_bind_known E errno); [apply enforce_path_code|]. intros rc Hrc.
  destruct (nonzero rc); [apply yields_bind; intros _; by apply yields_ret|]. yields_tac.
Qed.

Hint Resolve openat_pending_code connect_pending_code unlink_pending_code rename_pending_code : yields.

(** What each hook may answer. *)
Definition answer_ok (h : hook) (rc : Z) : Prop :=
  if cgroup_hook h then rc = 0 \/ rc = 1
  else if enforcement_hook h then errno rc else rc = 0.

Lemma run_hook_code h : yields E (answer_ok h) (run_hook h).
Proof.
  unfold answer_ok. destruct h; cbn [cgroup_hook enforcement_hook run_hook].
  all: unfold Enroll.handle_exec, Enroll.handle_fork, Enroll.handle_exit, Enroll.handle_connect,
    Enroll.handle_openat, Enroll.handle_unlinkat, Enroll.handle_unlink, Enroll.handle_renameat2,
    Enforcer.enforce_cgroup_connect4, Enforcer.enforce_cgroup_connect6,
    Enforcer.cgroup_connect_action,
    Enforcer.enforce_file_open, Enforcer.enforce_path_unlink, Enforcer.enforce_path_rename,
    Enforcer.enforce_socket_connect, Enforcer.enforce_openat_entry,
    Enforcer.enforce_connect_entry, Enforcer.enforce_unlinkat_entry,
    Enforcer.enforce_unlink_entry, Enforcer.enforce_renameat2_entry.
  all: yields_tac.
Qed.
End codes.

(** ** What the two objects may change *)

(** The observer never touches the enforcer's maps. *)
Lemma observation_keeps_enforcer `{L : LpmTrie} n E `{!EnvOk E} h m :
  enforcement_hook h = false -> keeps E (fun s => wf n s /\ enforcer s = m) (run_hook h).
Proof.
  intros Hh. apply keeps_observation; try done.
  all: intros; match goal with H : wf _ _ /\ _ |- _ => destruct H as [Hwf Hm] end.
  all: first [split; [clear Hm; wf_store|exact Hm] | clear Hm; wf_store].
Qed.

(** An enforcement hook leaves the policy, the staged arguments and the event
    ring alone; it adds verdict records at the end and may tag its process. *)
Record enforces_only (E : env) (s0 s : kstate) : Prop := {
  eo_policy : pol_eq (enforcer s) (enforcer s0);
  eo_enroll : enroll s = set_tagged_pids (enroll s0) (tagged_pids (enroll s));
  eo_tags : tagged_pids (enroll s) = tagged_pids (enroll s0) \/
            tagged_pids (enroll s) = <[current_pid E := 1]> (tagged_pids (enroll s0));
  eo_verdicts : exists vs, deny_verdicts (enforcer s) = deny_verdicts (enforcer s0) ++ vs
}.

Lemma enforces_only_refl E s : enforces_only E s s.
Proof.
  split; [done| |by left|exists []; by rewrite app_nil_r]. by destruct s as [[] ?].
Qed.

Lemma enforcement_frame `{L : LpmTrie} n E `{!EnvOk E} h s0 :
  enforcement_hook h = true -> keeps E (fun s => wf n s /\ enforces_only E s0 s) (run_hook h).
Proof.
  intros Hh. apply keeps_enforcement; try done.
  all: intros; match goal with H : wf _ _ /\ _ |- _ => destruct H as [Hwf Hm] end;
    first [split; [clear Hm; wf_store|] | clear Hm; wf_store].
  all: destruct Hm as [Hp He Ht [vs Hv]]; split; cbn; try done.
  all: try (etrans; [|exact Hp]; by split).
  all: try by exists vs.
  - eexists. by rewrite Hv, <- app_assoc.
  - by rewrite He.
  - unfold hash_update. destruct (map_update_ok E M_tagged_pids); [|done]. right.
    destruct Ht as [-> | ->]; [done|]. by rewrite insert_insert_eq.
Qed.

(** The observer never blocks: every program of enroll.bpf.c answers 0 and
    leaves every map of the enforcer unchanged. *)
Theorem observation_never_enforces `{L : LpmTrie} n E `{!EnvOk E} h s :
  enforcement_hook h = false -> wf n s ->
  (run_hook h E s).1 = 0 /\ enforcer (run_hook h E s).2 = enforcer s.
Proof.
  intros Hh Hwf. split.
  - pose proof (run_hook_code E h s) as Hc. unfold answer_ok in Hc. rewrite Hh in Hc.
    by destruct h.
  - by apply (observation_keeps_enforcer n E h (enforcer s) Hh s).
Qed.

(** An enforcement program leaves the policy, the staged arguments and the
    event ring alone; it only appends deny records and may tag its own process. *)
Theorem enforcement_touches_only `{L : LpmTrie} n E `{!EnvOk E} h s :
  enforcement_hook h = true -> wf n s -> enforces_only E s (run_hook h E s).2.
Proof.
  intros Hh Hwf. by apply (enforcement_frame n E h s Hh s); [split; [|apply enforces_only_refl]].
Qed.

(** A program run for one process leaves another process's staged arguments,
    its tag and the policy unchanged. *)
Theorem other_processes_frame `{L : LpmTrie} n E `{!EnvOk E} h q s :
  current_pid E <> q -> wf n s -> frame_for q s (run_hook h E s).2.
Proof. intros Hq Hwf. by apply (run_hook_frame n E h q s Hq s). Qed.

(** Every program answers with a code its attach point understands: 0 or 1 for
    the cgroup hooks, 0 or -EPERM for the LSM and fmod_ret hooks, 0 for the
    tracepoints, in every state and environment. *)
Theorem hook_answers `{L : LpmTrie} E h s : answer_ok h (run_hook h E s).1.
Proof. apply run_hook_code. Qed.

(** ** Who is enforced, and in which regime *)

(** The hooks that decide for the calling process; the cgroup hooks decide for
    a cgroup and have no gate. *)
Definition process_hook (h : hook) : bool := enforcement_hook h && negb (cgroup_hook h).

(** Of these, the LSM path hooks are stubs that always allow. *)
Definition stub_hook (h : hook) : bool :=
  match h with E_path_unlink | E_path_rename => true | _ => false end.

Section gates.
Context `{L : LpmTrie} (E : env).

Definition exempt (s : kstate) : Prop := active s || closed s = false \/ ~ enrolled E s.

Lemma exempt_gate s :
  exempt s -> exists s', Enforcer.enforce_gate E s = (false, s') /\ enforcer s' = enforcer s.
Proof.
  intros Hex. destruct (after_ensure_frame E s) as [Hf _].
  destruct (enforce_gate_cases E s) as [(Ha & He & _)|[(Ha & He & ->)|(Ha & ->)]].
  - destruct Hex; [congruence|done].
  - by eexists.
  - by eexists.
Qed.

Lemma enrolled_gate s :
  active s || closed s = true -> enrolled E s -> Enforcer.enforce_gate E s = (true, after_ensure E s).
Proof.
  intros Ha He. destruct (enforce_gate_cases E s) as [(_ & _ & ->)|[(_ & Hn & _)|(Hn & _)]];
    [done|done|congruence].
Qed.

Lemma exempt_quiet s s' : quiet E s s' -> exempt s -> exempt s'.
Proof.
  intros [He Hp _ _]. unfold exempt.
  by rewrite (active_pol _ _ Hp), (closed_pol _ _ Hp), (enrolled_enroll E _ _ He).
Qed.

(** The counter a hook increments before its gate. *)
Local Ltac count_first :=
  first [ erewrite run_bind by apply stat_inc_run
        | erewrite run_bind by done; erewrite run_bind by apply stat_inc_run ].

(** C34. A process that is not enrolled, or any process when neither flag of the
    control word is set, passes every process-level hook, and nothing is reported.
    *)
Theorem exempt_passes h s :
  process_hook h = true -> exempt s ->
  (run_hook h E s).1 = 0 /\
  deny_verdicts (enforcer (run_hook h E s).2) = deny_verdicts (enforcer s).
Proof.
  intros Hh Hex.
  assert (forall i, exists s', Enforcer.enforce_gate E (bump E i s) = (false, s') /\
            deny_verdicts (enforcer s') = deny_verdicts (enforcer s)) as Hb.
  { intros i. destruct (exempt_gate _ (exempt_quiet _ _ (bump_quiet E i s) Hex)) as (s' & -> & Hs').
    exists s'. split; [done|]. rewrite Hs'. by destruct (bump_quiet E i s). }
  destruct (exempt_gate s Hex) as (s0 & Hg0 & Hs0).
  destruct h; try discriminate Hh; cbn [run_hook].
  all: unfold Enforcer.enforce_file_open, Enforcer.enforce_path_unlink, Enforcer.enforce_path_rename,
    Enforcer.enforce_socket_connect, Enforcer.enforce_openat_entry,
    Enforcer.enforce_connect_entry, Enforcer.enforce_unlinkat_entry,
    Enforcer.enforce_unlink_entry, Enforcer.enforce_renameat2_entry.
  all: try count_first; try (match goal with |- context [bump _ ?i _] =>
              destruct (Hb i) as (s' & Hg & Hv); by erewrite run_bind by apply Hg end).
  all: erewrite run_bind by apply Hg0; cbn [negb]; split; [done|]; cbn [snd mret prog_ret].
  all: by rewrite <- Hs0.
Qed.

(** C33. Fail closed: with enforcement off and the fail-closed flag set, every
    process-level hook except the two LSM path stubs denies an enrolled process. *)
Theorem closed_denies h s :
  process_hook h = true -> stub_hook h = false ->
  active s = false -> closed s = true -> enrolled E s ->
  (run_hook h E s).1 = - EPERM.
Proof.
  intros Hh Hst Ha Hc He.
  assert (forall s', quiet E s s' -> Enforcer.enforce_gate E s' = (true, after_ensure E s') /\
            Enforcer.enforcement_live E (after_ensure E s') = (false, after_ensure E s')) as Hg.
  { intros s' [He' Hp _ _]. split.
    - apply enrolled_gate; [by rewrite (active_pol _ _ Hp), (closed_pol _ _ Hp), Ha, Hc|].
      by apply (enrolled_enroll E _ _ He').
    - by rewrite enforcement_live_run, active_after_ensure, (active_pol _ _ Hp), Ha. }
  destruct h; try discriminate Hh; try discriminate Hst; cbn [run_hook].
  all: unfold Enforcer.enforce_file_open, Enforcer.enforce_socket_connect,
    Enforcer.enforce_openat_entry, Enforcer.enforce_connect_entry,
    Enforcer.enforce_unlinkat_entry, Enforcer.enforce_unlink_entry,
    Enforcer.enforce_renameat2_entry.
  all: try count_first.
  all: match goal with
    | |- context [bump _ ?i _] => destruct (Hg _ (bump_quiet E i s)) as [Hg1 Hg2]
    | _ => destruct (Hg s ltac:(done)) as [Hg1 Hg2]
    end.
  all: erewrite run_bind by apply Hg1; cbn [negb]; erewrite run_bind by apply Hg2; cbn [negb].
  all: by erewrite run_bind by apply stat_inc_run.
Qed.

(** Outside the live regime the cgroup hooks allow everything when the fail-
    closed flag is off and deny everything when it is on. *)
Theorem cgroup_not_live h s :
  cgroup_hook h = true -> active s = false ->
  (run_hook h E s).1 = if closed s then 0 else 1.
Proof.
  intros Hh Ha. destruct h; try discriminate Hh; cbn [run_hook].
  all: unfold Enforcer.enforce_cgroup_connect4, Enforcer.enforce_cgroup_connect6; cbv zeta.
  all: erewrite run_bind by apply cgroup_should_enforce_run; rewrite Ha; cbn [orb].
  all: destruct (closed s); cbn [negb]; [|done].
  all: erewrite run_bind by apply enforcement_live_run; rewrite Ha; cbn [negb].
  all: by erewrite run_bind by apply stat_inc_run.
Qed.
End gates.

(** ** The LSM hooks *)

Section lsm.
Context `{L : LpmTrie} (E : env).

(** The key of the opened file's inode. *)
Definition file_key (f : file) : option inode_key :=
  match f_inode f with
  | Some i => Some (mk_inode_key (i_ino i)
                      (u32 match i_sb i with Some sb => s_dev sb | None => 0 end) 0)
  | None => None
  end.

Definition inode_verdict (m : enforcer_maps) (f : file) : option Z :=
  let rule t := match file_key f with Some k => t !! k | None => None end in
  open_verdict (rule (inode_deny m)) (rule (inode_allow m)) VERDICT_OPEN
    (nonzero (Z.land (f_flags f) O_ACCMODE)).

Lemma inode_rule_lookup_run map f s :
  Enforcer.inode_rule_lookup map f E s =
  (match file_key f with Some k => map (enforcer s) !! k | None => None end, s).
Proof. unfold Enforcer.inode_rule_lookup, file_key. by destruct (f_inode f). Qed.

Lemma file_open_run f s :
  active s = true -> enrolled E s ->
  (run_hook (E_file_open f) E s).1 = if inode_verdict (enforcer s) f then - EPERM else 0.
Proof.
  intros Ha He. cbn [run_hook]. unfold Enforcer.enforce_file_open.
  destruct (bump_quiet E STAT_FILE_OPEN s) as [Hq1 Hq2 _ _].
  erewrite run_bind by apply stat_inc_run.
  erewrite run_bind; [|apply enrolled_gate; [by rewrite (active_pol _ _ Hq2), Ha|by apply (enrolled_enroll E _ _ Hq1)]].
  cbn [negb]. erewrite run_bind by apply enforcement_live_run.
  rewrite active_after_ensure, (active_pol _ _ Hq2), Ha. cbn [negb].
  erewrite run_bind by apply stat_inc_run. cbv zeta.
  erewrite run_bind by apply inode_rule_lookup_run. erewrite run_bind by apply inode_rule_lookup_run.
  rewrite enforce_open_verdict_run.
  set (s3 := bump E STAT_GATE_PASS _).
  assert (pol_eq (enforcer s3) (enforcer s)) as Hp.
  { subst s3. etrans; [apply (q_policy _ _ _ (bump_quiet E STAT_GATE_PASS _))|].
    by rewrite (proj1 (after_ensure_frame E _)). }
  unfold inode_verdict.
  rewrite (eq_inode_deny _ _ Hp), (eq_inode_allow _ _ Hp). by destruct (open_verdict _ _ _ _).
Qed.

(** file_open of an enrolled process in the live regime answers -EPERM exactly
    when the deny and allow rules of the file's inode and device give a denial. *)
Theorem file_open_decides f s :
  active s = true -> enrolled E s ->
  (run_hook (E_file_open f) E s).1 = if inode_verdict (enforcer s) f then - EPERM else 0.
Proof. apply file_open_run. Qed.

(** socket_connect reads the address it decides on through a user-memory read
    of its own stack, which fails, so the hook never denies while enforcement
    is live, whatever the policy. *)
Lemma enforce_connect_zero `{!EnvOk E} a s : (Enforcer.enforce_connect a E s).1 = 0.
Proof.
  assert (forall n, (bpf_probe_read_user E (stack_addr E) n).1 = false) as Hs.
  { intros. apply probe_read_user_range, stack_is_kernel. }
  unfold Enforcer.enforce_connect. erewrite run_bind by done. cbn beta.
  destruct (bpf_probe_read_user E a 2).1; [|done]. cbn [negb]. cbv zeta.
  destruct (_ =? AF_INET).
  - erewrite run_bind by done. cbn beta. destruct (bpf_probe_read_user E a _).1; [|done]. cbn [negb].
    erewrite run_bind by done. cbn beta. by rewrite Hs.
  - destruct (_ =? AF_INET6); [|done].
    erewrite run_bind by done. cbn beta. destruct (bpf_probe_read_user E a _).1; [|done]. cbn [negb].
    erewrite run_bind by done. cbn beta. by rewrite Hs.
Qed.

(** C38. The LSM socket_connect hook never denies in the live regime, whatever the
    policy and the address: it reads the address it decides on with a user-memory
    read of its own stack, which fails. *)
Theorem socket_connect_never_denies `{!EnvOk E} a s :
  active s = true -> (run_hook (E_socket_connect a) E s).1 = 0.
Proof.
  intros Ha. cbn [run_hook]. unfold Enforcer.enforce_socket_connect.
  destruct (enforce_gate_cases E s) as [(_ & _ & Hg)|[(_ & _ & Hg)|(_ & Hg)]];
    erewrite run_bind by apply Hg; [|done|done]. cbn [negb].
  erewrite run_bind by apply enforcement_live_run. rewrite active_after_ensure, Ha. cbn [negb].
  pose proof (enforce_connect_zero a (after_ensure E s)) as Hz.
  unfold mbind, prog_bind at 1. rewrite Hz. done.
Qed.
End lsm.

(** ** Tags *)

(** A fork of a tagged process tags the child before it runs. *)
Lemma tag_then_output E (child : Z) (e : env -> list Z) s :
  map_update_ok E M_tagged_pids = true ->
  is_tagged child (state_of (_ ← Enroll.tag_pid child; e ← ask e;
                             _ ← Enroll.ringbuf_output e; mret (A := Z) 0) E s).
Proof.
  intros Hok. rewrite state_of_bind, state_of_bind. set (st := state_of _ E s).
  change (state_of (ask e) E st) with st. rewrite state_of_bind.
  destruct (ringbuf_output_run E (ret_of (ask e) E st) st) as [rc Hrc].
  destruct (output_frame E (ret_of (ask e) E st) st) as (_ & ev & dr & Hen).
  unfold state_of at 2. rewrite Hrc. unfold is_tagged, state_of. cbn [snd mret prog_ret].
  rewrite Hen. cbn. rewrite Hok. unfold hash_update. rewrite lookup_insert_eq. by eexists.
Qed.

(** A fork of a tagged process tags the child before it runs, when the map
    update succeeds. *)
Theorem fork_propagates E ctx s :
  is_tagged (u32 (parent_pid ctx)) s -> map_update_ok E M_tagged_pids = true ->
  is_tagged (u32 (child_pid ctx)) (state_of (Enroll.handle_fork ctx) E s).
Proof.
  intros Ht Hok. unfold Enroll.handle_fork. rewrite state_of_bind, state_of_bind.
  change (state_of (ask _) E s) with s.
  change (ret_of (Enroll.is_tagged_pid (u32 (parent_pid ctx))) E s)
    with (bool_decide (is_tagged (u32 (parent_pid ctx)) s)).
  rewrite bool_decide_true by done. by apply tag_then_output.
Qed.

(** Observing a descendant of a tagged process tags it: the tracepoints and the
    gate walk up to 16 parents. *)
Lemma ancestor_propagates E s :
  tagged_ancestor E s 16 (current_pid E) (task_of E) -> map_update_ok E M_tagged_pids = true ->
  is_tagged (current_pid E) (state_of (Enroll.ensure_tagged_from_ancestor (current_pid E)) E s).
Proof.
  intros Ht Hok. rewrite ensure_tagged_copies. change (is_tagged (current_pid E) (after_ensure E s)).
  exact (proj2 (ensure_tagged_enrolled E s) (or_intror (conj Ht Hok))).
Qed.

