(* ===== verification/Contexts.v ===== *)
(** * Contexts: opening a file in kernel memory

    The file_open hook gets a pointer to a [struct file] and follows it to the inode and
    the superblock.  The fields are at the offsets of [Vmlinux]'s types; the hook decides
    on the inode number and the device stored there. *)

From Stdlib Require Import String.
From S2P Require Import Prelude Ctypes Types Bpf State Logic.
From S2P Require Vmlinux Enforcer Enroll.
From S2P Require Import Gate PathVerdict Hooks Records Machine Concrete CoreRead Staging Safety.

#[local] Open Scope string_scope.
#[local] Open Scope Z_scope.

(** ** Kernel objects *)

(** At [a] there is an object of type [t] with these field values; its other
    bytes are arbitrary. *)
Definition object_at (km : Z -> option Z) (t : ctype) (a : Z) (fs : list (access * Z)) : Prop :=
  Forall (fits t) fs /\
  exists raw, length raw = Z.to_nat (sizeof t) /\ holds_at km a (encode t fs raw).

Lemma object_field km t a fs x v :
  object_at km t a fs -> wf_ctype t = true -> separate t fs.*1 = true -> (x, v) ∈ fs ->
  BPF_CORE_READ km t a x = v.
Proof. intros (Hf & raw & Hl & Hh) Hwf Hs Hin. by apply (core_read_roundtrip km t a raw fs x v). Qed.

Definition file_fields (flags inode : Z) : list (access * Z) :=
  [(Fld "f_flags", flags); (Fld "f_inode", inode)].
Definition inode_fields (sb ino : Z) : list (access * Z) :=
  [(Fld "i_sb", sb); (Fld "i_ino", ino)].
Definition super_block_fields (dev : Z) : list (access * Z) := [(Fld "s_dev", dev)].

(** An open file in kernel memory: the file, its inode and the inode's superblock. *)
Definition file_in_memory (km : Z -> option Z) (a flags ino dev : Z) : Prop :=
  exists i sb, i <> 0 /\ sb <> 0 /\
    object_at km Vmlinux.struct_file a (file_fields flags i) /\
    object_at km Vmlinux.struct_inode i (inode_fields sb ino) /\
    object_at km Vmlinux.struct_super_block sb (super_block_fields dev).

Lemma file_of_memory_fields km a flags ino dev :
  file_in_memory km a flags ino dev ->
  file_of_memory km a = mk_file flags (Some (mk_inode (Some (mk_super_block dev)) ino)).
Proof.
  intros (i & sb & Hi & Hsb & Hf & Hin & Hs).
  assert (forall x v, (x, v) ∈ file_fields flags i -> BPF_CORE_READ km Vmlinux.struct_file a x = v) as Rf.
  { intros x v. by apply object_field; [|vm_compute; reflexivity|vm_compute; reflexivity]. }
  assert (forall x v, (x, v) ∈ inode_fields sb ino -> BPF_CORE_READ km Vmlinux.struct_inode i x = v) as Ri.
  { intros x v. by apply object_field; [|vm_compute; reflexivity|vm_compute; reflexivity]. }
  assert (BPF_CORE_READ km Vmlinux.struct_super_block sb (Fld "s_dev") = dev) as Rs.
  { apply (object_field _ _ _ (super_block_fields dev)); [done|vm_compute; reflexivity|vm_compute; reflexivity|by left]. }
  unfold file_of_memory, inode_of_memory, super_block_of_memory. cbv zeta.
  rewrite (Rf (Fld "f_flags") flags), (Rf (Fld "f_inode") i) by (repeat (first [by left|right])).
  rewrite (Ri (Fld "i_sb") sb), (Ri (Fld "i_ino") ino) by (repeat (first [by left|right])).
  by rewrite Rs, (proj2 (Z.eqb_neq i 0) Hi), (proj2 (Z.eqb_neq sb 0) Hsb).
Qed.

(** The opening of a file in kernel memory, of which the inode number and the
    superblock's device are stored in the objects its pointers lead to: in the live
    regime an enrolled process is denied exactly when the entries of that inode and
    device in the deny and allow maps give a denial. *)
Theorem memory_file_open_decides `{L : LpmTrie} E km a flags ino dev s :
  file_in_memory km a flags ino dev -> is_u32 dev -> active s = true -> enrolled E s ->
  (run_hook (E_file_open (file_of_memory km a)) E s).1 =
  if open_verdict (inode_deny (enforcer s) !! mk_inode_key ino dev 0)
       (inode_allow (enforcer s) !! mk_inode_key ino dev 0) VERDICT_OPEN
       (nonzero (Z.land flags O_ACCMODE))
  then - EPERM else 0.
Proof.
  intros Hf Hd Ha He. rewrite file_open_run by done.
  rewrite (file_of_memory_fields _ _ _ _ _ Hf). unfold inode_verdict, file_key.
  cbn [f_inode i_sb s_dev i_ino f_flags]. unfold u32. by rewrite Z.mod_small.
Qed.
