(* ===== verification/Control.v ===== *)
(** * Control: what the control word decides

    [policy_ctrl] also carries a default-deny byte, padding and the policy
    version.  A simulation between a run and the run with another control word
    shows that the programs depend on its two regime flags only. *)

From S2P Require Import Prelude Types Bpf State Logic.
From S2P Require Enforcer Enroll.
From S2P Require Import Gate Machine.

Definition set_policy_ctrl (l : list policy_ctrl) (m : enforcer_maps) : enforcer_maps :=
  mk_enforcer_maps l (inode_deny m) (inode_allow m) (path_deny m) (path_allow m) (ip_deny m)
    (port_deny m) (ip_allow m) (port_allow m) (deny_verdicts m) (lpm_scratch m) (path_scratch m)
    (enforce_stats m).

(** The same state under the control word [c]. *)
Definition recontrol (c : policy_ctrl) (s : kstate) : kstate :=
  on_enforcer (set_policy_ctrl [c]) s.

(** [c] puts the enforcer in the regime [s] is in. *)
Definition same_regime (c : policy_ctrl) (s : kstate) : Prop :=
  active s = nonzero (enforcement_active c) /\ closed s = nonzero (fail_closed c).

(** A run under [c] answers the same and leaves the same state, up to the
    control word. *)
Definition recontrols {A} (E : env) (c : policy_ctrl) (m : prog A) : Prop :=
  forall s, same_regime c s ->
    m E (recontrol c s) = ((m E s).1, recontrol c (m E s).2) /\ same_regime c (m E s).2.

Section rules.
Context {E : env} {c : policy_ctrl}.

Lemma recontrols_ret {A} (a : A) : recontrols E c (mret a).
Proof. by split. Qed.

Lemma recontrols_bind {A B} (m : prog A) (f : A -> prog B) :
  recontrols E c m -> (forall a, recontrols E c (f a)) -> recontrols E c (m ≫= f).
Proof.
  intros Hm Hf s Hs. unfold mbind, prog_bind. cbv zeta. destruct (Hm s Hs) as [-> Hs'].
  cbn [fst snd]. apply Hf, Hs'.
Qed.

Lemma recontrols_ask {A} (g : env -> A) : recontrols E c (ask g).
Proof. by split. Qed.

Lemma recontrols_gets {A} (g : kstate -> A) :
  (forall s, g (recontrol c s) = g s) -> recontrols E c (gets g).
Proof. intros Hg s Hs. unfold gets. by rewrite Hg. Qed.

Lemma recontrols_this_cpu {V} (g : kstate -> percpu V) k :
  (forall s, g (recontrol c s) = g s) -> recontrols E c (this_cpu g k).
Proof. intros Hg s Hs. unfold this_cpu. by rewrite Hg. Qed.

Lemma recontrols_modify_env (g : env -> kstate -> kstate) :
  (forall s, g E (recontrol c s) = recontrol c (g E s) /\ ctrl (g E s) = ctrl s) ->
  recontrols E c (modify_env g).
Proof.
  intros Hg s Hs. destruct (Hg s) as [H1 H2]. unfold modify_env. rewrite H1. split; [done|].
  unfold same_regime, active, closed. cbn [snd]. by rewrite H2.
Qed.

Lemma recontrols_modify (g : kstate -> kstate) :
  (forall s, g (recontrol c s) = recontrol c (g s) /\ ctrl (g s) = ctrl s) ->
  recontrols E c (modify g).
Proof. apply (recontrols_modify_env (fun _ => g)). Qed.

(** The programs that read the control word. *)
Lemma active_recontrol s : same_regime c s -> active (recontrol c s) = active s.
Proof. by intros [-> _]. Qed.

Lemma closed_recontrol s : same_regime c s -> closed (recontrol c s) = closed s.
Proof. by intros [_ ->]. Qed.

Lemma recontrols_live : recontrols E c Enforcer.enforcement_live.
Proof. intros s Hs. by rewrite !enforcement_live_run, active_recontrol. Qed.

Lemma recontrols_fail_closed : recontrols E c Enforcer.fail_closed_regime.
Proof. intros s Hs. by rewrite !fail_closed_regime_run, active_recontrol, closed_recontrol. Qed.
End rules.

Create HintDb recontrols discriminated.
#[export] Hint Resolve recontrols_ret recontrols_ask recontrols_live recontrols_fail_closed : recontrols.

Ltac recontrols_step :=
  lazymatch goal with
  | |- recontrols _ _ (mbind _ _) => apply recontrols_bind; [|intros ?]
  | |- recontrols _ _ (gets _) => apply recontrols_gets; done
  | |- recontrols _ _ (enr _) => apply recontrols_gets; done
  | |- recontrols _ _ (enf _) => apply recontrols_gets; done
  | |- recontrols _ _ (this_cpu _ _) => apply recontrols_this_cpu; done
  | |- recontrols _ _ (modify_env _) => apply recontrols_modify_env; done
  | |- recontrols _ _ (modify _) => apply recontrols_modify; done
  | |- recontrols _ _ (if ?b then _ else _) => destruct_innermost b; cbn iota
  | |- recontrols _ _ (match ?x with _ => _ end) => destruct_innermost x; cbn iota
  | |- recontrols _ _ _ => progress cbv beta zeta
  end.

(** Walk through a program, unfolding the calls that have no hint. *)
Ltac recontrols_tac := repeat (first [solve [eauto with recontrols] | recontrols_step]).

Section programs.
Context `{L : LpmTrie} {E : env} {c : policy_ctrl}.

Lemma recontrols_stat_inc i : recontrols E c (Enforcer.stat_inc i).
Proof. unfold Enforcer.stat_inc. recontrols_tac. Qed.

Lemma recontrols_tag_loop n pid task : recontrols E c (Enforcer.tag_from_ancestor_loop n pid task).
Proof.
  revert task. induction n as [|n IH]; intros task; cbn; unfold Enforcer.is_tagged_pid; recontrols_tac.
Qed.

Hint Resolve recontrols_stat_inc recontrols_tag_loop : recontrols.

Lemma recontrols_ensure pid : recontrols E c (Enforcer.ensure_tagged_from_ancestor pid).
Proof. unfold Enforcer.ensure_tagged_from_ancestor, Enforcer.is_tagged_pid. recontrols_tac. Qed.

Lemma recontrols_gate : recontrols E c Enforcer.enforce_gate.
Proof.
  intros s Hs. pose proof (recontrols_ensure (current_pid E) s Hs) as [He Hs'].
  rewrite !enforce_gate_run, active_recontrol, closed_recontrol by done. destruct (active s || closed s); [|done]. unfold after_ensure, state_of. by rewrite He.
Qed.
End programs.

#[export] Hint Resolve recontrols_stat_inc recontrols_ensure recontrols_gate : recontrols.

Section enforcer_programs.
Context `{L : LpmTrie} {E : env} {c : policy_ctrl}.
Import Enforcer.

Lemma recontrols_emit a h p n i j q : recontrols E c (emit_deny_ex a h p n i j q).
Proof. unfold emit_deny_ex. recontrols_tac. Qed.

Hint Resolve recontrols_emit : recontrols.

Lemma recontrols_path_lpm map p n :
  (forall s, map (enforcer (recontrol c s)) = map (enforcer s)) ->
  recontrols E c (path_lpm_lookup map p n).
Proof.
  intros Hm. unfold path_lpm_lookup, scratch_lpm_key, write_lpm_key. recontrols_tac.
  all: by apply recontrols_gets.
Qed.

Lemma recontrols_ip_lpm map p n :
  (forall s, map (enforcer (recontrol c s)) = map (enforcer s)) ->
  recontrols E c (ip_lpm_lookup map p n).
Proof.
  intros Hm. unfold ip_lpm_lookup, scratch_lpm_key, write_lpm_key. recontrols_tac.
  all: by apply recontrols_gets.
Qed.

Lemma recontrols_inode map f :
  (forall s, map (enforcer (recontrol c s)) = map (enforcer s)) ->
  recontrols E c (inode_rule_lookup map f).
Proof. intros Hm. unfold inode_rule_lookup. recontrols_tac. all: by apply recontrols_gets. Qed.

Lemma recontrols_copy d p n : recontrols E c (copy_path_bounded d p n).
Proof. unfold copy_path_bounded, write_path_buf. recontrols_tac. Qed.

Lemma recontrols_open_verdict d a v w p n : recontrols E c (enforce_open_verdict d a v w p n).
Proof. unfold enforce_open_verdict, emit_deny. recontrols_tac. Qed.

Lemma recontrols_scratch_path : recontrols E c scratch_path_buf.
Proof. unfold scratch_path_buf. recontrols_tac. Qed.

Hint Resolve recontrols_path_lpm recontrols_ip_lpm recontrols_inode recontrols_copy
  recontrols_open_verdict recontrols_scratch_path : recontrols.

Lemma recontrols_path p n v w : recontrols E c (enforce_path p n v w).
Proof. unfold enforce_path. recontrols_tac. Qed.

Lemma recontrols_deny_connect h p n q : recontrols E c (deny_connect h p n q).
Proof. unfold deny_connect. recontrols_tac. Qed.

Hint Resolve recontrols_path recontrols_deny_connect : recontrols.

Lemma recontrols_connect_parsed p n q : recontrols E c (enforce_connect_parsed p n q).
Proof. unfold enforce_connect_parsed, when. recontrols_tac. Qed.

Hint Resolve recontrols_connect_parsed : recontrols.

Lemma recontrols_enforcement h : enforcement_hook h = true -> recontrols E c (run_hook h).
Proof.
  destruct h; try done; intros _; cbn [run_hook].
  all: unfold enforce_cgroup_connect4, enforce_cgroup_connect6, cgroup_should_enforce,
    cgroup_connect_action, enforce_file_open, enforce_path_unlink, enforce_path_rename,
    enforce_socket_connect, enforce_connect, enforce_openat_entry, enforce_connect_entry,
    enforce_unlinkat_entry, enforce_unlink_entry, enforce_renameat2_entry,
    enforce_openat_from_pending, enforce_connect_from_pending, enforce_unlink_from_pending,
    enforce_rename_from_pending.
  all: recontrols_tac.
Qed.
End enforcer_programs.

(** The enforcement programs answer the same, and leave the same state up to
    the control word, under every control word with the same two regime flags: the
    default-deny byte and the policy version are never consulted. *)
Theorem only_regime_flags_matter `{L : LpmTrie} E c h s :
  enforcement_hook h = true -> same_regime c s ->
  run_hook h E (recontrol c s) = ((run_hook h E s).1, recontrol c (run_hook h E s).2).
Proof. intros Hh Hs. by apply recontrols_enforcement. Qed.
