(* ===== verification/Policy.v ===== *)
(** * Policy: compiled policies and their evaluation

    The compiled rules of [internal/policy/compile.go] and their evaluation in
    userspace ([internal/policy/eval.go], and the path matching of compile.go),
    which shadow reports use and the kernel maps are loaded to agree with.  Go
    strings are byte lists; parsing of addresses is [net]'s and comes as a
    parameter. *)

From Stdlib Require Import String.
From S2P Require Import Prelude.

Abbreviation gostring := (list Z).

(** ** The string functions of [strings] the package uses *)

Definition streq (s t : gostring) : bool := bool_decide (s = t).
Definition HasPrefix (s prefix : gostring) : bool := streq (take (length prefix) s) prefix.
Definition HasSuffix (s suffix : gostring) : bool :=
  (length suffix <=? length s)%nat && streq (drop (length s - length suffix) s) suffix.
Definition TrimSuffix (s suffix : gostring) : gostring :=
  if HasSuffix s suffix then take (length s - length suffix) s else s.
Definition TrimPrefix (s prefix : gostring) : gostring :=
  if HasPrefix s prefix then drop (length prefix) s else s.

(** [strings.Contains (s, sub)], and the text before and after the first occurrence. *)
Fixpoint Cut (s sep : gostring) : option (gostring * gostring) :=
  if HasPrefix s sep then Some ([], drop (length sep) s)
  else match s with
       | [] => None
       | b :: s => r ← Cut s sep; Some (b :: r.1, r.2)
       end.

Definition Contains (s sub : gostring) : bool := bool_decide (is_Some (Cut s sub)).

(** [strings.Split (s, sep)] for a separator of one byte. *)
Definition STAR : Z := 42.
Fixpoint split_on (sep : Z) (s : gostring) : list gostring :=
  match s with
  | [] => [[]]
  | b :: s => if b =? sep then [] :: split_on sep s
              else match split_on sep s with
                   | p :: ps => (b :: p) :: ps
                   | [] => [[b]]
                   end
  end.

Lemma streq_spec s t : streq s t = true <-> s = t.
Proof. unfold streq. by rewrite bool_decide_eq_true. Qed.

Lemma streq_refl s : streq s s = true.
Proof. by apply streq_spec. Qed.

Lemma HasPrefix_spec s t : HasPrefix s t = true <-> t `prefix_of` s.
Proof.
  unfold HasPrefix. rewrite streq_spec. split.
  - intros <-. exists (drop (length t) s). by rewrite take_drop.
  - intros [u ->]. apply take_app_length.
Qed.

Lemma HasSuffix_app s t : HasSuffix (s ++ t) t = true.
Proof.
  unfold HasSuffix. rewrite length_app, andb_true_iff, streq_spec. split; [apply Nat.leb_le; lia|].
  by replace (length s + length t - length t)%nat with (length s) by lia; rewrite drop_app_length.
Qed.

Lemma TrimSuffix_app s t : TrimSuffix (s ++ t) t = s.
Proof.
  unfold TrimSuffix. rewrite HasSuffix_app, length_app.
  by replace (length s + length t - length t)%nat with (length s) by lia; rewrite take_app_length.
Qed.

Lemma HasSuffix_spec s t : HasSuffix s t = true <-> exists v, s = v ++ t.
Proof.
  split; [|intros [v ->]; apply HasSuffix_app].
  unfold HasSuffix. rewrite andb_true_iff, streq_spec. intros [_ Hd].
  exists (take (length s - length t) s). rewrite <- Hd at 2. by rewrite take_drop.
Qed.

Lemma existsb_elem {A} (f : A -> bool) l : existsb f l = true <-> exists x, x ∈ l /\ f x = true.
Proof. rewrite existsb_exists. by setoid_rewrite list_elem_of_In. Qed.

(** ** Compiled rules *)

Definition DecisionAllow : gostring := bytes_of "allow".
Definition DecisionDeny : gostring := bytes_of "deny".
Definition DefaultActionDeny : gostring := bytes_of "deny".
Definition FailDirectionClosed : gostring := bytes_of "closed".

Record CompiledRule := mk_rule {
  ID : gostring;
  Rationale : gostring;
  Decision : gostring;
  Action : gostring;
  PathIn : list gostring;
  PathNotIn : list gostring;
  DestIPIn : list gostring;
  DestIPNotIn : list gostring;
  DestPortIn : list Z;
  DestPortNotIn : list Z;
  UID : option Z;
  Binary : gostring;
  Cgroup : gostring;
  Specificity : Z
}.

#[global] Instance CompiledRule_eq_dec : EqDecision CompiledRule.
Proof. solve_decision. Defined.

Record CompiledPolicy := mk_policy {
  Version : Z;
  AgentScope : gostring;
  SignedBy : gostring;
  DefaultAction : gostring;
  FailDirection : gostring;
  Live : list CompiledRule;
  Shadow : list CompiledRule
}.

Record ActionInput := mk_input {
  in_Action : gostring;
  in_Path : gostring;
  in_NewPath : gostring;
  in_DestIP : gostring;
  in_DestPort : Z;
  in_WriteIntent : bool;
  in_UID : option Z;
  in_Binary : gostring;
  in_Cgroup : gostring
}.

(** ** Matching paths (compile.go) *)

Definition homeSSHGlobPattern : gostring := bytes_of "/home/*/.ssh/*".
Definition slash_star : gostring := bytes_of "/*".

Definition pathMatchesHomeSSH (path : gostring) : bool :=
  if negb (HasPrefix path (bytes_of "/home/")) then false else
  match Cut (TrimPrefix path (bytes_of "/home/")) (bytes_of "/.ssh/") with
  | None => false
  | Some (user, suffix) =>
      if streq user [] || Contains user (bytes_of "/") then false else
      match suffix with [] => true | b :: _ => negb (b =? 47) end
  end.

Definition pathMatchesGlob (path pattern : gostring) : bool :=
  if streq pattern path then true else
  if streq pattern homeSSHGlobPattern then pathMatchesHomeSSH path else
  if HasSuffix pattern slash_star then
    let prefix := TrimSuffix pattern slash_star in
    streq path prefix || HasPrefix path (prefix ++ bytes_of "/")
  else if Contains pattern [STAR] then
    match split_on STAR pattern with
    | [a; b] => HasPrefix path a && HasSuffix path b
    | _ => false
    end
  else false.

Definition ruleMatchesPath (r : CompiledRule) (path : gostring) : bool :=
  match PathIn r, PathNotIn r with
  | [], [] => true
  | _, _ =>
      if existsb (pathMatchesGlob path) (PathNotIn r) then false else
      match PathIn r with [] => true | ps => existsb (pathMatchesGlob path) ps end
  end.

(** ** Evaluation (eval.go) *)

Section eval.
(** [net.ParseIP (dest)] is an address inside the rule's CIDR or address text. *)
Context (ipInCIDR : gostring -> gostring -> bool) (ParseIP_ok : gostring -> bool).

Definition normalizeScopeID (id : gostring) : gostring := TrimPrefix id (bytes_of "agent:").

Definition ScopeMatches (agentID agentScope : gostring) : bool :=
  if streq agentScope [] || streq agentID [] then false
  else streq (normalizeScopeID agentID) (normalizeScopeID agentScope).

Definition ruleMatchesAction (r : CompiledRule) (i : ActionInput) : bool :=
  streq (Action r) (in_Action i) ||
  (streq (in_Action i) (bytes_of "open") && streq (Action r) (bytes_of "write") && in_WriteIntent i).

Definition ruleMatchesPaths (r : CompiledRule) (i : ActionInput) : bool :=
  if streq (in_Action i) (bytes_of "rename")
  then ruleMatchesPath r (in_Path i) || ruleMatchesPath r (in_NewPath i)
  else ruleMatchesPath r (if streq (in_Path i) [] then in_NewPath i else in_Path i).

Definition ruleMatchesDestIP (r : CompiledRule) (dest : gostring) : bool :=
  if negb (ParseIP_ok dest) then false else
  if existsb (ipInCIDR dest) (DestIPNotIn r) then false else
  match DestIPIn r with [] => true | cs => existsb (ipInCIDR dest) cs end.

Definition ruleMatchesDestPort (r : CompiledRule) (port : Z) : bool :=
  if existsb (Z.eqb port) (DestPortNotIn r) then false else
  match DestPortIn r with [] => true | ps => existsb (Z.eqb port) ps end.

Definition nonempty {A} (l : list A) : bool := match l with [] => false | _ => true end.

Definition ruleMatchesPredicates (r : CompiledRule) (i : ActionInput) : bool :=
  (if nonempty (PathIn r) || nonempty (PathNotIn r) then ruleMatchesPaths r i else true) &&
  (if nonempty (DestIPIn r) || nonempty (DestIPNotIn r)
   then negb (streq (in_DestIP i) []) && ruleMatchesDestIP r (in_DestIP i) else true) &&
  (if nonempty (DestPortIn r) || nonempty (DestPortNotIn r)
   then ruleMatchesDestPort r (in_DestPort i) else true) &&
  match UID r with
  | None => true
  | Some u => match in_UID i with Some v => u =? v | None => false end
  end &&
  (if streq (Binary r) [] then true else negb (streq (in_Binary i) []) && streq (Binary r) (in_Binary i)) &&
  (if streq (Cgroup r) [] then true
   else negb (streq (in_Cgroup i) []) && Contains (in_Cgroup i) (Cgroup r)).

(** One iteration of the loop of [EvaluateActions]. *)
Definition better (i : ActionInput) (best : option CompiledRule) (r : CompiledRule) : option CompiledRule :=
  if negb (ruleMatchesAction r i) then best else
  if negb (ruleMatchesPredicates r i) then best else
  match best with
  | None => Some r
  | Some b =>
      if streq (Decision r) DecisionDeny && streq (Decision b) DecisionAllow then Some r else
      if streq (Decision r) (Decision b) && (Specificity b <? Specificity r) then Some r
      else Some b
  end.

(** The winning rule, of which the code returns decision, id and rationale. *)
Definition EvaluateActions (rules : list CompiledRule) (i : ActionInput) : option CompiledRule :=
  foldl (better i) None rules.

(** A deny hit of a rule set. *)
Definition deny_hit (rules : list CompiledRule) (i : ActionInput) : option CompiledRule :=
  r ← EvaluateActions rules i;
  if streq (Decision r) DecisionDeny then Some r else None.

Inductive hit_source := ShadowSourceShadow | ShadowSourceLivePreview.

Definition EvaluateShadowOnly (cp : CompiledPolicy) (i : ActionInput) : list (hit_source * CompiledRule) :=
  match deny_hit (Shadow cp) i with Some r => [(ShadowSourceShadow, r)] | None => [] end.

Definition EvaluateShadowAndLive (cp : CompiledPolicy) (i : ActionInput) : list (hit_source * CompiledRule) :=
  EvaluateShadowOnly cp i ++
  match deny_hit (Live cp) i with Some r => [(ShadowSourceLivePreview, r)] | None => [] end.
End eval.
