(* ===== verification/MapLoad.v ===== *)
(** * MapLoad: loading a compiled policy into the kernel maps

    [internal/policy/mapload.go] and the reload protocol of [cmd/agent/main.go]
    ([applyLivePolicy], [reloadPolicy]).  Loading is a sequence of single map
    writes, each of which the kernel may refuse and between any two of which the
    BPF programs run, so a [loader] yields its outcome and every state it went
    through.  The file system and [net]'s address parsers are parameters. *)

From Stdlib Require Import String.
From S2P Require Import Prelude Types Bpf State Policy.

(** ** Single writes *)

#[global] Instance lpm_key_eq_dec : EqDecision lpm_key.
Proof. solve_decision. Defined.

(** The maps come in a deny and an allow copy; [true] is the allow copy. *)
Inductive map_write :=
  | PutCtrl (v : policy_ctrl)
  | PutPath (allow : bool) (k : lpm_key) (v : path_rule)
  | PutInode (allow : bool) (k : inode_key) (v : path_rule)
  | PutIP (allow : bool) (k : lpm_key) (v : path_rule)
  | PutPort (allow : bool) (k : Z) (v : port_rule)
  | DeletePath (allow : bool) (k : lpm_key)
  | DeleteInode (allow : bool) (k : inode_key)
  | DeleteIP (allow : bool) (k : lpm_key)
  | DeletePort (allow : bool) (k : Z).

Definition trie_delete (k : lpm_key) (t : lpm_trie) : lpm_trie := filter (fun e => e.1 <> k) t.
Definition trie_put (k : lpm_key) (v : path_rule) (t : lpm_trie) : lpm_trie :=
  trie_delete k t ++ [(k, v)].

Definition path_map (allow : bool) (m : enforcer_maps) : lpm_trie :=
  if allow then path_allow m else path_deny m.
Definition ip_map (allow : bool) (m : enforcer_maps) : lpm_trie :=
  if allow then ip_allow m else ip_deny m.
Definition inode_map (allow : bool) (m : enforcer_maps) : gmap inode_key path_rule :=
  if allow then inode_allow m else inode_deny m.
Definition port_map (allow : bool) (m : enforcer_maps) : gmap Z port_rule :=
  if allow then port_allow m else port_deny m.

Section update.
Context (m : enforcer_maps).
Definition with_ctrl (c : list policy_ctrl) : enforcer_maps :=
  mk_enforcer_maps c (inode_deny m) (inode_allow m) (path_deny m) (path_allow m) (ip_deny m)
    (port_deny m) (ip_allow m) (port_allow m) (deny_verdicts m) (lpm_scratch m) (path_scratch m)
    (enforce_stats m).
Definition with_path (allow : bool) (t : lpm_trie) : enforcer_maps :=
  mk_enforcer_maps (policy_ctrl_map m) (inode_deny m) (inode_allow m)
    (if allow then path_deny m else t) (if allow then t else path_allow m) (ip_deny m)
    (port_deny m) (ip_allow m) (port_allow m) (deny_verdicts m) (lpm_scratch m) (path_scratch m)
    (enforce_stats m).
Definition with_ip (allow : bool) (t : lpm_trie) : enforcer_maps :=
  mk_enforcer_maps (policy_ctrl_map m) (inode_deny m) (inode_allow m) (path_deny m) (path_allow m)
    (if allow then ip_deny m else t) (port_deny m) (if allow then t else ip_allow m)
    (port_allow m) (deny_verdicts m) (lpm_scratch m) (path_scratch m) (enforce_stats m).
Definition with_inode (allow : bool) (t : gmap inode_key path_rule) : enforcer_maps :=
  mk_enforcer_maps (policy_ctrl_map m) (if allow then inode_deny m else t)
    (if allow then t else inode_allow m) (path_deny m) (path_allow m) (ip_deny m)
    (port_deny m) (ip_allow m) (port_allow m) (deny_verdicts m) (lpm_scratch m) (path_scratch m)
    (enforce_stats m).
Definition with_port (allow : bool) (t : gmap Z port_rule) : enforcer_maps :=
  mk_enforcer_maps (policy_ctrl_map m) (inode_deny m) (inode_allow m) (path_deny m) (path_allow m)
    (ip_deny m) (if allow then port_deny m else t) (ip_allow m)
    (if allow then t else port_allow m) (deny_verdicts m) (lpm_scratch m) (path_scratch m)
    (enforce_stats m).
End update.

Definition apply_write (m : enforcer_maps) (w : map_write) : enforcer_maps :=
  match w with
  | PutCtrl v => with_ctrl m [v]
  | PutPath a k v => with_path m a (trie_put k v (path_map a m))
  | PutInode a k v => with_inode m a (<[k := v]> (inode_map a m))
  | PutIP a k v => with_ip m a (trie_put k v (ip_map a m))
  | PutPort a k v => with_port m a (<[k := v]> (port_map a m))
  | DeletePath a k => with_path m a (trie_delete k (path_map a m))
  | DeleteInode a k => with_inode m a (delete k (inode_map a m))
  | DeleteIP a k => with_ip m a (trie_delete k (ip_map a m))
  | DeletePort a k => with_port m a (delete k (port_map a m))
  end.

(** ** Loaders: outcome (None is an error) and the states gone through *)

Definition loader (A : Type) : Type := enforcer_maps -> option A * list enforcer_maps.

(** The state a loader leaves. *)
Definition end_state (m : enforcer_maps) (tr : list enforcer_maps) : enforcer_maps :=
  default m (last tr).

#[global] Instance loader_ret : MRet loader := fun A a m => (Some a, []).
#[global] Instance loader_bind : MBind loader := fun A B f x m =>
  match x m with
  | (None, tr) => (None, tr)
  | (Some a, tr) => let r := f a (end_state m tr) in (r.1, tr ++ r.2)
  end.

Definition fail {A} : loader A := fun m => (None, []).
Definition get_maps : loader enforcer_maps := fun m => (Some m, []).
Definition lift {A} (o : option A) : loader A := match o with Some a => mret a | None => fail end.

(** A range loop that threads a value and stops at the first error. *)
Fixpoint for_each {A B} (f : A -> B -> loader B) (l : list A) (b : B) : loader B :=
  match l with
  | [] => mret b
  | a :: l => b ← f a b; for_each f l b
  end.

(** ** Counts *)

Record LoadStats := mk_stats {
  PathDeny : Z; PathAllow : Z; InodeDeny : Z; InodeAllow : Z;
  IPDeny : Z; IPAllow : Z; PortDeny : Z; PortAllow : Z; Skipped : Z
}.

Definition stats0 : LoadStats := mk_stats 0 0 0 0 0 0 0 0 0.

Definition count_path (allow : bool) (c : LoadStats) : LoadStats :=
  if allow
  then mk_stats (PathDeny c) (PathAllow c + 1) (InodeDeny c) (InodeAllow c) (IPDeny c) (IPAllow c) (PortDeny c) (PortAllow c) (Skipped c)
  else mk_stats (PathDeny c + 1) (PathAllow c) (InodeDeny c) (InodeAllow c) (IPDeny c) (IPAllow c) (PortDeny c) (PortAllow c) (Skipped c).
Definition count_inode (allow : bool) (c : LoadStats) : LoadStats :=
  if allow
  then mk_stats (PathDeny c) (PathAllow c) (InodeDeny c) (InodeAllow c + 1) (IPDeny c) (IPAllow c) (PortDeny c) (PortAllow c) (Skipped c)
  else mk_stats (PathDeny c) (PathAllow c) (InodeDeny c + 1) (InodeAllow c) (IPDeny c) (IPAllow c) (PortDeny c) (PortAllow c) (Skipped c).
Definition count_ip (allow : bool) (c : LoadStats) : LoadStats :=
  if allow
  then mk_stats (PathDeny c) (PathAllow c) (InodeDeny c) (InodeAllow c) (IPDeny c) (IPAllow c + 1) (PortDeny c) (PortAllow c) (Skipped c)
  else mk_stats (PathDeny c) (PathAllow c) (InodeDeny c) (InodeAllow c) (IPDeny c + 1) (IPAllow c) (PortDeny c) (PortAllow c) (Skipped c).
Definition count_port (allow : bool) (c : LoadStats) : LoadStats :=
  if allow
  then mk_stats (PathDeny c) (PathAllow c) (InodeDeny c) (InodeAllow c) (IPDeny c) (IPAllow c) (PortDeny c) (PortAllow c + 1) (Skipped c)
  else mk_stats (PathDeny c) (PathAllow c) (InodeDeny c) (InodeAllow c) (IPDeny c) (IPAllow c) (PortDeny c + 1) (PortAllow c) (Skipped c).
Definition count_skipped (c : LoadStats) : LoadStats :=
  mk_stats (PathDeny c) (PathAllow c) (InodeDeny c) (InodeAllow c) (IPDeny c) (IPAllow c) (PortDeny c) (PortAllow c) (Skipped c + 1).

(** ** Keys and values *)

Definition lpm_key_of (bits : Z) (data : list Z) : lpm_key :=
  mk_lpm_key bits (splice 0 (take 256 data) (zeros 256)).

Definition pathPatternToLPM (pattern : gostring) : option lpm_key :=
  if Contains (TrimSuffix pattern slash_star) [STAR] then None else
  let prefix :=
    if HasSuffix pattern slash_star then
      let p := TrimSuffix pattern slash_star in
      if HasSuffix p (bytes_of "/") then p else p ++ bytes_of "/"
    else pattern in
  if streq prefix [] then None else
  if (256 <? length prefix)%nat then None else
  Some (lpm_key_of (u32 (Z.of_nat (length prefix)) * 8) prefix).

Definition isExactPathPattern (pattern : gostring) : bool :=
  if Contains (TrimSuffix pattern slash_star) [STAR] then false
  else negb (HasSuffix pattern slash_star).

Definition verdictBit (verdict : Z) : Z :=
  if verdict =? 0 then 0 else u8 (Z.shiftl 1 (verdict - 1)).

Definition mergePathRules (existing incoming : path_rule) : path_rule :=
  if negb (decision incoming =? decision existing) then
    if decision incoming =? MAP_DECISION_DENY then incoming else existing
  else if specificity existing <? specificity incoming then incoming
  else if specificity incoming <? specificity existing then existing
  else mk_path_rule (decision existing) (Z.lor (action_mask existing) (action_mask incoming))
         (requires_port existing)
         (if rule_id_hash incoming =? 0 then rule_id_hash existing else rule_id_hash incoming)
         (specificity existing).

Definition actionVerdict (action : gostring) : option Z :=
  if streq action (bytes_of "open") then Some VERDICT_OPEN else
  if streq action (bytes_of "write") then Some VERDICT_WRITE else
  if streq action (bytes_of "unlink") then Some VERDICT_UNLINK else
  if streq action (bytes_of "rename") then Some VERDICT_RENAME else
  if streq action (bytes_of "connect") then Some VERDICT_CONNECT else None.

(** [MapDecisionAllow] or [MapDecisionDeny], as a flag. *)
Definition mapDecision (dec : gostring) : option bool :=
  if streq dec DecisionAllow then Some true else
  if streq dec DecisionDeny then Some false else None.

Definition map_decision (allow : bool) : Z := if allow then MAP_DECISION_ALLOW else MAP_DECISION_DENY.

(** [hash/fnv]'s 32-bit FNV-1a. *)
Definition RuleIDHash (id : gostring) : Z :=
  foldl (fun h b => u32 (Z.lxor h b * 16777619)) 2166136261 id.

(** [net.IP.To4]. *)
Definition To4 (ip : list Z) : option (list Z) :=
  if (length ip =? 4)%nat then Some ip else
  if ((length ip =? 16)%nat && streq (take 12 ip) (zeros 10 ++ [255; 255])) then Some (drop 12 ip) else None.

(** ** The loader *)

Inductive dir_entries := Dir (names : list gostring) | DirNotExist | DirError.

Section mapload.
Context `{L : LpmTrie}.
(** The write is accepted (a full map or the kernel may refuse). *)
Context (write_ok : enforcer_maps -> map_write -> bool).
(** [os.ReadDir] of the home root: its directories; [syscall.Stat]: inode and device. *)
Context (home_dirs : dir_entries) (stat : gostring -> option (Z * Z)).
(** [net.ParseCIDR]: network address and prefix length; [net.ParseIP]: 16 bytes. *)
Context (ParseCIDR : gostring -> option (list Z * Z)) (ParseIP : gostring -> option (list Z)).

Definition do_write (w : map_write) : loader () := fun m =>
  if write_ok m w then (Some (), [apply_write m w]) else (None, []).

Definition expandPathPattern (pattern : gostring) : option (list gostring) :=
  if negb (streq pattern homeSSHGlobPattern) then Some [pattern] else
  match home_dirs with
  | DirError => None
  | DirNotExist => Some []
  | Dir names => Some ((fun n => bytes_of "/home" ++ bytes_of "/" ++ n ++ bytes_of "/.ssh/*") <$> names)
  end.

Definition pathToInodeKey (path : gostring) : option inode_key :=
  st ← stat path; Some (mk_inode_key st.1 (u32 st.2) 0).

Definition cidrToLPM (cidr : gostring) : option lpm_key :=
  match ParseCIDR cidr with
  | Some (ip, ones) => Some (lpm_key_of (u32 ones) (default ip (To4 ip)))
  | None =>
      ip ← ParseIP cidr;
      let ip := default ip (To4 ip) in
      Some (lpm_key_of (u32 (Z.of_nat (length ip) * 8)) (default ip (To4 ip)))
  end.

Definition putMergedPathRule (allow : bool) (key : lpm_key) (incoming : path_rule) : loader () :=
  m ← get_maps;
  let incoming := match lpm_lookup (path_map allow m) key with
                  | Some existing => mergePathRules existing incoming
                  | None => incoming
                  end in
  do_write (PutPath allow key incoming).

Definition putMergedInodeRule (allow : bool) (key : inode_key) (incoming : path_rule) : loader () :=
  m ← get_maps;
  let incoming := match inode_map allow m !! key with
                  | Some existing => mergePathRules existing incoming
                  | None => incoming
                  end in
  do_write (PutInode allow key incoming).

Definition load_one_path (allow : bool) (val : path_rule) (p : gostring) (out : LoadStats) : loader LoadStats :=
  key ← lift (pathPatternToLPM p);
  _ ← putMergedPathRule allow key val;
  let out := count_path allow out in
  if isExactPathPattern p then
    ikey ← lift (pathToInodeKey p);
    _ ← putMergedInodeRule allow ikey val;
    mret (count_inode allow out)
  else mret out.

Definition path_value (r : CompiledRule) (verdict : Z) (allow : bool) (hash : Z) : path_rule :=
  mk_path_rule (map_decision allow) (verdictBit verdict) 0 hash (u32 (Specificity r)).

Definition loadPathRule (r : CompiledRule) (verdict : Z) (allow : bool) (hash : Z) (out : LoadStats)
    : loader LoadStats :=
  match PathIn r with
  | [] => fail
  | patterns =>
      for_each (fun pattern out =>
        expanded ← lift (expandPathPattern pattern);
        for_each (load_one_path allow (path_value r verdict allow hash)) expanded out) patterns out
  end.

Definition put_cidr (allow : bool) (val : path_rule) (cidr : gostring) (out : LoadStats) : loader LoadStats :=
  key ← lift (cidrToLPM cidr);
  _ ← do_write (PutIP allow key val);
  mret (count_ip allow out).

Definition put_port (allow : bool) (val : port_rule) (port : Z) (out : LoadStats) : loader LoadStats :=
  _ ← do_write (PutPort allow port val);
  mret (count_port allow out).

Definition loadConnectRule (r : CompiledRule) (verdict : Z) (allow : bool) (hash : Z) (out : LoadStats)
    : loader LoadStats :=
  let specificity := u32 (Specificity r) in
  let requiresPort := if nonempty (DestPortIn r) || nonempty (DestPortNotIn r) then 1 else 0 in
  let requiresIP := if nonempty (DestIPIn r) || nonempty (DestIPNotIn r) then 1 else 0 in
  let ip_val dec := mk_path_rule dec (verdictBit verdict) requiresPort hash specificity in
  let port_val dec := mk_port_rule dec verdict requiresIP hash in
  out ← for_each (put_cidr allow (ip_val (map_decision allow))) (DestIPIn r) out;
  out ← (if nonempty (DestIPNotIn r) then
           if allow then fail else
           out ← for_each (put_cidr true (ip_val MAP_DECISION_ALLOW)) (DestIPNotIn r) out;
           for_each (put_cidr false (ip_val MAP_DECISION_DENY))
             [bytes_of "0.0.0.0/0"; bytes_of "::/0"] out
         else mret out);
  out ← for_each (put_port allow (port_val (map_decision allow))) (DestPortIn r) out;
  out ← (if nonempty (DestPortNotIn r) then
           if allow then fail else
           out ← for_each (put_port true (port_val MAP_DECISION_ALLOW)) (DestPortNotIn r) out;
           put_port false (port_val MAP_DECISION_DENY) 0 out
         else mret out);
  (* nothing was loaded exactly when the rule has no predicate *)
  if nonempty (DestIPIn r) || nonempty (DestIPNotIn r) || nonempty (DestPortIn r)
       || nonempty (DestPortNotIn r)
  then mret out else fail.

(** Keys are collected first, then deleted one by one. *)
Definition clearMap {K} (keys : enforcer_maps -> list K) (del : K -> map_write) : loader () :=
  m ← get_maps;
  for_each (fun k _ => do_write (del k)) (keys m) ().

Definition clearPolicyMaps : loader () :=
  _ ← clearMap (fun m => fst <$> path_deny m) (DeletePath false);
  _ ← clearMap (fun m => fst <$> path_allow m) (DeletePath true);
  _ ← clearMap (fun m => fst <$> map_to_list (inode_deny m)) (DeleteInode false);
  _ ← clearMap (fun m => fst <$> map_to_list (inode_allow m)) (DeleteInode true);
  _ ← clearMap (fun m => fst <$> ip_deny m) (DeleteIP false);
  _ ← clearMap (fun m => fst <$> ip_allow m) (DeleteIP true);
  _ ← clearMap (fun m => fst <$> map_to_list (port_deny m)) (DeletePort false);
  clearMap (fun m => fst <$> map_to_list (port_allow m)) (DeletePort true).

Definition flag (b : bool) : Z := if b then 1 else 0.

(** [policyCtrlFromCompiled]: the control word of a policy. *)
Definition policy_ctrl_of (cp : CompiledPolicy) (active : bool) (version : Z) : policy_ctrl :=
  mk_policy_ctrl (flag active) (flag (streq (FailDirection cp) FailDirectionClosed))
    (flag (streq (DefaultAction cp) DefaultActionDeny)) 0 version.

Definition writePolicyCtrl (cp : CompiledPolicy) (active : bool) (version : Z) : loader () :=
  do_write (PutCtrl (policy_ctrl_of cp active (if version =? 0 then u32 (Version cp) else version))).

(** A rule with predicates the kernel cannot evaluate. *)
Definition skipped (r : CompiledRule) : bool :=
  bool_decide (is_Some (UID r)) || negb (streq (Binary r) []) || negb (streq (Cgroup r) []).

Definition load_rule (rule : CompiledRule) (stats : LoadStats) : loader LoadStats :=
  if skipped rule then mret (count_skipped stats) else
  verdict ← lift (actionVerdict (Action rule));
  dec ← lift (mapDecision (Decision rule));
  let hash := RuleIDHash (ID rule) in
  if streq (Action rule) (bytes_of "connect")
  then loadConnectRule rule verdict dec hash stats
  else loadPathRule rule verdict dec hash stats.

Definition LoadLive (cp : CompiledPolicy) (active : bool) (version : Z) : loader LoadStats :=
  _ ← clearPolicyMaps;
  stats ← for_each load_rule (Live cp) stats0;
  _ ← writePolicyCtrl cp active version;
  mret stats.

(** ** Reloading (main.go) *)

Definition applyLivePolicy (cp : CompiledPolicy) (active : bool) : loader LoadStats :=
  _ ← do_write (PutCtrl (policy_ctrl_of cp false (u32 (Version cp))));
  LoadLive cp active (u32 (Version cp)).

(** What the agent does with a newly read policy when [prev] is in force: the
    policy it holds afterwards and the states of the maps on the way. *)
Definition reloadPolicy (cp : CompiledPolicy) (prev : option CompiledPolicy) (m : enforcer_maps)
    : option CompiledPolicy * list enforcer_maps :=
  if match prev with Some p => Version p =? Version cp | None => false end then (prev, []) else
  match applyLivePolicy cp true m with
  | (Some _, tr) => (Some cp, tr)
  | (None, tr) =>
      match prev with
      | None => (None, tr)
      | Some p => (Some p, tr ++ (applyLivePolicy p true (end_state m tr)).2)
      end
  end.
End mapload.
