(* ===== verification/LoadFacts.v ===== *)
(** * LoadFacts: what loading a policy does to the kernel maps

    Path keys and what they cover, and the states the maps go through during a load
    and a reload ([reload_regime]). *)

From Stdlib Require Import String.
From S2P Require Import Prelude Types Bpf State Logic Gate PathVerdict Policy MapLoad.

(** ** Byte prefixes and key coverage *)

Lemma byte_bits a b :
  is_byte a -> is_byte b -> (forall j, (j < 8)%nat -> Z.testbit a (7 - Z.of_nat j) = Z.testbit b (7 - Z.of_nat j)) ->
  a = b.
Proof.
  unfold is_byte. intros Ha Hb H. apply Z.bits_inj'. intros i Hi.
  destruct (Z.ltb_spec i 8) as [Hlt|Hge].
  - specialize (H (Z.to_nat (7 - i)) ltac:(lia)).
    by replace (7 - Z.of_nat (Z.to_nat (7 - i))) with i in H by lia.
  - rewrite <- (Z.mod_small a (2 ^ 8)), <- (Z.mod_small b (2 ^ 8)) by (cbn; lia).
    by rewrite !Z.mod_pow2_bits_high by lia.
Qed.

Lemma key_bit_byte d i j : (j < 8)%nat -> key_bit d (8 * i + j) = Z.testbit (nth i d 0) (7 - Z.of_nat j).
Proof.
  intros Hj. unfold key_bit. replace ((8 * i + j) / 8)%nat with i by (rewrite Nat.mul_comm, Nat.div_add_l, Nat.div_small by lia; lia).
  by replace ((8 * i + j) mod 8)%nat with j by (rewrite Nat.mul_comm, Nat.add_comm, Nat.Div0.mod_add, Nat.mod_small; lia).
Qed.

(** An entry for the bytes [pre] covers the key of [p] exactly when [pre] is a
    prefix of [p]. *)
Lemma path_key_covers pre p :
  Forall is_byte pre -> Forall is_byte p ->
  lpm_covers (path_key pre) (path_key p) = true <-> pre `prefix_of` p.
Proof.
  intros Hpre Hp. unfold lpm_covers. cbn [prefixlen path_key data].
  rewrite andb_true_iff, forallb_forall, Z.leb_le. split.
  - intros [Hlen Hbits].
    assert (take (length pre) p = pre) as <-; [|exists (drop (length pre) p); by rewrite take_drop].
    apply list_eq. intros i. destruct (decide (i < length pre)%nat) as [Hi|Hi].
    2: { rewrite !lookup_ge_None_2; [done|lia|rewrite length_take; lia]. }
    rewrite lookup_take_lt by done.
    destruct (lookup_lt_is_Some_2 pre i Hi) as [a Ha].
    destruct (lookup_lt_is_Some_2 p i) as [b Hb]; [lia|]. rewrite Ha, Hb. f_equal. symmetry.
    apply byte_bits; [exact (Forall_lookup_1 _ _ _ _ Hpre Ha)|exact (Forall_lookup_1 _ _ _ _ Hp Hb)|].
    intros j Hj. specialize (Hbits (8 * i + j)%nat). rewrite in_seq in Hbits.
    specialize (Hbits ltac:(lia)). apply eqb_prop in Hbits.
    rewrite !key_bit_byte in Hbits by done.
    rewrite !nth_lookup, !lookup_app_l, Ha, Hb in Hbits by lia. cbn in Hbits. done.
  - intros [s ->]. rewrite length_app. split; [lia|].
    intros x Hx. apply in_seq in Hx. unfold key_bit. apply eqb_true_iff. f_equal.
    assert (x / 8 < length pre)%nat by (apply Nat.Div0.div_lt_upper_bound; lia).
    by rewrite <- app_assoc, !app_nth1 by lia.
Qed.

Lemma lpm_key_of_path_key pre :
  (length pre <= 256)%nat -> lpm_key_of (u32 (Z.of_nat (length pre)) * 8) pre = path_key pre.
Proof.
  intros Hl. unfold lpm_key_of, path_key. f_equal.
  - unfold u32. rewrite Z.mod_small; lia.
  - rewrite take_ge by done. unfold splice, zeros. by rewrite take_0, app_nil_l, drop_replicate.
Qed.

Lemma path_key_inj p q :
  (length p <= 256)%nat -> (length q <= 256)%nat -> path_key p = path_key q -> p = q.
Proof.
  intros Hp Hq [= Hl Hd]. assert (length p = length q) as He by lia.
  apply (f_equal (take (length p))) in Hd.
  rewrite take_app_length in Hd. rewrite He, take_app_length in Hd. done.
Qed.

(** ** The states a loader goes through *)

(** Each state follows from the one before by an allowed write. *)
Fixpoint chain (W : map_write -> Prop) (m : enforcer_maps) (tr : list enforcer_maps) : Prop :=
  match tr with
  | [] => True
  | m' :: tr => (exists w, W w /\ m' = apply_write m w) /\ chain W m' tr
  end.

Definition writes_only {A} (W : map_write -> Prop) (x : loader A) : Prop := forall m, chain W m (x m).2.

Lemma end_state_cons m m' tr : end_state m (m' :: tr) = end_state m' tr.
Proof. unfold end_state. destruct tr as [|m2 tr]; [done|]. rewrite last_cons_cons. by destruct (last_is_Some (m2 :: tr)) as [_ [x ->]]. Qed.

Lemma end_state_app m tr tr' : end_state m (tr ++ tr') = end_state (end_state m tr) tr'.
Proof.
  revert m. induction tr as [|m' tr IH]; intros m; [done|]. cbn [app]. by rewrite !end_state_cons, IH.
Qed.

Lemma chain_app W m tr tr' : chain W m (tr ++ tr') <-> chain W m tr /\ chain W (end_state m tr) tr'.
Proof.
  revert m. induction tr as [|m' tr IH]; intros m; cbn [app chain]; [by rewrite (left_id True and)|].
  rewrite IH, end_state_cons. tauto.
Qed.

Lemma bind_run {A B} (x : loader A) (f : A -> loader B) m a tr :
  x m = (Some a, tr) ->
  (x ≫= f) m = ((f a (end_state m tr)).1, tr ++ (f a (end_state m tr)).2).
Proof. intros H. unfold mbind, loader_bind. by rewrite H. Qed.

Lemma bind_fail {A B} (x : loader A) (f : A -> loader B) m tr :
  x m = (None, tr) -> (x ≫= f) m = (None, tr).
Proof. intros H. unfold mbind, loader_bind. by rewrite H. Qed.

Lemma writes_bind {A B} W (x : loader A) (f : A -> loader B) :
  writes_only W x -> (forall a, writes_only W (f a)) -> writes_only W (x ≫= f).
Proof.
  intros Hx Hf m. specialize (Hx m). destruct (x m) as [[a|] tr] eqn:Hr.
  - rewrite (bind_run _ _ _ _ _ Hr). apply chain_app. split; [done|apply Hf].
  - by rewrite (bind_fail _ _ _ _ Hr).
Qed.

Lemma writes_ret {A} W (a : A) : writes_only W (mret a).
Proof. done. Qed.

Lemma writes_fail {A} W : writes_only W (@fail A).
Proof. done. Qed.

Lemma writes_get W : writes_only W get_maps.
Proof. done. Qed.

Lemma writes_lift {A} W (o : option A) : writes_only W (lift o).
Proof. by destruct o. Qed.

Lemma writes_for {A B} W (f : A -> B -> loader B) l b :
  (forall a b, writes_only W (f a b)) -> writes_only W (for_each f l b).
Proof.
  intros Hf. revert b. induction l as [|a l IH]; intros b; cbn [for_each]; [apply writes_ret|].
  apply writes_bind; [apply Hf|auto].
Qed.

Lemma writes_do ok (W : map_write -> Prop) w : W w -> writes_only W (do_write ok w).
Proof. intros Hw m. unfold do_write. destruct (ok m w); [|done]. cbn. split; [by exists w|done]. Qed.

#[export] Hint Resolve writes_ret writes_fail writes_get writes_lift : writes.

Ltac writes_tac :=
  repeat first
    [ solve [auto with writes]
    | apply writes_bind; [|intros ?]
    | apply writes_for; intros ? ?
    | apply writes_do
    | lazymatch goal with
      | |- writes_only _ (if ?b then _ else _) => destruct b
      | |- writes_only _ (match ?x with _ => _ end) => destruct x
      | |- writes_only _ (let _ := _ in _) => cbv zeta
      end ].

(** Every write but those of the control word. *)
Definition not_ctrl (w : map_write) : Prop := match w with PutCtrl _ => False | _ => True end.

Section loads.
Context `{L : LpmTrie} (ok : enforcer_maps -> map_write -> bool) (homes : dir_entries)
  (stat : gostring -> option (Z * Z)) (ParseCIDR : gostring -> option (list Z * Z))
  (ParseIP : gostring -> option (list Z)).

Lemma clear_writes : writes_only not_ctrl (clearPolicyMaps ok).
Proof. unfold clearPolicyMaps, clearMap. by writes_tac. Qed.

Lemma load_rule_writes r st :
  writes_only not_ctrl (load_rule ok homes stat ParseCIDR ParseIP r st).
Proof.
  unfold load_rule, loadConnectRule, put_cidr, put_port, loadPathRule, load_one_path,
    putMergedPathRule, putMergedInodeRule. by writes_tac.
Qed.

Lemma chain_not_ctrl m tr :
  chain not_ctrl m tr -> Forall (fun m' => policy_ctrl_map m' = policy_ctrl_map m) tr /\
    policy_ctrl_map (end_state m tr) = policy_ctrl_map m.
Proof.
  revert m. induction tr as [|m' tr IH]; intros m; [done|]. intros [(w & Hw & ->) Hc].
  destruct (IH _ Hc) as [Hf He]. rewrite end_state_cons.
  assert (policy_ctrl_map (apply_write m w) = policy_ctrl_map m) as Hm by (by destruct w).
  rewrite Hm in *. split; [|done]. by constructor.
Qed.

(** The control word of a policy that is being loaded, and of one that is loaded. *)
Definition loading_word (cp : CompiledPolicy) : policy_ctrl := policy_ctrl_of cp false (u32 (Version cp)).
Definition loaded_word (cp : CompiledPolicy) : policy_ctrl := policy_ctrl_of cp true (u32 (Version cp)).

(** The maps of [m], with the rest of [m'] but the control word: only that differs. *)
Definition rules_of (m : enforcer_maps) : enforcer_maps := with_ctrl m [].

Lemma LoadLive_run cp m :
  exists o tr, chain not_ctrl m tr /\
    LoadLive ok homes stat ParseCIDR ParseIP cp true (u32 (Version cp)) m =
    match o with
    | Some st => if ok (end_state m tr) (PutCtrl (loaded_word cp))
                 then (Some st, tr ++ [with_ctrl (end_state m tr) [loaded_word cp]]) else (None, tr)
    | None => (None, tr)
    end.
Proof.
  unfold LoadLive.
  set (body := _ ← clearPolicyMaps ok; for_each (load_rule ok homes stat ParseCIDR ParseIP) (Live cp) stats0).
  assert (writes_only not_ctrl body) as Hw.
  { apply writes_bind; [apply clear_writes|]. intros _. apply writes_for. intros. apply load_rule_writes. }
  exists (body m).1, (body m).2. split; [apply Hw|].
  assert (forall k : LoadStats -> loader LoadStats,
    (_ ← clearPolicyMaps ok; st ← for_each (load_rule ok homes stat ParseCIDR ParseIP) (Live cp) stats0; k st) m
    = (body ≫= k) m) as ->.
  { intros k. unfold body, mbind, loader_bind.
    destruct (clearPolicyMaps ok m) as [[?|] t1]; [|done].
    destruct (for_each _ _ _ _) as [[?|] t2]; cbn; [|done].
    by rewrite end_state_app, app_assoc. }
  destruct (body m) as [[st|] tr] eqn:Hb; cbn [fst snd].
  - rewrite (bind_run _ _ _ _ _ Hb). unfold writePolicyCtrl.
    replace (if u32 (Version cp) =? 0 then u32 (Version cp) else u32 (Version cp)) with (u32 (Version cp))
      by (by destruct (_ =? 0)).
    fold (loaded_word cp). unfold mbind, loader_bind, do_write.
    destruct (ok _ _); cbn; [done|]. by rewrite app_nil_r.
  - by rewrite (bind_fail _ _ _ _ Hb).
Qed.

Notation apply := (applyLivePolicy ok homes stat ParseCIDR ParseIP).

(** Applying a policy: every state on the way has the word of a policy that is
    being loaded; success adds one write, of the final word. *)
Lemma apply_run cp m :
  exists tr, Forall (fun m' => policy_ctrl_map m' = [loading_word cp]) tr /\
    match (apply cp true m).1 with
    | Some _ => (apply cp true m).2 = tr ++ [with_ctrl (end_state m tr) [loaded_word cp]]
    | None => (apply cp true m).2 = tr
    end.
Proof.
  unfold applyLivePolicy. fold (loading_word cp).
  destruct (ok m (PutCtrl (loading_word cp))) eqn:Hok.
  2: { exists []. rewrite (bind_fail _ _ _ []) by (unfold do_write; by rewrite Hok). by split. }
  rewrite (bind_run _ _ m () [with_ctrl m [loading_word cp]]) by (unfold do_write; by rewrite Hok).
  set (m1 := with_ctrl m [loading_word cp]). change (end_state m [m1]) with m1. cbn [fst snd].
  destruct (LoadLive_run cp m1) as (o & tr & Hc & ->).
  destruct (chain_not_ctrl _ _ Hc) as [Hf He]. change (policy_ctrl_map m1) with [loading_word cp] in *.
  assert (Forall (fun m' => policy_ctrl_map m' = [loading_word cp]) (m1 :: tr)) as Hf' by by constructor.
  exists (m1 :: tr). split; [done|]. rewrite end_state_cons.
  destruct o as [st|]; [|done]. by destruct (ok (end_state m1 tr) (PutCtrl (loaded_word cp))).
Qed.

Definition fail_closed_policy (p : CompiledPolicy) : bool := streq (FailDirection p) FailDirectionClosed.

(** Enforcement is off and the fail direction is that of the policy. *)
Definition suspended (p : CompiledPolicy) (en : enroll_maps) (m : enforcer_maps) : Prop :=
  active (mk_kstate en m) = false /\ closed (mk_kstate en m) = fail_closed_policy p.

Lemma loading_suspended cp en m : policy_ctrl_map m = [loading_word cp] -> suspended cp en m.
Proof.
  intros H. unfold suspended, active, closed, ctrl. cbn [enforcer]. rewrite H. cbn. split; [done|].
  unfold fail_closed_policy. by destruct (streq _ _).
Qed.

(** The policy's word is in force: enforcement is on. *)
Definition in_force (p : CompiledPolicy) (m : enforcer_maps) : Prop := policy_ctrl_map m = [loaded_word p].

(** C14. A reload never enforces a policy that is only partly in the maps: in every
    state the maps go through while a policy is loaded, or a failed load is rolled
    back, enforcement is off and the fail direction is that of the policy being
    loaded; enforcement is on again only in the last state, and then for the policy
    the agent holds. This holds whichever writes the kernel refuses. *)
Theorem reload_regime cp prev en m :
  let r := reloadPolicy ok homes stat ParseCIDR ParseIP cp prev m in
  Forall (fun m' =>
    (exists p, (p = cp \/ prev = Some p) /\ suspended p en m') \/
    (m' = end_state m r.2 /\ exists p, r.1 = Some p /\ in_force p m')) r.2.
Proof.
  cbv zeta. unfold reloadPolicy.
  destruct (match prev with Some p => Version p =? Version cp | None => false end); [constructor|].
  assert (forall p, (p = cp \/ prev = Some p) -> forall tr,
    Forall (fun m' => policy_ctrl_map m' = [loading_word p]) tr -> forall Q : enforcer_maps -> Prop,
    Forall (fun m' => (exists p, (p = cp \/ prev = Some p) /\ suspended p en m') \/ Q m') tr) as Hsus.
  { intros p Hp tr Hf Q. eapply Forall_impl; [exact Hf|]. intros m' Hm'. left. exists p.
    split; [done|]. by apply loading_suspended. }
  destruct (apply_run cp m) as (tr & Hf & Hr). destruct (apply cp true m) as [[st|] tr1];
    cbn [fst snd] in *; subst tr1.
  - apply Forall_app. split; [apply (Hsus cp); auto|]. apply Forall_singleton. right.
    rewrite end_state_app, end_state_cons. split; [done|]. by exists cp.
  - destruct prev as [p|]; cbn [fst snd]; [|apply (Hsus cp); auto].
    apply Forall_app. split; [apply (Hsus cp); auto|].
    destruct (apply_run p (end_state m tr)) as (tr2 & Hf2 & Hr2).
    destruct (apply p true (end_state m tr)) as [[st|] tr3]; cbn [fst snd] in *; subst tr3.
    + apply Forall_app. split; [apply (Hsus p); auto|]. apply Forall_singleton. right.
      rewrite !end_state_app, end_state_cons. split; [done|]. by exists p.
    + apply (Hsus p); auto.
Qed.
End loads.
