(* ===== verification/LoadFold.v ===== *)
(** * LoadFold: loaders as folds over entries

    A loader that succeeds leaves a map as a fold of one step over the entries the
    policy gives it.  The statements are for a family of maps, the deny and the allow
    copy, and compose along the loader's monad. *)

From S2P Require Import Prelude Types Bpf State Policy MapLoad LoadFacts.

Section folds.
Context {V E : Type} {view : bool -> enforcer_maps -> V} {step : V -> E -> V} {wf : E -> Prop}.

(** A loader that succeeds takes these entries, which are well formed, into its maps. *)
Definition loads {A} (x : loader A) (es : bool -> list E) : Prop :=
  forall m a tr, x m = (Some a, tr) -> forall allow,
    view allow (end_state m tr) = foldl step (view allow m) (es allow) /\ Forall wf (es allow).

Lemma loads_ret {A} (a : A) : loads (mret a) (fun _ => []).
Proof. intros m b tr [= <- <-] allow. by split. Qed.

Lemma loads_fail {A} es : loads (@fail A) es.
Proof. done. Qed.

Lemma loads_bind {A B} (x : loader A) (f : A -> loader B) es1 es2 :
  loads x es1 -> (forall a, loads (f a) es2) -> loads (x ≫= f) (fun b => es1 b ++ es2 b).
Proof.
  intros Hx Hf m b tr. destruct (x m) as [[a|] t1] eqn:Hxm.
  - rewrite (bind_run _ _ _ _ _ Hxm). intros [= Hb <-] allow.
    destruct (Hx _ _ _ Hxm allow) as [H1 W1].
    destruct (Hf a (end_state m t1) b (f a (end_state m t1)).2) with (allow := allow) as [H2 W2].
    { by rewrite <- Hb, <- surjective_pairing. }
    rewrite end_state_app, foldl_app, H2, H1. split; [done|]. by apply Forall_app.
  - by rewrite (bind_fail _ _ _ _ Hxm).
Qed.

Lemma loads_lift {A B} (o : option A) (f : A -> loader B) es :
  (forall a, o = Some a -> loads (f a) es) -> loads (lift o ≫= f) es.
Proof.
  intros Hf m b tr. destruct o as [a|]; cbn [lift]; [|done].
  rewrite (bind_run _ _ m a []) by done. intros [= Hb <-]. apply (Hf a eq_refl m b).
  by rewrite <- Hb, <- surjective_pairing.
Qed.

Lemma loads_eq {A} (x : loader A) es es' : (forall b, es b = es' b) -> loads x es -> loads x es'.
Proof. intros He Hx m a tr Hr allow. rewrite <- He. by apply (Hx m a). Qed.

(** A step that merges nothing, before or after the one that counts. *)
Lemma loads_skip {A B} (x : loader A) (f : A -> loader B) es :
  loads x (fun _ => []) -> (forall a, loads (f a) es) -> loads (x ≫= f) es.
Proof. intros. by apply (loads_bind x f (fun _ => []) es). Qed.

Lemma loads_then {A B} (x : loader A) (f : A -> loader B) es :
  loads x es -> (forall a, loads (f a) (fun _ => [])) -> loads (x ≫= f) es.
Proof.
  intros. eapply loads_eq; [|by apply (loads_bind x f es (fun _ => []))].
  intros b. apply app_nil_r.
Qed.

Lemma loads_for {A B} (f : A -> B -> loader B) (g : bool -> A -> list E) l b :
  (forall a b, loads (f a b) (fun allow => g allow a)) ->
  loads (for_each f l b) (fun allow => l ≫= g allow).
Proof.
  intros Hf. revert b. induction l as [|a l IH]; intros b; cbn [for_each]; [apply loads_ret|].
  exact (loads_bind _ _ (fun allow => g allow a) (fun allow => l ≫= g allow) (Hf a b) IH).
Qed.

Lemma bind_nil {A B} (l : list A) : (l ≫= (fun _ => @nil B)) = [].
Proof. by induction l. Qed.

Lemma loads_for_nil {A B} (f : A -> B -> loader B) l b :
  (forall a b, loads (f a b) (fun _ => [])) -> loads (for_each f l b) (fun _ => []).
Proof.
  intros Hf. eapply loads_eq; [|apply (loads_for f (fun _ _ => [])); exact Hf].
  intros ?. apply bind_nil.
Qed.

(** ** Writes that leave these maps alone, and writes of one entry *)

Context (ok : enforcer_maps -> map_write -> bool).

Definition keeps (w : map_write) : Prop := forall allow m, view allow (apply_write m w) = view allow m.

Lemma loads_keep w : keeps w -> loads (do_write ok w) (fun _ => []).
Proof.
  intros Hw m a tr. unfold do_write. destruct (ok m w); [|done]. intros [= _ <-] allow.
  rewrite end_state_cons. split; [apply Hw|done].
Qed.

(** The entries of one write: an entry for one copy of the maps. *)
Definition only (allow : bool) (e : E) (b : bool) : list E := if Bool.eqb allow b then [e] else [].

Lemma loads_one allow w e :
  wf e -> (forall m, view allow (apply_write m w) = step (view allow m) e) ->
  (forall m, view (negb allow) (apply_write m w) = view (negb allow) m) ->
  loads (do_write ok w) (only allow e).
Proof.
  intros Hwf Hown Hother m a tr. unfold do_write. destruct (ok m w); [|done]. intros [= _ <-] b.
  rewrite end_state_cons. unfold only. specialize (Hown m). specialize (Hother m).
  destruct allow, b; cbn [Bool.eqb negb foldl] in *; (split; [done|]); by rewrite ?Forall_singleton.
Qed.

Lemma only_bind {A} allow (g : A -> E) l b :
  l ≫= (fun a => only allow (g a) b) = if Bool.eqb allow b then g <$> l else [].
Proof.
  unfold only. destruct (Bool.eqb allow b); [|apply bind_nil].
  induction l as [|a l IH]; [done|]. cbn. by f_equal.
Qed.

(** ** Clearing *)

Lemma loads_clear {K} (keys : enforcer_maps -> list K) del :
  (forall k, keeps (del k)) -> loads (clearMap ok keys del) (fun _ => []).
Proof.
  intros Hd. unfold clearMap. apply loads_skip; [by intros m a tr [= _ <-] b|].
  intros m. apply loads_for_nil. intros k _. by apply loads_keep.
Qed.

(** What holds after a loader that succeeds. *)
Definition ensures {A} (P : enforcer_maps -> Prop) (x : loader A) (Q : enforcer_maps -> Prop) : Prop :=
  forall m a tr, P m -> x m = (Some a, tr) -> Q (end_state m tr).

Lemma ensures_bind {A B} P Q R (x : loader A) (f : A -> loader B) :
  ensures P x Q -> (forall a, ensures Q (f a) R) -> ensures P (x ≫= f) R.
Proof.
  intros Hx Hf m b tr Hp. destruct (x m) as [[a|] t1] eqn:Hxm; [|by rewrite (bind_fail _ _ _ _ Hxm)].
  rewrite (bind_run _ _ _ _ _ Hxm). intros [= Hb <-]. rewrite end_state_app.
  apply (Hf a _ b); [by apply (Hx m a)|]. by rewrite <- Hb, <- surjective_pairing.
Qed.

Lemma clear_own {K} (keys : enforcer_maps -> list K) del rm allow :
  (forall m k, view allow (apply_write m (del k)) = rm (view allow m) k) ->
  forall m u tr, clearMap ok keys del m = (Some u, tr) ->
  view allow (end_state m tr) = foldl rm (view allow m) (keys m).
Proof.
  intros Hrm m u tr. unfold clearMap. rewrite (bind_run _ _ m m []) by done. change (end_state m []) with m.
  intros [= Hr <-]. cbn [app]. generalize dependent m. intros m. generalize (keys m) as ks. intros ks. revert m.
  induction ks as [|k ks IH]; intros m; cbn [for_each]; [done|].
  destruct (ok m (del k)) eqn:Hok; [|rewrite (bind_fail _ _ _ []) by (unfold do_write; by rewrite Hok); done].
  rewrite (bind_run _ _ m () [apply_write m (del k)]) by (unfold do_write; by rewrite Hok).
  cbn [fst snd app]. rewrite !end_state_cons. change (end_state m []) with m. intros Hr.
  cbn [foldl]. rewrite <- Hrm. by apply IH.
Qed.

(** Clearing the deny copy, then the allow copy, and what follows. *)
Section cleared.
Context {K : Type} (keys : bool -> enforcer_maps -> list K) (del : bool -> K -> map_write) (rm : V -> K -> V) (e : V).
Context (Hrm : forall allow m k, view allow (apply_write m (del allow k)) = rm (view allow m) k)
  (Hother : forall allow m k, view (negb allow) (apply_write m (del allow k)) = view (negb allow) m)
  (He : forall allow m, foldl rm (view allow m) (keys allow m) = e).

Definition emptied (m : enforcer_maps) : Prop := forall allow, view allow m = e.

Lemma cleared_deny : ensures (fun _ => True) (clearMap ok (keys false) (del false)) (fun m => view false m = e).
Proof. intros m u tr _ Hr. by rewrite (clear_own _ (del false) rm _ (Hrm false) m u tr Hr). Qed.

Lemma cleared_allow : ensures (fun m => view false m = e) (clearMap ok (keys true) (del true)) emptied.
Proof.
  intros m u tr Hf Hr []; [by rewrite (clear_own _ (del true) rm _ (Hrm true) m u tr Hr)|].
  rewrite (clear_own (keys true) (del true) (fun v _ => v) false (Hother true) m u tr Hr).
  rewrite Hf. generalize (keys true m). intros l. by induction l.
Qed.

Lemma ensures_cleared :
  ensures (fun _ => True) (_ ← clearMap ok (keys false) (del false); clearMap ok (keys true) (del true)) emptied.
Proof. eapply ensures_bind; [apply cleared_deny|]. intros _. apply cleared_allow. Qed.

Lemma ensures_cleared_then {B} (rest : loader B) :
  loads rest (fun _ => []) ->
  ensures (fun _ => True)
    (_ ← clearMap ok (keys false) (del false); _ ← clearMap ok (keys true) (del true); rest) emptied.
Proof.
  intros Hrest. eapply ensures_bind; [apply cleared_deny|]. intros _. eapply ensures_bind; [apply cleared_allow|].
  intros _ m u tr Hm Hr allow. destruct (Hrest m u tr Hr allow) as [-> _]. apply Hm.
Qed.
End cleared.
End folds.

Lemma trie_delete_all t : foldl (fun t k => trie_delete k t) t t.*1 = [].
Proof.
  assert (forall ks t, foldl (fun t k => trie_delete k t) t ks = filter (fun e => e.1 ∉ ks) t) as Hf.
  { clear t. induction ks as [|k ks IH]; intros t; cbn [foldl].
    - induction t as [|e t IHt]; [done|]. rewrite filter_cons_True by apply not_elem_of_nil. by f_equal.
    - rewrite IH. unfold trie_delete. rewrite list_filter_filter. apply list_filter_iff. intros e.
      rewrite not_elem_of_cons. naive_solver. }
  rewrite Hf. apply elem_of_nil_inv. intros e (Hn & He)%list_elem_of_filter. apply Hn. by apply list_elem_of_fmap_2.
Qed.

Lemma map_delete_all {A} (m : gmap Z A) : foldl (fun m k => delete k m) m (map_to_list m).*1 = ∅.
Proof.
  assert (forall ks (m : gmap Z A) i, foldl (fun m k => delete k m) m ks !! i = if decide (i ∈ ks) then None else m !! i) as Hf.
  { clear m. induction ks as [|k ks IH]; intros m i; cbn [foldl].
    - by destruct (decide (i ∈ [])) as [?%not_elem_of_nil|].
    - rewrite IH. destruct (decide (i ∈ ks)), (decide (i ∈ k :: ks)); set_unfold; try naive_solver.
      + destruct_or?; [|done]. subst. apply lookup_delete_eq.
      + apply lookup_delete_ne. naive_solver. }
  apply map_eq. intros i. rewrite Hf, lookup_empty. destruct (decide _) as [|Hn]; [done|].
  apply eq_None_not_Some. intros [x Hx]. apply Hn. apply list_elem_of_fmap. exists (i, x).
  split; [done|]. by apply elem_of_map_to_list.
Qed.
