(* ===== verification/PathLoad.v ===== *)
(** * PathLoad: the path entries a load leaves

    A successful [LoadLive] is a fold over the policy's path entries
    ([load_path_maps]), which merge as [mergePathRules] merges them. *)

From Stdlib Require Import String.
From S2P Require Import Prelude Types Bpf State Logic.
From S2P Require Enforcer.
From S2P Require Import Gate PathVerdict Policy MapLoad LoadFacts LoadFold.

(** ** The entries of a policy *)

(** The bytes of the key a pattern is loaded under, and the rule loaded there. *)
Definition path_entry : Type := gostring * path_rule.

(** [dir/*] is loaded as [dir/], a pattern without a star as itself. *)
Definition lpm_prefix (pattern : gostring) : gostring :=
  if HasSuffix pattern slash_star then
    let p := TrimSuffix pattern slash_star in
    if HasSuffix p (bytes_of "/") then p else p ++ bytes_of "/"
  else pattern.

Definition merged (existing : option path_rule) (incoming : path_rule) : path_rule :=
  match existing with Some r => mergePathRules r incoming | None => incoming end.

Definition merge_entry `{L : LpmTrie} (t : lpm_trie) (e : path_entry) : lpm_trie :=
  trie_put (path_key e.1) (merged (lpm_lookup t (path_key e.1)) e.2) t.

Section entries.
Context (homes : dir_entries).

(** A rule's patterns, the home glob expanded. *)
Definition expanded (r : CompiledRule) : list gostring :=
  PathIn r ≫= fun p => default [] (expandPathPattern homes p).

(** The rule goes into the path map of that decision. *)
Definition path_target (allow : bool) (r : CompiledRule) : bool :=
  negb (skipped r) && negb (streq (Action r) (bytes_of "connect")) &&
  bool_decide (is_Some (actionVerdict (Action r))) &&
  bool_decide (mapDecision (Decision r) = Some allow).

Definition rule_entries (allow : bool) (r : CompiledRule) : list path_entry :=
  if path_target allow r then
    match actionVerdict (Action r) with
    | Some v => (fun q => (lpm_prefix q, path_value r v allow (RuleIDHash (ID r)))) <$> expanded r
    | None => []
    end
  else [].

Definition policy_entries (cp : CompiledPolicy) (allow : bool) : list path_entry :=
  Live cp ≫= rule_entries allow.

Lemma elem_of_policy_entries cp allow pre v :
  (pre, v) ∈ policy_entries cp allow <->
  exists r va q, r ∈ Live cp /\ path_target allow r = true /\ actionVerdict (Action r) = Some va /\
    q ∈ expanded r /\ pre = lpm_prefix q /\ v = path_value r va allow (RuleIDHash (ID r)).
Proof.
  unfold policy_entries, rule_entries. rewrite list_elem_of_bind. split.
  - intros (r & Hin & Hr). destruct (path_target allow r) eqn:Ht; [|by apply not_elem_of_nil in Hin].
    destruct (actionVerdict _) as [va|] eqn:Hv; [|by apply not_elem_of_nil in Hin].
    apply list_elem_of_fmap in Hin as (q & [= -> ->] & Hq). exists r, va, q. by split_and!.
  - intros (r & va & q & Hr & Ht & Hv & Hq & -> & ->). exists r. rewrite Ht, Hv. split; [|done].
    apply list_elem_of_fmap. by exists q.
Qed.
End entries.

(** ** Loading is a fold over the entries *)

Section loads.
Context `{L : LpmTrie}.

(** A loader that succeeds merges these entries into the path maps, all of them
    short enough for a key. *)
Notation loads := (LoadFold.loads (view := path_map) (step := merge_entry)
  (wf := fun e : path_entry => (length e.1 <= 256)%nat)).

Context (ok : enforcer_maps -> map_write -> bool).

Lemma loads_merge_inode allow k v : loads (putMergedInodeRule ok allow k v) (fun _ => []).
Proof. apply loads_skip; [by intros m a tr [= _ <-] b|]. intros m. by apply loads_keep; intros []. Qed.

Lemma loads_merge_path allow pre v :
  (length pre <= 256)%nat -> loads (putMergedPathRule ok allow (path_key pre) v) (only allow (pre, v)).
Proof.
  intros Hlen m a tr. unfold putMergedPathRule. rewrite (bind_run _ _ m m []) by done.
  change (end_state m []) with m. unfold do_write. destruct (ok m _); [|done].
  cbn [fst snd app]. intros [= _ <-] b. unfold only. rewrite end_state_cons.
  by destruct allow, b; cbn; (split; [done|]); [apply Forall_singleton| | |apply Forall_singleton].
Qed.

Lemma clear_paths m u tr allow :
  clearPolicyMaps ok m = (Some u, tr) -> path_map allow (end_state m tr) = [].
Proof.
  intros Hr. refine (ensures_cleared_then (wf := fun e : path_entry => (length e.1 <= 256)%nat) (step := merge_entry)
    ok (fun al m => (path_map al m).*1) DeletePath (fun t k => trie_delete k t) [] _ _ _ _ _ m u tr I Hr allow).
  - by intros [].
  - by intros [].
  - intros al m0. apply trie_delete_all.
  - repeat (apply loads_skip; [by apply loads_clear; intros k []|intros ?]). by apply loads_clear; intros k [].
Qed.

(** *** Rules *)

Lemma pathPatternToLPM_prefix p k :
  pathPatternToLPM p = Some k -> k = path_key (lpm_prefix p) /\ (length (lpm_prefix p) <= 256)%nat.
Proof.
  unfold pathPatternToLPM. destruct (Contains _ _); [done|]. cbv zeta. fold (lpm_prefix p).
  destruct (streq _ _); [done|]. destruct (Nat.ltb_spec 256 (length (lpm_prefix p))); [done|].
  intros [= <-]. split; [|done]. by apply lpm_key_of_path_key.
Qed.

Context (homes : dir_entries) (stat : gostring -> option (Z * Z))
  (ParseCIDR : gostring -> option (list Z * Z)) (ParseIP : gostring -> option (list Z)).

Lemma loads_one_path allow v p out :
  loads (load_one_path ok stat allow v p out) (only allow (lpm_prefix p, v)).
Proof.
  unfold load_one_path. apply loads_lift. intros k Hk.
  destruct (pathPatternToLPM_prefix p k Hk) as [-> Hlen].
  apply loads_then; [by apply loads_merge_path|]. intros u. cbv zeta.
  destruct (isExactPathPattern p); [|apply loads_ret].
  apply loads_lift. intros ik _. apply loads_skip; [apply loads_merge_inode|]. intros ?. apply loads_ret.
Qed.

Lemma fmap_bind {A B C} (f : B -> C) (g : A -> list B) l :
  f <$> (l ≫= g) = l ≫= (fun a => f <$> g a).
Proof. induction l as [|a l IH]; [done|]. cbn. by rewrite fmap_app, <- IH. Qed.

Lemma loads_path_rule r va allow h out :
  loads (loadPathRule ok homes stat r va allow h out)
    (fun b => if Bool.eqb allow b
              then (fun q => (lpm_prefix q, path_value r va allow h)) <$> expanded homes r else []).
Proof.
  unfold loadPathRule, expanded. destruct (PathIn r) as [|p0 ps]; [apply loads_fail|].
  eapply loads_eq.
  2: { apply (loads_for _ (fun b p => if Bool.eqb allow b
         then (fun q => (lpm_prefix q, path_value r va allow h)) <$> default [] (expandPathPattern homes p)
         else [])). intros p c. apply loads_lift. intros qs Hqs. rewrite Hqs. cbn [default].
       eapply loads_eq; [intros b; apply (only_bind allow)|]. apply (loads_for _ (fun b q => only allow (lpm_prefix q, path_value r va allow h) b)).
       intros q d. apply loads_one_path. }
  intros b. cbn beta. destruct (Bool.eqb allow b); [by rewrite fmap_bind|apply bind_nil].
Qed.

Lemma loads_connect_rule r va allow h out :
  loads (loadConnectRule ok ParseCIDR ParseIP r va allow h out) (fun _ => []).
Proof.
  assert (forall al v l o, loads (for_each (put_cidr ok ParseCIDR ParseIP al v) l o) (fun _ => [])) as Hip.
  { intros al v l o. apply loads_for_nil. intros c o'. unfold put_cidr. apply loads_lift. intros k _.
    apply loads_skip; [by apply loads_keep; intros []|]. intros ?. apply loads_ret. }
  assert (forall al v p o, loads (put_port ok al v p o) (fun _ => [])) as Hpt.
  { intros al v p o. unfold put_port. apply loads_skip; [by apply loads_keep; intros []|]. intros ?. apply loads_ret. }
  assert (forall al v l o, loads (for_each (put_port ok al v) l o) (fun _ => [])) as Hpts.
  { intros. by apply loads_for_nil. }
  unfold loadConnectRule. cbv zeta.
  repeat first [apply Hip | apply Hpt | apply Hpts | apply loads_ret | apply loads_fail
    | apply loads_skip; [|intros ?]
    | lazymatch goal with |- loads (if ?b then _ else _) _ => destruct b end ].
Qed.

Lemma loads_rule r out :
  loads (load_rule ok homes stat ParseCIDR ParseIP r out) (fun allow => rule_entries homes allow r).
Proof.
  unfold load_rule, rule_entries, path_target. destruct (skipped r); [apply loads_ret|].
  apply loads_lift. intros va Hva. rewrite Hva. apply loads_lift. intros d Hd. rewrite Hd.
  cbn [negb andb]. destruct (streq (Action r) (bytes_of "connect")); [apply loads_connect_rule|].
  cbn [negb andb]. eapply loads_eq; [|apply loads_path_rule]. intros allow. cbn beta.
  by destruct d, allow.
Qed.

(** Loading a policy leaves in each path map the policy's entries, merged one after
    the other into an empty trie: nothing of an earlier policy, of connect rules or
    of rules the loader skips, whatever the maps held before. *)
Theorem load_path_maps cp active version m st tr :
  LoadLive ok homes stat ParseCIDR ParseIP cp active version m = (Some st, tr) -> forall allow,
  path_map allow (end_state m tr) = foldl merge_entry [] (policy_entries homes cp allow) /\
  Forall (fun e => (length e.1 <= 256)%nat) (policy_entries homes cp allow).
Proof.
  unfold LoadLive. destruct (clearPolicyMaps ok m) as [[u|] t1] eqn:Hc; [|by rewrite (bind_fail _ _ _ _ Hc)].
  rewrite (bind_run _ _ _ _ _ Hc). intros [= Hb <-] allow. rewrite end_state_app.
  rewrite <- (clear_paths _ _ _ allow Hc). revert allow.
  assert (loads (st ← for_each (load_rule ok homes stat ParseCIDR ParseIP) (Live cp) stats0;
                 _ ← writePolicyCtrl ok cp active version; mret st) (policy_entries homes cp)) as Hl.
  { apply loads_then; [apply (loads_for _ (rule_entries homes)); intros; apply loads_rule|].
    intros a. apply loads_skip; [|intros; apply loads_ret]. unfold writePolicyCtrl. by apply loads_keep; intros []. }
  apply (Hl _ st). rewrite <- Hb. apply surjective_pairing.
Qed.
End loads.
