(* ===== verification/LoadedPaths.v ===== *)
(** * LoadedPaths: what merged entries make of a trie

    Entries merge into a trie one after the other; an induction principle for that
    fold ([merge_ind]) gives what the longest-prefix lookup finds in it: rules that
    merged entries back, exactly the actions of the entries of a key when specificity
    is prefix length, and an action that all covering entries serve. *)

From Stdlib Require Import String.
From S2P Require Import Prelude Types Bpf State Logic.
From S2P Require Import Enforcer Gate PathVerdict Policy MapLoad LoadFacts PathLoad.

(** ** Masks *)

Lemma nonzero_land_pow2 m k : 0 <= k -> nonzero (Z.land m (2 ^ k)) = Z.testbit m k.
Proof.
  intros Hk. unfold nonzero. apply eq_true_iff_eq. rewrite negb_true_iff, Z.eqb_neq. split.
  - intros Hn. destruct (Z.testbit m k) eqn:Hb; [done|]. exfalso. apply Hn.
    apply Z.bits_inj'. intros i Hi. rewrite Z.land_spec, Z.bits_0.
    destruct (decide (i = k)) as [->|Hne]; [by rewrite Hb|].
    rewrite Z.pow2_bits_false by done. apply andb_false_r.
  - intros Hb H0. apply (f_equal (fun z => Z.testbit z k)) in H0.
    by rewrite Z.land_spec, Hb, Z.pow2_bits_true, Z.bits_0 in H0.
Qed.

(** The verdicts a mask has bits for. *)
Definition is_verdict (v : Z) : Prop := 1 <= v <= 5.

Lemma is_verdict_cases v : is_verdict v -> v = 1 \/ v = 2 \/ v = 3 \/ v = 4 \/ v = 5.
Proof. unfold is_verdict. lia. Qed.

Lemma verdict_bit_pow2 v : is_verdict v -> verdict_bit v = 2 ^ (v - 1) /\ verdictBit v = 2 ^ (v - 1).
Proof. intros Hv. pose proof (is_verdict_cases v Hv) as Hc. by destruct_or! Hc; subst. Qed.

(** The bits of a mask that serve an action: its own, and for an open with write
    intent that of write. *)
Definition serves (v : Z) (wi : bool) (i : Z) : Prop := i = v - 1 \/ (v = VERDICT_OPEN /\ wi = true /\ i = 4).

Lemma action_matches_bits m v wi :
  is_verdict v -> action_matches m v wi = true <-> exists i, serves v wi i /\ Z.testbit m i = true.
Proof.
  intros Hv. unfold action_matches, serves.
  rewrite (proj1 (verdict_bit_pow2 v Hv)), nonzero_land_pow2 by (unfold is_verdict in Hv; lia).
  change (verdict_bit VERDICT_WRITE) with (2 ^ 4). rewrite nonzero_land_pow2 by lia.
  destruct (Z.testbit m (v - 1)) eqn:Hb.
  { split; [|done]. intros _. exists (v - 1). by split; [left|]. }
  destruct (Z.eqb_spec v VERDICT_OPEN) as [Ho|Ho], wi; cbn [andb].
  2-4: split; [done|]; intros (i & [->|(? & ? & ?)] & Hi); congruence.
  destruct (Z.testbit m 4) eqn:Hb4.
  - split; [|done]. intros _. exists 4. split; [by right|done].
  - split; [done|]. intros (i & [->|(? & ? & ->)] & Hi); congruence.
Qed.

Lemma testbit_verdictBit v i : is_verdict v -> Z.testbit (verdictBit v) i = true <-> i = v - 1.
Proof.
  intros Hv. rewrite (proj2 (verdict_bit_pow2 v Hv)), Z.pow2_bits_eqb by (unfold is_verdict in Hv; lia).
  by rewrite Z.eqb_eq.
Qed.

Lemma actionVerdict_range a v : actionVerdict a = Some v -> is_verdict v.
Proof. unfold actionVerdict, is_verdict. intros H. repeat case_match; simplify_eq; unfold VERDICT_OPEN, VERDICT_WRITE, VERDICT_UNLINK, VERDICT_RENAME, VERDICT_CONNECT; lia. Qed.

(** ** The fold of the entries *)

Definition wf_entry (e : path_entry) : Prop := Forall is_byte e.1 /\ (length e.1 <= 256)%nat.

Section fold.
Context `{L : LpmTrie, !LpmTrieSpec L}.

Lemma elem_of_trie_put k0 v t k r :
  (k, r) ∈ trie_put k0 v t <-> (k = k0 /\ r = v) \/ (k <> k0 /\ (k, r) ∈ t).
Proof.
  unfold trie_put, trie_delete. rewrite elem_of_app, list_elem_of_singleton, list_elem_of_filter. cbn.
  split; [intros [[? ?]|[= -> ->]]; auto|intros [[-> ->]|[? ?]]; auto].
Qed.

(** A trie of path keys, one rule for each. *)
Record built (seen : list path_entry) (t : lpm_trie) : Prop := {
  built_keys k r : (k, r) ∈ t -> exists e, e ∈ seen /\ k = path_key e.1;
  built_once k r r' : (k, r) ∈ t -> (k, r') ∈ t -> r = r';
  built_all e : e ∈ seen -> exists r, (path_key e.1, r) ∈ t
}.

(** The rule of a covering entry of maximal length. *)
Lemma built_longest seen t p r :
  Forall wf_entry seen -> Forall is_byte p -> built seen t ->
  longest_rule t (path_key p) r <->
  exists e, e ∈ seen /\ (path_key e.1, r) ∈ t /\ e.1 `prefix_of` p /\
    forall e', e' ∈ seen -> e'.1 `prefix_of` p -> (length e'.1 <= length e.1)%nat.
Proof.
  intros Hwf Hp Hb. rewrite Forall_forall in Hwf. split.
  - intros (k & Hin & Hc & Hmax). destruct (built_keys _ _ Hb _ _ Hin) as (e & He & ->).
    destruct (Hwf e He) as [Hby _]. exists e. split_and!; [done|done|by apply path_key_covers|].
    intros e' He' Hpre. destruct (built_all _ _ Hb e' He') as [r' Hr'].
    specialize (Hmax _ _ Hr'). cbn in Hmax. destruct (Hwf e' He') as [Hby' _].
    rewrite path_key_covers in Hmax by done. specialize (Hmax Hpre). lia.
  - intros (e & He & Hin & Hpre & Hmax). exists (path_key e.1). destruct (Hwf e He) as [Hby _].
    split_and!; [done|by apply path_key_covers|]. intros k r' Hk Hc.
    destruct (built_keys _ _ Hb _ _ Hk) as (e' & He' & ->). destruct (Hwf e' He') as [Hby' _].
    apply path_key_covers in Hc; [|done..]. specialize (Hmax e' He' Hc). cbn. lia.
Qed.

Lemma prefix_same_length (a b c : list Z) :
  a `prefix_of` c -> b `prefix_of` c -> length a = length b -> a = b.
Proof.
  intros [x ->] [y Hy] Hl. apply (f_equal (take (length a))) in Hy.
  rewrite take_app_length in Hy. by rewrite Hl, take_app_length in Hy.
Qed.

Lemma built_functional seen t : Forall wf_entry seen -> built seen t -> lpm_functional t.
Proof.
  intros Hwf Hb k1 r1 k2 r2 H1 H2 Hl Hbits. rewrite Forall_forall in Hwf.
  destruct (built_keys _ _ Hb _ _ H1) as (e1 & He1 & ->).
  destruct (built_keys _ _ Hb _ _ H2) as (e2 & He2 & ->). cbn [prefixlen path_key] in Hl, Hbits.
  destruct (Hwf _ He1) as [Hb1 _]. destruct (Hwf _ He2) as [Hb2 _].
  assert (e1.1 `prefix_of` e2.1) as Hpre.
  { apply path_key_covers; [done..|]. unfold lpm_covers. apply andb_true_iff.
    split; [apply Z.leb_le; cbn; lia|]. apply forallb_forall. intros i Hi. apply in_seq in Hi.
    apply eqb_true_iff, Hbits. cbn in Hi. lia. }
  assert (e1.1 = e2.1) as Heq by (apply (prefix_same_length _ _ e2.1); [done|done|lia]).
  rewrite Heq in H1. by apply (built_once _ _ Hb (path_key e2.1)).
Qed.

(** What a merge finds: nothing, or the longest entry that covers the new one's key,
    which is the entry of that very key if there is one. *)
Lemma built_lookup seen t pre :
  Forall wf_entry seen -> Forall is_byte pre -> built seen t ->
  match lpm_lookup t (path_key pre) with
  | Some r => exists e, e ∈ seen /\ (path_key e.1, r) ∈ t /\ e.1 `prefix_of` pre /\
                (e.1 <> pre -> forall e', e' ∈ seen -> e'.1 <> pre)
  | None => forall e, e ∈ seen -> ~ e.1 `prefix_of` pre
  end.
Proof.
  intros Hwf Hpre Hb. destruct (lpm_lookup t (path_key pre)) as [r|] eqn:Hl.
  - apply lpm_lookup_Some in Hl. apply (built_longest seen) in Hl as (e & He & Hin & Hc & Hmax); [|done..].
    exists e. split_and!; [done..|]. intros Hne e' He' <-. apply Hne.
    specialize (Hmax e' He' ltac:(done)). apply (prefix_same_length _ _ e'.1); [done..|].
    apply Nat.le_antisymm; [by apply prefix_length|done].
  - intros e He Hp. destruct (built_all _ _ Hb e He) as [r Hr].
    rewrite Forall_forall in Hwf. destruct (Hwf e He) as [Hby _].
    pose proof (lpm_lookup_None _ _ Hl _ _ Hr) as Hc.
    by rewrite (proj2 (path_key_covers e.1 pre Hby Hpre) Hp) in Hc.
Qed.

Lemma built_put seen t e v :
  built seen t -> built (seen ++ [e]) (trie_put (path_key e.1) v t).
Proof.
  intros Hb. split.
  - intros k r. rewrite elem_of_trie_put. intros [[-> _]|[_ Hin]].
    + exists e. split; [set_solver|done].
    + destruct (built_keys _ _ Hb _ _ Hin) as (e' & ? & ->). exists e'. split; [set_solver|done].
  - intros k r r'. rewrite !elem_of_trie_put. intros [[-> ->]|[? ?]] [[? ->]|[? ?]]; try done.
    by apply (built_once _ _ Hb k).
  - intros e'. rewrite elem_of_app, list_elem_of_singleton.
    destruct (decide (path_key e'.1 = path_key e.1)) as [Heq|Hne].
    + intros _. exists v. rewrite elem_of_trie_put. by left.
    + intros [He|He]; [|by subst]. destruct (built_all _ _ Hb e' He) as [r Hr]. exists r.
      rewrite elem_of_trie_put. by right.
Qed.

(** Induction over the fold: [P seen pre r] holds of every entry of the trie when
    later entries of other keys keep it, a first entry has it, and a merge with a
    covering entry that has it gives it again. *)
Lemma merge_ind (P : list path_entry -> gostring -> path_rule -> Prop) es :
  Forall wf_entry es ->
  (forall seen e pre r, pre <> e.1 -> P seen pre r -> P (seen ++ [e]) pre r) ->
  (forall seen e, e ∈ es -> (forall e', e' ∈ seen -> ~ e'.1 `prefix_of` e.1) -> P (seen ++ [e]) e.1 e.2) ->
  (forall seen e pre r, e ∈ es -> pre `prefix_of` e.1 ->
     (pre <> e.1 -> forall e', e' ∈ seen -> e'.1 <> e.1) ->
     P seen pre r -> P (seen ++ [e]) e.1 (mergePathRules r e.2)) ->
  built es (foldl merge_entry [] es) /\
  forall e r, e ∈ es -> (path_key e.1, r) ∈ foldl merge_entry [] es -> P es e.1 r.
Proof.
  intros Hwf Hother Hfirst Hmerge.
  assert (forall done rest, es = done ++ rest ->
    built done (foldl merge_entry [] done) /\
    forall e r, e ∈ done -> (path_key e.1, r) ∈ foldl merge_entry [] done -> P done e.1 r) as Hall.
  2: { apply (Hall es []). by rewrite app_nil_r. }
  intros seen. induction seen as [|e seen IH] using rev_ind; intros rest Hes.
  { split; [|by intros e r ?%not_elem_of_nil]. split; [intros ? ? Hx|intros ? ? ? Hx _|intros ? Hx]; by apply not_elem_of_nil in Hx. }
  destruct (IH ([e] ++ rest)) as [Hb HP]; [by rewrite Hes, <- app_assoc|].
  assert (Forall wf_entry seen /\ wf_entry e) as [Hws Hwe].
  { rewrite Hes, !Forall_app, Forall_singleton in Hwf. tauto. }
  assert (e ∈ es) as Hin by (rewrite Hes; set_solver).
  rewrite foldl_app. cbn [foldl]. unfold merge_entry at 1 3.
  set (t := foldl merge_entry [] seen) in *. split; [by apply built_put|].
  intros e' r He'. rewrite elem_of_trie_put. intros [[Hk ->]|[Hk Hr]].
  - assert (wf_entry e') as Hwe'.
    { apply elem_of_app in He' as [?|?%list_elem_of_singleton]; [|by subst].
      rewrite Forall_forall in Hws. by apply Hws. }
    apply path_key_inj in Hk; [|apply Hwe'|apply Hwe]. rewrite Hk.
    pose proof (built_lookup seen t e.1 Hws (proj1 Hwe) Hb) as Hl.
    destruct (lpm_lookup t (path_key e.1)) as [x|]; cbn [merged].
    + destruct Hl as (e1 & He1 & Hx & Hpre & Hnone). by apply (Hmerge seen e e1.1); [..|apply HP].
    + by apply Hfirst.
  - apply Hother; [intros Heq; apply Hk; by rewrite Heq|]. apply elem_of_app in He' as [?|?%list_elem_of_singleton]; [by apply HP|].
    by subst.
Qed.
End fold.

(** ** Merging rules of one decision *)

Lemma merge_same a b :
  decision a = decision b ->
  mergePathRules a b =
  if specificity a <? specificity b then b else if specificity b <? specificity a then a
  else mk_path_rule (decision a) (Z.lor (action_mask a) (action_mask b)) (requires_port a)
         (if rule_id_hash b =? 0 then rule_id_hash a else rule_id_hash b) (specificity a).
Proof. intros H. unfold mergePathRules. by rewrite H, Z.eqb_refl. Qed.

Section invariants.
Context `{L : LpmTrie, !LpmTrieSpec L} (es : list path_entry) (dec : Z).
Context (Hwf : Forall wf_entry es) (Hdec : forall e, e ∈ es -> decision e.2 = dec).

Lemma prefix_of_trans (a b c : list Z) : a `prefix_of` b -> b `prefix_of` c -> a `prefix_of` c.
Proof. apply (transitivity (R := prefix)). Qed.

(** Every bit and the hash of an entry come from merged entries that cover it. *)
Definition backed (seen : list path_entry) (pre : gostring) (r : path_rule) : Prop :=
  decision r = dec /\
  (forall i, Z.testbit (action_mask r) i = true ->
     exists e, e ∈ seen /\ e.1 `prefix_of` pre /\ Z.testbit (action_mask e.2) i = true) /\
  exists e, e ∈ seen /\ e.1 `prefix_of` pre /\ rule_id_hash r = rule_id_hash e.2.

Lemma backed_mono seen e pre r : backed seen pre r -> backed (seen ++ [e]) pre r.
Proof.
  intros (Hd & Hm & (e1 & ? & ? & ?)). split_and!; [done| |exists e1; set_solver].
  intros i Hi. destruct (Hm i Hi) as (e2 & ? & ? & ?). exists e2. set_solver.
Qed.

Lemma backed_up seen pre pre' r : pre `prefix_of` pre' -> backed seen pre r -> backed seen pre' r.
Proof.
  intros Hp (Hd & Hm & (e1 & ? & ? & ?)). split_and!; [done| |].
  - intros i Hi. destruct (Hm i Hi) as (e2 & ? & ? & ?). exists e2. split_and!; [done| |done].
    by apply (prefix_of_trans _ pre).
  - exists e1. split_and!; [done| |done]. by apply (prefix_of_trans _ pre).
Qed.

Lemma backed_self seen e : e ∈ es -> backed (seen ++ [e]) e.1 e.2.
Proof.
  intros He. split_and!; [by apply Hdec|intros i Hi|]; exists e; (split_and!; [set_solver|done..]).
Qed.

Lemma fold_backed e r :
  e ∈ es -> (path_key e.1, r) ∈ foldl merge_entry [] es -> backed es e.1 r.
Proof.
  apply (merge_ind backed es Hwf).
  - intros. by apply backed_mono.
  - intros. by apply backed_self.
  - intros seen e0 pre x He0 Hpre _ Hx.
    apply (backed_mono _ e0), (backed_up _ _ _ _ Hpre) in Hx. pose proof (backed_self seen e0 He0) as Hs.
    rewrite merge_same by (destruct Hx as [-> _]; symmetry; by apply Hdec).
    destruct (_ <? _); [done|]. destruct (_ <? _); [done|].
    destruct Hx as (Hd & Hm & Hh), Hs as (Hd' & Hm' & Hh'). split_and!; [done| |].
    + intros i. cbn [action_mask]. rewrite Z.lor_spec, orb_true_iff. intros [Hi|Hi]; auto.
    + cbn [rule_id_hash]. by destruct (_ =? 0).
Qed.

(** When specificity is prefix length, an entry holds exactly the bits of the merged
    entries of its key. *)
Definition exact_bits (seen : list path_entry) (pre : gostring) (r : path_rule) : Prop :=
  decision r = dec /\ specificity r = Z.of_nat (length pre) /\
  forall i, Z.testbit (action_mask r) i = true <->
    exists e, e ∈ seen /\ e.1 = pre /\ Z.testbit (action_mask e.2) i = true.

Lemma exact_bits_new seen e :
  e ∈ es -> specificity e.2 = Z.of_nat (length e.1) -> (forall e', e' ∈ seen -> e'.1 <> e.1) ->
  exact_bits (seen ++ [e]) e.1 e.2.
Proof.
  intros He Hs Hn. split_and!; [by apply Hdec|done|]. intros i. split.
  - intros Hi. exists e. set_solver.
  - intros (e' & [Hin|Hin%list_elem_of_singleton]%elem_of_app & Heq & Hi); [|by subst].
    by destruct (Hn e' Hin).
Qed.

Lemma fold_exact :
  (forall e, e ∈ es -> specificity e.2 = Z.of_nat (length e.1)) -> forall e r,
  e ∈ es -> (path_key e.1, r) ∈ foldl merge_entry [] es -> exact_bits es e.1 r.
Proof.
  intros Hspec. apply (merge_ind exact_bits es Hwf).
  - intros seen e pre r Hne (Hd & Hs & Hm). split_and!; [done..|]. intros i. rewrite Hm.
    split; intros (e' & Hin & Heq & Hi); exists e'; [set_solver|].
    apply elem_of_app in Hin as [?|?%list_elem_of_singleton]; [done|]. subst. by destruct Hne.
  - intros seen e He Hn. apply exact_bits_new; [done|by apply Hspec|].
    intros e' He' Heq. apply (Hn e' He'). by rewrite Heq.
  - intros seen e pre r He Hpre Hn (Hd & Hs & Hm).
    rewrite merge_same by (rewrite Hd; symmetry; by apply Hdec). rewrite Hs, (Hspec e He).
    destruct (decide (pre = e.1)) as [->|Hne].
    + rewrite Z.ltb_irrefl. split_and!; [done..|]. intros i. cbn [action_mask].
      rewrite Z.lor_spec, orb_true_iff, Hm. split.
      * intros [(e' & ? & ? & ?)|Hi]; [exists e'|exists e]; set_solver.
      * intros (e' & [Hin|Hin%list_elem_of_singleton]%elem_of_app & Heq & Hi); [left; eauto|right; by subst].
    + destruct (Z.ltb_spec (Z.of_nat (length pre)) (Z.of_nat (length e.1))) as [Hlt|Hge].
      * apply exact_bits_new; [done|by apply Hspec|by apply Hn].
      * exfalso. apply Hne, (prefix_same_length _ _ e.1); [done..|].
        pose proof (prefix_length _ _ Hpre). lia.
Qed.

(** When every entry that covers a path serves an action, so does every merged one. *)
Definition serving (v : Z) (wi : bool) (r : path_rule) : Prop :=
  exists i, serves v wi i /\ Z.testbit (action_mask r) i = true.

Lemma fold_serving v wi p :
  (forall e, e ∈ es -> e.1 `prefix_of` p -> serving v wi e.2) -> forall e r,
  e ∈ es -> (path_key e.1, r) ∈ foldl merge_entry [] es ->
  decision r = dec /\ (e.1 `prefix_of` p -> serving v wi r).
Proof.
  intros Hs. apply (merge_ind (fun _ pre r => decision r = dec /\ (pre `prefix_of` p -> serving v wi r)) es Hwf).
  - done.
  - intros _ e He _. split; [by apply Hdec|by apply Hs].
  - intros _ e pre r He Hpre _ [Hd Hr]. rewrite merge_same by (rewrite Hd; symmetry; by apply Hdec).
    destruct (_ <? _); [split; [by apply Hdec|by apply Hs]|].
    assert (e.1 `prefix_of` p -> serving v wi r) as Hr' by (intros; apply Hr; by apply (prefix_of_trans _ e.1)).
    destruct (_ <? _); [done|]. split; [done|]. intros Hp. destruct (Hr' Hp) as (i & Hi & Hb).
    exists i. split; [done|]. cbn [action_mask]. by rewrite Z.lor_spec, Hb.
Qed.

Lemma fold_built : built es (foldl merge_entry [] es).
Proof. by apply (merge_ind (fun _ _ _ => True) es). Qed.
End invariants.
