(* ===== verification/PathPolicy.v ===== *)
(** * PathPolicy: what the kernel decides on paths after a load

    The path decisions of a successfully loaded policy, in terms of its rules:
    denials are accounted for ([loaded_denials_sound]), decided exactly by the
    longest patterns when specificity is prefix length ([longest_pattern_check]),
    and compared with [EvaluateActions] on the same rules
    ([kernel_agrees_with_eval]). *)

From Stdlib Require Import String.
From S2P Require Import Prelude Types Bpf State Logic.
From S2P Require Import Enforcer Gate PathVerdict Policy MapLoad LoadFacts PathLoad LoadedPaths.

#[local] Open Scope string_scope.
#[local] Open Scope list_scope.
#[local] Open Scope Z_scope.

(** ** Directory patterns and the evaluator's loop *)

(** A pattern [dir/*], other than the home glob, whose directory has no slash at its end. *)
Definition dir_pattern (dir pattern : gostring) : Prop :=
  pattern = dir ++ slash_star /\ HasSuffix dir (bytes_of "/") = false /\ pattern <> homeSSHGlobPattern.

Lemma dir_pattern_prefix dir pattern : dir_pattern dir pattern -> lpm_prefix pattern = dir ++ bytes_of "/".
Proof.
  intros (-> & Hd & _). unfold lpm_prefix. by rewrite HasSuffix_app, TrimSuffix_app, Hd.
Qed.

Lemma dir_pattern_matches dir pattern p :
  dir_pattern dir pattern -> pathMatchesGlob p pattern = true <-> p = dir \/ (dir ++ bytes_of "/") `prefix_of` p.
Proof.
  intros (-> & Hd & Hh). unfold pathMatchesGlob.
  destruct (streq (dir ++ slash_star) p) eqn:Heq.
  { apply streq_spec in Heq as <-. split; [|done]. intros _. right. exists [42].
    by rewrite <- app_assoc. }
  destruct (streq (dir ++ slash_star) homeSSHGlobPattern) eqn:Hg; [by apply streq_spec in Hg|].
  rewrite HasSuffix_app, TrimSuffix_app. cbv zeta. by rewrite orb_true_iff, streq_spec, HasPrefix_spec.
Qed.

Section evaluation.
Context (ipInCIDR : gostring -> gostring -> bool) (ParseIP_ok : gostring -> bool).

Definition rule_matches (r : CompiledRule) (i : ActionInput) : bool :=
  ruleMatchesAction r i && ruleMatchesPredicates ipInCIDR ParseIP_ok r i.

(** Deny beats allow: there is a deny hit exactly when some deny rule matches, as long
    as the rules that match allow or deny. *)
Lemma deny_hit_iff rules i :
  (forall r, r ∈ rules -> rule_matches r i = true -> Decision r = DecisionAllow \/ Decision r = DecisionDeny) ->
  is_Some (deny_hit ipInCIDR ParseIP_ok rules i) <->
  exists r, r ∈ rules /\ rule_matches r i = true /\ Decision r = DecisionDeny.
Proof.
  intros Hdec. unfold deny_hit.
  assert (match EvaluateActions ipInCIDR ParseIP_ok rules i with
          | Some b => b ∈ rules /\ rule_matches b i = true /\
              (Decision b = DecisionDeny <-> exists r, r ∈ rules /\ rule_matches r i = true /\ Decision r = DecisionDeny)
          | None => forall r, r ∈ rules -> rule_matches r i = false
          end) as He.
  2: { destruct (EvaluateActions _ _ _ _) as [b|]; cbn -[streq DecisionDeny].
       - destruct He as (_ & _ & <-). destruct (streq (Decision b) DecisionDeny) eqn:Hs.
         + apply streq_spec in Hs. split; [done|by eexists].
         + split; [by intros [? [=]]|]. intros Hd. apply streq_spec in Hd. congruence.
       - split; [by intros [? [=]]|]. intros (r & Hr & Hm & _). by rewrite (He r Hr) in Hm. }
  unfold EvaluateActions. revert Hdec. induction rules as [|r rules IH] using rev_ind; intros Hdec.
  { cbn. intros r Hr. by apply not_elem_of_nil in Hr. }
  rewrite foldl_app. cbn [foldl]. specialize (IH ltac:(intros; apply Hdec; [set_solver|done])).
  set (best := foldl _ None rules) in *. unfold better at 1.
  assert (rule_matches r i = false -> match best with
          | Some b => b ∈ rules ++ [r] /\ rule_matches b i = true /\
              (Decision b = DecisionDeny <-> exists r', r' ∈ rules ++ [r] /\ rule_matches r' i = true /\ Decision r' = DecisionDeny)
          | None => forall r', r' ∈ rules ++ [r] -> rule_matches r' i = false
          end) as Hskip.
  { intros Hr. destruct best as [b|].
    - destruct IH as (Hb & Hm & Hd). split_and!; [set_solver|done|]. rewrite Hd.
      split; intros (r' & Hin & Hm' & Hd'); exists r'; (split_and!; [|done..]); [set_solver|].
      apply elem_of_app in Hin as [?|?%list_elem_of_singleton]; [done|]. subst. congruence.
    - intros r' [?|?%list_elem_of_singleton]%elem_of_app; [by apply IH|by subst]. }
  unfold rule_matches in Hskip at 1.
  destruct (ruleMatchesAction r i) eqn:Ha; cbn [negb andb] in *; [|by apply Hskip].
  destruct (ruleMatchesPredicates ipInCIDR ParseIP_ok r i) eqn:Hp; cbn [negb andb] in *; [|by apply Hskip].
  clear Hskip. assert (rule_matches r i = true) as Hm by (unfold rule_matches; by rewrite Ha, Hp).
  assert (r ∈ rules ++ [r]) as Hin by set_solver.
  assert (forall b, b ∈ rules -> b ∈ rules ++ [r]) as Hsub by set_solver.
  pose proof (Hdec r Hin Hm) as Hr.
  assert (DecisionAllow <> DecisionDeny) as Hne by done.
  destruct best as [b|].
  - destruct IH as (Hb & Hbm & Hbd). pose proof (Hdec b (Hsub b Hb) Hbm) as Hbdec.
    assert (forall c, c ∈ rules ++ [r] -> rule_matches c i = true ->
      (Decision c <> DecisionDeny -> Decision b <> DecisionDeny /\ Decision r <> DecisionDeny) ->
      c ∈ rules ++ [r] /\ rule_matches c i = true /\ (Decision c = DecisionDeny <->
        exists r', r' ∈ rules ++ [r] /\ rule_matches r' i = true /\ Decision r' = DecisionDeny)) as Hc.
    { intros c Hcin Hcm Hcd. split_and!; [done|done|]. split; [by exists c|].
      intros (r' & [Hr'|Hr'%list_elem_of_singleton]%elem_of_app & Hm' & Hd');
        destruct (decide (Decision c = DecisionDeny)) as [|Hn]; try done; destruct (Hcd Hn) as [Hnb Hnr].
      - destruct Hnb. apply Hbd. by exists r'.
      - by subst. }
    destruct (streq (Decision r) DecisionDeny && streq (Decision b) DecisionAllow) eqn:H1.
    { apply andb_true_iff in H1 as [H1%streq_spec _]. by apply Hc. }
    destruct (streq (Decision r) (Decision b) && _) eqn:H2.
    { apply andb_true_iff in H2 as [H2%streq_spec _]. apply Hc; [done|done|]. rewrite H2. done. }
    apply Hc; [auto|done|]. intros Hnb. split; [done|]. intros Hrd.
    destruct Hbdec as [Hba|Hbd']; [|done].
    rewrite (proj2 (streq_spec _ _) Hrd), (proj2 (streq_spec _ _) Hba) in H1. done.
  - split_and!; [done|done|]. split; [eauto|]. intros (r' & [Hr'|Hr'%list_elem_of_singleton]%elem_of_app & Hm' & Hd').
    + by rewrite (IH r' Hr') in Hm'.
    + by subst.
Qed.
End evaluation.

(** ** Rules and paths *)

Section rules.
Context (homes : dir_entries).

(** A pattern of the rule is loaded under a prefix of the path. *)
Definition covers (r : CompiledRule) (p : gostring) : Prop :=
  exists q, q ∈ expanded homes r /\ lpm_prefix q `prefix_of` p.

(** The rule is for the action; a rule for write also is for an open with write
    intent. *)
Definition rule_acts (r : CompiledRule) (v : Z) (wi : bool) : bool :=
  match actionVerdict (Action r) with Some va => action_matches (verdictBit va) v wi | None => false end.

(** [pre] is the prefix of a pattern of a rule that goes into that path map. *)
Definition pattern_of (cp : CompiledPolicy) (allow : bool) (pre : gostring) (r : CompiledRule) : Prop :=
  r ∈ Live cp /\ path_target allow r = true /\ exists q, q ∈ expanded homes r /\ pre = lpm_prefix q.

(** The longest prefix of the path among the patterns of that path map. *)
Definition longest_pattern (cp : CompiledPolicy) (allow : bool) (p pre : gostring) : Prop :=
  (exists r, pattern_of cp allow pre r) /\ pre `prefix_of` p /\
  forall pre' r, pattern_of cp allow pre' r -> pre' `prefix_of` p -> (length pre' <= length pre)%nat.

(** That longest prefix has a rule for the action. *)
Definition decided_at (cp : CompiledPolicy) (allow : bool) (v : Z) (wi : bool) (p pre : gostring) : Prop :=
  longest_pattern cp allow p pre /\ exists r, pattern_of cp allow pre r /\ rule_acts r v wi = true.

(** Specificity is the length of the prefix, as the compiler computes it for a rule
    with one path pattern ([matchSpecificity]). *)
Definition canonical (cp : CompiledPolicy) : Prop :=
  forall allow pre r, pattern_of cp allow pre r -> Specificity r = Z.of_nat (length pre).

(** Patterns are byte strings. *)
Definition byte_patterns (cp : CompiledPolicy) : Prop :=
  forall r q, r ∈ Live cp -> q ∈ expanded homes r -> Forall is_byte q.

Lemma lpm_prefix_bytes q : Forall is_byte q -> Forall is_byte (lpm_prefix q).
Proof.
  intros Hq. unfold lpm_prefix, TrimSuffix. destruct (HasSuffix q slash_star); [|done].
  cbv zeta. destruct (HasSuffix _ (bytes_of "/")); [by apply Forall_take|].
  apply Forall_app. split; [by apply Forall_take|]. by apply Forall_singleton.
Qed.

Lemma path_target_cases allow r :
  path_target allow r = true <->
  skipped r = false /\ Action r <> bytes_of "connect" /\
  (exists va, actionVerdict (Action r) = Some va) /\ mapDecision (Decision r) = Some allow.
Proof.
  unfold path_target, streq. rewrite !andb_true_iff, !negb_true_iff, !bool_decide_eq_true, bool_decide_eq_false.
  unfold is_Some. tauto.
Qed.

Lemma pattern_entry cp allow pre r :
  pattern_of cp allow pre r -> exists va, actionVerdict (Action r) = Some va /\
    (pre, path_value r va allow (RuleIDHash (ID r))) ∈ policy_entries homes cp allow.
Proof.
  intros (Hr & Ht & q & Hq & ->). pose proof Ht as (_ & _ & [va Hva] & _)%path_target_cases.
  exists va. split; [done|]. apply elem_of_policy_entries. by exists r, va, q.
Qed.

Lemma entry_pattern cp allow e :
  e ∈ policy_entries homes cp allow -> exists r va, pattern_of cp allow e.1 r /\
    actionVerdict (Action r) = Some va /\ e.2 = path_value r va allow (RuleIDHash (ID r)).
Proof.
  destruct e as [pre v]. intros (r & va & q & Hr & Ht & Hva & Hq & -> & ->)%elem_of_policy_entries.
  exists r, va. split_and!; [|done..]. split_and!; [done|done|by exists q].
Qed.

Lemma rule_acts_serves r va v wi allow h :
  is_verdict v -> actionVerdict (Action r) = Some va ->
  rule_acts r v wi = true <-> serving v wi (path_value r va allow h).
Proof.
  intros Hv Hva. unfold rule_acts, serving. rewrite Hva. by apply action_matches_bits.
Qed.
End rules.

(** ** A class of policies *)

(** A rule for connects, or a deny rule on directories without other predicates. *)
Definition plain_rule (r : CompiledRule) : Prop :=
  Action r = bytes_of "connect" \/
  (skipped r = false /\ Decision r = DecisionDeny /\ PathNotIn r = [] /\
   DestIPIn r = [] /\ DestIPNotIn r = [] /\ DestPortIn r = [] /\ DestPortNotIn r = [] /\
   PathIn r <> [] /\ forall q, q ∈ PathIn r -> exists dir, dir_pattern dir q).

(** The name of a verdict's action, and the input of an action on a path. *)
Definition action_name (v : Z) : gostring :=
  bytes_of (if v =? VERDICT_OPEN then "open" else if v =? VERDICT_UNLINK then "unlink" else "rename").
Definition path_input (v : Z) (wi : bool) (p : gostring) : ActionInput :=
  mk_input (action_name v) p [] [] 0 wi None [] [].

Lemma plain_expanded homes r :
  (forall q, q ∈ PathIn r -> exists dir, dir_pattern dir q) -> expanded homes r = PathIn r.
Proof.
  unfold expanded. induction (PathIn r) as [|q l IH]; intros Hq; [done|]. cbn.
  rewrite IH by (intros; apply Hq; by right). destruct (Hq q ltac:(left)) as (dir & _ & _ & Hh).
  unfold expandPathPattern. unfold streq. by rewrite bool_decide_eq_false_2.
Qed.

(** The evaluator takes the rule for the action as the loader and the kernel do. *)
Lemma plain_action r v wi p :
  v = VERDICT_OPEN \/ v = VERDICT_UNLINK ->
  ruleMatchesAction r (path_input v wi p) = rule_acts r v wi.
Proof.
  intros Hv. unfold ruleMatchesAction, rule_acts. generalize (Action r). intros a. clear r.
  assert (forall x, streq a x = true -> a = x) as Heq by (intros x; apply streq_spec).
  unfold actionVerdict.
  destruct (streq a (bytes_of "open")) eqn:H1; [apply Heq in H1 as ->; by destruct Hv as [-> | ->], wi|].
  destruct (streq a (bytes_of "write")) eqn:H2; [apply Heq in H2 as ->; by destruct Hv as [-> | ->], wi|].
  destruct (streq a (bytes_of "unlink")) eqn:H3; [apply Heq in H3 as ->; by destruct Hv as [-> | ->], wi|].
  destruct (streq a (bytes_of "rename")) eqn:H4; [apply Heq in H4 as ->; by destruct Hv as [-> | ->], wi|].
  destruct (streq a (bytes_of "connect")) eqn:H5; [apply Heq in H5 as ->; by destruct Hv as [-> | ->], wi|].
  rewrite andb_false_r. destruct Hv as [-> | ->]; cbn [path_input in_Action].
  - change (action_name VERDICT_OPEN) with (bytes_of "open"). by rewrite H1.
  - change (action_name VERDICT_UNLINK) with (bytes_of "unlink"). by rewrite H3.
Qed.

Lemma plain_matches ipInCIDR ParseIP_ok r v wi p :
  v = VERDICT_OPEN \/ v = VERDICT_UNLINK -> plain_rule r ->
  rule_matches ipInCIDR ParseIP_ok r (path_input v wi p) = true <->
  Action r <> bytes_of "connect" /\ rule_acts r v wi = true /\
  exists q, q ∈ PathIn r /\ pathMatchesGlob p q = true.
Proof.
  intros Hv Hr. unfold rule_matches. rewrite andb_true_iff, (plain_action r v wi p Hv).
  destruct Hr as [Hc|(Hsk & Hd & Hn & Hi & Hin & Hp & Hpn & Hne & _)].
  { split; [|tauto]. intros [Ha _]. exfalso. unfold rule_acts in Ha. rewrite Hc in Ha.
    by destruct Hv as [-> | ->], wi. }
  assert (UID r = None /\ Binary r = [] /\ Cgroup r = []) as (Hu & Hb & Hcg).
  { revert Hsk. unfold skipped. rewrite !orb_false_iff, !negb_false_iff, !streq_spec, bool_decide_eq_false.
    intros ((Hu & ?) & ?). split_and!; [|done|done]. by apply eq_None_not_Some. }
  assert (ruleMatchesPredicates ipInCIDR ParseIP_ok r (path_input v wi p) = existsb (pathMatchesGlob p) (PathIn r)) as ->.
  { unfold ruleMatchesPredicates. rewrite Hi, Hin, Hp, Hpn, Hu, Hb, Hcg, Hn. cbn [nonempty orb streq bool_decide].
    destruct (PathIn r) as [|q ps] eqn:Hps; [done|]. cbn [nonempty orb].
    unfold ruleMatchesPaths, ruleMatchesPath, path_input. cbn [in_Action in_Path in_NewPath]. rewrite Hps, Hn.
    replace (streq (action_name v) (bytes_of "rename")) with false by (by destruct Hv as [-> | ->]).
    rewrite !andb_true_r. cbn [existsb]. by destruct p. }
  rewrite existsb_elem. split; [|tauto]. intros [Ha Hq]. split_and!; [|done|done].
  intros Hc. unfold rule_acts in Ha. rewrite Hc in Ha. by destruct Hv as [-> | ->], wi.
Qed.

(** ** After a load *)

Section loaded.
Context `{L : LpmTrie, !LpmTrieSpec L} (ok : enforcer_maps -> map_write -> bool) (homes : dir_entries)
  (stat : gostring -> option (Z * Z)) (ParseCIDR : gostring -> option (list Z * Z))
  (ParseIP : gostring -> option (list Z)).
Context (cp : CompiledPolicy) (active : bool) (version : Z) (m : enforcer_maps) (st : LoadStats)
  (tr : list enforcer_maps).
Context (Hload : LoadLive ok homes stat ParseCIDR ParseIP cp active version m = (Some st, tr))
  (Hbytes : byte_patterns homes cp).

Notation m' := (end_state m tr).
Notation entries := (policy_entries homes cp).

Lemma entries_wf allow : Forall wf_entry (entries allow).
Proof.
  destruct (load_path_maps _ _ _ _ _ _ _ _ _ _ _ Hload allow) as [_ Hlen].
  rewrite Forall_forall in *. intros e He. split; [|by apply Hlen].
  destruct (entry_pattern _ _ _ _ He) as (r & va & (Hr & _ & q & Hq & ->) & _).
  by apply lpm_prefix_bytes, (Hbytes r).
Qed.

Lemma entries_dec allow e : e ∈ entries allow -> decision e.2 = map_decision allow.
Proof. intros He. by destruct (entry_pattern _ _ _ _ He) as (r & va & _ & _ & ->). Qed.

Lemma loaded_trie allow : path_map allow m' = foldl merge_entry [] (entries allow).
Proof. by apply (load_path_maps _ _ _ _ _ _ _ _ _ _ _ Hload). Qed.

Lemma loaded_functional allow : lpm_functional (path_map allow m').
Proof. rewrite loaded_trie. apply (built_functional (entries allow)); [apply entries_wf|apply fold_built, entries_wf]. Qed.

Lemma loaded_longest allow p r :
  Forall is_byte p -> longest_rule (path_map allow m') (path_key p) r <->
  exists e, e ∈ entries allow /\ (path_key e.1, r) ∈ foldl merge_entry [] (entries allow) /\
    longest_pattern homes cp allow p e.1.
Proof.
  intros Hp. rewrite loaded_trie.
  rewrite (built_longest (entries allow)); [|apply entries_wf|done|apply fold_built, entries_wf].
  split; intros (e & He & Hin & H); exists e; (split; [done|split; [done|]]).
  - destruct H as [Hpre Hmax]. destruct (entry_pattern _ _ _ _ He) as (r0 & va & Hpat & _).
    split_and!; [by exists r0|done|]. intros pre' r' Hpat' Hp'.
    destruct (pattern_entry _ _ _ _ _ Hpat') as (va' & _ & He'). by apply (Hmax _ He').
  - destruct H as (_ & ? & Hmax). split; [done|]. intros e' He' Hp'.
    destruct (entry_pattern _ _ _ _ He') as (r' & va & Hpat & _). by apply (Hmax _ r').
Qed.

(** The hash of a denial is that of a live deny rule with a pattern that covers the path. *)
Lemma denied_hash v wi p h :
  Forall is_byte p -> path_denied m' v wi p h ->
  exists r, r ∈ Live cp /\ path_target false r = true /\ covers homes r p /\ h = RuleIDHash (ID r).
Proof.
  intros Hp (d & (Hl & _ & Hact) & <- & _). apply (loaded_longest false) in Hl as (e & He & Hin & (_ & Hpre & _)); [|done].
  destruct (fold_backed _ _ (entries_wf false) (entries_dec false) e d He Hin) as (_ & _ & (e2 & He2 & Hp2 & Hh)).
  destruct (entry_pattern _ _ _ _ He2) as (r & va & (Hr & Ht & q & Hq & Heq) & Hva & Hval).
  exists r. split_and!; [done|done|exists q; rewrite <- Heq; by split; [|apply (prefix_of_trans _ e.1)]|].
  by rewrite Hh, Hval.
Qed.

(** C12. Every path denial after a load is the policy's: a live deny rule for the
    action has a pattern that covers the path, and the reported hash is that of a
    live deny rule with a pattern that covers it, whatever the rules and the order
    they merged in. *)
Theorem loaded_denials_sound v wi p h :
  is_verdict v -> Forall is_byte p -> path_denied m' v wi p h ->
  (exists r, r ∈ Live cp /\ path_target false r = true /\ covers homes r p /\ rule_acts r v wi = true) /\
  (exists r, r ∈ Live cp /\ path_target false r = true /\ covers homes r p /\ h = RuleIDHash (ID r)).
Proof.
  intros Hv Hp Hden. split; [|by apply (denied_hash v wi)]. destruct Hden as (d & (Hl & _ & Hact) & <- & _).
  apply (loaded_longest false) in Hl as (e & He & Hin & (_ & Hpre & _)); [|done].
  destruct (fold_backed _ _ (entries_wf false) (entries_dec false) e d He Hin) as (_ & Hm & _).
  apply action_matches_bits in Hact as (i & Hs & Hi); [|done].
  destruct (Hm i Hi) as (e1 & He1 & Hp1 & Hb).
  destruct (entry_pattern _ _ _ _ He1) as (r & va & (Hr & Ht & q & Hq & Heq) & Hva & Hval).
  exists r. split_and!; [done|done|exists q; rewrite <- Heq; by split; [|apply (prefix_of_trans _ e.1)]|].
  apply (rule_acts_serves _ va _ _ false (RuleIDHash (ID r))); [done..|]. exists i. by rewrite <- Hval.
Qed.

Lemma canonical_exact allow e r :
  canonical homes cp -> e ∈ entries allow ->
  (path_key e.1, r) ∈ foldl merge_entry [] (entries allow) ->
  exact_bits (map_decision allow) (entries allow) e.1 r.
Proof.
  intros Hcan. apply fold_exact; [apply entries_wf|apply entries_dec|]. clear e r.
  intros e He. destruct (entry_pattern _ _ _ _ He) as (r & va & Hpat & _ & ->). cbn [specificity path_value].
  rewrite (Hcan _ _ _ Hpat). pose proof (entries_wf allow) as Hw. rewrite Forall_forall in Hw.
  destruct (Hw e He) as [_ Hlen]. unfold u32. rewrite Z.mod_small; lia.
Qed.

(** The rule a lookup finds for the action, when specificity is prefix length. *)
Lemma canonical_decided allow v wi p pre :
  canonical homes cp -> is_verdict v -> Forall is_byte p -> decided_at homes cp allow v wi p pre ->
  exists r, rule_for (path_map allow m') (map_decision allow) v wi p r /\
    specificity r = Z.of_nat (length pre).
Proof.
  intros Hcan Hv Hp [Hlp (r0 & Hpat & Hact)]. destruct (pattern_entry _ _ _ _ _ Hpat) as (va & Hva & He).
  destruct (built_all _ _ (fold_built _ (entries_wf allow)) _ He) as [r Hr]. cbn [fst] in Hr.
  destruct (canonical_exact allow _ r Hcan He Hr) as (Hd & Hs & Hm). cbn [fst] in *.
  exists r. split; [|done]. split_and!; [|done|].
  - apply loaded_longest; [done|]. by eexists.
  - apply action_matches_bits; [done|].
    rewrite (rule_acts_serves r0 va v wi allow (RuleIDHash (ID r0))) in Hact by done.
    destruct Hact as (i & Hi & Hb). exists i. split; [done|]. apply Hm. by eexists.
Qed.

Lemma canonical_rule_for allow v wi p r :
  canonical homes cp -> is_verdict v -> Forall is_byte p ->
  rule_for (path_map allow m') (map_decision allow) v wi p r ->
  exists pre, decided_at homes cp allow v wi p pre /\ specificity r = Z.of_nat (length pre).
Proof.
  intros Hcan Hv Hp (Hl & _ & Hact). apply loaded_longest in Hl as (e & He & Hr & Hlp); [|done].
  destruct (canonical_exact allow _ r Hcan He Hr) as (_ & Hs & Hm). exists e.1. split; [|done]. split; [done|].
  apply action_matches_bits in Hact as (i & Hi & Hb); [|done].
  destruct (proj1 (Hm i) Hb) as (e1 & He1 & Heq1 & Hb1).
  destruct (entry_pattern _ _ _ _ He1) as (r1 & va & Hpat & Hva & Hval). exists r1. rewrite Heq1 in Hpat.
  split; [done|]. apply (rule_acts_serves _ va _ _ allow (RuleIDHash (ID r1))); [done..|].
  exists i. by rewrite <- Hval.
Qed.

(** The denied paths, when specificity is prefix length. *)
Lemma longest_pattern_denied v wi p :
  canonical homes cp -> is_verdict v -> Forall is_byte p ->
  (exists h, path_denied m' v wi p h) <->
  exists pre, decided_at homes cp false v wi p pre /\
    ~ exists pre', decided_at homes cp true v wi p pre' /\ (length pre < length pre')%nat.
Proof.
  intros Hcan Hv Hp. split.
  - intros (h & d & Hd & _ & Hno).
    destruct (canonical_rule_for false v wi p d Hcan Hv Hp Hd) as (pre & Hpre & Hs).
    exists pre. split; [done|]. intros (pre' & Hpre' & Hlt). apply Hno.
    destruct (canonical_decided true v wi p pre' Hcan Hv Hp Hpre') as (a & Ha & Hsa).
    exists a. split; [done|]. lia.
  - intros (pre & Hpre & Hno). destruct (canonical_decided false v wi p pre Hcan Hv Hp Hpre) as (d & Hd & Hs).
    exists (rule_id_hash d), d. split_and!; [done|done|]. intros (a & Ha & Hlt). apply Hno.
    destruct (canonical_rule_for true v wi p a Hcan Hv Hp Ha) as (pre' & Hpre' & Hsa).
    exists pre'. split; [done|]. lia.
Qed.

(** The check of a path after a load, when specificities are prefix lengths. *)
Lemma longest_pattern_check E `{!EnvOk E} s buf len v wi :
  path_deny (enforcer s) = path_deny m' -> path_allow (enforcer s) = path_allow m' ->
  kernel_reads E -> scratch_ready E s -> length buf = 256%nat -> 0 < len < MAX_PATH ->
  canonical homes cp -> is_verdict v -> let p := take (Z.to_nat len) buf in Forall is_byte p ->
  let denied := exists pre, decided_at homes cp false v wi p pre /\
    ~ exists pre', decided_at homes cp true v wi p pre' /\ (length pre < length pre')%nat in
  ((enforce_path (Some buf) len v wi E s).1 = - EPERM /\ denied) \/
  ((enforce_path (Some buf) len v wi E s).1 = 0 /\ ~ denied).
Proof.
  intros Hd Ha Hk Hs Hb Hl Hcan Hv p Hp. cbv zeta.
  assert (tries_functional (enforcer s)) as Hf.
  { split; [rewrite Hd; exact (loaded_functional false)|rewrite Ha; exact (loaded_functional true)]. }
  rewrite <- (longest_pattern_denied v wi p Hcan Hv Hp).
  assert (forall h, path_denied (enforcer s) v wi p h <-> path_denied m' v wi p h) as Hpd
    by (intros h; unfold path_denied; by rewrite Hd, Ha).
  rewrite enforce_path_run by done. fold p.
  destruct (path_verdict _ _ _ _) as [h|] eqn:Hpv; [left|right]; (split; [done|]).
  - exists h. by apply Hpd, path_verdict_denied.
  - intros [h Hh]. apply Hpd, path_verdict_denied in Hh; [congruence|done].
Qed.

Lemma plain_deny_target allow r :
  plain_rule r -> path_target allow r = true -> allow = false.
Proof.
  intros Hr (_ & Hc & _ & Hd)%path_target_cases. destruct Hr as [?|(_ & Hdd & _)]; [done|].
  rewrite Hdd in Hd. by injection Hd as <-.
Qed.

Lemma plain_no_allow v wi p a :
  Forall plain_rule (Live cp) -> Forall is_byte p -> ~ rule_for (path_allow m') MAP_DECISION_ALLOW v wi p a.
Proof.
  intros Hpl Hp (Hl & _). apply (loaded_longest true) in Hl as (e & He & _); [|done].
  destruct (entry_pattern _ _ _ _ He) as (r & va & (Hr & Ht & _) & _). rewrite Forall_forall in Hpl.
  by apply (plain_deny_target true r) in Ht; [|apply Hpl].
Qed.

(** A denied path is a deny hit, whatever the evaluator's address functions. *)
Lemma plain_denied_hit ipInCIDR ParseIP_ok v wi p h :
  Forall plain_rule (Live cp) -> v = VERDICT_OPEN \/ v = VERDICT_UNLINK -> Forall is_byte p ->
  path_denied m' v wi p h -> is_Some (deny_hit ipInCIDR ParseIP_ok (Live cp) (path_input v wi p)).
Proof.
  intros Hpl Hv Hp (d & (Hl & _ & Hact) & _). apply (loaded_longest false) in Hl as (e & He & Hin & (_ & Hpre & _)); [|done].
  assert (is_verdict v) as Hiv by (destruct Hv as [-> | ->]; split; vm_compute; discriminate).
  destruct (fold_backed _ _ (entries_wf false) (entries_dec false) e d He Hin) as (_ & Hm & _).
  apply action_matches_bits in Hact as (i & Hs & Hi); [|done]. destruct (Hm i Hi) as (e1 & He1 & Hp1 & Hb).
  destruct (entry_pattern _ _ _ _ He1) as (r & va & (Hr & Ht & q & Hq & Heq) & Hva & Hval).
  rewrite Forall_forall in Hpl. apply deny_hit_iff.
  { intros r' Hr' Hm'. destruct (Hpl r' Hr') as [Hc|(_ & ? & _)]; [|by right]. exfalso.
    apply plain_matches in Hm' as [? _]; [done|done|by apply Hpl]. }
  exists r. split; [done|]. apply path_target_cases in Ht as (_ & Hc & _ & _).
  destruct (Hpl r Hr) as [?|(_ & Hd & _ & _ & _ & _ & _ & _ & Hdir)]; [done|]. split; [|done].
  apply plain_matches; [done|by apply Hpl|]. split_and!; [done| |].
  - apply (rule_acts_serves _ va _ _ false (RuleIDHash (ID r))); [done..|]. exists i. by rewrite <- Hval.
  - rewrite plain_expanded in Hq by done. exists q. split; [done|]. destruct (Hdir q Hq) as [dir Hdp].
    apply (dir_pattern_matches dir); [done|]. right. rewrite <- (dir_pattern_prefix _ _ Hdp), <- Heq.
    by apply (prefix_of_trans _ e.1).
Qed.

(** Where the deny rules that cover a path all are for the action, a deny hit is a
    denied path. *)
Lemma plain_hit_denied ipInCIDR ParseIP_ok v wi p :
  Forall plain_rule (Live cp) -> v = VERDICT_OPEN \/ v = VERDICT_UNLINK -> Forall is_byte p ->
  (forall r q, r ∈ Live cp -> q ∈ PathIn r -> q <> p ++ slash_star) ->
  (forall r, r ∈ Live cp -> path_target false r = true -> covers homes r p -> rule_acts r v wi = true) ->
  is_Some (deny_hit ipInCIDR ParseIP_ok (Live cp) (path_input v wi p)) ->
  exists h, path_denied m' v wi p h.
Proof.
  intros Hpl Hv Hp Hdirs Huni. pose proof Hpl as Hpl'. rewrite Forall_forall in Hpl'.
  assert (is_verdict v) as Hiv by (destruct Hv as [-> | ->]; split; vm_compute; discriminate).
  rewrite deny_hit_iff.
  2: { intros r' Hr' Hm'. destruct (Hpl' r' Hr') as [Hc|(_ & ? & _)]; [|by right]. exfalso.
       apply plain_matches in Hm' as [? _]; [done|done|by apply Hpl']. }
  intros (r & Hr & Hm & Hd). apply plain_matches in Hm as (Hc & Hact & q & Hq & Hg); [|done|by apply Hpl'].
  destruct (Hpl' r Hr) as [?|(Hsk & _ & _ & _ & _ & _ & _ & _ & Hdir)]; [done|].
  destruct (Hdir q Hq) as [dir Hdp]. apply (dir_pattern_matches dir) in Hg; [|done].
  destruct Hg as [->|Hg]; [destruct (Hdirs r q Hr Hq); apply Hdp|].
  assert (exists va, actionVerdict (Action r) = Some va) as [va Hva]
    by (unfold rule_acts in Hact; destruct (actionVerdict _); [by eexists|done]).
  assert (pattern_of homes cp false (lpm_prefix q) r) as Hpat.
  { split; [done|]. split; [|exists q; by rewrite plain_expanded].
    apply path_target_cases. rewrite Hd. split_and!; [done|done|by exists va|done]. }
  destruct (pattern_entry _ _ _ _ _ Hpat) as (va' & _ & He).
  rewrite (dir_pattern_prefix _ _ Hdp) in He.
  (* some entry covers the path, hence a longest one *)
  destruct (lpm_lookup (path_deny m') (path_key p)) as [d|] eqn:Hl.
  2: { destruct (built_all _ _ (fold_built _ (entries_wf false)) _ He) as [x Hx]. cbn [fst] in Hx.
       pose proof (loaded_trie false) as Ht. cbn [path_map] in Ht. rewrite <- Ht in Hx.
       pose proof (lpm_lookup_None _ _ Hl _ _ Hx) as Hn. pose proof (entries_wf false) as Hw.
       rewrite Forall_forall in Hw. destruct (Hw _ He) as [Hby _]. cbn [fst] in Hby.
       by rewrite (proj2 (path_key_covers _ p Hby Hp) Hg) in Hn. }
  apply lpm_lookup_Some in Hl. pose proof Hl as (e & Hin & Hrd & (_ & Hpre & _))%(loaded_longest false); [|done].
  destruct (fold_serving _ _ (entries_wf false) (entries_dec false) v wi p) with (e := e) (r := d) as [Hdd Hs]; [|done|done|].
  { intros e' He' Hp'. destruct (entry_pattern _ _ _ _ He') as (r' & va'' & (Hr' & Ht' & q' & Hq' & Heq') & Hva' & ->).
    apply (rule_acts_serves r'); [done|done|]. apply Huni; [done|done|]. exists q'. by rewrite <- Heq'. }
  exists (rule_id_hash d), d.
  split; [split; [exact Hl|split; [done|apply action_matches_bits; [done|by apply Hs]]]|split; [done|]].
  intros (a & Ha & _). by apply (plain_no_allow v wi p a).
Qed.

End loaded.
