(* ===== verification/Net.v ===== *)
(** * Net: addresses and networks

    The parts of Go's net package the policies' networks are matched with
    ([CIDRMask], [IPNet.Contains], [IP.Equal]), [ipInCIDR] of
    internal/policy/eval.go, and the trie key of a network: for an IPv4 target the
    evaluator's test and the coverage of the key agree ([network_key_covers]). *)

From Stdlib Require Import String.
From S2P Require Import Prelude Types Bpf State Logic.
From S2P Require Import Gate PathVerdict ConnectVerdict Policy MapLoad LoadFacts.

#[local] Open Scope list_scope.
#[local] Open Scope Z_scope.

(** ** The net package *)

(** [CIDRMask]: byte [i] of the mask has the bits left over after [8 * i]. *)
Definition mask_byte (n : Z) : Z :=
  if 8 <=? n then 255 else if n <=? 0 then 0 else u8 (Z.lnot (Z.shiftr 255 n)).
Definition CIDRMask (ones : Z) (len : nat) : list Z :=
  (fun i => mask_byte (ones - 8 * Z.of_nat i)) <$> seq 0 len.

(** [IPNet.Contains] for a network whose mask is as long as its address. *)
Definition IPNet_Contains (n : list Z) (ones : Z) (ip : list Z) : bool :=
  let nn := default n (To4 n) in
  let m := CIDRMask ones (length n) in
  let m := if (length m =? 16)%nat && (length nn =? 4)%nat then drop 12 m else m in
  let ip := default ip (To4 ip) in
  (length ip =? length nn)%nat &&
  forallb (fun x => Z.land x.1.1 x.2 =? Z.land x.1.2 x.2) (zip (zip nn ip) m).

(** ** The evaluator's test (eval.go) *)

Section net.
Context (ParseCIDR : gostring -> option (list Z * Z)) (ParseIP : gostring -> option (list Z)).

(** [ip] comes from [ParseIP], like the address it is compared with. *)
Definition ipInCIDR (ip : list Z) (cidr : gostring) : bool :=
  match ParseCIDR cidr with
  | Some (n, ones) => IPNet_Contains n ones ip
  | None => match ParseIP cidr with Some x => streq ip x | None => false end
  end.

(** The arguments the evaluator's model takes: the tests on the text of a target. *)
Definition dest_in (dest cidr : gostring) : bool :=
  match ParseIP dest with Some ip => ipInCIDR ip cidr | None => false end.
Definition dest_ok (dest : gostring) : bool := bool_decide (is_Some (ParseIP dest)).

(** What the parsers return: 4 or 16 bytes, masked; an address has 16 bytes and is not empty. *)
Class NetOk : Prop := {
  cidr_net c n ones :
    ParseCIDR c = Some (n, ones) ->
    (length n = 4%nat /\ ones <= 32 \/ length n = 16%nat /\ ones <= 128) /\ 0 <= ones /\ Forall is_byte n /\
    forall i, ones <= Z.of_nat i -> key_bit n i = false;
  parse_ip s ip : ParseIP s = Some ip -> s <> [] /\ length ip = 16%nat /\ Forall is_byte ip
}.
End net.

(** The 16-byte form of an IPv4 address. *)
Definition mapped (a : list Z) : list Z := zeros 10 ++ [255; 255] ++ a.

Lemma To4_mapped a : length a = 4%nat -> To4 (mapped a) = Some a.
Proof. intros Ha. unfold To4, mapped. rewrite !length_app. cbn. by rewrite Ha. Qed.

Lemma To4_four a : length a = 4%nat -> To4 a = Some a.
Proof. intros Ha. unfold To4. by rewrite Ha. Qed.

Lemma To4_cases n b :
  To4 n = Some b -> (b = n /\ length n = 4%nat) \/ (n = mapped b /\ length n = 16%nat /\ length b = 4%nat).
Proof.
  unfold To4. destruct (Nat.eqb_spec (length n) 4); [intros [= <-]; by left|].
  destruct (Nat.eqb_spec (length n) 16) as [Hl|]; cbn [andb]; [|done].
  destruct (streq (take 12 n) (zeros 10 ++ [255; 255])) eqn:Hp; [|done]. intros [= <-]. right.
  apply streq_spec in Hp. split_and!; [|done|rewrite length_drop; lia].
  unfold mapped. rewrite app_assoc, <- Hp. symmetry. apply take_drop.
Qed.

(** ** Masks and bits *)

Lemma mask_byte_bit n j : 0 <= j < 8 -> Z.testbit (mask_byte n) (7 - j) = (j <? n).
Proof.
  intros Hj. unfold mask_byte. destruct (Z.leb_spec 8 n).
  { replace (j <? n) with true by lia.
    assert (j = 0 \/ j = 1 \/ j = 2 \/ j = 3 \/ j = 4 \/ j = 5 \/ j = 6 \/ j = 7) as Hc by lia.
    by destruct_or! Hc; subst j. }
  destruct (Z.leb_spec n 0); [rewrite Z.bits_0; symmetry; apply Z.ltb_ge; lia|].
  assert (n = 1 \/ n = 2 \/ n = 3 \/ n = 4 \/ n = 5 \/ n = 6 \/ n = 7) as Hn by lia.
  assert (j = 0 \/ j = 1 \/ j = 2 \/ j = 3 \/ j = 4 \/ j = 5 \/ j = 6 \/ j = 7) as Hc by lia.
  by destruct_or! Hn; subst n; destruct_or! Hc; subst j.
Qed.

Lemma masked_byte_eq n x y :
  is_byte x -> is_byte y ->
  (Z.land x (mask_byte n) =? Z.land y (mask_byte n)) = true <->
  forall j, (j < 8)%nat -> Z.of_nat j < n -> Z.testbit x (7 - Z.of_nat j) = Z.testbit y (7 - Z.of_nat j).
Proof.
  intros Hx Hy. rewrite Z.eqb_eq. split.
  - intros He j Hj Hn. apply (f_equal (fun z => Z.testbit z (7 - Z.of_nat j))) in He.
    rewrite !Z.land_spec, mask_byte_bit in He by lia. replace (Z.of_nat j <? n) with true in He by lia.
    by rewrite !andb_true_r in He.
  - intros Hb. assert (forall z, is_byte z -> is_byte (Z.land z (mask_byte n))) as Hl.
    { intros z Hz. unfold is_byte in *. pose proof (Z.land_nonneg z (mask_byte n)) as Hnn.
      split; [apply Hnn; lia|]. destruct (Z.eq_dec (Z.land z (mask_byte n)) 0) as [->|Hne]; [lia|].
      apply (Z.log2_lt_cancel _ 256). pose proof (Z.log2_land z (mask_byte n)) as Hlog.
      assert (0 <= mask_byte n) by (unfold mask_byte; repeat case_match; try lia; apply Z.mod_pos_bound; lia).
      pose proof (Z.log2_le_mono z 255 ltac:(lia)). change (Z.log2 255) with 7 in *. change (Z.log2 256) with 8. lia. }
    apply byte_bits; [by apply Hl..|]. intros j Hj. rewrite !Z.land_spec, mask_byte_bit by lia.
    destruct (Z.ltb_spec (Z.of_nat j) n); [|by rewrite !andb_false_r]. by rewrite Hb.
Qed.

Lemma key_bit_cons x l i : key_bit (x :: l) i = if (i <? 8)%nat then Z.testbit x (7 - Z.of_nat i) else key_bit l (i - 8).
Proof.
  unfold key_bit. destruct (Nat.ltb_spec i 8).
  - by rewrite Nat.div_small, Nat.mod_small by done.
  - assert (i = (i - 8) + 1 * 8)%nat as Hi by lia. rewrite Hi at 1 2.
    rewrite Nat.div_add, Nat.Div0.mod_add by lia. by rewrite Nat.add_1_r.
Qed.

(** Byte strings that agree under a mask have the same bits up to its length. *)
Lemma masked_bits n a ones :
  length n = length a -> Forall is_byte n -> Forall is_byte a ->
  forallb (fun x => Z.land x.1.1 x.2 =? Z.land x.1.2 x.2) (zip (zip n a) (CIDRMask ones (length n))) = true <->
  forall i, Z.of_nat i < ones -> (i < 8 * length n)%nat -> key_bit n i = key_bit a i.
Proof.
  revert a ones. induction n as [|x n IH]; intros [|y a] ones Hl Hn Ha; try done.
  injection Hl as Hl. apply Forall_cons in Hn as [Hx Hn]. apply Forall_cons in Ha as [Hy Ha].
  assert (CIDRMask ones (length (x :: n)) = mask_byte ones :: CIDRMask (ones - 8) (length n)) as ->.
  { unfold CIDRMask. cbn [length seq fmap list_fmap]. f_equal; [by rewrite Z.sub_0_r|].
    rewrite <- fmap_S_seq, <- list_fmap_compose. apply list_fmap_ext. intros i z _. cbn. f_equal. lia. }
  cbn [zip zip_with forallb fst snd length]. rewrite andb_true_iff, masked_byte_eq by done.
  specialize (IH a (ones - 8) Hl Hn Ha). rewrite IH. split.
  - intros [H0 H1] i Hi Hlt. rewrite !key_bit_cons. destruct (Nat.ltb_spec i 8); [by apply H0|].
    apply H1; lia.
  - intros H. split.
    + intros j Hj Hn'. specialize (H j Hn' ltac:(lia)). rewrite !key_bit_cons in H.
      by replace (j <? 8)%nat with true in H by (symmetry; by apply Nat.ltb_lt).
    + intros i Hi Hlt. specialize (H (i + 8)%nat ltac:(lia) ltac:(lia)). rewrite !key_bit_cons in H.
      replace (i + 8 <? 8)%nat with false in H by (symmetry; apply Nat.ltb_ge; lia).
      by replace (i + 8 - 8)%nat with i in H by lia.
Qed.

Lemma key_bit_app d e i : (i < 8 * length d)%nat -> key_bit (d ++ e) i = key_bit d i.
Proof.
  intros Hi. unfold key_bit. rewrite app_nth1; [done|]. apply Nat.Div0.div_lt_upper_bound. lia.
Qed.

Lemma data_of bits d : (length d <= 256)%nat -> data (lpm_key_of bits d) = d ++ zeros (256 - length d).
Proof.
  intros Hl. unfold lpm_key_of. cbn [data]. rewrite take_ge by done. unfold splice, zeros.
  by rewrite take_0, app_nil_l, drop_replicate.
Qed.

Section keys.
Context (ParseCIDR : gostring -> option (list Z * Z)) (ParseIP : gostring -> option (list Z)).
Context `{!NetOk ParseCIDR ParseIP}.

(** A network or address of IPv4, written as such. *)
Definition v4_network (c : gostring) : Prop :=
  match ParseCIDR c with
  | Some (n, _) => length n = 4%nat
  | None => exists b, length b = 4%nat /\ ParseIP c = Some (mapped b)
  end.

Lemma v4_network_key c : v4_network c -> is_Some (cidrToLPM ParseCIDR ParseIP c).
Proof.
  unfold v4_network, cidrToLPM. destruct (ParseCIDR c) as [[n ones]|]; [by eexists|]. intros (b & _ & ->). by eexists.
Qed.

(** The evaluator's test of an IPv4 target is the coverage of its key in the trie. *)
Lemma network_key_covers c k a :
  v4_network c -> length a = 4%nat -> Forall is_byte a -> cidrToLPM ParseCIDR ParseIP c = Some k ->
  ipInCIDR ParseCIDR ParseIP (mapped a) c = lpm_covers k (ip_key a).
Proof.
  unfold v4_network, cidrToLPM, ipInCIDR. intros Hc Ha Hab. destruct (ParseCIDR c) as [[n ones]|] eqn:Hp.
  - destruct (cidr_net _ _ c n ones Hp) as (Hlen & Hones & Hn & _). intros [= <-].
    rewrite To4_four by done. unfold IPNet_Contains. rewrite To4_mapped, To4_four by done. cbn [default]. unfold id.
    rewrite Ha, Hc. change (length (CIDRMask ones 4) =? 16)%nat with false. cbn [andb Nat.eqb].
    assert (ones <= 32) as H32 by (destruct Hlen as [[_ ?]|[? _]]; lia).
    apply eq_true_iff_eq. rewrite <- Hc, masked_bits by (done || lia). unfold lpm_covers.
    rewrite data_of by lia. cbn [prefixlen lpm_key_of ip_key path_key data]. unfold u32. rewrite Z.mod_small by lia.
    rewrite andb_true_iff, Z.leb_le, forallb_forall. rewrite Ha, Hc. split.
    + intros H. split; [lia|]. intros i Hi%in_seq. apply eqb_true_iff. rewrite !key_bit_app by lia. apply H; lia.
    + intros [_ H] i Hi Hlt. specialize (H i). rewrite in_seq, eqb_true_iff, !key_bit_app in H by lia. apply H. lia.
  - destruct Hc as (b & Hb & Hip). rewrite Hip. cbn [mbind option_bind]. rewrite To4_mapped by done. cbn [default]. unfold id.
    rewrite To4_four by done. cbn [default]. unfold id. intros [= <-].
    assert (Forall is_byte b) as Hbb.
    { destruct (parse_ip _ _ c (mapped b) Hip) as (_ & _ & Hbb). unfold mapped in Hbb. rewrite !Forall_app in Hbb. tauto. }
    replace (u32 (Z.of_nat (length b) * 8)) with (u32 (Z.of_nat (length b)) * 8) by (by rewrite Hb).
    rewrite lpm_key_of_path_key by lia. apply eq_true_iff_eq. unfold ip_key.
    rewrite streq_spec, path_key_covers by done. unfold mapped. split.
    + intros Heq%app_inv_head. by injection Heq as ->.
    + intros Hpre. f_equal. f_equal. destruct Hpre as [e He]. rewrite He in Ha. rewrite length_app in Ha.
      destruct e; [by rewrite app_nil_r in He|cbn in Ha; lia].
Qed.

(** *** Keys are masked: one key for each prefix *)

Record net_key (k : lpm_key) : Prop := {
  key_length : length (data k) = 256%nat;
  key_bytes : Forall is_byte (data k);
  key_masked i : prefixlen k <= Z.of_nat i -> key_bit (data k) i = false
}.

Lemma key_bit_zeros d n i : (8 * length d <= i)%nat -> key_bit (d ++ zeros n) i = false.
Proof.
  intros Hi. unfold key_bit. rewrite app_nth2 by (apply Nat.div_le_lower_bound; lia).
  unfold zeros. rewrite nth_lookup. destruct (_ !! _) as [x|] eqn:Hx; [|by rewrite Z.bits_0].
  apply lookup_replicate in Hx as [-> _]. by rewrite Z.bits_0.
Qed.

Lemma net_key_of bits d :
  (length d <= 16)%nat -> Forall is_byte d -> (forall i, bits <= Z.of_nat i -> key_bit d i = false) ->
  0 <= bits < 2 ^ 32 -> net_key (lpm_key_of (u32 bits) d).
Proof.
  intros Hl Hd Hm Hb. split; rewrite ?data_of by lia.
  - rewrite length_app. unfold zeros. rewrite length_replicate. lia.
  - apply Forall_app. split; [done|]. apply Forall_replicate. unfold is_byte. lia.
  - cbn [prefixlen lpm_key_of]. unfold u32. rewrite Z.mod_small by lia. intros i Hi.
    destruct (decide (i < 8 * length d)%nat); [rewrite key_bit_app by done; by apply Hm|].
    apply key_bit_zeros. lia.
Qed.

Lemma key_bit_short d i : (8 * length d <= i)%nat -> key_bit d i = false.
Proof. intros Hi. rewrite <- (app_nil_r d). by apply (key_bit_zeros d 0). Qed.

Lemma cidr_net_key c k : cidrToLPM ParseCIDR ParseIP c = Some k -> net_key k.
Proof.
  unfold cidrToLPM. destruct (ParseCIDR c) as [[n ones]|] eqn:Hp.
  - destruct (cidr_net _ _ c n ones Hp) as (Hlen & Hones & Hn & Hm). intros [= <-].
    assert (ones <= 128) as H128 by lia.
    destruct (To4 n) as [b|] eqn:H4; cbn [default]; unfold id; [|apply net_key_of; [lia|done|done|lia]].
    apply To4_cases in H4 as [[-> ?]|(-> & _ & Hb)]; [apply net_key_of; [lia|done|done|lia]|].
    unfold mapped in Hn. rewrite !Forall_app in Hn. apply net_key_of; [lia|tauto| |lia].
    (* the mapped prefix is inside the mask *)
    assert (96 <= ones).
    { destruct (Z.leb_spec 96 ones); [done|]. by specialize (Hm 95%nat ltac:(lia)). }
    intros i Hi. apply key_bit_short. lia.
  - intros (ip & Hip & Hk)%bind_Some. injection Hk as <-. destruct (parse_ip _ _ c ip Hip) as (_ & Hl & Hb).
    assert (forall d, (length d <= 16)%nat -> Forall is_byte d -> net_key (lpm_key_of (u32 (Z.of_nat (length d) * 8)) d)) as Hd.
    { intros d Hd Hdb. apply net_key_of; [done|done| |lia]. intros i Hi. apply key_bit_short. lia. }
    destruct (To4 ip) as [b|] eqn:H4; cbn [default]; unfold id.
    + apply To4_cases in H4 as [[-> ?]|(-> & _ & Hb4)]; [rewrite To4_four by done; apply Hd; [lia|done]|].
      rewrite To4_four by done. unfold mapped in Hb. rewrite !Forall_app in Hb. apply Hd; [cbn; lia|tauto].
    + rewrite H4. cbn [from_option]. apply Hd; [lia|done].
Qed.

Lemma net_key_eq k1 k2 :
  net_key k1 -> net_key k2 -> prefixlen k1 = prefixlen k2 ->
  (forall i, (i < Z.to_nat (prefixlen k1))%nat -> key_bit (data k1) i = key_bit (data k2) i) -> k1 = k2.
Proof.
  intros H1 H2 Hp Hb. destruct k1 as [p d1], k2 as [p2 d2]. cbn [prefixlen data] in *. subst p2. f_equal.
  assert (forall i, key_bit d1 i = key_bit d2 i) as Hall.
  { intros i. destruct (decide (i < Z.to_nat p)%nat); [by apply Hb|].
    pose proof (key_masked _ H1 i) as M1. pose proof (key_masked _ H2 i) as M2. cbn [prefixlen data] in *.
    by rewrite M1, M2 by lia. }
  pose proof (key_length _ H1) as Hl1. pose proof (key_length _ H2) as Hl2. cbn [data] in *.
  apply list_eq. intros i. destruct (decide (i < 256)%nat) as [Hi|Hi]; [|by rewrite !lookup_ge_None_2 by lia].
  destruct (lookup_lt_is_Some_2 d1 i) as [a Ha]; [lia|]. destruct (lookup_lt_is_Some_2 d2 i) as [b Hb']; [lia|].
  rewrite Ha, Hb'. f_equal.
  apply byte_bits; [exact (Forall_lookup_1 _ _ _ _ (key_bytes _ H1) Ha)|exact (Forall_lookup_1 _ _ _ _ (key_bytes _ H2) Hb')|].
  intros j Hj. specialize (Hall (8 * i + j)%nat). rewrite !key_bit_byte, !nth_lookup, Ha, Hb' in Hall by done. exact Hall.
Qed.
End keys.
