(* ===== verification/ConnectLoad.v ===== *)
(** * ConnectLoad: the address and port entries a load leaves

    A successful [LoadLive] puts the entries of the policy's connect rules into the
    address and port maps, one after the other; an entry with the key of an earlier
    one replaces it ([load_ip_maps], [load_port_maps]). *)

From Stdlib Require Import String.
From S2P Require Import Prelude Types Bpf State Logic.
From S2P Require Import Gate PathVerdict Policy MapLoad LoadFacts LoadFold.

#[local] Open Scope list_scope.
#[local] Open Scope Z_scope.

(** ** The entries of a policy *)

Definition put_entry (t : lpm_trie) (e : lpm_key * path_rule) : lpm_trie := trie_put e.1 e.2 t.
Definition put_port_entry (t : gmap Z port_rule) (e : Z * port_rule) : gmap Z port_rule := <[e.1 := e.2]> t.

(** The rule is for connects and has that decision. *)
Definition connect_target (allow : bool) (r : CompiledRule) : bool :=
  negb (skipped r) && streq (Action r) (bytes_of "connect") && bool_decide (mapDecision (Decision r) = Some allow).

Lemma connect_target_cases allow r :
  connect_target allow r = true <->
  skipped r = false /\ Action r = bytes_of "connect" /\ mapDecision (Decision r) = Some allow.
Proof. unfold connect_target. rewrite !andb_true_iff, negb_true_iff, streq_spec, bool_decide_eq_true. tauto. Qed.

Definition needs_port (r : CompiledRule) : Z := if nonempty (DestPortIn r) || nonempty (DestPortNotIn r) then 1 else 0.
Definition needs_ip (r : CompiledRule) : Z := if nonempty (DestIPIn r) || nonempty (DestIPNotIn r) then 1 else 0.

(** The values a rule's entries have. *)
Definition ip_value (r : CompiledRule) (allow : bool) : path_rule :=
  mk_path_rule (map_decision allow) (verdictBit VERDICT_CONNECT) (needs_port r) (RuleIDHash (ID r)) (u32 (Specificity r)).
Definition port_value (r : CompiledRule) (allow : bool) : port_rule :=
  mk_port_rule (map_decision allow) VERDICT_CONNECT (needs_ip r) (RuleIDHash (ID r)).

Section entries.
Context (ParseCIDR : gostring -> option (list Z * Z)) (ParseIP : gostring -> option (list Z)).

Definition catch_all : list gostring := [bytes_of "0.0.0.0/0"; bytes_of "::/0"].

Definition keys_of (cidrs : list gostring) : list lpm_key := omap (cidrToLPM ParseCIDR ParseIP) cidrs.

(** The networks a rule puts into the map of that decision: its own, and for an
    exclusion the excluded ones into the allow map and everything into the deny map. *)
Definition networks (allow : bool) (r : CompiledRule) : list gostring :=
  (if connect_target allow r then DestIPIn r else []) ++
  (if connect_target false r && nonempty (DestIPNotIn r) then if allow then DestIPNotIn r else catch_all else []).

Definition ports (allow : bool) (r : CompiledRule) : list Z :=
  (if connect_target allow r then DestPortIn r else []) ++
  (if connect_target false r && nonempty (DestPortNotIn r) then if allow then DestPortNotIn r else [0] else []).

Definition ip_entries (allow : bool) (r : CompiledRule) : list (lpm_key * path_rule) :=
  (fun k => (k, ip_value r allow)) <$> keys_of (networks allow r).

Definition port_entries (allow : bool) (r : CompiledRule) : list (Z * port_rule) :=
  (fun p => (p, port_value r allow)) <$> ports allow r.

Definition policy_ips (cp : CompiledPolicy) (allow : bool) : list (lpm_key * path_rule) := Live cp ≫= ip_entries allow.
Definition policy_ports (cp : CompiledPolicy) (allow : bool) : list (Z * port_rule) := Live cp ≫= port_entries allow.

Lemma elem_of_policy_ips cp allow k v :
  (k, v) ∈ policy_ips cp allow <->
  exists r c, r ∈ Live cp /\ c ∈ networks allow r /\ cidrToLPM ParseCIDR ParseIP c = Some k /\ v = ip_value r allow.
Proof.
  unfold policy_ips, ip_entries, keys_of. rewrite list_elem_of_bind. split.
  - intros (r & (k' & [= <- ->] & (c & Hc & Hk)%list_elem_of_omap)%list_elem_of_fmap & Hr). eauto 8.
  - intros (r & c & Hr & Hc & Hk & ->). exists r. split; [|done]. apply list_elem_of_fmap. exists k.
    split; [done|]. apply list_elem_of_omap. eauto.
Qed.

Lemma elem_of_policy_ports cp allow p v :
  (p, v) ∈ policy_ports cp allow <-> exists r, r ∈ Live cp /\ p ∈ ports allow r /\ v = port_value r allow.
Proof.
  unfold policy_ports, port_entries. rewrite list_elem_of_bind. split.
  - intros (r & (p' & [= <- ->] & Hp)%list_elem_of_fmap & Hr). eauto.
  - intros (r & Hr & Hp & ->). exists r. split; [|done]. apply list_elem_of_fmap. eauto.
Qed.
End entries.

(** ** Loading is a fold over the entries *)

Notation loads_ips := (LoadFold.loads (view := ip_map) (step := put_entry) (wf := fun _ => True)).
Notation loads_ports := (LoadFold.loads (view := port_map) (step := put_port_entry) (wf := fun _ => True)).

Section loads.
Context `{L : LpmTrie} (ok : enforcer_maps -> map_write -> bool) (homes : dir_entries)
  (stat : gostring -> option (Z * Z)) (ParseCIDR : gostring -> option (list Z * Z))
  (ParseIP : gostring -> option (list Z)).

(** The entries of the networks in one copy of the map. *)
Definition into {A B} (allow : bool) (f : A -> list B) (l : list A) (b : bool) : list B :=
  if Bool.eqb allow b then l ≫= f else [].

Definition key_entries (v : path_rule) (c : gostring) : list (lpm_key * path_rule) :=
  (fun k => (k, v)) <$> keys_of ParseCIDR ParseIP [c].

Lemma loads_cidrs allow v l out :
  loads_ips (for_each (put_cidr ok ParseCIDR ParseIP allow v) l out) (into allow (key_entries v) l).
Proof.
  eapply loads_eq; [|apply (loads_for _ (fun b c => into allow (key_entries v) [c] b))].
  - intros b. unfold into. destruct (Bool.eqb allow b); [|apply bind_nil].
    induction l as [|c l IH]; [done|]. cbn. rewrite app_nil_r. by f_equal.
  - intros c o. unfold put_cidr. apply loads_lift. intros k Hk.
    eapply loads_eq; [|apply loads_then; [apply (loads_one ok allow (PutIP allow k v) (k, v))|intros; apply loads_ret]].
    + intros b. unfold into, key_entries, keys_of, only. cbn. by rewrite Hk.
    + done.
    + by destruct allow.
    + by destruct allow.
Qed.

Lemma loads_port allow v p out :
  loads_ports (put_port ok allow v p out) (into allow (fun p => [(p, v)]) [p]).
Proof.
  unfold put_port. eapply loads_eq.
  2: { apply loads_then; [apply (loads_one ok allow (PutPort allow p v) (p, v))|intros; apply loads_ret]; [done|by destruct allow..]. }
  intros b. unfold into, only. by destruct (Bool.eqb allow b).
Qed.

Lemma loads_port_list allow v l out :
  loads_ports (for_each (put_port ok allow v) l out) (into allow (fun p => [(p, v)]) l).
Proof.
  eapply loads_eq; [|apply (loads_for _ (fun b p => into allow (fun p => [(p, v)]) [p] b)); intros; apply loads_port].
  intros b. unfold into. destruct (Bool.eqb allow b); [|apply bind_nil].
  induction l as [|p l IH]; [done|]. cbn in *. by f_equal.
Qed.

Lemma loads_ports_cidrs allow v l out :
  loads_ports (for_each (put_cidr ok ParseCIDR ParseIP allow v) l out) (fun _ => []).
Proof.
  apply loads_for_nil. intros c o. unfold put_cidr. apply loads_lift. intros k _.
  apply loads_skip; [by apply loads_keep; intros []|]. intros. apply loads_ret.
Qed.

Lemma loads_ips_port allow v p out : loads_ips (put_port ok allow v p out) (fun _ => []).
Proof. unfold put_port. apply loads_skip; [by apply loads_keep; intros []|]. intros. apply loads_ret. Qed.

Lemma loads_ips_port_list allow v l out : loads_ips (for_each (put_port ok allow v) l out) (fun _ => []).
Proof. apply loads_for_nil. intros. apply loads_ips_port. Qed.

Lemma key_entries_bind v l : l ≫= key_entries v = (fun k => (k, v)) <$> keys_of ParseCIDR ParseIP l.
Proof.
  induction l as [|c l IH]; [done|].
  change ((c :: l) ≫= key_entries v) with (key_entries v c ++ (l ≫= key_entries v)). rewrite IH.
  unfold key_entries, keys_of. cbn [omap list_omap]. by destruct (cidrToLPM _ _ c).
Qed.

Lemma port_entries_bind (v : port_rule) (l : list Z) : l ≫= (fun p => [(p, v)]) = (fun p => (p, v)) <$> l.
Proof. induction l as [|p l IH]; [done|]. cbn. by f_equal. Qed.

(** The entries of one exclusion: the excluded ones allowed, all others denied. *)
Definition excluding {A B} (allow : bool) (f : bool -> A -> list B) (l others : list A) (b : bool) : list B :=
  if nonempty l && negb allow then into true (f true) l b ++ into false (f false) others b else [].

Lemma connect_target_eqb allow r b : connect_target allow r = true -> connect_target b r = Bool.eqb allow b.
Proof.
  intros Ha. apply eq_true_iff_eq. rewrite eqb_true_iff. split.
  - apply connect_target_cases in Ha as (_ & _ & Ha). intros (_ & _ & Hb)%connect_target_cases. congruence.
  - by intros <-.
Qed.

Lemma ip_entries_split allow r b :
  connect_target allow r = true ->
  into allow (key_entries (ip_value r allow)) (DestIPIn r) b ++
    excluding allow (fun d => key_entries (ip_value r d)) (DestIPNotIn r) catch_all b =
  ip_entries ParseCIDR ParseIP b r.
Proof.
  intros Ha. unfold ip_entries, networks, excluding, into. rewrite !(connect_target_eqb allow r) by done.
  rewrite !key_entries_bind. unfold keys_of. rewrite omap_app, fmap_app.
  destruct allow, b, (nonempty (DestIPNotIn r)); cbn [Bool.eqb negb andb app omap list_omap fmap list_fmap];
    by rewrite ?app_nil_r.
Qed.

Lemma port_entries_split allow r b :
  connect_target allow r = true ->
  into allow (fun p => [(p, port_value r allow)]) (DestPortIn r) b ++
    excluding allow (fun d p => [(p, port_value r d)]) (DestPortNotIn r) [0] b =
  port_entries b r.
Proof.
  intros Ha. unfold port_entries, ports, excluding, into. rewrite !(connect_target_eqb allow r) by done.
  rewrite !port_entries_bind, fmap_app.
  destruct allow, b, (nonempty (DestPortNotIn r)); cbn [Bool.eqb negb andb app fmap list_fmap]; by rewrite ?app_nil_r.
Qed.

Lemma loads_ips_rule r allow out :
  connect_target allow r = true ->
  loads_ips (loadConnectRule ok ParseCIDR ParseIP r VERDICT_CONNECT allow (RuleIDHash (ID r)) out)
    (fun b => ip_entries ParseCIDR ParseIP b r).
Proof.
  intros Ha. eapply loads_eq; [intros b; by apply (ip_entries_split allow)|].
  unfold loadConnectRule. cbv zeta. fold (needs_port r). fold (needs_ip r).
  apply loads_bind; [apply loads_cidrs|]. intros o1. apply loads_then.
  - unfold excluding. destruct (nonempty (DestIPNotIn r)); [|apply loads_ret].
    destruct allow; [apply loads_fail|]. apply loads_bind; [apply loads_cidrs|]. intros. apply loads_cidrs.
  - intros o2. apply loads_skip; [apply loads_ips_port_list|]. intros o3.
    apply loads_skip.
    + destruct (nonempty (DestPortNotIn r)); [|apply loads_ret]. destruct allow; [apply loads_fail|].
      apply loads_skip; [apply loads_ips_port_list|]. intros. apply loads_ips_port.
    + intros o4. destruct (_ || _); [apply loads_ret|apply loads_fail].
Qed.

Lemma loads_ports_rule r allow out :
  connect_target allow r = true ->
  loads_ports (loadConnectRule ok ParseCIDR ParseIP r VERDICT_CONNECT allow (RuleIDHash (ID r)) out)
    (fun b => port_entries b r).
Proof.
  intros Ha. eapply loads_eq; [intros b; by apply (port_entries_split allow)|].
  unfold loadConnectRule. cbv zeta. fold (needs_port r). fold (needs_ip r).
  apply loads_skip; [apply loads_ports_cidrs|]. intros o1. apply loads_skip.
  - destruct (nonempty (DestIPNotIn r)); [|apply loads_ret]. destruct allow; [apply loads_fail|].
    apply loads_skip; [apply loads_ports_cidrs|]. intros. apply loads_ports_cidrs.
  - intros o2. apply loads_bind; [apply loads_port_list|]. intros o3. apply loads_then.
    + unfold excluding. destruct (nonempty (DestPortNotIn r)); [|apply loads_ret].
      destruct allow; [apply loads_fail|]. apply loads_bind; [apply loads_port_list|]. intros. apply loads_port.
    + intros o4. destruct (_ || _); [apply loads_ret|apply loads_fail].
Qed.

(** Rules for other actions leave these maps alone. *)
Lemma loads_path_rule_keeps {V E} (view : bool -> enforcer_maps -> V) (step : V -> E -> V) wf r va allow h out :
  (forall al k v, LoadFold.keeps (view := view) (PutPath al k v)) ->
  (forall al k v, LoadFold.keeps (view := view) (PutInode al k v)) ->
  LoadFold.loads (view := view) (step := step) (wf := wf) (loadPathRule ok homes stat r va allow h out) (fun _ => []).
Proof.
  intros Hp Hi. unfold loadPathRule. destruct (PathIn r) as [|p ps]; [apply loads_fail|].
  apply loads_for_nil. intros q o. apply loads_lift. intros qs _. apply loads_for_nil. intros q' o'.
  unfold load_one_path. apply loads_lift. intros k _. apply loads_skip.
  { unfold putMergedPathRule. apply loads_skip; [by intros m a tr [= _ <-] b|]. intros. by apply loads_keep. }
  intros _. cbv zeta. destruct (isExactPathPattern q'); [|apply loads_ret]. apply loads_lift. intros ik _.
  apply loads_skip; [|intros; apply loads_ret].
  unfold putMergedInodeRule. apply loads_skip; [by intros m a tr [= _ <-] b|]. intros. by apply loads_keep.
Qed.

Lemma no_connect_entries r :
  (forall allow, connect_target allow r = false) ->
  forall b, ip_entries ParseCIDR ParseIP b r = [] /\ port_entries b r = [].
Proof. intros Hn b. unfold ip_entries, port_entries, networks, ports. by rewrite !Hn. Qed.

Lemma loads_ips_ports r out :
  loads_ips (load_rule ok homes stat ParseCIDR ParseIP r out) (fun b => ip_entries ParseCIDR ParseIP b r) /\
  loads_ports (load_rule ok homes stat ParseCIDR ParseIP r out) (fun b => port_entries b r).
Proof.
  unfold load_rule. destruct (skipped r) eqn:Hs.
  { assert (forall allow, connect_target allow r = false) as Hn by (intros; unfold connect_target; by rewrite Hs).
    split; (eapply loads_eq; [intros b; symmetry; apply (no_connect_entries r Hn)|apply loads_ret]). }
  split; apply loads_lift; intros va Hva; apply loads_lift; intros d Hd;
    (destruct (streq (Action r) (bytes_of "connect")) eqn:Hc;
     [assert (connect_target d r = true) as Ht by (unfold connect_target; by rewrite Hs, Hc, Hd, bool_decide_eq_true_2);
      apply streq_spec in Hc; rewrite Hc in Hva; injection Hva as <-
     |assert (forall allow, connect_target allow r = false) as Hn
        by (intros; unfold connect_target; by rewrite Hc, andb_false_r)]).
  - by apply loads_ips_rule.
  - eapply loads_eq; [intros b; symmetry; apply (no_connect_entries r Hn)|]. by apply loads_path_rule_keeps; intros ? ? ? [].
  - by apply loads_ports_rule.
  - eapply loads_eq; [intros b; symmetry; apply (no_connect_entries r Hn)|]. by apply loads_path_rule_keeps; intros ? ? ? [].
Qed.

Lemma clear_ips : ensures (fun _ => True) (clearPolicyMaps ok) (emptied (view := ip_map) []).
Proof.
  unfold clearPolicyMaps. do 4 (apply (ensures_bind _ (fun _ => True)); [done|intros _]).
  apply (ensures_cleared_then (wf := fun _ : lpm_key * path_rule => True) (step := put_entry) ok
    (fun al m => (ip_map al m).*1) DeleteIP (fun t k => trie_delete k t)).
  - by intros [].
  - by intros [].
  - intros al m0. apply trie_delete_all.
  - apply loads_skip; [by apply loads_clear; intros k []|intros ?]. by apply loads_clear; intros k [].
Qed.

Lemma clear_ports : ensures (fun _ => True) (clearPolicyMaps ok) (emptied (view := port_map) ∅).
Proof.
  unfold clearPolicyMaps. do 6 (apply (ensures_bind _ (fun _ => True)); [done|intros _]).
  apply (ensures_cleared ok (fun al m => (map_to_list (port_map al m)).*1) DeletePort (fun t k => delete k t)).
  - by intros [].
  - by intros [].
  - intros al m0. apply map_delete_all.
Qed.

(** Loading a policy leaves in the address and port maps the entries of its connect
    rules, put one after the other into empty maps. *)
Lemma load_connect_maps cp active version m st tr :
  LoadLive ok homes stat ParseCIDR ParseIP cp active version m = (Some st, tr) -> forall allow,
  ip_map allow (end_state m tr) = foldl put_entry [] (policy_ips ParseCIDR ParseIP cp allow) /\
  port_map allow (end_state m tr) = foldl put_port_entry ∅ (policy_ports cp allow).
Proof.
  unfold LoadLive. destruct (clearPolicyMaps ok m) as [[u|] t1] eqn:Hc; [|by rewrite (bind_fail _ _ _ _ Hc)].
  rewrite (bind_run _ _ _ _ _ Hc). intros [= Hb <-] allow. rewrite end_state_app.
  rewrite <- (clear_ips m u t1 I Hc allow), <- (clear_ports m u t1 I Hc allow).
  assert (forall st', loads_ips (_ ← writePolicyCtrl ok cp active version; mret st' : loader LoadStats) (fun _ => [])) as H1
    by (intros; apply loads_skip; [by apply loads_keep; intros []|intros; apply loads_ret]).
  assert (forall st', loads_ports (_ ← writePolicyCtrl ok cp active version; mret st' : loader LoadStats) (fun _ => [])) as H2
    by (intros; apply loads_skip; [by apply loads_keep; intros []|intros; apply loads_ret]).
  set (x := (st ← for_each (load_rule ok homes stat ParseCIDR ParseIP) (Live cp) stats0;
             _ ← writePolicyCtrl ok cp active version; mret st) : loader LoadStats) in *.
  assert (loads_ips x (policy_ips ParseCIDR ParseIP cp)) as Hi.
  { apply loads_then; [|exact H1]. apply (loads_for _ (ip_entries ParseCIDR ParseIP)). intros r o. apply (loads_ips_ports r o). }
  assert (loads_ports x (policy_ports cp)) as Hp.
  { apply loads_then; [|exact H2]. apply (loads_for _ port_entries). intros r o. apply (loads_ips_ports r o). }
  assert (x (end_state m t1) = (Some st, (x (end_state m t1)).2)) as Hx
    by (rewrite <- Hb; apply surjective_pairing).
  split; [apply (Hi _ _ _ Hx allow)|apply (Hp _ _ _ Hx allow)].
Qed.
End loads.
