(* ===== verification/ConnectPolicy.v ===== *)
(** * ConnectPolicy: what the kernel decides on connects after a load

    The connect decisions of a successfully loaded policy, in terms of its rules:
    denials are accounted for ([loaded_connect_denials_sound]); allow networks prevail
    over deny rules and the ports of deny rules are denied at every address
    ([allow_networks_prevail], [deny_ports_ignore_networks]), which the evaluator decides
    otherwise; policies of deny rules on IPv4 networks and on ports are decided as
    [EvaluateActions] decides them ([connect_agrees_with_eval]). *)

From Stdlib Require Import String.
From S2P Require Import Prelude Types Bpf State Logic.
From S2P Require Import Enforcer Gate PathVerdict Hooks ConnectVerdict.
From S2P Require Import Policy MapLoad LoadFacts LoadFold PathLoad LoadedPaths PathPolicy Net ConnectLoad.

#[local] Open Scope string_scope.
#[local] Open Scope list_scope.
#[local] Open Scope Z_scope.

(** ** Putting entries one after the other *)

Lemma put_fold_spec es :
  let t := foldl put_entry [] es in
  (forall k v, (k, v) ∈ t -> (k, v) ∈ es) /\ (forall e, e ∈ es -> exists v, (e.1, v) ∈ t) /\
  (forall k v v', (k, v) ∈ t -> (k, v') ∈ t -> v = v').
Proof.
  induction es as [|e es (IHin & IHall & IHone)] using rev_ind; cbv zeta.
  { split_and!; [by intros ? ? ?%not_elem_of_nil|by intros ? ?%not_elem_of_nil|by intros ? ? ? ?%not_elem_of_nil]. }
  rewrite foldl_app. cbn [foldl]. set (t := foldl put_entry [] es) in *.
  change (put_entry t e) with (trie_put e.1 e.2 t). split_and!.
  - intros k v. rewrite elem_of_trie_put, elem_of_app, list_elem_of_singleton.
    intros [[-> ->]|[_ Hin]]; [right; by destruct e|left; by apply IHin].
  - intros e'. rewrite elem_of_app, list_elem_of_singleton. destruct (decide (e'.1 = e.1)) as [He|He].
    + intros _. exists e.2. rewrite elem_of_trie_put. by left.
    + intros [Hin| ->]; [|done]. destruct (IHall e' Hin) as [v Hv]. exists v. rewrite elem_of_trie_put. by right.
  - intros k v v'. rewrite !elem_of_trie_put. intros [[-> ->]|[? ?]] [[? ->]|[? ?]]; try done. by apply (IHone k).
Qed.

Lemma put_port_fold_spec es p :
  let t := foldl put_port_entry ∅ es in
  (forall v, t !! p = Some v -> (p, v) ∈ es) /\ (forall v, (p, v) ∈ es -> is_Some (t !! p)).
Proof.
  induction es as [|e es (IHin & IHall)] using rev_ind; cbv zeta.
  { cbn [foldl]. split; [by intros v; rewrite lookup_empty|by intros ? ?%not_elem_of_nil]. }
  rewrite foldl_app. cbn [foldl]. set (t := foldl put_port_entry ∅ es) in *.
  change (put_port_entry t e) with (<[e.1 := e.2]> t). destruct (decide (e.1 = p)) as [<-|Hne].
  - rewrite lookup_insert_eq. split; [|eauto]. intros v [= <-]. apply elem_of_app. right.
    apply list_elem_of_singleton. by destruct e.
  - rewrite lookup_insert_ne by done. setoid_rewrite elem_of_app. setoid_rewrite list_elem_of_singleton. split.
    + intros v Hv. left. by apply IHin.
    + intros v [Hv|Hv]; [by apply (IHall v)|]. subst e. done.
Qed.

(** ** After a load *)

Section loaded.
Context `{L : LpmTrie, !LpmTrieSpec L} (ok : enforcer_maps -> map_write -> bool) (homes : dir_entries)
  (stat : gostring -> option (Z * Z)) (ParseCIDR : gostring -> option (list Z * Z))
  (ParseIP : gostring -> option (list Z)) `{!NetOk ParseCIDR ParseIP}.
Context (cp : CompiledPolicy) (active : bool) (version : Z) (m : enforcer_maps) (st : LoadStats)
  (tr : list enforcer_maps).
Context (Hload : LoadLive ok homes stat ParseCIDR ParseIP cp active version m = (Some st, tr)).

Notation m' := (end_state m tr).
Notation cidr_key := (cidrToLPM ParseCIDR ParseIP).

Lemma loaded_ips allow :
  let t := ip_map allow m' in
  (forall k v, (k, v) ∈ t -> exists r c, r ∈ Live cp /\ c ∈ networks allow r /\ cidr_key c = Some k /\ v = ip_value r allow) /\
  (forall r c k, r ∈ Live cp -> c ∈ networks allow r -> cidr_key c = Some k -> exists v, (k, v) ∈ t) /\
  (forall k v v', (k, v) ∈ t -> (k, v') ∈ t -> v = v').
Proof.
  cbv zeta. destruct (load_connect_maps _ _ _ _ _ _ _ _ _ _ _ Hload allow) as [-> _].
  destruct (put_fold_spec (policy_ips ParseCIDR ParseIP cp allow)) as (Hin & Hall & Hone).
  split; [|split; [|exact Hone]].
  - intros k v Hk. by apply elem_of_policy_ips, Hin.
  - intros r c k Hr Hc Hk. apply (Hall (k, ip_value r allow)). apply elem_of_policy_ips. by exists r, c.
Qed.

Lemma loaded_ports allow p :
  let t := port_map allow m' in
  (forall v, t !! p = Some v -> exists r, r ∈ Live cp /\ p ∈ ports allow r /\ v = port_value r allow) /\
  (forall r, r ∈ Live cp -> p ∈ ports allow r -> is_Some (t !! p)).
Proof.
  cbv zeta. destruct (load_connect_maps _ _ _ _ _ _ _ _ _ _ _ Hload allow) as [_ ->].
  destruct (put_port_fold_spec (policy_ports cp allow) p) as [Hin Hall]. split.
  - intros v Hv. by apply elem_of_policy_ports, Hin.
  - intros r Hr Hp. apply (Hall (port_value r allow)). apply elem_of_policy_ports. by exists r.
Qed.

(** The tries of a load have one rule for each prefix. *)
Lemma loaded_ip_tries : ip_tries_functional m'.
Proof.
  assert (forall allow, lpm_functional (ip_map allow m')) as H; [|split; [apply (H false)|apply (H true)]].
  intros allow k1 v1 k2 v2 H1 H2 Hp Hb. destruct (loaded_ips allow) as (Hin & _ & Hone).
  destruct (Hin k1 v1 H1) as (r1 & c1 & _ & _ & Hk1 & _). destruct (Hin k2 v2 H2) as (r2 & c2 & _ & _ & Hk2 & _).
  assert (k1 = k2) as -> by (apply net_key_eq; [by apply (cidr_net_key ParseCIDR ParseIP c1)|by apply (cidr_net_key ParseCIDR ParseIP c2)|done..]).
  by apply (Hone k2).
Qed.

(** ** Denials are the policy's *)

(** The rule names the target: a network of it covers the address, it excludes
    networks, or the port (or 0, which the programs take for every port) is one of
    its ports, or it excludes ports. *)
Definition names_target (r : CompiledRule) (addr : list Z) (port : Z) : Prop :=
  (exists c k, c ∈ DestIPIn r /\ cidr_key c = Some k /\ lpm_covers k (ip_key addr) = true) \/
  DestIPNotIn r <> [] \/ port ∈ DestPortIn r \/ 0 ∈ DestPortIn r \/ DestPortNotIn r <> [].

Lemma networks_deny r c : c ∈ networks false r -> connect_target false r = true /\ (c ∈ DestIPIn r \/ DestIPNotIn r <> []).
Proof.
  unfold networks. rewrite elem_of_app. destruct (connect_target false r); cbn [andb].
  - intros [?|Hc]; [by auto|]. split; [done|]. right. destruct (DestIPNotIn r); [by apply not_elem_of_nil in Hc|done].
  - by intros [?%not_elem_of_nil|?%not_elem_of_nil].
Qed.

Lemma ports_deny r p :
  p ∈ ports false r -> connect_target false r = true /\ (p ∈ DestPortIn r \/ (p = 0 /\ DestPortNotIn r <> [])).
Proof.
  unfold ports. rewrite elem_of_app. destruct (connect_target false r); cbn [andb].
  - intros [?|Hc]; [by auto|]. split; [done|]. right. destruct (DestPortNotIn r); [by apply not_elem_of_nil in Hc|].
    by apply list_elem_of_singleton in Hc.
  - by intros [?%not_elem_of_nil|?%not_elem_of_nil].
Qed.

Lemma denied_connect_rule addr port h :
  connect_verdict m' addr port = Some h ->
  ~ connect_allowed m' addr port /\
  exists r, r ∈ Live cp /\ connect_target false r = true /\ RuleIDHash (ID r) = h /\ names_target r addr port.
Proof.
  intros (Hno & Hd)%connect_verdict_cases. split.
  { rewrite connect_allowed_matches by apply loaded_ip_tries. by rewrite Hno. }
  destruct Hd as [(d & Hd & <-)|(p & Hp & _ & <-)].
  - apply lpm_lookup_Some in Hd as (k & Hin & Hc & _).
    apply (loaded_ips false) in Hin as (r & c & Hr & Hcn & Hk & ->).
    apply networks_deny in Hcn as [Ht Hcn]. exists r. split_and!; [done..|].
    destruct Hcn as [Hcn|Hn]; [left; eauto|by right; left].
  - assert (exists q, (q = port \/ q = 0) /\ port_deny m' !! q = Some p) as (q & Hq & Hl)
      by (destruct Hp; eauto).
    apply (loaded_ports false q) in Hl as (r & Hr & Hpr & ->). apply ports_deny in Hpr as [Ht Hpr].
    exists r. split_and!; [done..|]. unfold names_target. destruct Hpr as [Hpr|[-> Hn]]; [|tauto].
    destruct Hq as [-> | ->]; tauto.
Qed.

(** The rule denies connects and is reported under that hash. *)
Definition denies (h : Z) (r : CompiledRule) : Prop :=
  r ∈ Live cp /\ connect_target false r = true /\ RuleIDHash (ID r) = h.

Definition covers (addr : list Z) (c : gostring) (k : lpm_key) : Prop :=
  cidr_key c = Some k /\ lpm_covers k (ip_key addr) = true.

(** The rule excludes networks, and the address is in none of them; the allow entry of
    an excluded network may also have given way to another rule's, for the same
    network or a longer one. *)
Definition outside_networks (r : CompiledRule) (addr : list Z) : Prop :=
  DestIPNotIn r <> [] /\
  forall c k, c ∈ DestIPNotIn r -> covers addr c k ->
    exists r' c' k', r' ∈ Live cp /\ c' ∈ networks true r' /\ covers addr c' k' /\
      prefixlen k <= prefixlen k' /\ RuleIDHash (ID r') <> RuleIDHash (ID r).

Definition on_addresses (r : CompiledRule) (addr : list Z) : Prop :=
  (exists c k, c ∈ DestIPIn r /\ covers addr c k) \/ outside_networks r addr.

(** The rule is for all ports (port 0), or excludes ports and the port is none of them,
    or its allow entry was replaced by another rule's. *)
Definition outside_ports (r : CompiledRule) (port : Z) : Prop :=
  0 ∈ DestPortIn r \/
  DestPortNotIn r <> [] /\
  (port ∈ DestPortNotIn r ->
   exists r', r' ∈ Live cp /\ port ∈ ports true r' /\ RuleIDHash (ID r') <> RuleIDHash (ID r)).

(** What a denial can rest on: a rule on addresses only, a rule on the ports it excludes
    only, addresses and excluded ports together, or a rule with that port. *)
Inductive denial_grounds (addr : list Z) (port h : Z) : Prop :=
  | on_address r : denies h r -> needs_port r = 0 -> on_addresses r addr -> denial_grounds addr port h
  | on_other_ports r : denies h r -> needs_ip r = 0 -> outside_ports r port -> denial_grounds addr port h
  | on_both r r' : denies h r -> denies h r' -> on_addresses r addr -> outside_ports r' port ->
      denial_grounds addr port h
  | on_port r : denies h r -> port ∈ DestPortIn r \/ (port = 0 /\ DestPortNotIn r <> []) ->
      denial_grounds addr port h.

(** The longest of the deny networks an address has, by its rule. *)
Lemma denied_address addr d :
  lpm_lookup (ip_deny m') (ip_key addr) = Some d ->
  not_of rule_id_hash (lpm_lookup (ip_allow m') (ip_key addr)) (rule_id_hash d) ->
  exists r, denies (rule_id_hash d) r /\ needs_port r = requires_port d /\ on_addresses r addr.
Proof.
  intros (k & Hin & Hc & _)%lpm_lookup_Some Hnot.
  apply (loaded_ips false) in Hin as (r & c & Hr & Hcn & Hk & ->). pose proof (networks_deny _ _ Hcn) as [Ht Hcn'].
  exists r. split_and!; [done..|]. destruct Hcn' as [Hci|Hne]; [left; by exists c, k|right].
  split; [done|]. intros c1 k1 Hc1 [Hk1 Hcov1].
  assert (c1 ∈ networks true r) as Hn1.
  { unfold networks. rewrite Ht. apply elem_of_app. right. by destruct (DestIPNotIn r). }
  destruct (proj1 (proj2 (loaded_ips true)) r c1 k1 Hr Hn1 Hk1) as [v1 Hv1].
  destruct (lpm_lookup (ip_allow m') (ip_key addr)) as [a|] eqn:Ha;
    [|by rewrite (lpm_lookup_None _ _ Ha _ _ Hv1) in Hcov1].
  specialize (Hnot a eq_refl). apply lpm_lookup_Some in Ha as (k2 & Hin2 & Hcov2 & Hmax).
  apply (loaded_ips true) in Hin2 as (r2 & c2 & Hr2 & Hc2 & Hk2 & ->).
  exists r2, c2, k2. split_and!; [done..| |done]. by apply (Hmax k1 v1).
Qed.

Lemma denied_other_ports port c :
  port_deny m' !! 0 = Some c -> not_of pt_rule_id_hash (port_allow m' !! port) (pt_rule_id_hash c) ->
  exists r, denies (pt_rule_id_hash c) r /\ needs_ip r = requires_ip c /\ outside_ports r port.
Proof.
  intros (r & Hr & Hp & ->)%(loaded_ports false 0) Hnot. pose proof (ports_deny _ _ Hp) as [Ht Hp'].
  exists r. split_and!; [done..|]. destruct Hp' as [H0|[_ Hne]]; [by left|right]. split; [done|]. intros Hport.
  assert (port ∈ ports true r) as Hpr.
  { unfold ports. rewrite Ht. apply elem_of_app. right. by destruct (DestPortNotIn r). }
  destruct (proj2 (loaded_ports true port) r Hr Hpr) as [v Hv]. specialize (Hnot v Hv).
  apply (loaded_ports true port) in Hv as (r2 & Hr2 & Hp2 & ->). by exists r2.
Qed.

Lemma denied_port port p :
  port_deny m' !! port = Some p ->
  exists r, denies (pt_rule_id_hash p) r /\ (port ∈ DestPortIn r \/ (port = 0 /\ DestPortNotIn r <> [])).
Proof. intros (r & Hr & Hp & ->)%(loaded_ports false port). pose proof (ports_deny _ _ Hp) as [Ht Hp']. by exists r. Qed.


(** ** Where kernel and evaluator part *)

(** The check of a target under the loaded policy. *)
Lemma loaded_check E s buf len port :
  scratch_ready E s -> pol_eq (enforcer s) m' -> (Z.to_nat len <= length buf)%nat -> addr_len len ->
  (enforce_connect_parsed (Some buf) len port E s).1 =
  if connect_verdict m' (addr_of buf len) port then - EPERM else 0.
Proof.
  intros Hs Heq Hlen Hal.
  assert (ip_tries_functional (enforcer s)) as Hf
    by (apply (ip_tries_functional_proper m'); [by symmetry|apply loaded_ip_tries]).
  rewrite enforce_connect_parsed_run by (done || destruct Hal; lia).
  rewrite (connect_verdict_proper _ _ _ _ Heq). by destruct (connect_verdict _ _ _).
Qed.

(** No allow network of the policy covers the address. *)
Definition no_allow_network (addr : list Z) : Prop :=
  forall r c k, r ∈ Live cp -> c ∈ networks true r -> ~ covers addr c k.

Lemma no_allow_lookup addr : no_allow_network addr -> lpm_lookup (ip_allow m') (ip_key addr) = None.
Proof.
  intros Hno. destruct (lpm_lookup (ip_allow m') (ip_key addr)) as [a|] eqn:Ha; [|done]. exfalso.
  apply lpm_lookup_Some in Ha as (k & Hin & Hcov & _).
  apply (loaded_ips true) in Hin as (r & c & Hr & Hc & Hk & _). by apply (Hno r c k).
Qed.

(** C40. In the kernel an allow entry prevails over every deny rule, unlike in the
    evaluator. After a load, when a network of a live allow rule for connects, or
    one that a live deny rule for connects excludes, in a rule the loader does not
    skip (no user, binary or cgroup predicate), covers an IPv4 or IPv6 address, and
    none of the rules with such a network on that address has ports, the check of
    that address answers 0 on every port, whatever deny rules there are; the
    evaluator has a deny hit for every input that a live deny rule matches, where
    the rules that match it allow or deny. *)
Theorem allow_networks_prevail E s buf len port :
  scratch_ready E s -> pol_eq (enforcer s) m' -> (Z.to_nat len <= length buf)%nat -> addr_len len ->
  let a := addr_of buf len in
  (exists r c k, r ∈ Live cp /\ c ∈ networks true r /\ covers a c k) ->
  (forall r c k, r ∈ Live cp -> c ∈ networks true r -> covers a c k -> needs_port r = 0) ->
  (enforce_connect_parsed (Some buf) len port E s).1 = 0 /\
  forall i d, d ∈ Live cp -> Decision d = DecisionDeny ->
    rule_matches (dest_in ParseCIDR ParseIP) (dest_ok ParseIP) d i = true ->
    (forall r, r ∈ Live cp -> rule_matches (dest_in ParseCIDR ParseIP) (dest_ok ParseIP) r i = true ->
       Decision r = DecisionAllow \/ Decision r = DecisionDeny) ->
    is_Some (deny_hit (dest_in ParseCIDR ParseIP) (dest_ok ParseIP) (Live cp) i).
Proof.
  intros Hs Heq Hlen Hal a (r & c & k & Hr & Hc & Hk & Hcov) Hports. split.
  2: { intros i d Hd Hdec Hm Hall. apply deny_hit_iff; [done|]. by exists d. }
  rewrite loaded_check by done. fold a. rewrite connect_allow_decides; [done|apply loaded_ip_tries|].
  apply connect_allowed_matches; [apply loaded_ip_tries|]. apply connect_rule_matches_true.
  destruct (proj1 (proj2 (loaded_ips true)) r c k Hr Hc Hk) as [v Hv].
  destruct (lpm_lookup (ip_allow m') (ip_key a)) as [e|] eqn:Ha;
    [|by rewrite (lpm_lookup_None _ _ Ha _ _ Hv) in Hcov].
  exists e. split; [done|]. apply lpm_lookup_Some in Ha as (k2 & Hin2 & Hcov2 & _).
  apply (loaded_ips true) in Hin2 as (r2 & c2 & Hr2 & Hc2 & Hk2 & ->).
  split; [done|]. left. cbn [ip_value requires_port]. by apply (Hports r2 c2 k2).
Qed.

(** C31. A port of a live deny rule for connects that the loader does not skip (no
    user, binary or cgroup predicate) is denied at every address, whatever networks
    the rule has: after a load, the check of an IPv4 or IPv6 address and that port
    answers -EPERM, when the port is not 0, no live rule allows or excludes it, and
    no network that a live rule allows or excludes covers the address. *)
Theorem deny_ports_ignore_networks E s buf len port r :
  scratch_ready E s -> pol_eq (enforcer s) m' -> (Z.to_nat len <= length buf)%nat -> addr_len len -> port <> 0 ->
  r ∈ Live cp -> connect_target false r = true -> port ∈ DestPortIn r ->
  no_allow_network (addr_of buf len) -> (forall r', r' ∈ Live cp -> port ∉ ports true r') ->
  (enforce_connect_parsed (Some buf) len port E s).1 = - EPERM.
Proof.
  intros Hs Heq Hlen Hal Hport Hr Ht Hin Hno Hnp.
  rewrite loaded_check by done. set (a := addr_of buf len) in *.
  assert (port ∈ ports false r) as Hpr by (unfold ports; rewrite Ht; apply elem_of_app; by left).
  destruct (proj2 (loaded_ports false port) r Hr Hpr) as [v Hv].
  assert (port_allow m' !! port = None) as Hpa.
  { apply eq_None_not_Some. intros [w Hw]. apply (loaded_ports true port) in Hw as (r' & Hr' & Hp' & _).
    by apply (Hnp r'). }
  assert (pt_decision v = MAP_DECISION_DENY /\ pt_action v = VERDICT_CONNECT) as [Hd Hact].
  { by apply (loaded_ports false port) in Hv as (? & _ & _ & ->). }
  cbn [port_map] in Hv. assert (is_Some (connect_verdict m' a port)) as [h ->]; [|done].
  unfold connect_verdict, when. cbv zeta. rewrite (no_allow_lookup a Hno), Hpa, Hv, Hd, Hact, !Z.eqb_refl.
  replace (port =? 0) with false by lia. cbn [connect_rule_matches negb andb].
  destruct (lpm_lookup (ip_deny m') (ip_key a)), (port_deny m' !! 0); case_bools; by eexists.
Qed.

(** ** Deny rules on networks and on ports *)

(** A rule for other actions, or a deny rule either on IPv4 networks or on ports, with
    no other predicate. *)
Definition plain_connect (r : CompiledRule) : Prop :=
  Action r <> bytes_of "connect" \/
  (skipped r = false /\ Decision r = DecisionDeny /\ PathIn r = [] /\ PathNotIn r = [] /\
   DestIPNotIn r = [] /\ DestPortNotIn r = [] /\
   (DestPortIn r = [] /\ DestIPIn r <> [] /\ Forall (v4_network ParseCIDR ParseIP) (DestIPIn r) \/
    DestIPIn r = [] /\ DestPortIn r <> [] /\ Forall (fun p => 0 < p) (DestPortIn r))).

(** The target is on a network or a port of a connect rule. *)
Definition on_target (a : list Z) (port : Z) (r : CompiledRule) : Prop :=
  Action r = bytes_of "connect" /\
  ((exists c, c ∈ DestIPIn r /\ ipInCIDR ParseCIDR ParseIP (mapped a) c = true) \/ port ∈ DestPortIn r).

(** An evaluator's input for a connect to that address and port. *)
Definition connect_input (i : ActionInput) (a : list Z) (port : Z) : Prop :=
  in_Action i = bytes_of "connect" /\ ParseIP (in_DestIP i) = Some (mapped a) /\ in_DestPort i = port.

Lemma plain_connect_matches r i a port :
  plain_connect r -> connect_input i a port ->
  rule_matches (dest_in ParseCIDR ParseIP) (dest_ok ParseIP) r i = true <-> on_target a port r.
Proof.
  intros Hr (Ha & Hip & Hport). unfold rule_matches, on_target, ruleMatchesAction. rewrite Ha.
  replace (streq (bytes_of "connect") (bytes_of "open")) with false by done. cbn [andb].
  destruct (streq (Action r) (bytes_of "connect")) eqn:Hc.
  2: { split; [done|]. intros [Heq _]. apply streq_spec in Heq. congruence. }
  apply streq_spec in Hc. destruct Hr as [?|(Hsk & _ & Hpi & Hpn & Hin & Hpnot & Hkind)]; [done|].
  assert (UID r = None /\ Binary r = [] /\ Cgroup r = []) as (Hu & Hb & Hcg).
  { revert Hsk. unfold skipped. rewrite !orb_false_iff, !negb_false_iff, !streq_spec, bool_decide_eq_false.
    intros ((Hu & ?) & ?). split_and!; [|done|done]. by apply eq_None_not_Some. }
  destruct (parse_ip ParseCIDR ParseIP _ _ Hip) as (Hne & _ & _).
  assert (streq (in_DestIP i) [] = false) as Hse by (apply not_true_iff_false; by rewrite streq_spec).
  unfold ruleMatchesPredicates. rewrite Hpi, Hpn, Hin, Hpnot, Hu, Hb, Hcg, Hse.
  change (streq [] []) with true. cbn [nonempty orb negb andb].
  rewrite !andb_true_r, !orb_false_r. unfold ruleMatchesDestIP, ruleMatchesDestPort. rewrite Hin, Hpnot, Hport.
  cbn [existsb]. unfold dest_ok at 1. rewrite Hip, bool_decide_eq_true_2 by done. cbn [negb].
  assert (forall cs, existsb (dest_in ParseCIDR ParseIP (in_DestIP i)) cs = true <->
            exists c, c ∈ cs /\ ipInCIDR ParseCIDR ParseIP (mapped a) c = true) as Hcs.
  { intros cs. rewrite existsb_elem. unfold dest_in. by rewrite Hip. }
  destruct Hkind as [(-> & Hn & _)|(-> & Hn & _)]; cbn [nonempty].
  - destruct (DestIPIn r) as [|c cs] eqn:Hd; [done|]. rewrite andb_true_r.
    change (existsb (dest_in ParseCIDR ParseIP (in_DestIP i)) (c :: cs) = true <->
            Action r = bytes_of "connect" /\ ((exists c', c' ∈ c :: cs /\ ipInCIDR ParseCIDR ParseIP (mapped a) c' = true) \/ port ∈ [])).
    rewrite Hcs.
    split; [by auto|]. by intros [_ [?|?%not_elem_of_nil]].
  - destruct (DestPortIn r) as [|p ps] eqn:Hd; [done|]. cbn [andb].
    change (existsb (Z.eqb port) (p :: ps) = true <->
            Action r = bytes_of "connect" /\ ((exists c, c ∈ [] /\ ipInCIDR ParseCIDR ParseIP (mapped a) c = true) \/ port ∈ p :: ps)).
    rewrite existsb_elem. setoid_rewrite Z.eqb_eq. split.
    + intros (x & Hx & <-). by auto.
    + intros [_ [(c & ?%not_elem_of_nil & _)|Hx]]; [done|]. by exists port.
Qed.

Lemma plain_hit_iff i a port :
  Forall plain_connect (Live cp) -> connect_input i a port ->
  is_Some (deny_hit (dest_in ParseCIDR ParseIP) (dest_ok ParseIP) (Live cp) i) <->
  exists r, r ∈ Live cp /\ on_target a port r.
Proof.
  rewrite Forall_forall. intros Hpl Hi.
  assert (forall r, r ∈ Live cp -> rule_matches (dest_in ParseCIDR ParseIP) (dest_ok ParseIP) r i = true ->
            on_target a port r /\ Decision r = DecisionDeny) as Hm.
  { intros r Hr Hm. apply (plain_connect_matches r i a port (Hpl r Hr) Hi) in Hm as Ht. split; [done|].
    destruct (Hpl r Hr) as [Hc|(_ & Hd & _)]; [|done]. by destruct Ht as [Ht _]. }
  rewrite deny_hit_iff by (intros r Hr H; right; by apply Hm). split.
  - intros (r & Hr & H & _). exists r. split; [done|]. by apply Hm.
  - intros (r & Hr & Ht). exists r.
    assert (rule_matches (dest_in ParseCIDR ParseIP) (dest_ok ParseIP) r i = true) as H
      by (by apply (plain_connect_matches r i a port (Hpl r Hr) Hi)).
    split_and!; [done|done|by apply Hm].
Qed.

Section plain.
Context (Hplain : Forall plain_connect (Live cp)).

Lemma plain_cases r :
  r ∈ Live cp -> Action r = bytes_of "connect" ->
  skipped r = false /\ Decision r = DecisionDeny /\ DestIPNotIn r = [] /\ DestPortNotIn r = [] /\
  (DestPortIn r = [] /\ Forall (v4_network ParseCIDR ParseIP) (DestIPIn r) \/
   DestIPIn r = [] /\ Forall (fun p => 0 < p) (DestPortIn r)).
Proof.
  rewrite Forall_forall in Hplain. intros Hr Hc. destruct (Hplain r Hr) as [?|(? & ? & _ & _ & ? & ? & Hk)]; [done|].
  split_and!; try done. destruct Hk as [(? & _ & ?)|(? & _ & ?)]; auto.
Qed.

Lemma plain_entries r :
  r ∈ Live cp -> connect_target true r = false /\
  (Action r = bytes_of "connect" -> networks false r = DestIPIn r /\ ports false r = DestPortIn r) /\
  (Action r <> bytes_of "connect" -> networks false r = [] /\ ports false r = []).
Proof.
  intros Hr. destruct (decide (Action r = bytes_of "connect")) as [Hc|Hc].
  - destruct (plain_cases r Hr Hc) as (Hsk & Hd & Hn & Hpn & _).
    assert (connect_target false r = true) as Ht by (apply connect_target_cases; by rewrite Hd).
    assert (connect_target true r = false) as Ht' by (by rewrite (connect_target_eqb false)).
    split_and!; [done| |done]. intros _. unfold networks, ports. rewrite Ht, Hn, Hpn. cbn [nonempty andb].
    by rewrite !app_nil_r.
  - assert (forall allow, connect_target allow r = false) as Ht.
    { intros allow. apply not_true_iff_false. by intros (_ & ? & _)%connect_target_cases. }
    split_and!; [done|done|]. intros _. unfold networks, ports. by rewrite Ht.
Qed.

Lemma plain_ip_allow k : lpm_lookup (ip_allow m') k = None.
Proof.
  destruct (lpm_lookup (ip_allow m') k) as [d|] eqn:Hl; [|done]. exfalso.
  apply lpm_lookup_Some in Hl as (k' & Hin & _). apply (loaded_ips true) in Hin as (r & c & Hr & Hc & _).
  destruct (plain_entries r Hr) as (Ht & H1 & H2). unfold networks in Hc. rewrite Ht in Hc.
  destruct (decide (Action r = bytes_of "connect")) as [Ha|Ha].
  - destruct (plain_cases r Hr Ha) as (_ & _ & Hn & _). rewrite Hn, andb_false_r in Hc. by apply not_elem_of_nil in Hc.
  - assert (connect_target false r = false) as Hf by (apply not_true_iff_false; by intros (_ & ? & _)%connect_target_cases).
    rewrite Hf in Hc. by apply not_elem_of_nil in Hc.
Qed.

Lemma plain_ip_deny a d :
  lpm_lookup (ip_deny m') (ip_key a) = Some d ->
  exists r c k, r ∈ Live cp /\ Action r = bytes_of "connect" /\ c ∈ DestIPIn r /\ cidr_key c = Some k /\
    lpm_covers k (ip_key a) = true /\ decision d = MAP_DECISION_DENY /\ requires_port d = 0.
Proof.
  intros (k & Hin & Hcov & _)%lpm_lookup_Some. apply (loaded_ips false) in Hin as (r & c & Hr & Hc & Hk & ->).
  destruct (plain_entries r Hr) as (_ & H1 & H2).
  destruct (decide (Action r = bytes_of "connect")) as [Ha|Ha]; [|destruct (H2 Ha) as [Hn _]; rewrite Hn in Hc; by apply not_elem_of_nil in Hc].
  destruct (H1 Ha) as [Hn _]. rewrite Hn in Hc. exists r, c, k. split_and!; try done.
  cbn [ip_value requires_port]. unfold needs_port. destruct (plain_cases r Hr Ha) as (_ & _ & _ & -> & Hk').
  destruct Hk' as [[-> _]|[Hd _]]; [done|]. rewrite Hd in Hc. by apply not_elem_of_nil in Hc.
Qed.

Lemma plain_port_deny p v :
  port_deny m' !! p = Some v ->
  exists r, r ∈ Live cp /\ Action r = bytes_of "connect" /\ p ∈ DestPortIn r /\ 0 < p /\
    pt_decision v = MAP_DECISION_DENY /\ pt_action v = VERDICT_CONNECT.
Proof.
  intros Hl. apply (loaded_ports false p) in Hl as (r & Hr & Hp & ->).
  destruct (plain_entries r Hr) as (_ & H1 & H2).
  destruct (decide (Action r = bytes_of "connect")) as [Ha|Ha]; [|destruct (H2 Ha) as [_ Hn]; rewrite Hn in Hp; by apply not_elem_of_nil in Hp].
  destruct (H1 Ha) as [_ Hn]. rewrite Hn in Hp. exists r. split_and!; try done.
  destruct (plain_cases r Hr Ha) as (_ & _ & _ & _ & [[Hd _]|[_ Hpos]]); [rewrite Hd in Hp; by apply not_elem_of_nil in Hp|].
  rewrite Forall_forall in Hpos. by apply Hpos.
Qed.

(** Without allow entries, catch-all and two-sided rules the checks of the programs
    come to two lookups. *)
Lemma plain_verdict a port :
  port <> 0 ->
  connect_verdict m' a port =
  match lpm_lookup (ip_deny m') (ip_key a) with
  | Some d => Some (rule_id_hash d)
  | None => pt_rule_id_hash <$> port_deny m' !! port
  end.
Proof.
  intros Hport. assert (forall p, port_allow m' !! p = None) as Hpa.
  { intros p. apply eq_None_not_Some. intros [v Hv]. apply (loaded_ports true p) in Hv as (r & Hr & Hp & _).
    destruct (plain_entries r Hr) as (Ht & _). unfold ports in Hp. rewrite Ht in Hp.
    destruct (decide (Action r = bytes_of "connect")) as [Ha|Ha].
    - destruct (plain_cases r Hr Ha) as (_ & _ & _ & Hn & _). rewrite Hn, andb_false_r in Hp. by apply not_elem_of_nil in Hp.
    - assert (connect_target false r = false) as Hf by (apply not_true_iff_false; by intros (_ & ? & _)%connect_target_cases).
      rewrite Hf in Hp. by apply not_elem_of_nil in Hp. }
  assert (port_deny m' !! 0 = None) as H0.
  { apply eq_None_not_Some. intros [v Hv]. apply plain_port_deny in Hv as (r & _ & _ & _ & Hlt & _). lia. }
  unfold connect_verdict. cbv zeta. rewrite plain_ip_allow, Hpa, H0. cbn [connect_rule_matches].
  destruct (lpm_lookup (ip_deny m') (ip_key a)) as [d|] eqn:Hd.
  - apply plain_ip_deny in Hd as (r & c & k & _ & _ & _ & _ & _ & Hdec & Hreq).
    unfold ip_not_in_rule_matches. by rewrite Hreq, Hdec, !Z.eqb_refl.
  - destruct (port_deny m' !! port) as [v|] eqn:Hv; [|done].
    apply plain_port_deny in Hv as (r & _ & _ & _ & _ & Hdec & Hact). rewrite Hdec, Hact, !Z.eqb_refl.
    by replace (port =? 0) with false by lia.
Qed.

Lemma plain_denied a port :
  length a = 4%nat -> Forall is_byte a -> port <> 0 ->
  is_Some (connect_verdict m' a port) <-> exists r, r ∈ Live cp /\ on_target a port r.
Proof.
  intros Ha Hab Hport. rewrite plain_verdict by done. split.
  - destruct (lpm_lookup (ip_deny m') (ip_key a)) as [d|] eqn:Hd.
    + intros _. apply plain_ip_deny in Hd as (r & c & k & Hr & Hc & Hin & Hk & Hcov & _).
      exists r. split; [done|]. split; [done|]. left. exists c. split; [done|].
      destruct (plain_cases r Hr Hc) as (_ & _ & _ & _ & [[_ Hv4]|[He _]]); [|rewrite He in Hin; by apply not_elem_of_nil in Hin].
      rewrite Forall_forall in Hv4. by rewrite (network_key_covers _ _ c k a) by auto.
    + destruct (port_deny m' !! port) as [v|] eqn:Hv; [|by intros [? [=]]]. intros _.
      apply plain_port_deny in Hv as (r & Hr & Hc & Hin & _). exists r. split; [done|]. split; [done|]. by right.
  - intros (r & Hr & Hc & Ht). destruct (lpm_lookup (ip_deny m') (ip_key a)) as [d|] eqn:Hd; [done|].
    destruct (plain_entries r Hr) as (_ & H1 & _). destruct (H1 Hc) as [Hn Hp].
    destruct Ht as [(c & Hin & Hcov)|Hin].
    + destruct (plain_cases r Hr Hc) as (_ & _ & _ & _ & [[_ Hv4]|[He _]]); [|rewrite He in Hin; by apply not_elem_of_nil in Hin].
      rewrite Forall_forall in Hv4. specialize (Hv4 c Hin).
      destruct (v4_network_key ParseCIDR ParseIP c Hv4) as [k Hk].
      rewrite (network_key_covers ParseCIDR ParseIP c k a) in Hcov by done.
      destruct (proj1 (proj2 (loaded_ips false)) r c k Hr) as [v Hv]; [by rewrite Hn|done|].
      by rewrite (lpm_lookup_None _ _ Hd _ _ Hv) in Hcov.
    + rewrite <- Hp in Hin. destruct (proj2 (loaded_ports false port) r Hr Hin) as [v Hv].
      cbn [port_map] in Hv. rewrite Hv. by eexists.
Qed.

(** The rule a denial is reported under is on the target. *)
Lemma plain_denied_rule a port h :
  length a = 4%nat -> Forall is_byte a -> port <> 0 -> connect_verdict m' a port = Some h ->
  exists r, r ∈ Live cp /\ connect_target false r = true /\ RuleIDHash (ID r) = h /\ on_target a port r.
Proof.
  intros Ha Hab Hport (_ & r & Hr & Ht & Hh & Hn)%denied_connect_rule. exists r. split_and!; [done..|].
  apply connect_target_cases in Ht as (_ & Hc & _).
  destruct (plain_cases r Hr Hc) as (_ & _ & Hni & Hnp & Hkind).
  split; [done|]. unfold names_target in Hn. rewrite Hni, Hnp in Hn.
  destruct Hn as [(c & k & Hin & Hk & Hcov)|[?|[Hin|[H0|?]]]]; [|done|by right| |done].
  - left. exists c. split; [done|].
    destruct Hkind as [[_ Hv4]|[He _]]; [|rewrite He in Hin; by apply not_elem_of_nil in Hin].
    rewrite Forall_forall in Hv4. by rewrite (network_key_covers _ _ c k a) by auto.
  - exfalso. destruct Hkind as [[He _]|[_ Hpos]]; [rewrite He in H0; by apply not_elem_of_nil in H0|].
    rewrite Forall_forall in Hpos. specialize (Hpos 0 H0). lia.
Qed.
End plain.

(** C10. Kernel and evaluator agree on connects for policies whose connect rules are
    deny rules, each either on IPv4 networks or on non-zero ports and with no other
    predicate: after a load, the check of an IPv4 address and a non-zero port
    answers -EPERM exactly when the target is a deny hit of the same rules in
    userspace, and 0 otherwise. *)
Theorem connect_agrees_with_eval E s buf port i :
  Forall plain_connect (Live cp) -> scratch_ready E s -> pol_eq (enforcer s) m' ->
  (4 <= length buf)%nat -> let a := take 4 buf in Forall is_byte a -> port <> 0 -> connect_input i a port ->
  let hit := is_Some (deny_hit (dest_in ParseCIDR ParseIP) (dest_ok ParseIP) (Live cp) i) in
  ((enforce_connect_parsed (Some buf) 4 port E s).1 = - EPERM /\ hit) \/
  ((enforce_connect_parsed (Some buf) 4 port E s).1 = 0 /\ ~ hit).
Proof.
  intros Hpl Hs Heq Hlen a Ha Hport Hi hit.
  rewrite loaded_check by (done || by left). change (addr_of buf 4) with a.
  assert (is_Some (connect_verdict m' a port) <-> hit) as <-.
  { unfold hit. rewrite (plain_hit_iff i a port) by done. apply plain_denied; [done| |done|done].
    subst a. rewrite length_take. lia. }
  destruct (connect_verdict m' a port) as [h|]; [left|right]; (split; [done|]); [by eexists|by intros [? [=]]].
Qed.
End loaded.
