(* ===== verification/LoadErrors.v ===== *)
(** * LoadErrors: when a load fails, and what a reload leaves

    Which policies load when the kernel accepts every write, and the control word
    and policy a reload ends with. *)

From Stdlib Require Import String.
From S2P Require Import Prelude Types Bpf State Logic Gate Policy MapLoad LoadFacts.

(** ** The rules that load *)

Definition is_some {A} (o : option A) : bool := match o with Some _ => true | None => false end.

Section loadable.
Context (homes : dir_entries) (stat : gostring -> option (Z * Z))
  (ParseCIDR : gostring -> option (list Z * Z)) (ParseIP : gostring -> option (list Z)).

Definition pattern_loadable (q : gostring) : bool :=
  is_some (pathPatternToLPM q) && (if isExactPathPattern q then is_some (pathToInodeKey stat q) else true).

Definition path_loadable (r : CompiledRule) : bool :=
  nonempty (PathIn r) &&
  forallb (fun p => match expandPathPattern homes p with
                    | Some qs => forallb pattern_loadable qs | None => false end) (PathIn r).

Definition cidr_loadable (c : gostring) : bool := is_some (cidrToLPM ParseCIDR ParseIP c).

(** [dest_ip_not_in] and [dest_port_not_in] need a deny rule, and the catch-all
    addresses must parse. *)
Definition connect_loadable (r : CompiledRule) (allow : bool) : bool :=
  forallb cidr_loadable (DestIPIn r) &&
  (if nonempty (DestIPNotIn r)
   then negb allow && forallb cidr_loadable (DestIPNotIn r ++ [bytes_of "0.0.0.0/0"; bytes_of "::/0"])
   else true) &&
  (if nonempty (DestPortNotIn r) then negb allow else true) &&
  (nonempty (DestIPIn r) || nonempty (DestIPNotIn r) || nonempty (DestPortIn r) || nonempty (DestPortNotIn r)).

Definition rule_loadable (r : CompiledRule) : bool :=
  skipped r ||
  match actionVerdict (Action r), mapDecision (Decision r) with
  | Some _, Some allow =>
      if streq (Action r) (bytes_of "connect") then connect_loadable r allow else path_loadable r
  | _, _ => false
  end.

Definition loadable (cp : CompiledPolicy) : bool := forallb rule_loadable (Live cp).
End loadable.

(** ** Loaders that succeed exactly when *)

Definition succeeds {A} (x : loader A) (b : bool) : Prop := forall m, is_some (x m).1 = b.

Lemma succeeds_eq {A} (x : loader A) b b' : b = b' -> succeeds x b -> succeeds x b'.
Proof. by intros ->. Qed.

Lemma succeeds_ret {A} (a : A) : succeeds (mret a) true.
Proof. done. Qed.

Lemma succeeds_fail {A} : succeeds (@fail A) false.
Proof. done. Qed.

Lemma succeeds_get : succeeds get_maps true.
Proof. done. Qed.

Lemma succeeds_bind {A B} (x : loader A) (f : A -> loader B) b b' :
  succeeds x b -> (forall a, succeeds (f a) b') -> succeeds (x ≫= f) (b && b').
Proof.
  intros Hx Hf m. specialize (Hx m). destruct (x m) as [[a|] tr] eqn:Hr; cbn in Hx; subst b.
  - rewrite (bind_run _ _ _ _ _ Hr). apply Hf.
  - by rewrite (bind_fail _ _ _ _ Hr).
Qed.

Lemma succeeds_lift {A B} (o : option A) (f : A -> loader B) b :
  (forall a, o = Some a -> succeeds (f a) b) -> succeeds (lift o ≫= f) (is_some o && b).
Proof.
  intros Hf m. destruct o as [a|]; cbn [lift is_some andb]; [|done].
  rewrite (bind_run _ _ m a []) by done. by apply Hf.
Qed.

Lemma succeeds_for {A B} (f : A -> B -> loader B) g l b :
  (forall a b, succeeds (f a b) (g a)) -> succeeds (for_each f l b) (forallb g l).
Proof.
  intros Hf. revert b. induction l as [|a l IH]; intros b; [apply succeeds_ret|].
  cbn [for_each forallb]. apply succeeds_bind; [apply Hf|apply IH].
Qed.

Section succeed.
Context `{L : LpmTrie} (ok : enforcer_maps -> map_write -> bool) (Hok : forall m w, ok m w = true).
Context (homes : dir_entries) (stat : gostring -> option (Z * Z))
  (ParseCIDR : gostring -> option (list Z * Z)) (ParseIP : gostring -> option (list Z)).

Lemma succeeds_write w : succeeds (do_write ok w) true.
Proof. intros m. unfold do_write. by rewrite Hok. Qed.

Lemma succeeds_true {A B} (x : loader A) (f : A -> loader B) b :
  succeeds x true -> (forall a, succeeds (f a) b) -> succeeds (x ≫= f) b.
Proof. apply (succeeds_bind x f true b). Qed.

Lemma forallb_true {A} (l : list A) : forallb (fun _ => true) l = true.
Proof. by induction l. Qed.

Lemma succeeds_for_true {A B} (f : A -> B -> loader B) l b :
  (forall a b, succeeds (f a b) true) -> succeeds (for_each f l b) true.
Proof. intros Hf. rewrite <- (forallb_true l). by apply succeeds_for. Qed.

Lemma succeeds_clear {K} (keys : enforcer_maps -> list K) del : succeeds (clearMap ok keys del) true.
Proof.
  apply succeeds_true; [apply succeeds_get|]. intros m. apply succeeds_for_true. intros. apply succeeds_write.
Qed.

Lemma succeeds_one_path allow v q out :
  succeeds (load_one_path ok stat allow v q out) (pattern_loadable stat q).
Proof.
  unfold load_one_path, pattern_loadable. apply succeeds_lift. intros k _.
  apply succeeds_true; [by apply succeeds_true; [apply succeeds_get|intros; apply succeeds_write]|].
  intros u. cbv zeta. destruct (isExactPathPattern q); [|apply succeeds_ret].
  rewrite <- (andb_true_r (is_some _)). apply succeeds_lift. intros ik _.
  apply succeeds_true; [by apply succeeds_true; [apply succeeds_get|intros; apply succeeds_write]|].
  intros ?. apply succeeds_ret.
Qed.

Lemma succeeds_path_rule r va allow h out :
  succeeds (loadPathRule ok homes stat r va allow h out) (path_loadable homes stat r).
Proof.
  unfold loadPathRule, path_loadable. destruct (PathIn r) as [|p ps]; [apply succeeds_fail|].
  cbn [nonempty andb]. apply succeeds_for. intros q c.
  set (b := match expandPathPattern homes q with
            | Some qs => forallb (pattern_loadable stat) qs | None => false end).
  apply (succeeds_eq _ (is_some (expandPathPattern homes q) && b));
    [subst b; by destruct (expandPathPattern homes q)|].
  apply succeeds_lift. intros qs Hqs. subst b. rewrite Hqs. apply succeeds_for. intros. apply succeeds_one_path.
Qed.

Lemma succeeds_cidrs al v l out :
  succeeds (for_each (put_cidr ok ParseCIDR ParseIP al v) l out) (forallb (cidr_loadable ParseCIDR ParseIP) l).
Proof.
  apply succeeds_for. intros c o. unfold put_cidr, cidr_loadable. rewrite <- (andb_true_r (is_some _)).
  apply succeeds_lift. intros k _. apply succeeds_true; [apply succeeds_write|]. intros ?. apply succeeds_ret.
Qed.

Lemma succeeds_port al v port out : succeeds (put_port ok al v port out) true.
Proof. apply succeeds_true; [apply succeeds_write|]. intros ?. apply succeeds_ret. Qed.

Lemma succeeds_connect_rule r va allow h out :
  succeeds (loadConnectRule ok ParseCIDR ParseIP r va allow h out) (connect_loadable ParseCIDR ParseIP r allow).
Proof.
  unfold loadConnectRule, connect_loadable. cbv zeta. rewrite <- !andb_assoc.
  apply succeeds_bind; [apply succeeds_cidrs|]. intros o1. apply succeeds_bind.
  { destruct (nonempty (DestIPNotIn r)); [|apply succeeds_ret]. destruct allow; [apply succeeds_fail|].
    cbn [negb andb]. rewrite forallb_app. apply succeeds_bind; [apply succeeds_cidrs|]. intros ?. apply succeeds_cidrs. }
  intros o2. apply succeeds_true; [apply succeeds_for_true; intros; apply succeeds_port|].
  intros o3. apply succeeds_bind.
  { destruct (nonempty (DestPortNotIn r)); [|apply succeeds_ret]. destruct allow; [apply succeeds_fail|].
    apply succeeds_true; [apply succeeds_for_true; intros; apply succeeds_port|]. intros ?. apply succeeds_port. }
  intros o4. destruct (_ || _); [apply succeeds_ret|apply succeeds_fail].
Qed.

Lemma succeeds_rule r out :
  succeeds (load_rule ok homes stat ParseCIDR ParseIP r out) (rule_loadable homes stat ParseCIDR ParseIP r).
Proof.
  unfold load_rule, rule_loadable. destruct (skipped r); [apply succeeds_ret|]. cbn [orb].
  set (b := match mapDecision (Decision r) with
            | Some allow => if streq (Action r) (bytes_of "connect") then connect_loadable ParseCIDR ParseIP r allow
                            else path_loadable homes stat r
            | None => false end).
  apply (succeeds_eq _ (is_some (actionVerdict (Action r)) && (is_some (mapDecision (Decision r)) && b)));
    [subst b; by destruct (actionVerdict (Action r)), (mapDecision (Decision r))|].
  apply succeeds_lift. intros va _. apply succeeds_lift. intros al Hal. subst b. rewrite Hal. cbv zeta.
  destruct (streq _ _); [apply succeeds_connect_rule|apply succeeds_path_rule].
Qed.

Notation load := (LoadLive ok homes stat ParseCIDR ParseIP).
Notation apply := (applyLivePolicy ok homes stat ParseCIDR ParseIP).
Notation lb := (loadable homes stat ParseCIDR ParseIP).

Lemma succeeds_load cp active version : succeeds (load cp active version) (lb cp).
Proof.
  unfold LoadLive, clearPolicyMaps. apply succeeds_true.
  { repeat (apply succeeds_true; [apply succeeds_clear|intros ?]). apply succeeds_clear. }
  intros u. rewrite <- (andb_true_r (lb cp)). apply succeeds_bind.
  - apply succeeds_for. intros. apply succeeds_rule.
  - intros st. apply succeeds_true; [apply succeeds_write|]. intros ?. apply succeeds_ret.
Qed.

Lemma succeeds_apply cp active : succeeds (apply cp active) (lb cp).
Proof. apply succeeds_true; [apply succeeds_write|]. intros ?. apply succeeds_load. Qed.

(** The state an attempt to apply a policy ends in. *)
Lemma apply_end cp m en :
  if lb cp then (exists st, (apply cp true m).1 = Some st) /\ in_force cp (end_state m (apply cp true m).2)
  else (apply cp true m).1 = None /\ suspended cp en (end_state m (apply cp true m).2).
Proof.
  pose proof (succeeds_apply cp true m) as Hs.
  destruct (apply_run ok homes stat ParseCIDR ParseIP cp m) as (tr & Hf & Hr).
  assert ((apply cp true m).2 <> []) as Hne.
  { unfold applyLivePolicy. rewrite (bind_run _ _ m () [with_ctrl m [loading_word cp]]); [done|].
    unfold do_write. by rewrite Hok. }
  destruct (apply cp true m) as [[st|] tr1]; cbn [fst snd is_some] in *; subst tr1; rewrite <- Hs.
  - split; [by exists st|]. by rewrite end_state_app, end_state_cons.
  - split; [done|]. apply loading_suspended. unfold end_state.
    destruct (last tr) as [m1|] eqn:Hl; [|by apply last_None in Hl].
    rewrite Forall_forall in Hf. apply Hf. by apply last_Some_elem_of.
Qed.

(** C13. What a reload comes to, when the kernel accepts the writes: a policy with
    the version of the one held changes nothing; otherwise a policy whose rules all
    load is in force; otherwise the agent keeps the previous policy, which is in
    force again when its rules still load; otherwise enforcement is off, under the
    fail direction of the policy tried last. One rule that does not load keeps its
    whole policy out. *)
Theorem reload_outcome cp prev en m :
  let r := reloadPolicy ok homes stat ParseCIDR ParseIP cp prev m in
  let final := end_state m r.2 in
  if match prev with Some p => Version p =? Version cp | None => false end then r = (prev, []) /\ final = m
  else if lb cp then r.1 = Some cp /\ in_force cp final
  else r.1 = prev /\
    match prev with
    | Some p => if lb p then in_force p final else suspended p en final
    | None => suspended cp en final
    end.
Proof.
  intros r final. subst final r. unfold reloadPolicy.
  destruct (match prev with Some p => Version p =? Version cp | None => false end); [done|].
  pose proof (apply_end cp m en) as Ha. destruct (apply cp true m) as [o tr]. cbn [fst snd] in Ha.
  destruct (lb cp).
  - destruct Ha as [[st ->] Hin]. by split.
  - destruct Ha as [-> Hsus]. destruct prev as [p|]; cbn [fst snd]; [|by split].
    pose proof (apply_end p (end_state m tr) en) as Hp. rewrite end_state_app.
    split; [done|]. destruct (lb p); by destruct Hp.
Qed.

(** C19. When the kernel accepts the writes, a load succeeds exactly when every live
    rule is skipped or loads: known action and decision, path patterns of the
    supported form that fit a key, files of exact patterns that exist, addresses
    that parse, negative predicates on deny rules only, and at least one predicate.
    *)
Theorem load_succeeds_iff cp active version m :
  is_Some (load cp active version m).1 <-> forall r, r ∈ Live cp -> rule_loadable homes stat ParseCIDR ParseIP r = true.
Proof.
  pose proof (succeeds_load cp active version m) as Hs.
  assert (lb cp = true <-> forall r, r ∈ Live cp -> rule_loadable homes stat ParseCIDR ParseIP r = true) as <-.
  { unfold loadable. rewrite forallb_forall. by setoid_rewrite list_elem_of_In. }
  destruct (load cp active version m) as [[st|] tr]; cbn in Hs; rewrite <- Hs; split; try done;
    try by eexists. all: by intros [? ?].
Qed.
End succeed.
