(* ===== verification/Compile.v ===== *)
(** * Compile: policy bundles, their validation and compilation

    [internal/policy/schema.go], the validation of [load.go] and the compiler of
    [compile.go].  YAML decoding is a library's: a bundle is what it yields. *)

From Stdlib Require Import String.
From S2P Require Import Prelude Types Policy MapLoad.

#[local] Open Scope string_scope.
#[local] Open Scope list_scope.
#[local] Open Scope Z_scope.

(** ** Strings *)

(** The UTF-8 encodings of the code points [unicode.IsSpace] accepts. *)
Definition white_space : list gostring :=
  [[9]; [10]; [11]; [12]; [13]; [32]; [194; 133]; [194; 160]; [225; 154; 128];
   [226; 128; 168]; [226; 128; 169]; [226; 128; 175]; [226; 129; 159]; [227; 128; 128]]
  ++ ((fun n => [226; 128; 128 + n]) <$> [0; 1; 2; 3; 4; 5; 6; 7; 8; 9; 10]).

Fixpoint trim_left (fuel : nat) (s : gostring) : gostring :=
  match fuel with
  | O => s
  | S fuel => match List.find (HasPrefix s) white_space with
              | Some w => trim_left fuel (drop (length w) s)
              | None => s
              end
  end.

Fixpoint trim_right (fuel : nat) (s : gostring) : gostring :=
  match fuel with
  | O => s
  | S fuel => match List.find (HasSuffix s) white_space with
              | Some w => trim_right fuel (take (length s - length w) s)
              | None => s
              end
  end.

(** [strings.TrimSpace]. *)
Definition TrimSpace (s : gostring) : gostring :=
  trim_right (length s) (trim_left (length s) s).

(** [strings.Index (s, "*")]. *)
Fixpoint index_star (s : gostring) : option Z :=
  match s with
  | [] => None
  | b :: s => if b =? STAR then Some 0 else Z.succ <$> index_star s
  end.

(** ** Bundles (schema.go) *)

Module bundle.
Record Match := mk_match {
  Action : gostring;
  PathIn : list gostring;
  PathNotIn : list gostring;
  DestIPIn : list gostring;
  DestIPNotIn : list gostring;
  DestPortIn : list Z;
  DestPortNotIn : list Z;
  UID : option Z;
  Binary : gostring;
  Cgroup : gostring
}.

Record Rule := mk_rule {
  ID : gostring;
  Rationale : gostring;
  rule_match : Match;
  Decision : gostring;
  State : gostring
}.

Record Bundle := mk_bundle {
  Version : Z;
  AgentScope : gostring;
  SignedBy : gostring;
  DefaultAction : gostring;
  FailDirection : gostring;
  Rules : list Rule
}.
End bundle.

Definition validActions : list gostring :=
  bytes_of <$> ["connect"; "open"; "write"; "unlink"; "rename"; "exec"].

Definition DecisionKill : gostring := bytes_of "kill".
Definition StateDraft : gostring := bytes_of "draft".
Definition StateShadow : gostring := bytes_of "shadow".
Definition StateEnforced : gostring := bytes_of "enforced".
Definition StateRetired : gostring := bytes_of "retired".
Definition StateRollback : gostring := bytes_of "rollback".
Definition DefaultActionAllow : gostring := bytes_of "allow".
Definition FailDirectionOpen : gostring := bytes_of "open".

Definition is_empty {A} (l : list A) : bool := negb (nonempty l).

(** [Match.Actions]: the tokens of the action, separated by bars. *)
Definition Actions (m : bundle.Match) : list gostring :=
  if streq (bundle.Action m) [] then []
  else filter (fun p => p <> []) (TrimSpace <$> split_on 124 (bundle.Action m)).

Definition match_empty (m : bundle.Match) : bool :=
  streq (bundle.Action m) [] && is_empty (bundle.PathIn m) && is_empty (bundle.PathNotIn m) &&
  is_empty (bundle.DestIPIn m) && is_empty (bundle.DestIPNotIn m) &&
  is_empty (bundle.DestPortIn m) && is_empty (bundle.DestPortNotIn m) &&
  bool_decide (bundle.UID m = None) && streq (bundle.Binary m) [] && streq (bundle.Cgroup m) [].

Definition IsLiveState (state : gostring) : bool := streq state StateEnforced.
Definition IsShadowState (state : gostring) : bool := streq state StateShadow.

Definition one_of (s : gostring) (l : list gostring) : bool := existsb (streq s) l.

Section compile.
(** [net.ParseCIDR] and [net.ParseIP], as in [MapLoad]. *)
Context (ParseCIDR : gostring -> option (list Z * Z)) (ParseIP : gostring -> option (list Z)).

(** ** Validation (load.go)

    The rule is validated by value: a default it fills in is lost. *)
Definition validate_rule (r : bundle.Rule) : bool :=
  let m := bundle.rule_match r in
  negb (streq (bundle.ID r) []) && negb (streq (TrimSpace (bundle.Rationale r)) []) &&
  one_of (bundle.Decision r) [DecisionAllow; DecisionDeny; DecisionKill] &&
  one_of (if streq (bundle.State r) [] then StateDraft else bundle.State r)
    [StateDraft; StateShadow; StateEnforced; StateRetired; StateRollback] &&
  negb (match_empty m) && nonempty (Actions m) &&
  forallb (fun a => one_of a validActions) (Actions m) &&
  forallb (fun c => bool_decide (is_Some (ParseCIDR c)) || bool_decide (is_Some (ParseIP c)))
    (bundle.DestIPIn m ++ bundle.DestIPNotIn m).

(** The loop over the rules, with the identifiers seen so far. *)
Fixpoint validate_rules (rs : list bundle.Rule) (seen : list gostring) : bool :=
  match rs with
  | [] => true
  | r :: rs => validate_rule r && negb (one_of (bundle.ID r) seen) && validate_rules rs (bundle.ID r :: seen)
  end.

(** The bundle with its defaults, if it is valid. *)
Definition validate (b : bundle.Bundle) : option bundle.Bundle :=
  let default_action := if streq (bundle.DefaultAction b) [] then DefaultActionAllow else bundle.DefaultAction b in
  let fail_direction := if streq (bundle.FailDirection b) [] then FailDirectionOpen else bundle.FailDirection b in
  if (0 <? bundle.Version b) && negb (streq (TrimSpace (bundle.AgentScope b)) []) &&
     one_of default_action [DefaultActionAllow; DefaultActionDeny] &&
     one_of fail_direction [FailDirectionOpen; FailDirectionClosed] &&
     validate_rules (bundle.Rules b) []
  then Some (bundle.mk_bundle (bundle.Version b) (bundle.AgentScope b) (bundle.SignedBy b)
               default_action fail_direction (bundle.Rules b))
  else None.

(** ** Compilation (compile.go) *)

Definition pathSpecificity (p : gostring) : Z :=
  match index_star p with Some idx => idx | None => Z.of_nat (length p) end.

Definition cidrSpecificity (cidr : gostring) : Z :=
  match ParseCIDR cidr with
  | Some (_, ones) => ones
  | None => match ParseIP cidr with
            | Some ip => if bool_decide (is_Some (To4 ip)) then 32 else 128
            | None => 0
            end
  end.

Definition matchSpecificity (m : bundle.Match) : Z :=
  let spec := foldl (fun s p => Z.max s (pathSpecificity p)) 0 (bundle.PathIn m ++ bundle.PathNotIn m) in
  let spec := foldl (fun s c => Z.max s (cidrSpecificity c)) spec (bundle.DestIPIn m ++ bundle.DestIPNotIn m) in
  let spec := if nonempty (bundle.DestPortIn m) || nonempty (bundle.DestPortNotIn m) then Z.max spec 16 else spec in
  let spec := if bool_decide (is_Some (bundle.UID m)) then Z.max spec 32 else spec in
  let spec := if streq (bundle.Binary m) [] then spec else Z.max spec (Z.of_nat (length (bundle.Binary m))) in
  let spec := if streq (bundle.Cgroup m) [] then spec else Z.max spec (Z.of_nat (length (bundle.Cgroup m))) in
  if spec =? 0 then 1 else spec.

(** One entry for each action of the rule. *)
Definition lowered (r : bundle.Rule) (act : gostring) : CompiledRule :=
  let m := bundle.rule_match r in
  mk_rule (bundle.ID r) (TrimSpace (bundle.Rationale r)) (bundle.Decision r) act
    (bundle.PathIn m) (bundle.PathNotIn m) (bundle.DestIPIn m) (bundle.DestIPNotIn m)
    (bundle.DestPortIn m) (bundle.DestPortNotIn m) (bundle.UID m) (bundle.Binary m) (bundle.Cgroup m)
    (matchSpecificity m).

Definition lowerRule (r : bundle.Rule) : option (list CompiledRule) :=
  match Actions (bundle.rule_match r) with
  | [] => None
  | actions => Some (lowered r <$> actions)
  end.

Definition pathsOverlap (a b : gostring) : bool :=
  if streq a b then true else
  let pa := TrimSuffix (TrimSuffix a slash_star) [STAR] in
  let pb := TrimSuffix (TrimSuffix b slash_star) [STAR] in
  if streq pa [] || streq pb [] then true else
  HasPrefix a pb || HasPrefix b pa || HasPrefix pa pb || HasPrefix pb pa.

Definition sliceOverlap (a b : list gostring) : bool :=
  if is_empty a || is_empty b then true else
  existsb (fun x => existsb (fun y => pathsOverlap x y || pathsOverlap y x) b) a.

Definition portOverlap (a b : list Z) : bool :=
  if is_empty a || is_empty b then true else existsb (fun p => existsb (Z.eqb p) a) b.

Definition rulesOverlap (a b : CompiledRule) : bool :=
  if negb (sliceOverlap (PathIn a) (PathIn b)) && nonempty (PathIn a) && nonempty (PathIn b) then false else
  if negb (sliceOverlap (DestIPIn a) (DestIPIn b)) && nonempty (DestIPIn a) && nonempty (DestIPIn b) then false else
  if negb (sliceOverlap (DestIPNotIn a) (DestIPNotIn b)) && nonempty (DestIPNotIn a) && nonempty (DestIPNotIn b)
  then false else
  if negb (portOverlap (DestPortIn a) (DestPortIn b)) && nonempty (DestPortIn a) && nonempty (DestPortIn b)
  then false else
  if negb (portOverlap (DestPortNotIn a) (DestPortNotIn b)) && nonempty (DestPortNotIn a) && nonempty (DestPortNotIn b)
  then false else
  if negb (streq (Binary a) []) && negb (streq (Binary b) []) && negb (streq (Binary a) (Binary b)) then false else
  if negb (streq (Cgroup a) []) && negb (streq (Cgroup b) []) && negb (streq (Cgroup a) (Cgroup b)) then false else
  match UID a, UID b with Some u, Some v => u =? v | _, _ => true end.

(** Two rules of one group ([conflictKey]) the check refuses. *)
Definition conflicting (a b : CompiledRule) : bool :=
  streq (Action a) (Action b) && (Specificity a =? Specificity b) &&
  streq (Decision a) (Decision b) && rulesOverlap a b.

(** [resolveConflicts] succeeds: no rule conflicts with a later one.  The code goes
    through the groups in map order, which only decides which error it reports. *)
Fixpoint resolveConflicts (rules : list CompiledRule) : bool :=
  match rules with
  | [] => true
  | r :: rules => negb (existsb (conflicting r) rules) && resolveConflicts rules
  end.

(** The loop of [Compile]: the live and the shadow entries. *)
Fixpoint compile_rules (rs : list bundle.Rule) : option (list CompiledRule * list CompiledRule) :=
  match rs with
  | [] => Some ([], [])
  | r :: rs =>
      if streq (bundle.Decision r) DecisionKill then None else
      if one_of (bundle.State r) [StateRetired; StateDraft; StateRollback] then compile_rules rs else
      entries ← lowerRule r;
      rest ← compile_rules rs;
      Some (if IsLiveState (bundle.State r) then (entries ++ rest.1, rest.2)
            else if IsShadowState (bundle.State r) then (rest.1, entries ++ rest.2) else rest)
  end.

Definition Compile (b : bundle.Bundle) : option CompiledPolicy :=
  ls ← compile_rules (bundle.Rules b);
  if resolveConflicts ls.1 && resolveConflicts ls.2
  then Some (mk_policy (bundle.Version b) (bundle.AgentScope b) (bundle.SignedBy b)
               (bundle.DefaultAction b) (bundle.FailDirection b) ls.1 ls.2)
  else None.
End compile.
