(* ===== verification/CompileFacts.v ===== *)
(** * CompileFacts: what compilation guarantees

    Specificities of compiled rules are prefix lengths ([compiled_canonical]), so
    the longest patterns of a compiled and loaded policy decide
    ([compiled_policy_decides]); the conflict check makes the evaluation of a
    compiled policy independent of the order of its rules
    ([evaluation_order_irrelevant]). *)

From Stdlib Require Import String.
From S2P Require Import Prelude Types Bpf State Logic.
From S2P Require Import Enforcer Gate PathVerdict Policy MapLoad LoadFacts PathLoad LoadedPaths PathPolicy Compile.

#[local] Open Scope string_scope.
#[local] Open Scope list_scope.
#[local] Open Scope Z_scope.

(** ** Patterns without a star but the one at the end *)

Definition exact_pattern (q : gostring) : Prop := q <> [] /\ STAR ∉ q.
Definition simple_pattern (q : gostring) : Prop :=
  exact_pattern q \/ exists dir, dir_pattern dir q /\ STAR ∉ dir.

Lemma index_star_None s : STAR ∉ s -> index_star s = None.
Proof.
  induction s as [|b s IH]; intros Hs; [done|]. rewrite not_elem_of_cons in Hs. cbn.
  destruct Hs as [Hb Hs]. replace (b =? STAR) with false by lia. by rewrite IH.
Qed.

Lemma index_star_app s t : STAR ∉ s -> index_star (s ++ STAR :: t) = Some (Z.of_nat (length s)).
Proof.
  induction s as [|b s IH]; intros Hs; [done|]. rewrite not_elem_of_cons in Hs. destruct Hs as [Hb Hs].
  cbn [app index_star]. replace (b =? STAR) with false by lia. rewrite IH by done. cbn. f_equal. lia.
Qed.

Lemma no_star_suffix q t : STAR ∉ q -> STAR ∈ t -> HasSuffix q t = false.
Proof.
  intros Hq Ht. destruct (HasSuffix q t) eqn:Hs; [|done]. apply HasSuffix_spec in Hs as [u ->].
  exfalso. apply Hq. set_solver.
Qed.

Lemma star_in_slash_star : STAR ∈ slash_star.
Proof. apply (bool_decide_unpack _). vm_compute. exact I. Qed.

Lemma no_star_trim q t : STAR ∉ q -> STAR ∈ t -> TrimSuffix q t = q.
Proof. intros Hq Ht. unfold TrimSuffix. by rewrite no_star_suffix. Qed.

Lemma exact_pattern_prefix q : exact_pattern q -> lpm_prefix q = q.
Proof. intros [_ Hq]. unfold lpm_prefix. by rewrite (no_star_suffix q _ Hq star_in_slash_star). Qed.

Lemma exact_not_home q : STAR ∉ q -> streq q homeSSHGlobPattern = false.
Proof.
  intros Hq. destruct (streq q homeSSHGlobPattern) eqn:Hs; [|done]. apply streq_spec in Hs as ->.
  destruct Hq. apply (bool_decide_unpack _). vm_compute. exact I.
Qed.

(** The compiler's specificity of a simple pattern is the length of its prefix. *)
Lemma simple_specificity q :
  simple_pattern q -> pathSpecificity q = Z.of_nat (length (lpm_prefix q)) /\ 0 < pathSpecificity q.
Proof.
  unfold pathSpecificity. intros [He|(dir & Hd & Hs)].
  - rewrite (exact_pattern_prefix q He). destruct He as [Hne Hq]. rewrite index_star_None by done.
    split; [done|]. destruct q; [done|]. cbn. lia.
  - rewrite (dir_pattern_prefix dir q Hd). destruct Hd as (-> & _ & _).
    replace (dir ++ slash_star) with ((dir ++ bytes_of "/") ++ STAR :: []) by (by rewrite <- app_assoc).
    rewrite index_star_app; [|rewrite elem_of_app; intros [?|H]; [done|]; by apply list_elem_of_singleton in H].
    split; [done|]. rewrite length_app. cbn. lia.
Qed.

Lemma simple_expanded homes q : simple_pattern q -> expandPathPattern homes q = Some [q].
Proof.
  intros Hq. unfold expandPathPattern. replace (streq q homeSSHGlobPattern) with false; [done|].
  destruct Hq as [[_ Hs]|(dir & (_ & _ & Hn) & _)]; [by rewrite exact_not_home|].
  symmetry. apply not_true_iff_false. by rewrite streq_spec.
Qed.

(** ** Compiled rules *)

Section compiled.
Context (ParseCIDR : gostring -> option (list Z * Z)) (ParseIP : gostring -> option (list Z)).

Lemma compile_rules_live rs l sh c :
  compile_rules ParseCIDR ParseIP rs = Some (l, sh) -> c ∈ l ->
  exists r act, r ∈ rs /\ bundle.State r = StateEnforced /\ act ∈ Actions (bundle.rule_match r) /\
    c = lowered ParseCIDR ParseIP r act.
Proof.
  revert l sh. induction rs as [|r rs IH]; intros l sh; cbn [compile_rules].
  { intros [= <- <-] Hc. by apply not_elem_of_nil in Hc. }
  destruct (streq (bundle.Decision r) DecisionKill); [done|].
  assert (forall l sh, compile_rules ParseCIDR ParseIP rs = Some (l, sh) -> c ∈ l ->
    exists r' act, r' ∈ r :: rs /\ bundle.State r' = StateEnforced /\ act ∈ Actions (bundle.rule_match r') /\
      c = lowered ParseCIDR ParseIP r' act) as IH'.
  { intros l' sh' Hl' Hc. destruct (IH l' sh' Hl' Hc) as (r' & act & ? & ?). exists r', act. split; [by right|done]. }
  destruct (one_of _ _); [apply IH'|]. intros (entries & He & Hb)%bind_Some.
  apply bind_Some in Hb as ([l' sh'] & Hr & Hb). cbn [fst snd] in Hb.
  destruct (IsLiveState (bundle.State r)) eqn:Hlive.
  - injection Hb as <- <-. intros [Hc|Hc]%elem_of_app; [|by apply (IH' l' sh')].
    unfold lowerRule in He. destruct (Actions (bundle.rule_match r)) as [|a as_] eqn:Hacts; [done|].
    injection He as <-.
    apply (list_elem_of_fmap (lowered ParseCIDR ParseIP r) (a :: as_)) in Hc as (act & -> & Hact). exists r, act.
    split; [by left|]. split; [by apply streq_spec|]. by rewrite Hacts.
  - destruct (IsShadowState _); injection Hb as <- <-; by apply (IH' l' sh').
Qed.

Lemma Compile_inv b cp :
  Compile ParseCIDR ParseIP b = Some cp ->
  compile_rules ParseCIDR ParseIP (bundle.Rules b) = Some (Live cp, Shadow cp) /\
  resolveConflicts (Live cp) = true /\ resolveConflicts (Shadow cp) = true.
Proof.
  unfold Compile. intros ([l sh] & Hc & Hb)%bind_Some. cbn [fst snd] in Hb.
  destruct (resolveConflicts l && resolveConflicts sh) eqn:Hr; [|done].
  apply andb_true_iff in Hr as [? ?]. by injection Hb as <-.
Qed.

(** A rule for connects without paths, or with one simple path pattern and no other predicate. *)
Definition simple_rule (r : bundle.Rule) : Prop :=
  let m := bundle.rule_match r in
  ((forall act, act ∈ Actions m -> act = bytes_of "connect") /\ bundle.PathIn m = []) \/
  (exists q, simple_pattern q /\ bundle.PathIn m = [q] /\ bundle.PathNotIn m = [] /\
     bundle.DestIPIn m = [] /\ bundle.DestIPNotIn m = [] /\ bundle.DestPortIn m = [] /\
     bundle.DestPortNotIn m = [] /\ bundle.UID m = None /\ bundle.Binary m = [] /\ bundle.Cgroup m = []).

Lemma simple_matchSpecificity m q :
  simple_pattern q -> bundle.PathIn m = [q] -> bundle.PathNotIn m = [] ->
  bundle.DestIPIn m = [] -> bundle.DestIPNotIn m = [] -> bundle.DestPortIn m = [] ->
  bundle.DestPortNotIn m = [] -> bundle.UID m = None -> bundle.Binary m = [] -> bundle.Cgroup m = [] ->
  matchSpecificity ParseCIDR ParseIP m = Z.of_nat (length (lpm_prefix q)).
Proof.
  intros Hq Hp Hpn Hi Hin Hpt Hptn Hu Hb Hc. destruct (simple_specificity q Hq) as [Hs Hpos].
  unfold matchSpecificity. rewrite Hp, Hpn, Hi, Hin, Hpt, Hptn, Hu, Hb, Hc. cbn [app foldl nonempty orb].
  rewrite bool_decide_eq_false_2 by (by intros [? ?]). cbv zeta.
  change (streq [] []) with true. cbv iota. rewrite Z.max_r by lia.
  replace (pathSpecificity q =? 0) with false by lia. done.
Qed.

(** Compilation gives rules with one simple path pattern the length of its prefix as
    specificity. *)
Lemma compiled_canonical homes b cp :
  Compile ParseCIDR ParseIP b = Some cp -> Forall simple_rule (bundle.Rules b) -> canonical homes cp.
Proof.
  intros Hc Hs allow pre r (Hr & Ht & q & Hq & ->). destruct (Compile_inv _ _ Hc) as (Hl & _).
  destruct (compile_rules_live _ _ _ _ Hl Hr) as (br & act & Hbr & _ & Hact & ->).
  rewrite Forall_forall in Hs. apply path_target_cases in Ht as (_ & Hnc & _). cbn [Action lowered] in Hnc.
  destruct (Hs br Hbr) as [[Hall _]|(q' & Hq' & Hp & Hpn & Hi & Hin & Hpt & Hptn & Hu & Hb & Hcg)];
    [by destruct Hnc; apply Hall|].
  cbn [Specificity lowered]. rewrite (simple_matchSpecificity _ q') by done.
  unfold expanded in Hq. cbn [PathIn lowered] in Hq. rewrite Hp in Hq. cbn in Hq.
  rewrite (simple_expanded homes q' Hq') in Hq. cbn in Hq. by apply list_elem_of_singleton in Hq as ->.
Qed.

Definition byte_rules (b : bundle.Bundle) : Prop :=
  Forall (fun r => Forall (Forall is_byte) (bundle.PathIn (bundle.rule_match r))) (bundle.Rules b).

Lemma compiled_bytes homes b cp :
  Compile ParseCIDR ParseIP b = Some cp -> Forall simple_rule (bundle.Rules b) -> byte_rules b ->
  byte_patterns homes cp.
Proof.
  intros Hc Hs Hby r q Hr Hq. destruct (Compile_inv _ _ Hc) as (Hl & _).
  destruct (compile_rules_live _ _ _ _ Hl Hr) as (br & act & Hbr & _ & _ & ->).
  rewrite Forall_forall in Hs. unfold byte_rules in Hby. rewrite Forall_forall in Hby. specialize (Hby br Hbr).
  unfold expanded in Hq. cbn [PathIn lowered] in Hq.
  destruct (Hs br Hbr) as [[_ Hp]|(q' & Hq' & Hp & _)]; rewrite Hp in Hq, Hby; cbn in Hq.
  - by apply not_elem_of_nil in Hq.
  - rewrite (simple_expanded homes q' Hq') in Hq. cbn in Hq. apply list_elem_of_singleton in Hq as ->.
    exact (proj1 (Forall_singleton _ _) Hby).
Qed.

(** C8. From the policy bundle to the answer of the programs. A bundle whose path
    rules each have one simple pattern and no other predicate is compiled and
    loaded; then the check of a path answers -EPERM exactly when the longest deny
    pattern that covers the path has a rule for the action, and no longer pattern,
    longest among the allow patterns, has one; otherwise it answers 0. A deny rule
    whose pattern is shorter than another deny rule's is not consulted. *)
Theorem compiled_policy_decides `{L : LpmTrie, !LpmTrieSpec L} ok homes stat b cp active version m st tr
    E `{!EnvOk E} s buf len v wi :
  Compile ParseCIDR ParseIP b = Some cp -> Forall simple_rule (bundle.Rules b) -> byte_rules b ->
  LoadLive ok homes stat ParseCIDR ParseIP cp active version m = (Some st, tr) ->
  path_deny (enforcer s) = path_deny (end_state m tr) -> path_allow (enforcer s) = path_allow (end_state m tr) ->
  kernel_reads E -> scratch_ready E s -> length buf = 256%nat -> 0 < len < MAX_PATH -> is_verdict v ->
  let p := take (Z.to_nat len) buf in Forall is_byte p ->
  let denied := exists pre, decided_at homes cp false v wi p pre /\
    ~ exists pre', decided_at homes cp true v wi p pre' /\ (length pre < length pre')%nat in
  ((enforce_path (Some buf) len v wi E s).1 = - EPERM /\ denied) \/
  ((enforce_path (Some buf) len v wi E s).1 = 0 /\ ~ denied).
Proof.
  intros Hc Hs Hby Hl Hd Ha Hk Hsr Hb Hlen Hv p Hp denied.
  apply (longest_pattern_check ok homes stat ParseCIDR ParseIP cp active version m st tr Hl); try done.
  - by apply (compiled_bytes homes b).
  - by apply (compiled_canonical homes b).
Qed.
End compiled.

(** ** The conflict check *)

(** What a pattern is cut down to by the overlap check. *)
Definition stem (q : gostring) : gostring := TrimSuffix (TrimSuffix q slash_star) [STAR].

Lemma simple_stem q p : simple_pattern q -> pathMatchesGlob p q = true -> stem q `prefix_of` p.
Proof.
  intros [[Hne Hs]|(dir & Hd & Hs)] Hm; unfold stem.
  - rewrite (no_star_trim q slash_star Hs star_in_slash_star), (no_star_trim q [STAR] Hs ltac:(by left)).
    revert Hm. unfold pathMatchesGlob. destruct (streq q p) eqn:Heq; [by apply streq_spec in Heq as ->|].
    rewrite (exact_not_home q Hs), (no_star_suffix q _ Hs star_in_slash_star).
    assert (Contains q [STAR] = false) as ->; [|done]. clear Hne Heq. unfold Contains.
    apply bool_decide_eq_false. intros [[x y] Hcut]. revert x y Hcut.
    induction q as [|c q IH]; intros x y; [done|]. rewrite not_elem_of_cons in Hs. destruct Hs as [Hc Hs].
    cbn [Cut]. replace (HasPrefix (c :: q) [STAR]) with false.
    + intros ([x' y'] & Hcut & _)%bind_Some. by apply (IH Hs x' y').
    + symmetry. apply not_true_iff_false. rewrite HasPrefix_spec. by intros [u [= ->]].
  - apply (dir_pattern_matches dir q p Hd) in Hm. destruct Hd as (-> & _ & _). rewrite TrimSuffix_app.
    rewrite (no_star_trim dir [STAR] Hs ltac:(by left)). destruct Hm as [->|[u ->]]; [done|].
    exists (bytes_of "/" ++ u). by rewrite app_assoc.
Qed.

(** Simple patterns that match the same path overlap. *)
Lemma simple_overlap x y p :
  simple_pattern x -> simple_pattern y -> pathMatchesGlob p x = true -> pathMatchesGlob p y = true ->
  pathsOverlap x y = true.
Proof.
  intros Hx Hy Hmx Hmy. pose proof (simple_stem x p Hx Hmx) as Sx. pose proof (simple_stem y p Hy Hmy) as Sy.
  unfold pathsOverlap. fold (stem x) (stem y). destruct (streq x y); [done|]. cbv zeta.
  destruct (_ || _); [done|].
  destruct (prefix_weak_total _ _ _ Sx Sy) as [H|H]; apply HasPrefix_spec in H; rewrite H;
    by rewrite ?orb_true_r.
Qed.

(** ** The order of the rules *)

(** Path rules with simple patterns, without address, port or cgroup predicates. *)
Definition simple_paths (r : CompiledRule) : Prop :=
  Forall simple_pattern (PathIn r) /\ DestIPIn r = [] /\ DestIPNotIn r = [] /\
  DestPortIn r = [] /\ DestPortNotIn r = [] /\ Cgroup r = [].

Section order.
Context (ipInCIDR : gostring -> gostring -> bool) (ParseIP_ok : gostring -> bool).

Notation matches := (rule_matches ipInCIDR ParseIP_ok).
Notation evaluate := (EvaluateActions ipInCIDR ParseIP_ok).

(** The path a rule is matched against, for an action other than rename. *)
Definition input_path (i : ActionInput) : gostring :=
  if streq (in_Path i) [] then in_NewPath i else in_Path i.

Lemma matches_path r i :
  in_Action i <> bytes_of "rename" -> PathIn r <> [] -> matches r i = true ->
  exists q, q ∈ PathIn r /\ pathMatchesGlob (input_path i) q = true.
Proof.
  intros Hren Hne. unfold rule_matches, ruleMatchesPredicates, ruleMatchesPaths.
  rewrite !andb_true_iff. intros (_ & (((((Hp & _) & _) & _) & _) & _)). revert Hp.
  destruct (PathIn r) as [|q0 qs] eqn:Hq; [done|]. cbn [nonempty orb].
  replace (streq (in_Action i) (bytes_of "rename")) with false
    by (symmetry; apply not_true_iff_false; by rewrite streq_spec).
  fold (input_path i). unfold ruleMatchesPath. rewrite Hq.
  destruct (existsb _ (PathNotIn r)); [done|].
  rewrite <- Hq. intros Hex. apply existsb_elem. by destruct (PathIn r).
Qed.

Lemma matches_owner r i :
  matches r i = true ->
  (forall u, UID r = Some u -> in_UID i = Some u) /\ (Binary r <> [] -> Binary r = in_Binary i).
Proof.
  unfold rule_matches, ruleMatchesPredicates. rewrite !andb_true_iff.
  intros (_ & ((((_ & _) & Hu) & Hb) & _)). split.
  - intros u Hr. rewrite Hr in Hu. destruct (in_UID i); [|done]. by apply Z.eqb_eq in Hu as ->.
  - intros Hne. destruct (streq (Binary r) []) eqn:He; [by apply streq_spec in He|].
    apply andb_true_iff in Hb as [_ Hb]. by apply streq_spec in Hb.
Qed.

(** The conflict check is complete for such rules: rules that match one input overlap. *)
Lemma matching_overlap a b i :
  in_Action i <> bytes_of "rename" -> simple_paths a -> simple_paths b ->
  matches a i = true -> matches b i = true -> rulesOverlap a b = true.
Proof.
  intros Hren (Hpa & Hia & Hina & Hta & Htna & Hca) (Hpb & Hib & Hinb & Htb & Htnb & Hcb) Hma Hmb.
  destruct (matches_owner a i Hma) as [Hua Hba]. destruct (matches_owner b i Hmb) as [Hub Hbb].
  unfold rulesOverlap. rewrite Hia, Hina, Hta, Htna, Hca. cbn [nonempty]. rewrite !andb_false_r. cbn [andb].
  replace (negb (sliceOverlap (PathIn a) (PathIn b)) && nonempty (PathIn a) && nonempty (PathIn b)) with false.
  2: { symmetry. destruct (nonempty (PathIn a)) eqn:Hna; [|by rewrite andb_false_r].
       destruct (nonempty (PathIn b)) eqn:Hnb; [|by rewrite andb_false_r].
       rewrite !andb_true_r. apply negb_false_iff. unfold sliceOverlap, is_empty. rewrite Hna, Hnb. cbn [negb orb].
       destruct (matches_path a i) as (x & Hx & Hmx); [done|by intros H0; rewrite H0 in Hna|done|].
       destruct (matches_path b i) as (y & Hy & Hmy); [done|by intros H0; rewrite H0 in Hnb|done|].
       rewrite Forall_forall in Hpa, Hpb. apply existsb_elem. exists x. split; [done|]. apply existsb_elem.
       exists y. split; [done|]. apply orb_true_iff. left.
       apply (simple_overlap x y (input_path i)); [by apply Hpa|by apply Hpb|done|done]. }
  replace (negb (streq (Binary a) []) && negb (streq (Binary b) []) && negb (streq (Binary a) (Binary b)))
    with false.
  2: { symmetry. destruct (streq (Binary a) []) eqn:Ha; [done|]. destruct (streq (Binary b) []) eqn:Hb; [done|].
       cbn [negb andb]. apply negb_false_iff, streq_spec.
       rewrite Hba, Hbb; [done|intros H0; apply streq_spec in H0; congruence..]. }
  cbn [negb andb streq]. replace (negb (streq [] []) && _ && _) with false by done.
  destruct (UID a) as [u|], (UID b) as [v|]; try done. apply Z.eqb_eq.
  specialize (Hua u eq_refl). specialize (Hub v eq_refl). congruence.
Qed.

(** The winner matches; it denies if any matching rule does, and no matching rule of
    its decision is more specific. *)
Lemma evaluate_winner rules i :
  (forall r, r ∈ rules -> matches r i = true -> Decision r = DecisionAllow \/ Decision r = DecisionDeny) ->
  match evaluate rules i with
  | Some b => b ∈ rules /\ matches b i = true /\ forall r, r ∈ rules -> matches r i = true ->
      (Decision r = DecisionDeny -> Decision b = DecisionDeny) /\
      (Decision r = Decision b -> Specificity r <= Specificity b)
  | None => forall r, r ∈ rules -> matches r i = false
  end.
Proof.
  unfold EvaluateActions. induction rules as [|r rules IH] using rev_ind; intros Hdec.
  { cbn. intros r Hr. by apply not_elem_of_nil in Hr. }
  rewrite foldl_app. cbn [foldl]. specialize (IH ltac:(intros; apply Hdec; [set_solver|done])).
  set (best := foldl _ None rules) in *. unfold better at 1.
  assert (forall P : CompiledRule -> Prop, (forall x, x ∈ rules -> P x) -> P r -> forall x, x ∈ rules ++ [r] -> P x) as Hsnoc.
  { intros P Hall Hr x [Hx|Hx%list_elem_of_singleton]%elem_of_app; [by apply Hall|by subst]. }
  destruct (ruleMatchesAction r i && ruleMatchesPredicates ipInCIDR ParseIP_ok r i) eqn:Hm.
  2: { assert (matches r i = false) as Hmr by exact Hm.
       replace (if negb (ruleMatchesAction r i) then best else _) with best
         by (destruct (ruleMatchesAction r i); [|done]; cbn [andb] in Hm; by rewrite Hm).
       destruct best as [b|].
       - destruct IH as (Hb & Hbm & Hw). split; [set_solver|]. split; [done|].
         refine (Hsnoc _ Hw _). congruence.
       - refine (Hsnoc _ IH Hmr). }
  pose proof Hm as Hm'. apply andb_true_iff in Hm' as [-> ->]. cbn [negb].
  assert (matches r i = true) as Hmr by exact Hm. assert (r ∈ rules ++ [r]) as Hin by set_solver.
  destruct best as [b|].
  2: { split; [done|]. split; [done|]. refine (Hsnoc _ _ _); [|done]. intros x Hx Hxm. by rewrite (IH x Hx) in Hxm. }
  destruct IH as (Hb & Hbm & Hw).
  assert (forall c, c ∈ [b; r] -> (Decision r = DecisionDeny \/ Decision b = DecisionDeny -> Decision c = DecisionDeny) ->
    (Decision c = Decision b -> Specificity b <= Specificity c) ->
    (Decision c = Decision r -> Specificity r <= Specificity c) ->
    c ∈ rules ++ [r] /\ matches c i = true /\ forall x, x ∈ rules ++ [r] -> matches x i = true ->
      (Decision x = DecisionDeny -> Decision c = DecisionDeny) /\
      (Decision x = Decision c -> Specificity x <= Specificity c)) as Hc.
  { intros c Hcin Hd Hsb Hsr. assert (c = b \/ c = r) as Hcbr by set_solver.
    split; [destruct Hcbr as [-> | ->]; set_solver|]. split; [by destruct Hcbr as [-> | ->]|].
    refine (Hsnoc _ _ _).
    - intros x Hx Hxm. destruct (Hw x Hx Hxm) as [Hxd Hxs]. split; [auto|]. intros Heq.
      destruct Hcbr as [-> | ->]; [by apply Hxs|].
      assert (Decision x = Decision b) as Hxb; [|rewrite Hxb in *; pose proof (Hxs eq_refl); pose proof (Hsb (eq_sym Heq)); lia].
      destruct (Hdec x ltac:(set_solver) Hxm) as [Hxa|Hxdn], (Hdec b ltac:(set_solver) Hbm) as [Hba|Hbdn]; try congruence.
      + assert (Decision r = DecisionDeny) by auto. congruence.
      + specialize (Hxd Hxdn). congruence.
    - intros _. split; [auto|]. intros Heq. apply Hsr. congruence. }
  pose proof (Hdec b ltac:(set_solver) Hbm) as Hbd. pose proof (Hdec r Hin Hmr) as Hrd.
  assert (DecisionAllow <> DecisionDeny) as Hne by done.
  destruct (streq (Decision r) DecisionDeny && streq (Decision b) DecisionAllow) eqn:H1.
  { apply andb_true_iff in H1 as [H1%streq_spec H2%streq_spec]. apply Hc; [set_solver|done|congruence|lia]. }
  destruct (streq (Decision r) (Decision b) && (Specificity b <? Specificity r)) eqn:H2.
  { apply andb_true_iff in H2 as [H2%streq_spec H3%Z.ltb_lt].
    apply Hc; [set_solver|intros [?|?]; congruence|lia|lia]. }
  apply andb_false_iff in H1. rewrite <- !not_true_iff_false, !streq_spec in H1.
  apply andb_false_iff in H2. rewrite Z.ltb_ge, <- not_true_iff_false, streq_spec in H2.
  apply Hc; [set_solver| |lia|].
  - intros [Hr|?]; [|done]. destruct H1 as [?|H1]; [done|]. by destruct Hbd.
  - intros Heq. destruct H2 as [H2|?]; [congruence|done].
Qed.

Lemma validate_decisions ParseCIDR ParseIP rs seen r :
  validate_rules ParseCIDR ParseIP rs seen = true -> r ∈ rs ->
  bundle.Decision r = DecisionAllow \/ bundle.Decision r = DecisionDeny \/ bundle.Decision r = DecisionKill.
Proof.
  revert seen. induction rs as [|x rs IH]; intros seen; cbn [validate_rules]; [by intros _ Hr%not_elem_of_nil|].
  rewrite !andb_true_iff. intros [[Hx _] Hrs] [-> |Hr]%elem_of_cons; [|by apply (IH _ Hrs)].
  unfold validate_rule in Hx. rewrite !andb_true_iff in Hx. destruct Hx as (((((((_ & _) & Hd) & _) & _) & _) & _) & _).
  unfold one_of in Hd. cbn [existsb] in Hd. rewrite !orb_true_iff, !streq_spec in Hd. destruct Hd as [?|[?|[?|?]]]; auto; done.
Qed.

Lemma compile_rules_decisions ParseCIDR ParseIP rs l sh c :
  compile_rules ParseCIDR ParseIP rs = Some (l, sh) -> c ∈ l ->
  (forall r, r ∈ rs -> bundle.Decision r = DecisionAllow \/ bundle.Decision r = DecisionDeny \/ bundle.Decision r = DecisionKill) ->
  (forall r, r ∈ rs -> bundle.State r = StateEnforced -> bundle.Decision r <> DecisionKill) ->
  Decision c = DecisionAllow \/ Decision c = DecisionDeny.
Proof.
  intros Hc Hin Hd Hk. destruct (compile_rules_live _ _ _ _ _ _ Hc Hin) as (r & act & Hr & Hs & _ & ->).
  cbn [Decision lowered]. destruct (Hd r Hr) as [?|[?|?]]; [by left|by right|]. by destruct (Hk r Hr Hs).
Qed.

Lemma compile_rules_no_kill ParseCIDR ParseIP rs l sh r :
  compile_rules ParseCIDR ParseIP rs = Some (l, sh) -> r ∈ rs -> bundle.Decision r <> DecisionKill.
Proof.
  revert l sh. induction rs as [|x rs IH]; intros l sh; cbn [compile_rules]; [by intros _ Hr%not_elem_of_nil|].
  destruct (streq (bundle.Decision x) DecisionKill) eqn:Hk; [done|].
  assert (bundle.Decision x <> DecisionKill) as Hx by (intros H; apply streq_spec in H; congruence).
  intros H [-> |Hr]%elem_of_cons; [done|]. revert H.
  destruct (one_of _ _); [intros H; by apply (IH l sh)|].
  intros (? & _ & (ls & Hrest & _)%bind_Some)%bind_Some. destruct ls as [l' sh']. by apply (IH l' sh').
Qed.

(** Of two different rules one comes first, and the check compared them. *)
Lemma resolveConflicts_pair l a b :
  resolveConflicts l = true -> a ∈ l -> b ∈ l -> a <> b -> conflicting a b = false \/ conflicting b a = false.
Proof.
  induction l as [|r l IH]; intros Hl Ha Hb Hne; [by apply not_elem_of_nil in Ha|].
  cbn [resolveConflicts] in Hl. apply andb_true_iff in Hl as [Hr Hl]. apply negb_true_iff in Hr.
  assert (forall x, x ∈ l -> conflicting r x = false) as Hfirst.
  { intros x Hx. apply not_true_iff_false. intros Hc. apply not_true_iff_false in Hr. apply Hr.
    apply existsb_elem. by exists x. }
  apply elem_of_cons in Ha as [-> |Ha], Hb as [-> |Hb]; try done.
  - left. by apply Hfirst.
  - right. by apply Hfirst.
  - by apply IH.
Qed.

Lemma matching_action r i :
  in_WriteIntent i = false -> matches r i = true -> Action r = in_Action i.
Proof.
  intros Hw. unfold rule_matches, ruleMatchesAction. rewrite Hw, andb_false_r, orb_false_r.
  intros [Ha _]%andb_true_iff. by apply streq_spec in Ha.
Qed.

(** C29. The evaluation of a valid, compiled policy does not depend on the order of
    its rules: the conflict check leaves one winner. For policies whose live rules
    have paths with simple patterns and no cgroup, address or port predicate, for
    actions other than rename, and without write intent (an open with write intent
    is also matched by write rules, which the check does not compare with open
    rules). *)
Theorem evaluation_order_irrelevant ParseCIDR ParseIP b0 b cp i l :
  validate ParseCIDR ParseIP b0 = Some b -> Compile ParseCIDR ParseIP b = Some cp ->
  Forall simple_paths (Live cp) -> in_Action i <> bytes_of "rename" -> in_WriteIntent i = false ->
  Permutation l (Live cp) -> evaluate l i = evaluate (Live cp) i.
Proof.
  intros Hval Hcomp Hsimple Hren Hwi Hperm. destruct (Compile_inv _ _ _ _ Hcomp) as (Hrules & Hres & _).
  assert (forall r, r ∈ Live cp -> matches r i = true -> Decision r = DecisionAllow \/ Decision r = DecisionDeny) as Hdec.
  { intros r Hr _. apply (compile_rules_decisions _ _ _ _ _ _ Hrules Hr).
    - intros br Hbr. unfold validate in Hval. destruct (_ && _) eqn:Hv; [|done]. injection Hval as <-.
      apply andb_true_iff in Hv as [_ Hv]. by apply (validate_decisions _ _ _ _ _ Hv).
    - intros br Hbr _. by apply (compile_rules_no_kill _ _ _ _ _ _ Hrules). }
  assert (forall r, r ∈ l <-> r ∈ Live cp) as Hin by (intros r; by rewrite Hperm).
  pose proof (evaluate_winner l i ltac:(intros r Hr; apply Hdec; by apply Hin)) as W1.
  pose proof (evaluate_winner (Live cp) i Hdec) as W2.
  destruct (evaluate l i) as [w1|], (evaluate (Live cp) i) as [w2|]; try done.
  - f_equal. destruct W1 as (H1 & M1 & B1), W2 as (H2 & M2 & B2). apply Hin in H1.
    destruct (B1 w2 ltac:(by apply Hin) M2) as [D12 S12]. destruct (B2 w1 H1 M1) as [D21 S21].
    assert (Decision w1 = Decision w2) as Hd.
    { destruct (Hdec w1 H1 M1) as [E1|E1], (Hdec w2 H2 M2) as [E2|E2]; try congruence.
      - by rewrite (D12 E2) in E1.
      - by rewrite (D21 E1) in E2. }
    specialize (S12 (eq_sym Hd)). specialize (S21 Hd).
    destruct (decide (w1 = w2)) as [|Hne]; [done|]. exfalso.
    rewrite Forall_forall in Hsimple.
    assert (forall x y, x ∈ Live cp -> y ∈ Live cp -> matches x i = true -> matches y i = true ->
      Decision x = Decision y -> Specificity x = Specificity y -> conflicting x y = true) as Hconf.
    { intros x y Hx Hy Mx My Hxy Hsp. unfold conflicting.
      rewrite (matching_action x i Hwi Mx), (matching_action y i Hwi My), Hxy, Hsp, Z.eqb_refl.
      rewrite !(proj2 (streq_spec _ _)) by done. cbn [andb].
      by apply (matching_overlap x y i); auto. }
    destruct (resolveConflicts_pair _ w1 w2 Hres H1 H2 Hne) as [Hf|Hf];
      rewrite Hconf in Hf; try done; lia.
  - destruct W1 as (H1 & M1 & _). apply Hin in H1. by rewrite (W2 w1 H1) in M1.
  - destruct W2 as (H2 & M2 & _). apply Hin in H2. by rewrite (W1 w2 H2) in M2.
Qed.
End order.
