(* ===== verification/Fingerprint.v ===== *)
(** * Fingerprint: known-agent signatures

    [internal/fingerprint/fingerprint.go]: the evaluation of the operator's
    signatures at exec time.  Its wildcard matching, a greedy scan over the
    segments between stars, is equivalent to the usual meaning of a pattern
    ([wildcardMatch_iff]).  Traces and YAML decoding are left out. *)

From Stdlib Require Import String.
From S2P Require Import Prelude Types Policy.

#[local] Open Scope list_scope.
#[local] Open Scope Z_scope.

(** [path.Base]: the last element of a path. *)
Fixpoint last_element (cur : gostring) (s : gostring) : gostring :=
  match s with
  | [] => cur
  | b :: s => if b =? 47 then last_element [] s else last_element (cur ++ [b]) s
  end.

Fixpoint drop_slashes (r : gostring) : gostring :=
  match r with b :: r' => if b =? 47 then drop_slashes r' else r | [] => [] end.

Definition Base (p : gostring) : gostring :=
  if streq p [] then [46] else
  let p := reverse (drop_slashes (reverse p)) in
  if streq p [] then [47] else last_element [] p.

Module fp.
Record Match := mk_match {
  InterpreterBasename : gostring;
  InterpreterPath : gostring;
  ArgvContains : list gostring;
  AnyOf : list gostring              (* env_markers.any_of *)
}.

Record Fingerprint := mk_fingerprint {
  ID : gostring;
  AgentID : gostring;
  fp_match : Match
}.

Record Observation := mk_observation {
  BinaryPath : gostring;
  Argv : list gostring;
  EnvKeys : list gostring
}.

Definition empty (m : Match) : bool :=
  streq (InterpreterBasename m) [] && streq (InterpreterPath m) [] &&
  negb (nonempty (ArgvContains m)) && negb (nonempty (AnyOf m)).

(** The checks of [Load] on a decoded set. *)
Definition validate (fps : list Fingerprint) : bool :=
  forallb (fun f => negb (streq (ID f) []) && negb (streq (AgentID f) []) && negb (empty (fp_match f))) fps.

(** The loop over the middle segments: each is found after the one before. *)
Fixpoint match_mids (mids : list gostring) (s : gostring) : option gostring :=
  match mids with
  | [] => Some s
  | m :: mids => if streq m [] then match_mids mids s else
                 match Cut s m with Some (_, rest) => match_mids mids rest | None => None end
  end.

Definition wildcardMatch (pattern s : gostring) : bool :=
  if negb (Contains pattern [STAR]) then streq pattern s else
  let segs := split_on STAR pattern in
  let first := default [] (head segs) in
  if negb (streq first []) && negb (HasPrefix s first) then false else
  let s := if streq first [] then s else drop (length first) s in
  match match_mids (removelast (tail segs)) s with
  | Some s => HasSuffix s (default [] (last segs))
  | None => false
  end.

Definition argvHasGlob (argv : list gostring) (pattern : gostring) : bool :=
  existsb (wildcardMatch pattern) argv.

Definition matches (m : Match) (base : gostring) (o : Observation) : bool :=
  (if streq (InterpreterPath m) [] then true
   else if Contains (InterpreterPath m) [STAR] then wildcardMatch (InterpreterPath m) (BinaryPath o)
   else streq (InterpreterPath m) (BinaryPath o)) &&
  (streq (InterpreterBasename m) [] || streq (InterpreterBasename m) base) &&
  forallb (argvHasGlob (Argv o)) (ArgvContains m) &&
  (negb (nonempty (AnyOf m)) ||
   negb (streq (default [] (List.find (fun k => existsb (streq k) (EnvKeys o)) (AnyOf m))) [])).

Definition Evaluate (fps : list Fingerprint) (o : Observation) : option Fingerprint :=
  List.find (fun f => matches (fp_match f) (Base (BinaryPath o)) o) fps.
End fp.

(** ** The meaning of a pattern *)

(** A star stands for any bytes, any other byte for itself. *)
Inductive glob : gostring -> gostring -> Prop :=
  | glob_nil : glob [] []
  | glob_byte b p s : b <> STAR -> glob p s -> glob (b :: p) (b :: s)
  | glob_star p u s : glob p s -> glob (STAR :: p) (u ++ s).

(** The same on the segments between the stars. *)
Fixpoint seg_match (segs : list gostring) (s : gostring) : Prop :=
  match segs with
  | [] => False
  | [f] => s = f
  | f :: segs => exists v t, s = f ++ v ++ t /\ seg_match segs t
  end.

(** The segments after a star, anywhere in the string. *)
Definition after_star (segs : list gostring) (s : gostring) : Prop :=
  exists v t, s = v ++ t /\ seg_match segs t.

Lemma split_star_cons p : exists f segs, split_on STAR p = f :: segs.
Proof. induction p as [|b p (f & segs & IH)]; cbn; [eauto|]. rewrite IH. destruct (b =? STAR); eauto. Qed.

Lemma glob_segs p s : glob p s <-> seg_match (split_on STAR p) s.
Proof.
  revert s. induction p as [|b p IH]; intros s.
  { cbn. split; [by inversion 1|]. intros ->. constructor. }
  destruct (split_star_cons p) as (f & segs & Hs). cbn [split_on]. rewrite Hs in *.
  destruct (Z.eqb_spec b STAR) as [->|Hb].
  - split.
    + inversion 1 as [| |p' u s' Hg]; subst; [done|]. exists u, s'. split; [done|]. by apply IH.
    + intros (v & t & -> & Ht). cbn [app]. constructor. by apply IH.
  - assert (forall s', seg_match ((b :: f) :: segs) (b :: s') <-> seg_match (f :: segs) s') as Hcons.
    { intros s'. destruct segs as [|g segs]; cbn [seg_match]; [split; [by intros [= ->]|by intros ->]|].
      split; intros (v & t & Heq & Ht); exists v, t; (split; [|done]); [by injection Heq as ->|by rewrite Heq]. }
    split.
    + inversion 1 as [|b' p' s' Hb' Hg|]; subst; [|done]. apply Hcons. by apply IH.
    + destruct s as [|b' s].
      { destruct segs as [|g segs]; cbn [seg_match]; [done|]. by intros (? & ? & ? & _). }
      intros Hm. assert (b' = b) as ->.
      { destruct segs as [|g segs]; cbn [seg_match] in Hm; [by injection Hm|].
        destruct Hm as (? & ? & [=] & _). done. }
      constructor; [done|]. by apply IH, Hcons.
Qed.

(** *** Finding the first occurrence *)

Lemma Cut_spec s m :
  match Cut s m with
  | Some (a, r) => s = a ++ m ++ r /\ forall v w, s = v ++ m ++ w -> exists u, r = u ++ w
  | None => forall v w, s <> v ++ m ++ w
  end.
Proof.
  induction s as [|b s IH]; cbn [Cut].
  - destruct (HasPrefix [] m) eqn:Hp.
    + apply HasPrefix_spec in Hp as [w Hw]. symmetry in Hw. apply app_nil in Hw as [-> ->]. cbn.
      split; [done|]. intros v w Hvw. symmetry in Hvw. apply app_nil in Hvw as [_ ->]. by exists [].
    + intros v w Hvw. symmetry in Hvw. apply app_nil in Hvw as [_ Hmw]. apply app_nil in Hmw as [-> _]. done.
  - destruct (HasPrefix (b :: s) m) eqn:Hp.
    + apply HasPrefix_spec in Hp as [w Hw]. rewrite Hw, drop_app_length. split; [done|].
      intros v w' Heq. apply (f_equal (drop (length m))) in Heq. rewrite drop_app_length in Heq.
      assert (exists u, drop (length m) (v ++ m ++ w') = u ++ w') as [u Hu].
      { exists (drop (length m) (v ++ m)). rewrite app_assoc, drop_app_le by (rewrite length_app; lia). done. }
      exists u. by rewrite Heq.
    + assert (forall v w, b :: s = v ++ m ++ w -> exists v', v = b :: v' /\ s = v' ++ m ++ w) as Hv.
      { intros [|b' v] w Heq; [|injection Heq as -> ->; eauto].
        exfalso. apply not_true_iff_false in Hp. apply Hp, HasPrefix_spec. by exists w. }
      destruct (Cut s m) as [[a r]|]; cbn.
      * destruct IH as [-> IH]. split; [done|]. intros v w Heq.
        destruct (Hv v w Heq) as (v' & -> & Hs). by apply (IH v').
      * intros v w Heq. destruct (Hv v w Heq) as (v' & -> & Hs). by apply (IH v' w).
Qed.

(** *** The greedy scan *)

Lemma after_star_mono segs u s : after_star segs s -> after_star segs (u ++ s).
Proof. intros (v & t & -> & Ht). exists (u ++ v), t. by rewrite app_assoc. Qed.

Lemma after_star_cons m segs s :
  segs <> [] -> after_star (m :: segs) s <-> exists v w, s = v ++ m ++ w /\ after_star segs w.
Proof.
  intros Hne. destruct segs as [|g segs]; [done|]. unfold after_star. cbn [seg_match]. split.
  - intros (v & t & -> & (v' & t' & -> & Ht)). exists v, (v' ++ t'). split; [done|]. by exists v', t'.
  - intros (v & w & -> & (v' & t' & -> & Ht)). exists v, (m ++ v' ++ t'). split; [done|]. by exists v', t'.
Qed.

Lemma after_star_last m s : after_star [m] s <-> HasSuffix s m = true.
Proof.
  rewrite HasSuffix_spec. unfold after_star. cbn [seg_match]. split.
  - intros (v & t & -> & ->). by exists v.
  - intros [v ->]. by exists v, m.
Qed.

Lemma match_mids_spec mids lst s :
  match fp.match_mids mids s with Some s' => HasSuffix s' lst = true | None => False end <->
  after_star (mids ++ [lst]) s.
Proof.
  revert s. induction mids as [|m mids IH]; intros s; cbn [fp.match_mids app].
  { by rewrite after_star_last. }
  rewrite after_star_cons by (by destruct mids).
  destruct (streq m []) eqn:Hm.
  - apply streq_spec in Hm as ->. rewrite IH. cbn [app]. split; [intros H; by exists [], s|].
    intros (v & w & -> & Hw). by apply after_star_mono.
  - pose proof (Cut_spec s m) as Hc. destruct (Cut s m) as [[a r]|].
    + destruct Hc as [-> Hmax]. rewrite IH. split; [intros H; by exists a, r|].
      intros (v & w & Heq & Hw). destruct (Hmax v w Heq) as [u ->]. by apply after_star_mono.
    + split; [done|]. intros (v & w & Heq & _). by apply (Hc v w).
Qed.

Lemma split_star_single p f : split_on STAR p = [f] -> f = p.
Proof.
  revert f. induction p as [|b p IH]; intros f; cbn [split_on]; [by intros [= <-]|].
  destruct (split_star_cons p) as (g & segs & Hs). rewrite Hs in *.
  destruct (b =? STAR); [done|]. destruct segs; [|done]. intros [= <-]. by rewrite (IH g).
Qed.

Lemma Contains_star p : Contains p [STAR] = false <-> exists f, split_on STAR p = [f].
Proof.
  unfold Contains. rewrite bool_decide_eq_false, <- eq_None_not_Some.
  induction p as [|b p IH]; [split; [eauto|done]|]. cbn [Cut split_on].
  destruct (split_star_cons p) as (g & segs & Hs). rewrite Hs in *.
  replace (HasPrefix (b :: p) [STAR]) with (b =? STAR).
  2: { apply eq_true_iff_eq. rewrite HasPrefix_spec, Z.eqb_eq. split; [intros ->; by exists p|]. by intros [w [= -> _]]. }
  destruct (b =? STAR); [split; [done|by intros [f [=]]]|].
  destruct (Cut p [STAR]) as [[a r]|] eqn:Hc; cbn.
  - split; [done|]. intros [f [= _ ->]]. destruct IH as [_ IH]. by discriminate IH; eauto.
  - split; [|done]. intros _. destruct IH as [IH _]. destruct IH as [f [= -> ->]]; [done|]. eauto.
Qed.

Lemma wildcardMatch_iff pattern s : fp.wildcardMatch pattern s = true <-> glob pattern s.
Proof.
  rewrite glob_segs. unfold fp.wildcardMatch.
  destruct (Contains pattern [STAR]) eqn:Hc; cbn [negb].
  2: { apply Contains_star in Hc as [f Hf]. rewrite Hf. rewrite <- (split_star_single _ _ Hf). cbn [seg_match].
       rewrite streq_spec. split; by intros ->. }
  destruct (split_star_cons pattern) as (f & segs & Hs). rewrite Hs. cbv zeta. cbn [head tail from_option]. change (id f) with f.
  assert (segs <> []) as Hne.
  { intros ->. apply not_false_iff_true in Hc. apply Hc, Contains_star. eauto. }
  destruct (exists_last Hne) as (mids & lst & ->).
  rewrite removelast_last. rewrite app_comm_cons, last_snoc. cbn [from_option]. change (id lst) with lst.
  assert (seg_match (f :: mids ++ [lst]) s <-> exists w, s = f ++ w /\ after_star (mids ++ [lst]) w) as ->.
  { assert (exists g l, mids ++ [lst] = g :: l) as (g & l & Hgl) by (destruct mids; cbn; eauto).
    rewrite Hgl. cbn [seg_match]. unfold after_star. split.
    - intros (v & t & -> & Ht). eauto 6.
    - intros (w & -> & (v & t & -> & Ht)). eauto. }
  setoid_rewrite <- match_mids_spec.
  destruct (streq f []) eqn:Hf; cbn [negb andb].
  - apply streq_spec in Hf as ->. cbn [app]. split.
    + intros Hm. exists s. split; [done|]. destruct (fp.match_mids mids s); [exact Hm|discriminate].
    + intros (w & -> & Hm). destruct (fp.match_mids mids w); [exact Hm|destruct Hm].
  - destruct (HasPrefix s f) eqn:Hp; cbn [negb].
    + apply HasPrefix_spec in Hp as [w ->]. rewrite drop_app_length. split.
      * intros Hm. exists w. split; [done|]. destruct (fp.match_mids mids w); [exact Hm|discriminate].
      * intros (w' & Heq & Hm). apply app_inv_head in Heq as ->.
        destruct (fp.match_mids mids w'); [exact Hm|destruct Hm].
    + split; [done|]. intros (w & -> & _). apply not_true_iff_false in Hp. destruct Hp. apply HasPrefix_spec. by exists w.
Qed.

(** ** Which signature is reported *)

Lemma glob_plain p s : Contains p [STAR] = false -> glob p s <-> p = s.
Proof.
  intros Hc. rewrite <- (streq_spec p s), <- wildcardMatch_iff. unfold fp.wildcardMatch. by rewrite Hc.
Qed.

(** The conditions of a signature: a condition that is not given holds. *)
Definition satisfies (m : fp.Match) (o : fp.Observation) : Prop :=
  (fp.InterpreterPath m <> [] -> glob (fp.InterpreterPath m) (fp.BinaryPath o)) /\
  (fp.InterpreterBasename m <> [] -> fp.InterpreterBasename m = Base (fp.BinaryPath o)) /\
  (forall g, g ∈ fp.ArgvContains m -> exists a, a ∈ fp.Argv o /\ glob g a) /\
  (fp.AnyOf m <> [] -> exists k, k ∈ fp.AnyOf m /\ k ∈ fp.EnvKeys o).

Lemma nonempty_false {A} (l : list A) : nonempty l = false <-> l = [].
Proof. by destruct l. Qed.

(** [found] stays empty when no marker is present, so a marker with an empty name
    would not count; no variable has an empty name. *)
Lemma marker_found keys l :
  [] ∉ keys ->
  negb (streq (default [] (List.find (fun k => existsb (streq k) keys) l)) []) = true <->
  exists k, k ∈ l /\ k ∈ keys.
Proof.
  intros Hne. rewrite negb_true_iff, <- not_true_iff_false, streq_spec.
  destruct (List.find _ l) as [k|] eqn:Hf; cbn [from_option].
  - change (id k) with k. apply List.find_some in Hf as [Hk Hp].
    apply existsb_elem in Hp as (k' & Hk' & <-%streq_spec). apply list_elem_of_In in Hk.
    split; [eauto|]. intros _ ->. done.
  - split; [done|]. intros (k & Hk & Hk'). exfalso.
    apply list_elem_of_In in Hk. apply (List.find_none _ _ Hf) in Hk.
    apply not_true_iff_false in Hk. apply Hk, existsb_elem. exists k. by rewrite streq_spec.
Qed.

Lemma argvHasGlob_spec argv g : fp.argvHasGlob argv g = true <-> exists a, a ∈ argv /\ glob g a.
Proof. unfold fp.argvHasGlob. rewrite existsb_elem. by setoid_rewrite wildcardMatch_iff. Qed.

Lemma matches_spec m o :
  [] ∉ fp.EnvKeys o -> fp.matches m (Base (fp.BinaryPath o)) o = true <-> satisfies m o.
Proof.
  intros Hne. unfold fp.matches, satisfies. rewrite !andb_true_iff, forallb_forall, !orb_true_iff, marker_found by done.
  rewrite negb_true_iff, nonempty_false, !streq_spec.
  assert ((if streq (fp.InterpreterPath m) [] then true
           else if Contains (fp.InterpreterPath m) [STAR] then fp.wildcardMatch (fp.InterpreterPath m) (fp.BinaryPath o)
           else streq (fp.InterpreterPath m) (fp.BinaryPath o)) = true <->
          (fp.InterpreterPath m <> [] -> glob (fp.InterpreterPath m) (fp.BinaryPath o))) as ->.
  { destruct (streq (fp.InterpreterPath m) []) eqn:He; [apply streq_spec in He; tauto|].
    apply not_true_iff_false in He. rewrite streq_spec in He.
    destruct (Contains (fp.InterpreterPath m) [STAR]) eqn:Hc; [rewrite wildcardMatch_iff; tauto|].
    rewrite (glob_plain _ _ Hc), streq_spec. tauto. }
  setoid_rewrite argvHasGlob_spec. setoid_rewrite <- list_elem_of_In.
  destruct (decide (fp.InterpreterBasename m = [])), (decide (fp.AnyOf m = [])); tauto.
Qed.

(** C26. An exec enrolls under the first signature whose conditions hold, and under
    none when there is no such signature: the greedy wildcard scan matches exactly
    the strings a pattern means, with a star for any bytes. *)
Theorem first_signature_decides fps o :
  [] ∉ fp.EnvKeys o ->
  match fp.Evaluate fps o with
  | Some f => exists pre post, fps = pre ++ f :: post /\ satisfies (fp.fp_match f) o /\
                forall g, g ∈ pre -> ~ satisfies (fp.fp_match g) o
  | None => forall f, f ∈ fps -> ~ satisfies (fp.fp_match f) o
  end.
Proof.
  intros Hne. unfold fp.Evaluate. induction fps as [|f fps IH]; cbn [List.find]; [by intros ? ?%not_elem_of_nil|].
  destruct (fp.matches (fp.fp_match f) (Base (fp.BinaryPath o)) o) eqn:Hm.
  - exists [], fps. split_and!; [done|by apply (matches_spec _ _ Hne)|by intros ? ?%not_elem_of_nil].
  - assert (~ satisfies (fp.fp_match f) o) as Hf by (rewrite <- (matches_spec _ _ Hne); congruence).
    destruct (List.find _ fps) as [g|].
    + destruct IH as (pre & post & -> & Hg & Hpre). exists (f :: pre), post. split_and!; [done|done|].
      by intros g' [-> |?]%elem_of_cons; [|apply Hpre].
    + by intros g [-> |?]%elem_of_cons; [|apply IH].
Qed.
