(* ===== verification/Proctable.v ===== *)
(** * Proctable: the table of processes and the tags of agents

    [internal/proctable/proctable.go], one definition per method.  The table is a
    finite map from process ids, and a method that returns a pointer into it
    returns the entry: no caller writes through the pointer, but for a copy of the
    same entry (bootstrap.go).  Times are nanoseconds.  At the end, the invariant of
    the table: whose tag an entry carries ([table_ok]). *)

From Stdlib Require Import String.
From S2P Require Import Prelude Policy.

#[local] Open Scope list_scope.
#[local] Open Scope Z_scope.

Module proctable.
Definition ModeA : gostring := bytes_of "A".
Definition ModeB : gostring := bytes_of "B".
Definition ModeInherited : gostring := bytes_of "inherited".

Record Proc := mk_proc {
  PID : Z;
  StartNS : Z;
  PPID : Z;
  Comm : gostring;
  Binary : gostring;
  AgentID : gostring;
  Mode : gostring;
  Reason : gostring;
  RootPID : Z;
  FirstSeen : Z;
  LastSeen : Z;
  Exited : bool
}.

Definition Tagged (p : Proc) : bool := negb (streq (AgentID p) []).

Abbreviation Table := (gmap Z Proc).

(** The fields a tag consists of. *)
Definition set_tag (p : Proc) (agentID mode reason : gostring) (root : Z) : Proc :=
  mk_proc (PID p) (StartNS p) (PPID p) (Comm p) (Binary p) agentID mode reason root
    (FirstSeen p) (LastSeen p) (Exited p).

(** Only a tagged child is stored. *)
Definition OnFork (child parent : Z) (comm : gostring) (now : Z) (t : Table) : Proc * Table :=
  let c := mk_proc child 0 parent comm [] [] [] [] 0 now now false in
  match t !! parent with
  | Some p =>
      if Tagged p then
        let c := set_tag c (AgentID p) ModeInherited (bytes_of "forked by " ++ Comm p) (RootPID p) in
        (c, <[child := c]> t)
      else (c, t)
  | None => (c, t)
  end.

(** The stored entry is of another process: the id was reused. *)
Definition reused (p : Proc) (startNS : Z) : bool :=
  negb (StartNS p =? 0) && negb (startNS =? 0) && negb (StartNS p =? startNS).

Definition OnExec (pid startNS ppid : Z) (comm binary : gostring) (now : Z) (t : Table)
    : Proc * bool * Table :=
  let fresh := mk_proc pid 0 0 [] [] [] [] [] 0 now 0 false in
  let p := match t !! pid with
           | Some p => if reused p startNS then fresh else p
           | None => fresh
           end in
  let p := mk_proc (PID p) startNS ppid comm binary (AgentID p) (Mode p) (Reason p) (RootPID p)
             (FirstSeen p) now false in
  let t := <[pid := p]> t in
  let p := if Tagged p then p else
           match t !! ppid with
           | Some parent =>
               if Tagged parent
               then set_tag p (AgentID parent) ModeInherited (bytes_of "child of " ++ Comm parent) (RootPID parent)
               else p
           | None => p
           end in
  (p, Tagged p, <[pid := p]> t).

Definition Tag (pid : Z) (agentID mode reason : gostring) (t : Table) : Table :=
  match t !! pid with
  | Some p => <[pid := set_tag p agentID mode reason pid]> t
  | None => t
  end.

Definition OnExit (pid now : Z) (t : Table) : Table :=
  match t !! pid with
  | Some p => <[pid := mk_proc (PID p) (StartNS p) (PPID p) (Comm p) (Binary p) (AgentID p) (Mode p)
                         (Reason p) (RootPID p) (FirstSeen p) now true]> t
  | None => t
  end.

Definition Get (t : Table) (pid : Z) : option Proc := t !! pid.

(** In the order the map is iterated in. *)
Definition TaggedSnapshot (t : Table) : list Proc :=
  List.filter (fun p => Tagged p && negb (Exited p)) (snd <$> map_to_list t).

Definition Len (t : Table) : nat := size t.

Definition stale (cutoff : Z) (p : Proc) : bool := (LastSeen p <? cutoff) && (Exited p || negb (Tagged p)).

Definition Prune (maxAge now : Z) (t : Table) : nat * Table :=
  let t' := filter (fun e : Z * Proc => stale (now - maxAge) e.2 = false) t in
  ((size t - size t')%nat, t').
End proctable.

Import proctable.

Lemma Tagged_spec p : Tagged p = true <-> AgentID p <> [].
Proof. unfold Tagged. by rewrite negb_true_iff, <- not_true_iff_false, streq_spec. Qed.

Lemma elem_of_TaggedSnapshot t p :
  p ∈ TaggedSnapshot t <-> exists pid, t !! pid = Some p /\ Tagged p = true /\ Exited p = false.
Proof.
  unfold TaggedSnapshot. rewrite list_elem_of_In, List.filter_In, <- list_elem_of_In, andb_true_iff, negb_true_iff.
  rewrite list_elem_of_fmap. split.
  - intros [([pid q] & -> & Hq%elem_of_map_to_list) ?]. eauto.
  - intros (pid & Hq & ?). split; [|done]. exists (pid, p). split; [done|]. by apply elem_of_map_to_list.
Qed.

(** ** Whose tag an entry carries

    [anchors] are the enrolments so far: process id and agent.  Every entry is
    stored under its own id, and the tag of an entry is that of an enrolment of its
    root; an entry tagged by an enrolment of its own is its own root. *)

Record entry_ok (anchors : Z -> gostring -> Prop) (pid : Z) (p : Proc) : Prop := {
  entry_pid : PID p = pid;
  entry_anchor : Tagged p = true -> anchors (RootPID p) (AgentID p);
  entry_root : Tagged p = true -> Mode p <> ModeInherited -> RootPID p = pid;
  entry_untagged : Tagged p = false -> RootPID p = 0 /\ Mode p = []
}.

Definition table_ok (anchors : Z -> gostring -> Prop) (t : Table) : Prop := map_Forall (entry_ok anchors) t.

Lemma entry_ok_mono (A B : Z -> gostring -> Prop) pid p :
  (forall r a, A r a -> B r a) -> entry_ok A pid p -> entry_ok B pid p.
Proof. intros Hab []. split; auto. Qed.

Lemma table_ok_mono (A B : Z -> gostring -> Prop) t :
  (forall r a, A r a -> B r a) -> table_ok A t -> table_ok B t.
Proof. intros Hab Ht pid p Hp. eapply entry_ok_mono; [done|]. by apply Ht. Qed.

Lemma table_ok_empty A : table_ok A ∅.
Proof. apply map_Forall_empty. Qed.

Section table.
Context (A : Z -> gostring -> Prop).

Lemma table_ok_insert pid p t : table_ok A t -> entry_ok A pid p -> table_ok A (<[pid := p]> t).
Proof. intros. by apply map_Forall_insert_2. Qed.

(** A tag passed on by a tagged parent. *)
Lemma entry_ok_inherit pid p parent ppid r :
  entry_ok A ppid parent -> Tagged parent = true -> PID p = pid ->
  entry_ok A pid (set_tag p (AgentID parent) ModeInherited r (RootPID parent)).
Proof.
  intros [? Hanc _ _] Ht Hp. split; cbn; [done| |done|].
  - intros _. auto.
  - unfold Tagged in *. cbn. by rewrite Ht.
Qed.

(** An entry whose tag is the old one's, or none. *)
Lemma entry_ok_same pid p q :
  entry_ok A pid p -> PID q = PID p -> AgentID q = AgentID p -> Mode q = Mode p -> RootPID q = RootPID p ->
  entry_ok A pid q.
Proof. intros [] H1 H2 H3 H4. unfold Tagged in *. split; unfold Tagged; rewrite ?H1, ?H2, ?H3, ?H4; auto. Qed.

Lemma OnFork_ok child parent comm now t : table_ok A t -> table_ok A (OnFork child parent comm now t).2.
Proof.
  intros Ht. unfold OnFork. destruct (t !! parent) as [p|] eqn:Hp; [|done].
  destruct (Tagged p) eqn:Htag; [|done]. apply table_ok_insert; [done|].
  apply (entry_ok_inherit _ _ _ parent); [by apply Ht|done..].
Qed.

Lemma entry_ok_fresh pid start ppid comm binary now seen ex :
  entry_ok A pid (mk_proc pid start ppid comm binary [] [] [] 0 now seen ex).
Proof. by split. Qed.

Lemma OnExec_ok pid startNS ppid comm binary now t :
  table_ok A t -> table_ok A (OnExec pid startNS ppid comm binary now t).2.
Proof.
  intros Ht. unfold OnExec. cbv zeta. cbn [snd].
  set (p := mk_proc _ startNS ppid comm binary _ _ _ _ _ now false).
  assert (entry_ok A pid p) as Hp.
  { subst p. destruct (t !! pid) as [q|] eqn:Hq; [|apply entry_ok_fresh].
    destruct (reused q startNS); [apply entry_ok_fresh|].
    apply (entry_ok_same _ q); [by apply Ht|done..]. }
  assert (table_ok A (<[pid := p]> t)) as Ht' by by apply table_ok_insert.
  apply table_ok_insert; [done|]. destruct (Tagged p); [done|].
  destruct (<[pid := p]> t !! ppid) as [parent|] eqn:Hpar; [|done].
  destruct (Tagged parent) eqn:Htag; [|done].
  apply (entry_ok_inherit _ _ _ ppid); [by apply Ht'|done|by destruct Hp].
Qed.

Lemma Tag_ok pid a mode reason t :
  table_ok A t -> a <> [] -> mode <> [] -> table_ok (fun r b => A r b \/ (r = pid /\ b = a)) (Tag pid a mode reason t).
Proof.
  intros Ht Ha Hm. unfold Tag.
  assert (table_ok (fun r b => A r b \/ (r = pid /\ b = a)) t) as Ht' by (eapply table_ok_mono; [|done]; auto).
  destruct (t !! pid) as [p|] eqn:Hp; [|done]. apply map_Forall_insert_2; [|done].
  pose proof (Ht' pid p Hp) as []. split; cbn; [done|auto|done|].
  intros Hf. apply not_true_iff_false in Hf. destruct Hf. by apply Tagged_spec.
Qed.

Lemma OnExit_ok pid now t : table_ok A t -> table_ok A (OnExit pid now t).
Proof.
  intros Ht. unfold OnExit. destruct (t !! pid) as [p|] eqn:Hp; [|done].
  apply table_ok_insert; [done|]. apply (entry_ok_same _ p); [by apply Ht|done..].
Qed.

Lemma Prune_ok maxAge now t : table_ok A t -> table_ok A (Prune maxAge now t).2.
Proof. intros Ht pid p [Hp _]%map_lookup_filter_Some. by apply Ht. Qed.
End table.

(** ** Pruning *)

(** A prune removes exactly the entries not seen for [maxAge] that exited or carry
    no tag: a live agent's processes stay, however long they are silent. *)
Lemma Prune_spec maxAge now t pid p :
  (Prune maxAge now t).2 !! pid = Some p <->
  t !! pid = Some p /\ (now - maxAge <= LastSeen p \/ (Tagged p = true /\ Exited p = false)).
Proof.
  unfold Prune. cbv zeta. cbn [snd]. rewrite map_lookup_filter_Some. unfold stale. cbn [snd].
  rewrite andb_false_iff, orb_false_iff, negb_false_iff, Z.ltb_ge. tauto.
Qed.

Lemma Prune_count maxAge now t :
  ((Prune maxAge now t).1 + size (Prune maxAge now t).2 = size t)%nat.
Proof.
  unfold Prune. cbv zeta. cbn [fst snd]. set (f := filter _ t).
  assert (f ⊆ t) as Hsub by apply map_filter_subseteq.
  apply subseteq_dom, subseteq_size in Hsub. rewrite !size_dom in Hsub. lia.
Qed.
