(* ===== verification/Config.v ===== *)
(** * Config: the agent's configuration

    [internal/config/config.go] after YAML decoding: the values the agent's
    behaviour depends on, the defaults and the checks.  The debug server's and the
    log's settings are read by code that is not modelled and are left out. *)

From Stdlib Require Import String.
From S2P Require Import Prelude Policy.

#[local] Open Scope list_scope.
#[local] Open Scope Z_scope.

Module config.
Record ModeAConfig := mk_mode_a {
  a_Enabled : bool;
  CgroupContains : list gostring;
  DefaultAgentID : gostring
}.

Record ModeBConfig := mk_mode_b {
  b_Enabled : bool;
  FingerprintsPath : gostring
}.

Definition PolicyModeOff : gostring := bytes_of "off".
Definition PolicyModeShadow : gostring := bytes_of "shadow".
Definition PolicyModeEnforce : gostring := bytes_of "enforce".

Record PolicyConfig := mk_policy_config {
  p_Mode : gostring;
  p_Enabled : bool;
  StorePath : gostring;
  PubKeyPath : gostring;
  ReloadSec : Z;
  p_Scope : gostring
}.

Definition EffectiveMode (p : PolicyConfig) : gostring :=
  if negb (streq (p_Mode p) []) then p_Mode p else
  if p_Enabled p then PolicyModeShadow else PolicyModeOff.

Definition Active (p : PolicyConfig) : bool := negb (streq (EffectiveMode p) PolicyModeOff).

Record ActionsConfig := mk_actions {
  act_Enabled : bool;
  Capture : list gostring;
  OpenWritesOnly : bool
}.

Definition CaptureEnabled (a : ActionsConfig) (name : gostring) : bool :=
  match Capture a with
  | [] => true
  | l => existsb (fun c => streq c name) l
  end.

Record ReportConfig := mk_report {
  Format : gostring;
  AuditLog : gostring;
  AllEvents : bool;
  SnapshotSec : Z
}.

Record FeedbackConfig := mk_feedback {
  f_Enabled : bool;
  f_Path : gostring;
  MaxPerAgent : Z
}.

Record Config := mk_config {
  ModeA : ModeAConfig;
  ModeB : ModeBConfig;
  Actions : ActionsConfig;
  Policy_ : PolicyConfig;
  Feedback : FeedbackConfig;
  Report : ReportConfig;
  PinPath : gostring
}.

Definition Default : Config :=
  mk_config (mk_mode_a true [bytes_of "ai-agents.slice"] (bytes_of "agent"))
    (mk_mode_b true (bytes_of "fingerprints.yaml"))
    (mk_actions true [bytes_of "connect"; bytes_of "open"; bytes_of "unlink"; bytes_of "rename"] true)
    (mk_policy_config [] false (bytes_of "./policy-store") [] 15 [])
    (mk_feedback false [] 32)
    (mk_report (bytes_of "text") [] false 30)
    (bytes_of "/sys/fs/bpf/ai-agent-validator").

Definition one_of (s : gostring) (l : list gostring) : bool := existsb (streq s) l.

Definition validate (c : Config) : bool :=
  let mode := EffectiveMode (Policy_ c) in
  one_of (Format (Report c)) [bytes_of "text"; bytes_of "json"] &&
  (a_Enabled (ModeA c) || b_Enabled (ModeB c)) &&
  one_of mode [PolicyModeOff; PolicyModeShadow; PolicyModeEnforce] &&
  (streq mode PolicyModeOff || negb (streq (PubKeyPath (Policy_ c)) [])) &&
  (0 <=? ReloadSec (Policy_ c)).
End config.

(** An accepted configuration enforces only with a key to verify policies with. *)
Lemma enforcing_config_has_key c :
  config.validate c = true -> config.Active (config.Policy_ c) = true -> config.PubKeyPath (config.Policy_ c) <> [].
Proof.
  unfold config.validate, config.Active. cbv zeta. rewrite !andb_true_iff, !orb_true_iff, !negb_true_iff.
  intros [[_ Hk] _] Ha He. rewrite He in Hk. destruct Hk; [congruence|done].
Qed.

Example default_validates : config.validate config.Default = true.
Proof. vm_compute. reflexivity. Qed.
