(* ===== verification/Feedback.v ===== *)
(** * Feedback: what the agent emits

    The records of [internal/report/report.go], the policy feedback of
    [internal/feedback] ([decision.go], [hub.go] and the search of [lookup.go]) and
    the connect destinations of [internal/deny/connectcache.go].  Rendering as text
    and JSON is left out; times are nanoseconds. *)

From stdpp Require Import strings.
From Stdlib Require Import String.
From S2P Require Import Prelude Policy.

#[local] Open Scope list_scope.
#[local] Open Scope Z_scope.

(** ** Decisions *)

Module feedback.
Definition DecisionDenied : gostring := bytes_of "denied".
Definition RetryDoNot : gostring := bytes_of "do-not-retry".
Definition NatureHard : gostring := bytes_of "hard-policy (not a transient error)".
Definition AppealDefault : gostring :=
  bytes_of "If this is genuinely required, a human must change the policy; you cannot bypass it.".

Record Decision := mk_decision {
  Time : Z;
  Decision_ : gostring;
  Action : gostring;
  Target : gostring;
  MatchedRule : gostring;
  Reason : gostring;
  Retry : gostring;
  Nature : gostring;
  Appeal : gostring;
  AgentID : gostring;
  PID : Z;
  PolicyVersion : Z
}.

Section decision.
(** [strconv.Quote], the [%q] of fmt. *)
Context (Quote : gostring -> gostring).

Definition NewDecision (at_ now pid : Z) (action target agentID ruleID reason : gostring) (policyVersion : Z)
    : Decision :=
  let at_ := if at_ =? 0 then now else at_ in
  let reason := if streq reason []
                then bytes_of "Action " ++ Quote action ++ bytes_of " was blocked by host policy rule "
                       ++ Quote ruleID ++ bytes_of "."
                else reason in
  mk_decision at_ DecisionDenied action target ruleID reason RetryDoNot NatureHard AppealDefault
    agentID pid policyVersion.
End decision.

(** ** The hub

    [file] is the optional sink, as the decisions appended to it.  A slice
    expression out of range panics ([None]); [int] has 64 bits. *)

Definition int (n : Z) : Z := (n + 2 ^ 63) mod 2 ^ 64 - 2 ^ 63.

Definition defaultMaxPerAgent : Z := 32.

Record Hub := mk_hub {
  maxPerAgent : Z;
  byAgent : gmap gostring (list Decision);
  recent : list Decision;
  maxRecent : Z;
  file : option (list Decision)
}.

Definition NewHub (sink : bool) (maxPerAgent : Z) : Hub :=
  let maxPerAgent := if maxPerAgent <=? 0 then defaultMaxPerAgent else maxPerAgent in
  mk_hub maxPerAgent ∅ [] (int (maxPerAgent * 4)) (if sink then Some [] else None).

Definition len {A} (l : list A) : Z := Z.of_nat (length l).

(** [l[i:]]. *)
Definition slice_from {A} (i : Z) (l : list A) : option (list A) :=
  if (0 <=? i) && (i <=? len l) then Some (drop (Z.to_nat i) l) else None.

Definition trim {A} (max : Z) (l : list A) : option (list A) :=
  if max <? len l then slice_from (int (len l - max)) l else Some l.

Definition hub_key (d : Decision) : gostring :=
  if streq (AgentID d) [] then bytes_of "_unknown" else AgentID d.

Definition Record_ (d : Decision) (h : Hub) : option Hub :=
  let key := hub_key d in
  l ← trim (maxPerAgent h) (default [] (byAgent h !! key) ++ [d]);
  r ← trim (maxRecent h) (recent h ++ [d]);
  Some (mk_hub (maxPerAgent h) (<[key := l]> (byAgent h)) r (maxRecent h)
          ((fun f => f ++ [d]) <$> file h)).

Definition ForAgent (agentID : gostring) (h : Hub) : list Decision := default [] (byAgent h !! agentID).

Definition Recent (limit : Z) (h : Hub) : list Decision :=
  let limit := if (limit <=? 0) || (len (recent h) <? limit) then len (recent h) else limit in
  drop (Z.to_nat (len (recent h) - limit)) (recent h).

(** ** The search of the shim (lookup.go) *)

Definition matchGrace : Z := 200000000.

Definition newer (cutoff pid : Z) (best : option Decision) (d : Decision) : option Decision :=
  if negb (PID d =? pid) || (Time d <? cutoff) then best else
  match best with
  | Some b => if Time b <? Time d then Some d else best
  | None => Some d
  end.

Definition matchPID (l : list Decision) (pid since : Z) : option Decision :=
  foldl (newer (since - matchGrace) pid) None l.
End feedback.

(** ** Records *)

Module report.
Record Record_ := mk_record {
  Event : gostring;
  Action : gostring;
  Enrolled : bool;
  PID : Z;
  PPID : Z;
  RootPID : Z;
  AgentID : gostring;
  Mode : gostring;
  Reason : gostring;
  Comm : gostring;
  Binary : gostring;
  Argv : list gostring;
  Dest : gostring;
  DestPort : Z;
  Path : gostring;
  NewPath : gostring;
  Write : bool;
  RuleID : gostring;
  PolicyVersion : Z;
  ShadowSource : gostring;
  Feedback_ : option feedback.Decision
}.
End report.

(** ** Connect destinations (connectcache.go) *)

Module ConnectCache.
Definition connectCacheTTL : Z := 30000000000.

Record connectEntry := mk_entry { ip : gostring; port : Z; at_ : Z }.

Abbreviation cache := (gmap Z connectEntry).

Definition Record_ (pid : Z) (ip : gostring) (port now : Z) (c : cache) : cache :=
  if streq ip [] then c else <[pid := mk_entry ip port now]> c.

Definition Forget (pid : Z) (c : cache) : cache := delete pid c.

Definition Lookup (pid now : Z) (c : cache) : option (gostring * Z) :=
  e ← c !! pid; if connectCacheTTL <? now - at_ e then None else Some (ip e, port e).
End ConnectCache.

Import feedback.

(** ** The hub holds the end of the history *)

Definition last_n {A} (n : Z) (l : list A) : list A := drop (length l - Z.to_nat n) l.

Lemma last_n_snoc {A} n (l : list A) d :
  0 < n -> last_n n (last_n n l ++ [d]) = last_n n (l ++ [d]).
Proof.
  intros Hn. unfold last_n. rewrite !length_app, length_drop. cbn [length].
  destruct (decide (length l <= Z.to_nat n)%nat).
  - replace (length l - Z.to_nat n)%nat with 0%nat by lia. rewrite Nat.sub_0_r. done.
  - rewrite !drop_app_le by (rewrite ?length_drop; lia).
    rewrite drop_drop. f_equal. f_equal. lia.
Qed.

Lemma length_last_n {A} n (l : list A) : (length (last_n n l) <= Z.to_nat n)%nat.
Proof. unfold last_n. rewrite length_drop. lia. Qed.

Lemma int_small n : - 2 ^ 63 <= n < 2 ^ 63 -> int n = n.
Proof. intros. unfold int. rewrite Z.mod_small; lia. Qed.

Lemma trim_last_n {A} max (l : list A) :
  0 < max < 2 ^ 63 -> len l < 2 ^ 63 -> trim max l = Some (last_n max l).
Proof.
  intros Hm Hl. unfold trim, len in *. destruct (Z.ltb_spec max (Z.of_nat (length l))).
  - rewrite int_small by lia. unfold slice_from, len.
    replace ((0 <=? _) && _) with true by lia. unfold last_n. f_equal. f_equal. lia.
  - unfold last_n. replace (length l - Z.to_nat max)%nat with 0%nat by lia. done.
Qed.

Definition record_all (ds : list Decision) (h : Hub) : option Hub :=
  foldl (fun h d => h ≫= Record_ d) (Some h) ds.

(** What a hub holds after the decisions [ds]. *)
Record holds_history (sink : bool) (max : Z) (ds : list Decision) (h : Hub) : Prop := {
  hist_max : maxPerAgent h = max;
  hist_maxRecent : maxRecent h = max * 4;
  hist_agent a : ForAgent a h = last_n max (List.filter (fun d => streq (hub_key d) a) ds);
  hist_recent : recent h = last_n (max * 4) ds;
  hist_file : file h = if sink then Some ds else None
}.

Lemma Record_history sink max ds d h :
  0 < max < 2 ^ 61 -> holds_history sink max ds h ->
  exists h', Record_ d h = Some h' /\ holds_history sink max (ds ++ [d]) h'.
Proof.
  intros Hm [H1 H2 H3 H4 H5]. unfold Record_. cbv zeta. rewrite H1, H2, H4.
  pose proof (H3 (hub_key d)) as Ha. unfold ForAgent in Ha. rewrite Ha.
  pose proof (length_last_n max (List.filter (fun e => streq (hub_key e) (hub_key d)) ds)) as Hla.
  pose proof (length_last_n (max * 4) ds) as Hlr.
  rewrite !trim_last_n by (unfold len; rewrite ?length_app; cbn [length]; lia).
  cbn [mbind option_bind]. eexists. split; [done|].
  split; cbn [maxPerAgent maxRecent byAgent recent file]; [done..| | |].
  - intros a. unfold ForAgent. cbn [byAgent]. rewrite List.filter_app. cbn [List.filter].
    destruct (streq (hub_key d) a) eqn:Hk.
    + apply streq_spec in Hk as <-. rewrite lookup_insert_eq. cbn [from_option]. apply last_n_snoc; lia.
    + rewrite app_nil_r, <- (H3 a). unfold ForAgent. rewrite lookup_insert_ne; [done|].
      intros He. apply streq_spec in He. congruence.
  - apply last_n_snoc; lia.
  - rewrite H5. by destruct sink.
Qed.

(** The hub refines the history of decisions: recording never panics, and what it
    returns for an agent, and across agents, are the latest decisions in order, at most
    [max] and [4 * max] of them. *)
Lemma record_all_history sink max ds :
  0 < max < 2 ^ 61 ->
  exists h, record_all ds (NewHub sink max) = Some h /\ holds_history sink max ds h.
Proof.
  intros Hm. induction ds as [|d ds (h & Hh & Hist)] using rev_ind.
  - eexists. split; [done|]. unfold NewHub. replace (max <=? 0) with false by lia.
    split; cbn [maxPerAgent maxRecent recent file]; [done|apply int_small; lia|done..|by destruct sink].
  - destruct (Record_history sink max ds d h Hm Hist) as (h' & Hr & Hist').
    exists h'. split; [|done]. unfold record_all in *. by rewrite foldl_app, Hh.
Qed.

(** C25. The feedback hub keeps, for each agent and over all agents, exactly the
    latest decisions up to its bounds, whatever is recorded, and no slice is out of
    range; for configured bounds whose fourfold fits an int. *)
Theorem hub_keeps_latest sink n ds :
  n < 2 ^ 61 ->
  let max := if n <=? 0 then defaultMaxPerAgent else n in
  exists h, record_all ds (NewHub sink n) = Some h /\
    (forall a, ForAgent a h = last_n max (List.filter (fun d => streq (hub_key d) a) ds)) /\
    (forall limit, Recent limit h =
       last_n (if (limit <=? 0) || (max * 4 <? limit) then max * 4 else limit) ds) /\
    file h = if sink then Some ds else None.
Proof.
  intros Hn max.
  assert (0 < max < 2 ^ 61) as Hm by (subst max; unfold defaultMaxPerAgent; destruct (Z.leb_spec n 0); lia).
  assert (NewHub sink n = NewHub sink max) as ->.
  { unfold NewHub. cbv zeta. subst max. destruct (Z.leb_spec n 0); [done|]. by replace (n <=? 0) with false by lia. }
  destruct (record_all_history sink max ds Hm) as (h & Hh & [_ _ Ha Hr Hf]).
  exists h. split_and!; [done..| |done]. intros limit. unfold Recent. rewrite Hr. clear -Hm.
  unfold last_n, len. rewrite length_drop, drop_drop.
  destruct (Z.leb_spec limit 0), (Z.ltb_spec (max * 4) limit); cbn [orb]; try lia.
  all: destruct (Z.ltb_spec (Z.of_nat (length ds - (length ds - Z.to_nat (max * 4)))) limit); f_equal; lia.
Qed.

(** A configured size of 2^61 wraps around in [maxPerAgent * 4]: the first decision
    panics the agent. *)
Lemma hub_overflow_panics sink d : Record_ d (NewHub sink (2 ^ 61)) = None.
Proof. by destruct sink. Qed.

(** ** The search finds the newest decision *)

Lemma newer_spec cutoff pid l :
  match foldl (newer cutoff pid) None l with
  | Some b => b ∈ l /\ PID b = pid /\ cutoff <= Time b /\
              forall d, d ∈ l -> PID d = pid -> Time d <= Time b
  | None => forall d, d ∈ l -> PID d = pid -> Time d < cutoff
  end.
Proof.
  induction l as [|d l IH] using rev_ind; [by intros d ?%not_elem_of_nil|].
  rewrite foldl_app. cbn [foldl]. unfold newer at 1.
  destruct (Z.eqb_spec (PID d) pid) as [Hp|Hp]; cbn [negb orb].
  - destruct (Z.ltb_spec (Time d) cutoff) as [Ht|Ht].
    + destruct (foldl _ None l) as [b|]; setoid_rewrite elem_of_app; setoid_rewrite list_elem_of_singleton.
      * destruct IH as (? & ? & ? & Hmax). split_and!; [by left|done..|].
        intros e [He| ->] Hpe; [by apply Hmax|lia].
      * intros e [He| ->] Hpe; [by apply IH|done].
    + destruct (foldl _ None l) as [b|].
      * destruct IH as (? & ? & ? & Hmax).
        destruct (Z.ltb_spec (Time b) (Time d)); setoid_rewrite elem_of_app; setoid_rewrite list_elem_of_singleton.
        -- split_and!; [by right|done..|]. intros e [He| ->] Hpe; [specialize (Hmax e He Hpe); lia|lia].
        -- split_and!; [by left|done..|]. intros e [He| ->] Hpe; [by apply Hmax|done].
      * setoid_rewrite elem_of_app; setoid_rewrite list_elem_of_singleton.
        split_and!; [by right|done..|]. intros e [He| ->] Hpe; [specialize (IH e He Hpe); lia|lia].
  - destruct (foldl _ None l) as [b|]; setoid_rewrite elem_of_app; setoid_rewrite list_elem_of_singleton.
    + destruct IH as (? & ? & ? & Hmax). split_and!; [by left|done..|].
      intros e [He| ->] Hpe; [by apply Hmax|done].
    + intros e [He| ->] Hpe; [by apply IH|done].
Qed.
