(* ===== verification/Text.v ===== *)
(** * Text: numbers, hosts and ports as text

    The conversions of [strconv] and [fmt] the agent uses, [net.JoinHostPort] and
    [net.SplitHostPort], and the connect targets of [internal/deny/target.go] and
    [splitConnectTarget] of [consumer.go], which are read back from their text
    ([connect_target_roundtrip]). *)

From stdpp Require Import list.
From Stdlib Require Import String.
From S2P Require Import Prelude Policy.

#[local] Open Scope list_scope.
#[local] Open Scope Z_scope.

(** ** Numbers as text *)

Definition digit (d : Z) : Z := if d <? 10 then 48 + d else 87 + d.

(** The digits of a number, most significant first, with at least one. *)
Fixpoint digits (fuel : nat) (base n : Z) (acc : gostring) : gostring :=
  match fuel with
  | O => acc
  | S fuel =>
      let acc := digit (n mod base) :: acc in
      if n / base =? 0 then acc else digits fuel base (n / base) acc
  end.

(** [strconv.Itoa] of a non-negative [int]; [%08x] of a 32-bit one. *)
Definition Itoa (n : Z) : gostring := digits 20 10 n [].
Definition hex8 (n : Z) : gostring :=
  let d := digits 8 16 n [] in replicate (8 - length d) 48 ++ d.

(** [strconv.Atoi]: decimal digits after an optional sign, in the range of [int]. *)
Definition is_digit (b : Z) : bool := (48 <=? b) && (b <=? 57).
Definition Atoi (s : gostring) : option Z :=
  let '(sign, d) := match s with
                    | b :: d => if b =? 45 then (-1, d) else if b =? 43 then (1, d) else (1, s)
                    | [] => (1, [])
                    end in
  if nonempty d && forallb is_digit d then
    let n := sign * foldl (fun n b => 10 * n + (b - 48)) 0 d in
    if (- 2 ^ 63 <=? n) && (n <? 2 ^ 63) then Some n else None
  else None.

(** ** Hosts and ports (package net) *)

Definition COLON : Z := 58.
Definition LBRACKET : Z := 91.
Definition RBRACKET : Z := 93.
Definition has (s : gostring) (b : Z) : bool := existsb (Z.eqb b) s.

Definition JoinHostPort (host port : gostring) : gostring :=
  if has host COLON then LBRACKET :: host ++ RBRACKET :: COLON :: port
  else host ++ COLON :: port.

(** The text before the last colon and after it. *)
Fixpoint cut_last (s : gostring) : option (gostring * gostring) :=
  match s with
  | [] => None
  | b :: s =>
      match cut_last s with
      | Some (h, p) => Some (b :: h, p)
      | None => if b =? COLON then Some ([], s) else None
      end
  end.

Definition SplitHostPort (hostport : gostring) : option (gostring * gostring) :=
  r ← cut_last hostport;
  let '(before, port) := r in
  match hostport with
  | b :: rest =>
      if b =? LBRACKET then
        (* the first bracket that closes stands just before the last colon *)
        e ← Cut rest [RBRACKET];
        let '(host, after) := e in
        if negb (streq after (COLON :: port)) then None else
        if has host LBRACKET || has port LBRACKET || has port RBRACKET then None else Some (host, port)
      else
        if has before COLON then None else
        if has hostport LBRACKET || has hostport RBRACKET then None else Some (before, port)
  | [] => None
  end.

Definition FormatConnectTarget (ip : gostring) (port : Z) : gostring :=
  if streq ip [] then [] else if port =? 0 then ip else JoinHostPort ip (Itoa port).

Definition splitConnectTarget (target : gostring) : gostring * Z :=
  match SplitHostPort target with
  | None => (target, 0)
  | Some (host, portStr) =>
      match Atoi portStr with
      | Some p => if (p <? 0) || (65535 <? p) then (host, 0) else (host, u16 p)
      | None => (host, 0)
      end
  end.

(** ** Targets *)

Lemma has_app s t b : has (s ++ t) b = has s b || has t b.
Proof. apply existsb_app. Qed.

Lemma cut_last_none s : has s COLON = false -> cut_last s = None.
Proof.
  induction s as [|b s IH]; [done|]. unfold has. cbn [existsb cut_last]. intros [Hb Hs]%orb_false_iff.
  rewrite IH by done. by rewrite Z.eqb_sym, Hb.
Qed.

Lemma cut_last_app h d : has d COLON = false -> cut_last (h ++ COLON :: d) = Some (h, d).
Proof.
  intros Hd. induction h as [|b h IH]; cbn [app cut_last]; [by rewrite cut_last_none|by rewrite IH].
Qed.

Lemma Cut_byte s r b : has s b = false -> Cut (s ++ b :: r) [b] = Some (s, r).
Proof.
  induction s as [|c s IH]; unfold has; cbn [existsb app Cut].
  - intros _. replace (HasPrefix (b :: r) [b]) with true; [done|].
    symmetry. apply HasPrefix_spec. by exists r.
  - intros [Hc Hs]%orb_false_iff. replace (HasPrefix (c :: s ++ b :: r) [b]) with false.
    2: { symmetry. apply not_true_iff_false. intros [w [= -> _]]%HasPrefix_spec. by rewrite Z.eqb_refl in Hc. }
    by rewrite IH.
Qed.

(** *** The decimal text of a port *)

Lemma digits_value fuel n acc :
  0 <= n < 10 ^ Z.of_nat fuel -> (fuel > 0)%nat ->
  foldl (fun n b => 10 * n + (b - 48)) 0 (digits fuel 10 n acc) = foldl (fun n b => 10 * n + (b - 48)) n acc.
Proof.
  revert n acc. induction fuel as [|fuel IH]; intros n acc Hn Hf; [lia|]. cbn [digits]. cbv zeta.
  assert (digit (n mod 10) - 48 = n mod 10) as Hd.
  { unfold digit. pose proof (Z.mod_pos_bound n 10). replace (n mod 10 <? 10) with true by lia. lia. }
  assert (10 * (n / 10) + n mod 10 = n) as Hdm by (symmetry; apply Z.div_mod; lia).
  destruct (Z.eqb_spec (n / 10) 0) as [Hz|Hz].
  - cbn [foldl]. rewrite Hd. f_equal. lia.
  - rewrite Nat2Z.inj_succ, Z.pow_succ_r in Hn by lia.
    assert (0 <= n / 10 < 10 ^ Z.of_nat fuel) as Hq by (split; [apply Z.div_pos; lia|apply Z.div_lt_upper_bound; lia]).
    rewrite IH; [cbn [foldl]; rewrite Hd; f_equal; lia|done|]. destruct fuel; [cbn in Hq; lia|lia].
Qed.

Lemma digits_are_digits fuel n acc :
  forallb is_digit (digits fuel 10 n acc) = forallb is_digit acc.
Proof.
  revert n acc. induction fuel as [|fuel IH]; intros n acc; [done|]. cbn [digits]. cbv zeta.
  assert (is_digit (digit (n mod 10)) = true) as Hd.
  { unfold is_digit, digit. pose proof (Z.mod_pos_bound n 10). replace (n mod 10 <? 10) with true by lia. lia. }
  destruct (n / 10 =? 0); [|rewrite IH]; cbn [forallb]; by rewrite Hd.
Qed.

Lemma digits_nonempty fuel n acc : (fuel > 0)%nat \/ acc <> [] -> digits fuel 10 n acc <> [].
Proof.
  revert n acc. induction fuel as [|fuel IH]; intros n acc H; cbn [digits]; [destruct H; [lia|done]|].
  cbv zeta. destruct (n / 10 =? 0); [done|]. apply IH. by right.
Qed.

Lemma no_digit_in s b : forallb is_digit s = true -> is_digit b = false -> has s b = false.
Proof.
  intros Hs Hb. apply not_true_iff_false. unfold has. rewrite existsb_exists. intros (c & Hc & <-%Z.eqb_eq).
  rewrite forallb_forall in Hs. rewrite Hs in Hb; done.
Qed.

(** Decimal text: digits only, and read back by [Atoi]. *)
Lemma Itoa_digits n : Itoa n <> [] /\ forallb is_digit (Itoa n) = true.
Proof. split; [apply digits_nonempty; lia|apply digits_are_digits]. Qed.

Lemma Atoi_Itoa n : 0 <= n < 2 ^ 63 -> Atoi (Itoa n) = Some n.
Proof.
  intros Hn. pose proof (digits_value 20 n [] ltac:(lia) ltac:(lia)) as Hval.
  destruct (Itoa_digits n) as [Hne Hdig]. unfold Itoa in *. set (s := digits 20 10 n []) in *. clearbody s.
  unfold Atoi. destruct s as [|b s]; [done|].
  assert (is_digit b = true) as Hb by (cbn [forallb] in Hdig; by apply andb_true_iff in Hdig as [? _]).
  unfold is_digit in Hb. replace (b =? 45) with false by lia. replace (b =? 43) with false by lia.
  rewrite Hdig. cbn [nonempty andb forallb]. rewrite Hval. cbn [foldl].
  replace ((- 2 ^ 63 <=? 1 * n) && (1 * n <? 2 ^ 63)) with true by lia. f_equal. lia.
Qed.

Lemma Itoa_port n :
  0 <= n < 65536 ->
  Atoi (Itoa n) = Some n /\ has (Itoa n) COLON = false /\ has (Itoa n) LBRACKET = false /\ has (Itoa n) RBRACKET = false.
Proof.
  intros Hn. destruct (Itoa_digits n) as [_ Hdig].
  split_and!; [apply Atoi_Itoa; lia|by apply no_digit_in..].
Qed.

(** The text of an address: no brackets, and no colon or at least two. *)
Definition host_text (ip : gostring) : Prop :=
  ip <> [] /\ has ip LBRACKET = false /\ has ip RBRACKET = false /\
  (has ip COLON = false \/ exists a b, ip = a ++ COLON :: b /\ has a COLON = true /\ has b COLON = false).

Lemma connect_target_roundtrip ip port :
  host_text ip -> 0 <= port < 65536 -> splitConnectTarget (FormatConnectTarget ip port) = (ip, port).
Proof.
  intros (Hne & Hlb & Hrb & Hcol) Hport. unfold splitConnectTarget, FormatConnectTarget.
  assert (streq ip [] = false) as -> by (apply not_true_iff_false; by rewrite streq_spec).
  destruct ip as [|c ip]; [done|].
  assert ((c =? LBRACKET) = false) as Hc.
  { unfold has in Hlb. cbn [existsb] in Hlb. apply orb_false_iff in Hlb as [Hlb _]. by rewrite Z.eqb_sym. }
  destruct (Z.eqb_spec port 0) as [-> |Hp0].
  { assert (SplitHostPort (c :: ip) = None) as ->; [|done]. unfold SplitHostPort.
    destruct Hcol as [Hcol|(a & b & Heq & Ha & Hb)]; [by rewrite cut_last_none|].
    rewrite Heq at 1. rewrite cut_last_app by done. cbn [mbind option_bind]. by rewrite Hc, Ha. }
  destruct (Itoa_port port Hport) as (Hat & Hd1 & Hd2 & Hd3).
  assert (SplitHostPort (JoinHostPort (c :: ip) (Itoa port)) = Some (c :: ip, Itoa port)) as ->.
  { unfold JoinHostPort, SplitHostPort. destruct Hcol as [Hcol|(a & b & Heq & Ha & Hb)].
    - rewrite Hcol, cut_last_app by done. cbn [mbind option_bind app]. rewrite Hc, Hcol.
      rewrite app_comm_cons, !has_app, Hlb, Hrb. unfold has at 1 2. cbn [existsb].
      change (existsb (Z.eqb LBRACKET) (Itoa port)) with (has (Itoa port) LBRACKET).
      change (existsb (Z.eqb RBRACKET) (Itoa port)) with (has (Itoa port) RBRACKET). by rewrite Hd2, Hd3.
    - assert (has (c :: ip) COLON = true) as -> by by rewrite Heq, has_app, Ha.
      change (LBRACKET :: (c :: ip) ++ RBRACKET :: COLON :: Itoa port)
        with ((LBRACKET :: c :: ip) ++ [RBRACKET] ++ COLON :: Itoa port).
      rewrite app_assoc, cut_last_app by done. cbn [mbind option_bind]. rewrite <- app_assoc. cbn [app].
      change (LBRACKET =? LBRACKET) with true. cbn iota.
      rewrite app_comm_cons, Cut_byte by done. cbn [mbind option_bind].
      by rewrite streq_refl, Hlb, Hd2, Hd3. }
  rewrite Hat. replace ((port <? 0) || (65535 <? port)) with false by lia.
  f_equal. unfold u16. apply Z.mod_small. lia.
Qed.

