(* ===== verification/Base64.v ===== *)
(** * Base64: the encoding of signature files

    [base64.StdEncoding] of Go's encoding/base64, which [internal/policy/sign.go]
    uses: padded, carriage returns and line feeds ignored, unused bits of the last
    character not checked.  Decoding undoes encoding, also when the text was broken
    into lines ([decode_wrapped]). *)

From Stdlib Require Import String.
From S2P Require Import Prelude Policy.

#[local] Open Scope list_scope.
#[local] Open Scope Z_scope.

Definition alphabet : gostring :=
  bytes_of "ABCDEFGHIJKLMNOPQRSTUVWXYZabcdefghijklmnopqrstuvwxyz0123456789+/".
Definition PAD : Z := 61.

Definition encode6 (i : Z) : Z := default PAD (alphabet !! Z.to_nat i).
Definition decode6 (b : Z) : option Z := Z.of_nat <$> (fst <$> list_find (eq b) alphabet).

(** Three bytes as four characters. *)
Fixpoint EncodeToString (l : list Z) : gostring :=
  match l with
  | [] => []
  | [a] => [encode6 (a / 4); encode6 (a mod 4 * 16); PAD; PAD]
  | [a; b] => [encode6 (a / 4); encode6 (a mod 4 * 16 + b / 16); encode6 (b mod 16 * 4); PAD]
  | a :: b :: c :: l =>
      encode6 (a / 4) :: encode6 (a mod 4 * 16 + b / 16) :: encode6 (b mod 16 * 4 + c / 64) :: encode6 (c mod 64)
        :: EncodeToString l
  end.

(** Padding ends the text. *)
Fixpoint decode_quanta (s : gostring) : option (list Z) :=
  match s with
  | [] => Some []
  | a :: b :: c :: d :: s =>
      x ← decode6 a;
      y ← decode6 b;
      if c =? PAD then
        if (d =? PAD) && streq s [] then Some [u8 (x * 4 + y / 16)] else None
      else
      z ← decode6 c;
      if d =? PAD then
        if streq s [] then Some [u8 (x * 4 + y / 16); u8 (y * 16 + z / 4)] else None
      else
      w ← decode6 d;
      rest ← decode_quanta s;
      Some (u8 (x * 4 + y / 16) :: u8 (y * 16 + z / 4) :: u8 (z * 64 + w) :: rest)
  | _ => None
  end.

Definition line_break (b : Z) : bool := (b =? 10) || (b =? 13).

Definition DecodeString (s : gostring) : option (list Z) :=
  decode_quanta (filter (fun b => line_break b = false) s).

Example rfc_vectors :
  EncodeToString <$> (bytes_of <$> [""; "f"; "fo"; "foo"; "foob"; "fooba"; "foobar"]%string)
    = bytes_of <$> [""; "Zg=="; "Zm8="; "Zm9v"; "Zm9vYg=="; "Zm9vYmE="; "Zm9vYmFy"]%string.
Proof. vm_compute. reflexivity. Qed.

Example decoded_texts :
  (DecodeString <$> (bytes_of <$> ["Zg=="; "Zh=="; "Zg"; "Zg="; "Zg==Zg=="; "Z g="; "=Zg="]%string))
    = [Some (bytes_of "f"); Some (bytes_of "f"); None; None; None; None; None].
Proof. vm_compute. reflexivity. Qed.

(** ** Decoding undoes encoding *)

Lemma encode6_spec i : 0 <= i < 64 ->
  decode6 (encode6 i) = Some i /\ encode6 i <> PAD /\ line_break (encode6 i) = false.
Proof.
  intros Hi.
  assert (Forall (fun i => decode6 (encode6 i) = Some i /\ encode6 i <> PAD /\ line_break (encode6 i) = false)
            (Z.of_nat <$> seq 0 64)) as H by (apply (bool_decide_unpack _); vm_compute; exact I).
  rewrite Forall_forall in H. apply H. apply list_elem_of_fmap. exists (Z.to_nat i). rewrite elem_of_seq. lia.
Qed.

Ltac six_bits :=
  repeat match goal with
  | |- context [decode6 (encode6 ?i)] => rewrite (proj1 (encode6_spec i ltac:(Z.to_euclidean_division_equations; lia)))
  | |- context [encode6 ?i =? PAD] =>
      rewrite (proj2 (Z.eqb_neq (encode6 i) PAD))
        by (apply (encode6_spec i); Z.to_euclidean_division_equations; lia)
  end; cbn [mbind option_bind].

Lemma list_ind3 {A} (P : list A -> Prop) :
  P [] -> (forall a, P [a]) -> (forall a b, P [a; b]) -> (forall a b c l, P l -> P (a :: b :: c :: l)) ->
  forall l, P l.
Proof.
  intros H0 H1 H2 H3. fix IH 1. intros [|a [|b [|c l]]]; [done|apply H1|apply H2|apply H3, IH].
Qed.

Lemma decode_quanta_encode l : Forall is_byte l -> decode_quanta (EncodeToString l) = Some l.
Proof.
  induction l as [|a|a b|a b c l IH] using list_ind3; unfold is_byte; [done|..];
    rewrite ?Forall_cons; intros Hl; cbn [EncodeToString decode_quanta]; unfold u8.
  - six_bits. rewrite Z.eqb_refl. cbn. do 2 f_equal. Z.to_euclidean_division_equations; lia.
  - six_bits. rewrite Z.eqb_refl. cbn. f_equal. f_equal; [|f_equal]; Z.to_euclidean_division_equations; lia.
  - six_bits. rewrite IH by (unfold is_byte; tauto). cbn. f_equal.
    f_equal; [|f_equal; [|f_equal]]; Z.to_euclidean_division_equations; lia.
Qed.

Lemma encoded_no_breaks l : Forall is_byte l -> Forall (fun b => line_break b = false) (EncodeToString l).
Proof.
  induction l as [|a|a b|a b c l IH] using list_ind3; unfold is_byte; [constructor|..];
    rewrite ?Forall_cons; intros Hl; cbn [EncodeToString];
    repeat (apply Forall_cons; split; [first [done|apply encode6_spec; Z.to_euclidean_division_equations; lia]|]);
    try apply Forall_nil; try done.
  apply IH. unfold is_byte. tauto.
Qed.

Lemma filter_all {A} (P : A -> Prop) `{!forall x, base.Decision (P x)} l : Forall P l -> filter P l = l.
Proof. induction 1 as [|x l Hx _ IH]; [done|]. by rewrite filter_cons_True, IH. Qed.

(** Line breaks may have been put anywhere in the text. *)
Lemma decode_wrapped l text :
  Forall is_byte l -> filter (fun b => line_break b = false) text = EncodeToString l -> DecodeString text = Some l.
Proof. intros Hl Ht. unfold DecodeString. rewrite Ht. by apply decode_quanta_encode. Qed.

Lemma decode_line_end l : Forall is_byte l -> DecodeString (EncodeToString l ++ [10]) = Some l.
Proof.
  intros Hl. apply decode_wrapped; [done|]. rewrite filter_app, filter_cons_False by done.
  rewrite filter_nil, app_nil_r. by apply filter_all, encoded_no_breaks.
Qed.
