(* ===== verification/Store.v ===== *)
(** * Store: policy versions on disk

    [internal/policy/store.go].  The interface [VersionStore] with the laws its
    clients use ([VersionStoreLaws]), and the file store that implements it: files by
    their role, their contents bytes, JSON through a codec that is a parameter.  A
    write may fail and leave anything in its file. *)

From stdpp Require Import strings gmap sorting.
From Stdlib Require Import String Sorted.
From S2P Require Import Prelude Policy Text.

#[local] Open Scope list_scope.
#[local] Open Scope Z_scope.

Record VersionMeta := mk_meta {
  m_Version : Z;
  m_SignedBy : gostring;
  m_AgentScope : gostring;
  LoadedAt : Z;                       (* 0 is the zero time *)
  BundleSHA256 : gostring;
  Verified : bool;
  m_State : gostring
}.

Record StoredVersion := mk_stored {
  Meta : VersionMeta;
  Bundle : list Z;
  Sig : list Z;
  Compiled : option CompiledPolicy
}.

(** ** The interface *)

(** [Put] is given the time; operations that write return whether they succeeded. *)
Class VersionStore (S : Type) := {
  Put : Z -> VersionMeta -> list Z -> list Z -> option CompiledPolicy -> S -> bool * S;
  Get : Z -> S -> option StoredVersion;
  ListVersions : S -> option (list VersionMeta);
  Current : S -> option Z;
  SetCurrent : Z -> S -> bool * S
}.

Class VersionStoreLaws (S : Type) `{VersionStore S} : Prop := {
  put_get now meta b sg cp s s' :
    Put now meta b sg cp s = (true, s') ->
    exists st, Get (m_Version meta) s' = Some st /\ Bundle st = b /\ Sig st = sg /\
      m_Version (Meta st) = m_Version meta /\ m_State (Meta st) = m_State meta;
  put_other now meta b sg cp s v :
    v <> m_Version meta -> Get v (Put now meta b sg cp s).2 = Get v s;
  put_current now meta b sg cp s : Current (Put now meta b sg cp s).2 = Current s;
  set_current v s s' :
    SetCurrent v s = (true, s') -> 0 <= v < 2 ^ 63 -> Current s' = Some v /\ (0 < v -> is_Some (Get v s));
  set_current_get v s w : Get w (SetCurrent v s).2 = Get w s
}.

(** ** The file store *)

Inductive store_file :=
  | MetaFile (v : Z) | BundleFile (v : Z) | SigFile (v : Z) | CompiledFile (v : Z)
  | ManifestFile | CurrentFile.

#[global] Instance store_file_eq_dec : EqDecision store_file.
Proof. solve_decision. Defined.

#[global] Instance store_file_countable : Countable store_file.
Proof.
  refine (inj_countable'
    (fun f => match f with MetaFile v => (0, v) | BundleFile v => (1, v) | SigFile v => (2, v) | CompiledFile v => (3, v)
                         | ManifestFile => (4, 0) | CurrentFile => (5, 0) end)
    (fun x => if x.1 =? 0 then MetaFile x.2 else if x.1 =? 1 then BundleFile x.2 else if x.1 =? 2 then SigFile x.2 else
              if x.1 =? 3 then CompiledFile x.2 else if x.1 =? 4 then ManifestFile else CurrentFile) _).
  by intros [].
Defined.

Abbreviation files := (gmap store_file (list Z)).

(** [encoding/json] on the three types stored. *)
Record codec := mk_codec {
  meta_json : VersionMeta -> list Z;
  parse_meta : list Z -> option VersionMeta;
  list_json : list VersionMeta -> list Z;
  parse_list : list Z -> option (list VersionMeta);
  policy_json : CompiledPolicy -> list Z;
  parse_policy : list Z -> option CompiledPolicy
}.

(** What is written reads back. *)
Class CodecOk (C : codec) : Prop := {
  meta_roundtrip m : parse_meta C (meta_json C m) = Some m;
  list_roundtrip l : parse_list C (list_json C l) = Some l
}.

(** [fmt.Sscanf] with [%d]: blanks, a sign, digits. *)
Fixpoint skip_blanks (s : gostring) : gostring :=
  match s with b :: s' => if (b =? 32) || (b =? 9) then skip_blanks s' else s | [] => [] end.
Fixpoint take_digits (s : gostring) : gostring :=
  match s with b :: s => if is_digit b then b :: take_digits s else [] | [] => [] end.
Definition Sscanf_d (s : gostring) : option Z :=
  match skip_blanks s with
  | b :: d => if (b =? 45) || (b =? 43) then Atoi (b :: take_digits d) else Atoi (take_digits (b :: d))
  | [] => None
  end.

Section file_store.
Context (C : codec).
(** What a write that fails leaves of the file, if anything ([None]: the write succeeds). *)
Context (torn : files -> store_file -> list Z -> option (option (list Z))).
(** [hex.EncodeToString (sha256.Sum256 (b))]. *)
Context (sha256_hex : list Z -> gostring).

Definition WriteFile (f : store_file) (data : list Z) (s : files) : bool * files :=
  match torn s f data with
  | None => (true, <[f := data]> s)
  | Some rest => (false, partial_alter (fun _ => rest) f s)
  end.

(** The next step, unless the last one failed. *)
Definition then_ (r : bool * files) (k : files -> bool * files) : bool * files :=
  if r.1 then k r.2 else r.

Definition file_List (s : files) : option (list VersionMeta) :=
  match s !! ManifestFile with None => Some [] | Some data => parse_list C data end.

(** The first entry of the version is replaced, or the entry is appended. *)
Fixpoint replace_meta (meta : VersionMeta) (l : list VersionMeta) : option (list VersionMeta) :=
  match l with
  | [] => None
  | m :: l => if m_Version m =? m_Version meta then Some (meta :: l) else (cons m) <$> replace_meta meta l
  end.

Definition by_version (a b : VersionMeta) : Prop := m_Version a <= m_Version b.

#[global] Instance by_version_dec : RelDecision by_version.
Proof. intros a b. unfold by_version. apply _. Defined.

Definition updated (meta : VersionMeta) (l : list VersionMeta) : list VersionMeta :=
  merge_sort by_version (default (l ++ [meta]) (replace_meta meta l)).

Definition updateManifest (meta : VersionMeta) (s : files) : bool * files :=
  match file_List s with
  | None => (false, s)
  | Some l => WriteFile ManifestFile (list_json C (updated meta l)) s
  end.

Definition filled (now : Z) (meta : VersionMeta) (bundle : list Z) : VersionMeta :=
  mk_meta (m_Version meta) (m_SignedBy meta) (m_AgentScope meta)
    (if LoadedAt meta =? 0 then now else LoadedAt meta)
    (if streq (BundleSHA256 meta) [] then sha256_hex bundle else BundleSHA256 meta)
    (Verified meta) (m_State meta).

Definition file_Put (now : Z) (meta : VersionMeta) (bundle sig : list Z) (compiled : option CompiledPolicy)
    (s : files) : bool * files :=
  let v := m_Version meta in
  let meta := filled now meta bundle in
  then_ (WriteFile (BundleFile v) bundle s) (fun s =>
  then_ (WriteFile (SigFile v) sig s) (fun s =>
  then_ (WriteFile (MetaFile v) (meta_json C meta) s) (fun s =>
  then_ (match compiled with
         | Some cp => WriteFile (CompiledFile v) (policy_json C cp) s
         | None => (true, s)
         end)
  (updateManifest meta)))).

Definition file_Get (v : Z) (s : files) : option StoredVersion :=
  data ← s !! MetaFile v;
  meta ← parse_meta C data;
  bundle ← s !! BundleFile v;
  sig ← s !! SigFile v;
  Some (mk_stored meta bundle sig (s !! CompiledFile v ≫= parse_policy C)).

Definition file_Current (s : files) : option Z :=
  match s !! CurrentFile with None => Some 0 | Some data => Sscanf_d data end.

Definition Dec (n : Z) : gostring := if n <? 0 then 45 :: Itoa (- n) else Itoa n.

Definition file_SetCurrent (v : Z) (s : files) : bool * files :=
  if (0 <? v) && negb (bool_decide (is_Some (file_Get v s))) then (false, s)
  else WriteFile CurrentFile (Dec v ++ [10]) s.

Definition fileStore : VersionStore files := {|
  Put := file_Put; Get := file_Get; ListVersions := file_List; Current := file_Current; SetCurrent := file_SetCurrent
|}.

(** *** The file store has the laws *)

Lemma WriteFile_other f g data s : f <> g -> (WriteFile f data s).2 !! g = s !! g.
Proof. intros Hfg. unfold WriteFile. destruct (torn s f data); cbn [snd]; [by rewrite lookup_partial_alter_ne|by rewrite lookup_insert_ne]. Qed.

Lemma then_other r k f x :
  r.2 !! f = x -> (forall s : files, s !! f = x -> (k s).2 !! f = x) -> (then_ r k).2 !! f = x.
Proof. intros Hr Hk. unfold then_. destruct r.1; auto. Qed.

Lemma updateManifest_other meta s f : f <> ManifestFile -> (updateManifest meta s).2 !! f = s !! f.
Proof. intros Hf. unfold updateManifest. destruct (file_List s); [|done]. by apply WriteFile_other. Qed.

(** A put writes the files of its version and the manifest. *)
Lemma Put_other now meta b sg cp s f :
  f <> BundleFile (m_Version meta) -> f <> SigFile (m_Version meta) -> f <> MetaFile (m_Version meta) ->
  f <> CompiledFile (m_Version meta) -> f <> ManifestFile ->
  (file_Put now meta b sg cp s).2 !! f = s !! f.
Proof.
  intros H1 H2 H3 H4 H5. unfold file_Put. cbv zeta.
  repeat (apply then_other; [try (rewrite WriteFile_other by congruence; done)|intros ? <-]).
  - destruct cp; [by rewrite WriteFile_other by congruence|done].
  - by rewrite updateManifest_other.
Qed.

Lemma then_true r k s' : then_ r k = (true, s') -> r.1 = true /\ k r.2 = (true, s').
Proof. unfold then_. destruct r as [[] s]; [done|]. intros [= ]. Qed.

Lemma WriteFile_true f data s : (WriteFile f data s).1 = true -> (WriteFile f data s).2 = <[f := data]> s.
Proof. unfold WriteFile. by destruct (torn s f data). Qed.

(** A put that succeeds has written its bundle, signature and metadata. *)
Lemma Put_true now meta b sg cp s s' :
  file_Put now meta b sg cp s = (true, s') ->
  exists s0 l, s' = <[ManifestFile := list_json C (updated (filled now meta b) l)]> s0 /\
    file_List s = Some l /\
    s0 !! BundleFile (m_Version meta) = Some b /\ s0 !! SigFile (m_Version meta) = Some sg /\
    s0 !! MetaFile (m_Version meta) = Some (meta_json C (filled now meta b)).
Proof.
  unfold file_Put. cbv zeta. set (v := m_Version meta).
  intros (Hb & (Hs & (Hm & (Hc & Hman)%then_true)%then_true)%then_true)%then_true.
  apply WriteFile_true in Hb, Hs, Hm. rewrite Hm, Hs, Hb in *. clear Hb Hs Hm.
  set (s3 := <[MetaFile v := _]> _) in *.
  assert (exists s0, (match cp with Some cp => WriteFile (CompiledFile v) (policy_json C cp) s3 | None => (true, s3) end).2 = s0 /\
    forall f, f <> CompiledFile v -> s0 !! f = s3 !! f) as (s0 & Hs0 & Hoth).
  { destruct cp as [cp|]; eexists; (split; [reflexivity|]); [|done]. intros f Hf. by apply WriteFile_other. }
  rewrite Hs0 in Hman. unfold updateManifest in Hman.
  assert (file_List s0 = file_List s) as Hl.
  { unfold file_List. rewrite Hoth by done. subst s3. by rewrite !lookup_insert_ne by done. }
  rewrite Hl in Hman. destruct (file_List s) as [l|]; [|done].
  pose proof (WriteFile_true ManifestFile (list_json C (updated (filled now meta b) l)) s0) as Hw.
  rewrite Hman in Hw. specialize (Hw eq_refl). cbn [snd] in Hw. exists s0, l.
  rewrite !Hoth by done. subst s3. split_and!; [done|done|..].
  - by rewrite !lookup_insert_ne, lookup_insert_eq by done.
  - by rewrite lookup_insert_ne, lookup_insert_eq by done.
  - by rewrite lookup_insert_eq.
Qed.

Lemma take_digits_all s r : forallb is_digit s = true -> take_digits (s ++ 10 :: r) = s.
Proof.
  induction s as [|b s IH]; cbn [forallb app take_digits]; [done|].
  intros [Hb Hs]%andb_true_iff. by rewrite Hb, IH.
Qed.

Lemma Dec_roundtrip v : 0 <= v < 2 ^ 63 -> Sscanf_d (Dec v ++ [10]) = Some v.
Proof.
  intros Hv. unfold Dec. replace (v <? 0) with false by lia.
  destruct (Itoa_digits v) as [Hne Hdig]. rewrite <- (Atoi_Itoa v Hv).
  unfold Sscanf_d. destruct (Itoa v) as [|b s]; [done|].
  assert (is_digit b = true) as Hb by (cbn [forallb] in Hdig; by apply andb_true_iff in Hdig as [? _]).
  unfold is_digit in Hb. cbn [app skip_blanks].
  replace ((b =? 32) || (b =? 9)) with false by lia. replace ((b =? 45) || (b =? 43)) with false by lia.
  by rewrite app_comm_cons, take_digits_all.
Qed.

#[export] Instance fileStore_laws `{!CodecOk C} : @VersionStoreLaws files fileStore.
Proof.
  split; cbn [Put Get Current SetCurrent fileStore].
  - intros now meta b sg cp s s' (s0 & l & -> & _ & Hb & Hs & Hm)%Put_true.
    unfold file_Get. rewrite !lookup_insert_ne by done. rewrite Hm, Hb, Hs. cbn [mbind option_bind].
    rewrite meta_roundtrip. cbn [mbind option_bind]. by eexists.
  - intros now meta b sg cp s v Hv. unfold file_Get.
    rewrite !Put_other by (intros [= ?]; done). done.
  - intros now meta b sg cp s. unfold file_Current. by rewrite Put_other.
  - intros v s s'. unfold file_SetCurrent. destruct (_ && _) eqn:Hc; [done|]. intros Hw Hv.
    pose proof (WriteFile_true CurrentFile (Dec v ++ [10]) s) as Ht. rewrite Hw in Ht. specialize (Ht eq_refl).
    cbn [snd] in Ht. subst s'. split.
    + unfold file_Current. rewrite lookup_insert_eq. by apply Dec_roundtrip.
    + intros Hpos. replace (0 <? v) with true in Hc by lia. cbn [andb] in Hc.
      by apply negb_false_iff, bool_decide_eq_true in Hc.
  - intros v s w. unfold file_SetCurrent. destruct (_ && _); [done|]. unfold file_Get.
    by rewrite !WriteFile_other by done.
Qed.

(** *** The manifest *)

(** Versions in ascending order, each once. *)
Definition manifest_sorted (l : list VersionMeta) : Prop := StronglySorted Z.lt (m_Version <$> l).

Lemma replace_meta_spec meta l :
  NoDup (m_Version <$> l) ->
  match replace_meta meta l with
  | Some l' => m_Version <$> l' = m_Version <$> l /\
               forall m, m ∈ l' <-> m = meta \/ (m ∈ l /\ m_Version m <> m_Version meta)
  | None => m_Version meta ∉ (m_Version <$> l)
  end.
Proof.
  induction l as [|a l IH]; cbn [replace_meta]; [set_solver|]. rewrite fmap_cons, NoDup_cons. intros [Ha Hnd].
  destruct (Z.eqb_spec (m_Version a) (m_Version meta)) as [He|Hne].
  - rewrite fmap_cons, He. split; [done|]. intros m. rewrite !elem_of_cons. split.
    + intros [-> |Hm]; [by left|right]. split; [by right|]. intros Heq. apply Ha. rewrite He, <- Heq.
      by apply list_elem_of_fmap_2.
    + intros [-> |[[-> |Hm] Hv]]; [by left|done|by right].
  - specialize (IH Hnd). destruct (replace_meta meta l) as [l'|]; cbn [fmap option_fmap option_map].
    + destruct IH as [Hv Hm]. rewrite !fmap_cons, Hv. split; [done|]. intros m. rewrite !elem_of_cons, Hm. naive_solver.
    + rewrite elem_of_cons. naive_solver.
Qed.

#[local] Instance by_version_trans : Transitive by_version.
Proof. intros a b c. unfold by_version. lia. Qed.
#[local] Instance by_version_total : Total by_version.
Proof. intros a b. unfold by_version. lia. Qed.

Lemma StronglySorted_lt_NoDup l : StronglySorted Z.lt l -> NoDup l.
Proof.
  induction 1 as [|x l _ IH Hx]; [constructor|]. constructor; [|done]. intros Hin.
  rewrite Forall_forall in Hx. specialize (Hx x Hin). lia.
Qed.

Lemma sorted_strictly l : StronglySorted by_version l -> NoDup (m_Version <$> l) -> manifest_sorted l.
Proof.
  unfold manifest_sorted. induction 1 as [|x l _ IH Hx]; [constructor|]. rewrite fmap_cons, NoDup_cons. intros [Hn Hnd].
  constructor; [by apply IH|]. rewrite Forall_forall in Hx. rewrite Forall_forall. intros v (m & -> & Hm)%list_elem_of_fmap.
  specialize (Hx m Hm). unfold by_version in Hx.
  assert (m_Version x <> m_Version m); [|lia]. intros He. apply Hn. rewrite He. by apply list_elem_of_fmap_2.
Qed.

(** A put keeps the manifest in order: its version's entry is the new one, the others
    stay. *)
Lemma updated_spec meta l :
  manifest_sorted l ->
  manifest_sorted (updated meta l) /\
  forall m, m ∈ updated meta l <-> m = meta \/ (m ∈ l /\ m_Version m <> m_Version meta).
Proof.
  intros Hs. apply StronglySorted_lt_NoDup in Hs as Hnd. unfold updated.
  set (l0 := default _ _).
  assert (NoDup (m_Version <$> l0) /\ forall m, m ∈ l0 <-> m = meta \/ (m ∈ l /\ m_Version m <> m_Version meta)) as [Hnd0 Hm0].
  { pose proof (replace_meta_spec meta l Hnd) as Hr. subst l0.
    destruct (replace_meta meta l) as [l'|]; cbn [from_option].
    - destruct Hr as [Hv Hm]. change (id l') with l'. by rewrite Hv.
    - rewrite fmap_app. split.
      + apply NoDup_app. split_and!; [done| |apply NoDup_singleton]. cbn. set_solver.
      + intros m. rewrite elem_of_app, list_elem_of_singleton. split; [|tauto]. intros [Hm|Hm]; [right|by left].
        split; [done|]. intros He. apply Hr. rewrite <- He. by apply list_elem_of_fmap_2. }
  split.
  - apply sorted_strictly; [apply StronglySorted_merge_sort; apply _|]. by rewrite merge_sort_Permutation.
  - intros m. by rewrite merge_sort_Permutation.
Qed.

(** C28. Storing a version keeps the store's manifest well formed: sorted by version
    without duplicates, with the entry of the version stored and otherwise the
    entries it had. *)
Theorem put_manifest `{!CodecOk C} now meta b sg cp s s' l :
  file_List s = Some l -> manifest_sorted l -> file_Put now meta b sg cp s = (true, s') ->
  exists l', file_List s' = Some l' /\ manifest_sorted l' /\
    forall m, m ∈ l' <-> m = filled now meta b \/ (m ∈ l /\ m_Version m <> m_Version meta).
Proof.
  intros Hl Hs (s0 & l0 & -> & Hl0 & _)%Put_true. rewrite Hl in Hl0. injection Hl0 as <-.
  exists (updated (filled now meta b) l). unfold file_List. rewrite lookup_insert_eq, list_roundtrip.
  split; [done|]. exact (updated_spec (filled now meta b) l Hs).
Qed.
End file_store.
