(* ===== verification/Lifecycle.v ===== *)
(** * Lifecycle: from a signed bundle to the policy in force

    [internal/policy/current.go], [loader.go], [holder.go], [promote.go] and the
    policy part of [cmd/agent/main.go].  The clients of the store are proved against
    its interface [VersionStore]; signatures, YAML and addresses are parameters.
    Whatever the store holds, the agent holds and enforces policies compiled from
    bundles its key verifies ([only_signed_policies]). *)

From stdpp Require Import strings gmap.
From Stdlib Require Import String.
From S2P Require Import Prelude Types Bpf State Logic Gate Policy MapLoad LoadFacts Compile Store.

#[local] Open Scope list_scope.
#[local] Open Scope Z_scope.

Section lifecycle.
Context {S : Type} `{!VersionStore S}.
(** [yaml.UnmarshalStrict] into the document, [yaml.Marshal] of one. *)
Context (yaml_unmarshal : list Z -> option bundle.Bundle) (yaml_marshal : bundle.Bundle -> list Z).
Context (ParseCIDR : gostring -> option (list Z * Z)) (ParseIP : gostring -> option (list Z)).
(** [ed25519.Verify] with the key, on a message and a signature; SHA-256 in hex. *)
Context (ed25519_Verify : list Z -> list Z -> bool) (sha256_hex : list Z -> gostring).

Definition Parse (data : list Z) : option bundle.Bundle := yaml_unmarshal data ≫= validate ParseCIDR ParseIP.

Definition Verify (bundle sig : list Z) : option () := if ed25519_Verify bundle sig then Some () else None.

Definition LoadCurrent (s : S) : option (CompiledPolicy * VersionMeta) :=
  ver ← Current s;
  if ver =? 0 then None else
  stored ← Get ver s;
  _ ← Verify (Bundle stored) (Sig stored);
  b ← Parse (Bundle stored);
  compiled ← Compile ParseCIDR ParseIP b;
  Some (compiled, Meta stored).

Record LoadResult := mk_load_result {
  lr_Bundle : bundle.Bundle;
  lr_Compiled : CompiledPolicy;
  lr_Meta : VersionMeta
}.

(** [Loader.Load] on what the source fetched. *)
Definition Load (now : Z) (fetched : option (list Z * list Z)) (s : S) : option LoadResult * S :=
  match (f ← fetched;
         _ ← Verify f.1 f.2;
         b ← Parse f.1;
         compiled ← Compile ParseCIDR ParseIP b;
         Some (f, b, compiled)) with
  | None => (None, s)
  | Some (f, b, compiled) =>
      let meta := mk_meta (bundle.Version b) (bundle.SignedBy b) (bundle.AgentScope b) 0 (sha256_hex f.1) true
                    StateEnforced in
      let '(ok, s) := Put now meta f.1 f.2 (Some compiled) s in
      if negb ok then (None, s) else
      let '(ok, s) := SetCurrent (bundle.Version b) s in
      if negb ok then (None, s) else (Some (mk_load_result b compiled meta), s)
  end.

Definition Rollback (now ver : Z) (s : S) : bool * S :=
  match Get ver s with
  | None => (false, s)
  | Some stored =>
      let '(ok, s) := SetCurrent ver s in
      if negb ok then (false, s) else
      let m := Meta stored in
      let m := mk_meta (m_Version m) (m_SignedBy m) (m_AgentScope m) (LoadedAt m) (BundleSHA256 m) (Verified m)
                 StateRollback in
      Put now m (Bundle stored) (Sig stored) (Compiled stored) s
  end.

(** ** Promotion (promote.go) *)

(** The first rule with the id gets the state. *)
Fixpoint set_rule_state (ruleID state : gostring) (rs : list bundle.Rule) : option (list bundle.Rule) :=
  match rs with
  | [] => None
  | r :: rs =>
      if streq (bundle.ID r) ruleID
      then Some (bundle.mk_rule (bundle.ID r) (bundle.Rationale r) (bundle.rule_match r) (bundle.Decision r) state :: rs)
      else (cons r) <$> set_rule_state ruleID state rs
  end.

(** The promoted bundle; the caller writes it to the file it came from. *)
Definition promoted (data : list Z) (ruleID : gostring) (bump : bool) (newState : gostring) : option bundle.Bundle :=
  let newState := if streq newState [] then StateEnforced else newState in
  if negb (one_of newState [StateShadow; StateEnforced; StateDraft; StateRetired]) then None else
  b ← Parse data;
  rules ← set_rule_state ruleID newState (bundle.Rules b);
  let b := bundle.mk_bundle (if bump then bundle.Version b + 1 else bundle.Version b) (bundle.AgentScope b)
             (bundle.SignedBy b) (bundle.DefaultAction b) (bundle.FailDirection b) rules in
  _ ← Compile ParseCIDR ParseIP b;
  Some b.

Definition PromoteRule (data : list Z) (ruleID : gostring) (bump : bool) (newState : gostring) : option (list Z) :=
  b ← promoted data ruleID bump newState;
  Some (bytes_of "# Updated by policyctl promote; re-sign before load." ++ [10] ++ yaml_marshal b).

(** ** Loading and rolling back *)

(** A policy compiled from a bundle the key verifies. *)
Definition signed (cp : CompiledPolicy) : Prop :=
  exists data sig b, ed25519_Verify data sig = true /\ Parse data = Some b /\ Compile ParseCIDR ParseIP b = Some cp.

Lemma LoadCurrent_signed s cp meta : LoadCurrent s = Some (cp, meta) -> signed cp.
Proof.
  unfold LoadCurrent. intros (ver & _ & H)%bind_Some. destruct (ver =? 0); [done|].
  apply bind_Some in H as (st & _ & H). apply bind_Some in H as ([] & Hv & H).
  apply bind_Some in H as (b & Hb & H). apply bind_Some in H as (cp' & Hc & [= <- <-]).
  exists (Bundle st), (Sig st), b. split_and!; [|done..]. unfold Verify in Hv. by destruct (ed25519_Verify _ _).
Qed.

Lemma Parse_version data b : Parse data = Some b -> 0 < bundle.Version b.
Proof.
  unfold Parse. intros (b0 & _ & H)%bind_Some. unfold validate in H. destruct (_ && _) eqn:Hv; [|done].
  injection H as <-. cbn. rewrite !andb_true_iff in Hv. destruct Hv as ((((Hv & _) & _) & _) & _). lia.
Qed.

Context `{!VersionStoreLaws S}.

Lemma LoadCurrent_stored s ver st b cp :
  Current s = Some ver -> ver <> 0 -> Get ver s = Some st -> ed25519_Verify (Bundle st) (Sig st) = true ->
  Parse (Bundle st) = Some b -> Compile ParseCIDR ParseIP b = Some cp -> LoadCurrent s = Some (cp, Meta st).
Proof.
  intros Hc Hv Hg Hs Hp Hcomp. unfold LoadCurrent. rewrite Hc. cbn [mbind option_bind].
  replace (ver =? 0) with false by lia. rewrite Hg. cbn [mbind option_bind]. unfold Verify. rewrite Hs.
  cbn [mbind option_bind]. rewrite Hp. cbn [mbind option_bind]. by rewrite Hcomp.
Qed.

Lemma load_then_current_run now fetched s s' r :
  Load now fetched s = (Some r, s') -> bundle.Version (lr_Bundle r) < 2 ^ 63 ->
  exists meta, LoadCurrent s' = Some (lr_Compiled r, meta) /\ m_Version meta = bundle.Version (lr_Bundle r) /\
    m_State meta = StateEnforced.
Proof.
  unfold Load. destruct (_ ← fetched; _) as [[[f b] cp]|] eqn:Hf; [|done].
  apply bind_Some in Hf as (f' & _ & Hf). apply bind_Some in Hf as ([] & Hver & Hf).
  apply bind_Some in Hf as (b' & Hp & Hf). apply bind_Some in Hf as (cp' & Hc & [= -> -> ->]).
  cbv zeta. destruct (Put _ _ _ _ _ s) as [[] s1] eqn:Hput; [|done]. cbn [negb].
  destruct (SetCurrent _ s1) as [[] s2] eqn:Hset; [|done]. intros [= <- <-] Hmax. cbn [lr_Bundle lr_Compiled] in *.
  pose proof (Parse_version _ _ Hp) as Hpos.
  apply put_get in Hput as (st & Hget & Hb & Hsg & Hmv & Hms). cbn [m_Version m_State] in *.
  pose proof (set_current_get (bundle.Version b) s1 (bundle.Version b)) as Hkeep. rewrite Hset in Hkeep. cbn [snd] in Hkeep.
  apply set_current in Hset as [Hcur _]; [|lia].
  exists (Meta st). split_and!; [|done..].
  apply (LoadCurrent_stored _ (bundle.Version b) st b); [done|lia|by rewrite Hkeep| | |done].
  - rewrite Hb, Hsg. unfold Verify in Hver. by destruct (ed25519_Verify _ _).
  - by rewrite Hb.
Qed.

(** What the loader stores is what the agent reads: after a successful load the
    current policy of the store is the one the load compiled, under its version,
    whatever implements the store's interface. *)
Theorem load_then_current now fetched s s' r :
  Load now fetched s = (Some r, s') -> bundle.Version (lr_Bundle r) < 2 ^ 63 ->
  exists meta, LoadCurrent s' = Some (lr_Compiled r, meta) /\ m_Version meta = bundle.Version (lr_Bundle r) /\
    m_State meta = StateEnforced.
Proof. exact (load_then_current_run now fetched s s' r). Qed.

(** A rollback makes the agent read the policy of the bundle stored under the version,
    if the key still verifies it. *)
Theorem rollback_then_current now ver s s' st b cp :
  Get ver s = Some st -> m_Version (Meta st) = ver -> 0 < ver < 2 ^ 63 ->
  ed25519_Verify (Bundle st) (Sig st) = true -> Parse (Bundle st) = Some b -> Compile ParseCIDR ParseIP b = Some cp ->
  Rollback now ver s = (true, s') ->
  exists meta, LoadCurrent s' = Some (cp, meta) /\ m_State meta = StateRollback.
Proof.
  intros Hg Hmv Hv Hs Hp Hc. unfold Rollback. rewrite Hg. destruct (SetCurrent ver s) as [[] s1] eqn:Hset; [|done].
  cbn [negb]. cbv zeta. intros Hput. apply set_current in Hset as [Hcur _]; [|lia].
  pose proof (f_equal snd Hput) as Hsnd. cbn [snd] in Hsnd.
  assert (Current s' = Some ver) as Hcur' by (rewrite <- Hsnd; by rewrite put_current).
  apply put_get in Hput as (st' & Hget & Hb & Hsg & _ & Hms). cbn [m_Version m_State] in *. rewrite Hmv in Hget.
  exists (Meta st'). split; [|done].
  apply (LoadCurrent_stored _ ver st' b); [done|lia|done|by rewrite Hb, Hsg|by rewrite Hb|done].
Qed.

(** A bundle the key does not verify, or that does not parse or compile, does not
    touch the store. *)
Lemma refused_load_keeps_store now fetched s s' :
  Load now fetched s = (None, s') ->
  (forall f b cp, fetched = Some f -> ed25519_Verify f.1 f.2 = true -> Parse f.1 = Some b ->
     Compile ParseCIDR ParseIP b = Some cp -> False) -> s' = s.
Proof.
  unfold Load. intros Hl Hno. destruct (_ ← fetched; _) as [[[f b] cp]|] eqn:Hf; [|by injection Hl].
  exfalso. apply bind_Some in Hf as (f' & Hf' & Hf). apply bind_Some in Hf as ([] & Hver & Hf).
  apply bind_Some in Hf as (b' & Hp & Hf). apply bind_Some in Hf as (cp' & Hc & [= -> -> ->]).
  apply (Hno f b cp); try done. unfold Verify in Hver. by destruct (ed25519_Verify _ _).
Qed.

(** ** Promotion changes one rule *)

Lemma set_rule_state_spec ruleID state rs rs' :
  set_rule_state ruleID state rs = Some rs' ->
  exists pre r post, rs = pre ++ r :: post /\ bundle.ID r = ruleID /\ Forall (fun x => bundle.ID x <> ruleID) pre /\
    rs' = pre ++ bundle.mk_rule (bundle.ID r) (bundle.Rationale r) (bundle.rule_match r) (bundle.Decision r) state :: post.
Proof.
  revert rs'. induction rs as [|r rs IH]; intros rs'; cbn [set_rule_state]; [done|].
  destruct (streq (bundle.ID r) ruleID) eqn:He.
  - intros [= <-]. exists [], r, rs. split_and!; [done|by apply streq_spec|constructor|done].
  - intros (l & Hl & ->)%fmap_Some. destruct (IH l Hl) as (pre & q & post & -> & Hq & Hpre & ->).
    exists (r :: pre), q, post. split_and!; [done|done| |done]. constructor; [|done].
    intros H. apply streq_spec in H. congruence.
Qed.

Lemma promoted_spec data ruleID bump newState b' :
  promoted data ruleID bump newState = Some b' ->
  let state := if streq newState [] then StateEnforced else newState in
  exists b pre r post, Parse data = Some b /\ bundle.Rules b = pre ++ r :: post /\ bundle.ID r = ruleID /\
    Forall (fun x => bundle.ID x <> ruleID) pre /\
    b' = bundle.mk_bundle (if bump then bundle.Version b + 1 else bundle.Version b) (bundle.AgentScope b)
           (bundle.SignedBy b) (bundle.DefaultAction b) (bundle.FailDirection b)
           (pre ++ bundle.mk_rule (bundle.ID r) (bundle.Rationale r) (bundle.rule_match r) (bundle.Decision r) state :: post) /\
    is_Some (Compile ParseCIDR ParseIP b').
Proof.
  unfold promoted. cbv zeta. destruct (negb _); [done|]. intros (b & Hb & H)%bind_Some.
  apply bind_Some in H as (rules & Hr & H). apply bind_Some in H as (cp & Hc & [= <-]).
  destruct (set_rule_state_spec _ _ _ _ Hr) as (pre & r & post & H1 & H2 & H3 & ->).
  exists b, pre, r, post. split_and!; [done..|]. by exists cp.
Qed.

(** ** The agent: holder and kernel maps (main.go) *)

Record agent := mk_agent {
  held : option (CompiledPolicy * VersionMeta);    (* the holder *)
  maps : enforcer_maps
}.

Context `{L : LpmTrie}.
(** Whether the agent has an enforcer object ([policy.mode] is [enforce]); in shadow
    mode policies are only held. *)
Context (enforcing : bool).

(** What a step of the agent meets: which writes the kernel accepts, and the file
    system. *)
Record world := mk_world {
  w_ok : enforcer_maps -> map_write -> bool;
  w_homes : dir_entries;
  w_stat : gostring -> option (Z * Z)
}.

Definition apply_in (w : world) (cp : CompiledPolicy) : loader LoadStats :=
  applyLivePolicy (w_ok w) (w_homes w) (w_stat w) ParseCIDR ParseIP cp true.

(** The start: the agent exits unless the policy is read and loaded. *)
Definition start (w : world) (s : S) (m : enforcer_maps) : option agent :=
  c ← LoadCurrent s;
  if enforcing then
    match apply_in w c.1 m with
    | (Some _, tr) => Some (mk_agent (Some c) (end_state m tr))
    | (None, _) => None
    end
  else Some (mk_agent (Some c) m).

(** [reloadPolicy]: the maps go through the writes of [MapLoad.reloadPolicy]; the
    policy is swapped in when it was applied. *)
Definition reload (w : world) (s : S) (a : agent) : agent :=
  match LoadCurrent s with
  | None => a
  | Some (cp, meta) =>
      let prev := fst <$> held a in
      if match prev with Some p => Version p =? Version cp | None => false end then a else
      if negb enforcing then mk_agent (Some (cp, meta)) (maps a) else
      let r := reloadPolicy (w_ok w) (w_homes w) (w_stat w) ParseCIDR ParseIP cp prev (maps a) in
      mk_agent (match (apply_in w cp (maps a)).1 with Some _ => Some (cp, meta) | None => held a end)
        (end_state (maps a) r.2)
  end.

(** Runs of the agent: the store, the kernel's answers and the file system differ from
    step to step. *)
Inductive agent_reaches : agent -> Prop :=
  | agent_start w s m a : start w s m = Some a -> agent_reaches a
  | agent_reload w s a : agent_reaches a -> agent_reaches (reload w s a).

(** The maps are what a complete load of the policy leaves. *)
Definition loaded_with (cp : CompiledPolicy) (m : enforcer_maps) : Prop :=
  exists w m0 st tr,
    LoadLive (w_ok w) (w_homes w) (w_stat w) ParseCIDR ParseIP cp true (u32 (Version cp)) m0 = (Some st, tr) /\
    m = end_state m0 tr.

Definition suspended_word (m : enforcer_maps) : Prop := exists p, policy_ctrl_map m = [loading_word p].

Lemma apply_in_result w cp m :
  match (apply_in w cp m).1 with
  | Some _ => loaded_with cp (end_state m (apply_in w cp m).2)
  | None => end_state m (apply_in w cp m).2 = m \/ suspended_word (end_state m (apply_in w cp m).2)
  end.
Proof.
  destruct (apply_run (w_ok w) (w_homes w) (w_stat w) ParseCIDR ParseIP cp m) as (tr & Hf & Hr).
  fold (apply_in w cp) in Hr. destruct (apply_in w cp m) as [[st|] tr'] eqn:Ha; cbn [fst snd] in *.
  - clear Hr Hf. unfold apply_in, applyLivePolicy in Ha.
    unfold mbind, loader_bind, do_write in Ha. destruct (w_ok w m _); [|done].
    set (m1 := apply_write m _) in *. change (end_state m [m1]) with m1 in Ha.
    destruct (LoadLive _ _ _ _ _ _ _ _ m1) as [[st'|] tr1] eqn:Hl; cbn [fst snd] in Ha; [|done].
    injection Ha as <- <-. exists w, m1, st', tr1. split; [done|]. by rewrite end_state_cons.
  - subst tr'. destruct tr as [|m1 tr _] using rev_ind; [by left|right].
    apply Forall_app in Hf as [_ Hf]. rewrite Forall_singleton in Hf.
    exists cp. rewrite end_state_app, end_state_cons. exact Hf.
Qed.

(** A bundle with the version of the policy held is not loaded, whatever it says. *)
Lemma same_version_ignored w s a cp meta p pm :
  LoadCurrent s = Some (cp, meta) -> held a = Some (p, pm) -> Version p = Version cp -> reload w s a = a.
Proof. intros Hl Hh Hv. unfold reload. rewrite Hl, Hh. cbn [fmap option_fmap option_map fst]. by rewrite Hv, Z.eqb_refl. Qed.

Definition agent_ok (a : agent) : Prop :=
  exists cp meta, held a = Some (cp, meta) /\ signed cp /\
    (enforcing = true -> suspended_word (maps a) \/ loaded_with cp (maps a)).

Lemma reload_ok w s a : agent_ok a -> agent_ok (reload w s a).
Proof.
  intros (p & pm & Hh & Hs & Hm). unfold reload. destruct (LoadCurrent s) as [[cp meta]|] eqn:Hl; [|by exists p, pm].
  rewrite Hh. cbn [fmap option_fmap option_map fst]. destruct (Version p =? Version cp) eqn:Hv; [by exists p, pm|].
  pose proof (LoadCurrent_signed s cp meta Hl) as Hcp.
  destruct enforcing eqn:He; cbn [negb]; [specialize (Hm eq_refl)|exists cp, meta; split_and!; [done..|congruence]].
  unfold reloadPolicy. rewrite Hv. fold (apply_in w cp). fold (apply_in w p).
  pose proof (apply_in_result w cp (maps a)) as Hr. destruct (apply_in w cp (maps a)) as [[st|] tr]; cbn [fst snd] in *.
  - exists cp, meta. split_and!; [done..|]. by right.
  - exists p, pm. rewrite end_state_app. split_and!; [done..|]. intros _. cbn [maps].
    set (m1 := end_state (maps a) tr) in *.
    assert (suspended_word m1 \/ loaded_with p m1) as Hm1 by (destruct Hr as [-> |?]; [done|by left]).
    pose proof (apply_in_result w p m1) as Hr2. destruct (apply_in w p m1) as [[st|] tr2]; cbn [fst snd] in *.
    + by right.
    + destruct Hr2 as [-> |?]; [done|by left].
Qed.

Lemma reaches_ok a : agent_reaches a -> agent_ok a.
Proof.
  intros Hr. induction Hr as [w s m a Hst|w s a _ IH]; [|by apply reload_ok].
  unfold start in Hst. apply bind_Some in Hst as ([cp meta] & Hl & Hst). cbn [fst] in Hst.
  pose proof (LoadCurrent_signed s cp meta Hl) as Hcp.
  destruct enforcing eqn:He; [|injection Hst as <-; exists cp, meta; split_and!; [done..|congruence]].
  pose proof (apply_in_result w cp m) as Hr. destruct (apply_in w cp m) as [[st|] tr]; [|done]. injection Hst as <-.
  exists cp, meta. split_and!; [done..|]. by right.
Qed.

(** C20. In every run of the agent, whatever the store holds at each reload and
    whichever writes the kernel refuses, the policy it holds is compiled from a
    bundle its key verifies, and in enforce mode the kernel maps hold a complete
    load of that policy unless enforcement is off. *)
Theorem only_signed_policies a en :
  agent_reaches a ->
  exists cp meta, held a = Some (cp, meta) /\ signed cp /\
    (enforcing = true -> active (mk_kstate en (maps a)) = true -> loaded_with cp (maps a)).
Proof.
  intros (cp & meta & Hh & Hs & Hm)%reaches_ok.
  exists cp, meta. split_and!; [done..|]. intros He Ha. specialize (Hm He). destruct Hm as [[p Hp]|]; [|done].
  apply (loading_suspended p en) in Hp as [Hf _]. congruence.
Qed.
End lifecycle.
