(* ===== verification/Signing.v ===== *)
(** * Signing: keys, signature files and the policy commands

    [internal/policy/sign.go], the file source of [loader.go], the file that
    [promote.go] rewrites and the commands of [cmd/policyctl/main.go], on a disk of
    named files any of whose writes may fail part-way.  Key generation and ed25519 are
    a library's.  What an operator signs and loads is what the agent reads
    ([signed_bundle_reaches_agent]). *)

From stdpp Require Import strings gmap.
From Stdlib Require Import String.
From S2P Require Import Prelude Types Policy Compile Text Base64 Store Lifecycle.

#[local] Open Scope list_scope.
#[local] Open Scope Z_scope.

(** ** Files *)

Abbreviation disk := (gmap gostring (list Z)).

(** Which files can be read; whether a write fails and what it leaves of the file, if
    anything ([None]: it succeeds); whether a file can be renamed. *)
Record file_system := mk_file_system {
  read_ok : gostring -> bool;
  write_fails : disk -> gostring -> list Z -> option (option (list Z));
  rename_ok : gostring -> gostring -> bool
}.

Section files.
Context (fs : file_system).

Definition ReadFile (path : gostring) (d : disk) : option (list Z) := if read_ok fs path then d !! path else None.

Definition os_WriteFile (path : gostring) (data : list Z) (d : disk) : bool * disk :=
  match write_fails fs d path data with
  | None => (true, <[path := data]> d)
  | Some rest => (false, partial_alter (fun _ => rest) path d)
  end.

Definition Rename (old new : gostring) (d : disk) : bool * disk :=
  match rename_ok fs old new, d !! old with
  | true, Some data => (true, <[new := data]> (delete old d))
  | _, _ => (false, d)
  end.

(** ** Keys and signatures (sign.go) *)

(** A new key pair (public, private), a signature of a message with a private key, and
    its check with a public key. *)
Context (ed25519_GenerateKey : option (list Z * list Z)).
Context (ed25519_Sign : list Z -> list Z -> list Z) (ed25519_Verify : list Z -> list Z -> list Z -> bool).

Definition PrivateKeySize : nat := 64.
Definition PublicKeySize : nat := 32.
Definition sigFileSuffix : gostring := bytes_of ".sig".

Definition Keygen (keyPath pubPath : gostring) (d : disk) : bool * disk :=
  match ed25519_GenerateKey with
  | None => (false, d)
  | Some (pub, priv) =>
      let '(ok, d) := os_WriteFile keyPath priv d in
      if negb ok then (false, d) else os_WriteFile pubPath pub d
  end.

Definition LoadPrivateKey (path : gostring) (d : disk) : option (list Z) :=
  data ← ReadFile path d; if (length data =? PrivateKeySize)%nat then Some data else None.

Definition LoadPublicKey (path : gostring) (d : disk) : option (list Z) :=
  data ← ReadFile path d; if (length data =? PublicKeySize)%nat then Some data else None.

Definition Sign (bundle priv : list Z) : list Z := ed25519_Sign priv bundle.

Definition SigPath (bundlePath : gostring) : gostring := bundlePath ++ sigFileSuffix.

Definition WriteSig (bundlePath : gostring) (sig : list Z) (d : disk) : bool * disk :=
  os_WriteFile (SigPath bundlePath) (EncodeToString sig ++ [10]) d.

Definition ReadSig (bundlePath : gostring) (d : disk) : option (list Z) :=
  data ← ReadFile (SigPath bundlePath) d; DecodeString data.

Definition SignFile (bundlePath : gostring) (priv : list Z) (d : disk) : bool * disk :=
  match ReadFile bundlePath d with
  | None => (false, d)
  | Some data => WriteSig bundlePath (Sign data priv) d
  end.

Definition VerifyFile (bundlePath : gostring) (pub : list Z) (d : disk) : bool :=
  match ReadFile bundlePath d, ReadSig bundlePath d with
  | Some data, Some sig => match Verify (ed25519_Verify pub) data sig with Some _ => true | None => false end
  | _, _ => false
  end.

(** [FileSource.Fetch]. *)
Definition Fetch (bundlePath : gostring) (d : disk) : option (list Z * list Z) :=
  bundle ← ReadFile bundlePath d; sig ← ReadSig bundlePath d; Some (bundle, sig).

(** ** The commands (policyctl), after their flags and arguments are parsed *)

Context {S : Type} `{!VersionStore S}.
Context (yaml_unmarshal : list Z -> option bundle.Bundle) (yaml_marshal : bundle.Bundle -> list Z).
Context (ParseCIDR : gostring -> option (list Z * Z)) (ParseIP : gostring -> option (list Z)).
Context (sha256_hex : list Z -> gostring).

Abbreviation parse := (Parse yaml_unmarshal ParseCIDR ParseIP).

Definition cmdKeygen (keyPath pubPath : gostring) (d : disk) : bool * disk := Keygen keyPath pubPath d.

Definition cmdSign (keyPath bundlePath : gostring) (d : disk) : bool * disk :=
  match LoadPrivateKey keyPath d with
  | None => (false, d)
  | Some priv => SignFile bundlePath priv d
  end.

Definition cmdVerify (pubPath bundlePath : gostring) (d : disk) : bool :=
  match LoadPublicKey pubPath d with
  | None => false
  | Some pub => VerifyFile bundlePath pub d
  end.

Definition cmdCompile (bundlePath : gostring) (d : disk) : option CompiledPolicy :=
  data ← ReadFile bundlePath d; b ← parse data; Compile ParseCIDR ParseIP b.

(** The store is opened unless its directory cannot be made. *)
Definition cmdLoad (store_ok : bool) (now : Z) (pubPath bundlePath : gostring) (d : disk) (s : S) : option LoadResult * S :=
  match LoadPublicKey pubPath d with
  | None => (None, s)
  | Some pub =>
      if negb store_ok then (None, s) else
      Load yaml_unmarshal ParseCIDR ParseIP (ed25519_Verify pub) sha256_hex now (Fetch bundlePath d) s
  end.

(** The rows of the history: the first twelve digits of the hash, which is out of range
    in an entry with a shorter one ([None]), and whether the version is current. *)
Definition history_row (cur : Z) (m : VersionMeta) : option (Z * gostring * gostring * gostring * bool) :=
  if (length (BundleSHA256 m) <? 12)%nat then None else
  Some (m_Version m, m_AgentScope m, m_SignedBy m, take 12 (BundleSHA256 m), m_Version m =? cur).

Definition cmdHistory (store_ok : bool) (s : S)
    : option (option (list (Z * gostring * gostring * gostring * bool))) :=
  if negb store_ok then None else
  l ← ListVersions s;
  let cur := default 0 (Current s) in
  Some (mapM (history_row cur) l).

Definition cmdRollback (store_ok : bool) (now : Z) (arg : gostring) (s : S) : bool * S :=
  match Atoi arg with
  | None => (false, s)
  | Some ver => if negb store_ok then (false, s) else Rollback now ver s
  end.

(** The policy it prints. *)
Definition cmdShow (store_ok : bool) (arg : option gostring) (s : S) : option CompiledPolicy :=
  if negb store_ok then None else
  ver ← match arg with
        | Some a => Atoi a
        | None => cur ← Current s; if cur =? 0 then None else Some cur
        end;
  stored ← Get ver s;
  match Compiled stored with
  | Some cp => Some cp
  | None => b ← parse (Bundle stored); Compile ParseCIDR ParseIP b
  end.

Definition cmdPromote (bundlePath ruleID state : gostring) (bump : bool) (d : disk) : bool * disk :=
  match data ← ReadFile bundlePath d;
        PromoteRule yaml_unmarshal yaml_marshal ParseCIDR ParseIP data ruleID bump state with
  | None => (false, d)
  | Some out =>
      let tmp := bundlePath ++ bytes_of ".tmp" in
      let '(ok, d) := os_WriteFile tmp out d in
      if negb ok then (false, d) else Rename tmp bundlePath d
  end.

(** ** What is signed verifies *)

Lemma SigPath_ne bundlePath : SigPath bundlePath <> bundlePath.
Proof. unfold SigPath. intros H. apply (f_equal length) in H. rewrite length_app in H. cbn in H. lia. Qed.

(** Signatures are bytes, and verify with the key pair they were made with. *)
Class SigningOk : Prop := {
  generated_sizes pub priv : ed25519_GenerateKey = Some (pub, priv) ->
    length pub = PublicKeySize /\ length priv = PrivateKeySize;
  sign_verifies pub priv msg : ed25519_GenerateKey = Some (pub, priv) ->
    ed25519_Verify pub msg (ed25519_Sign priv msg) = true;
  sign_bytes priv msg : Forall is_byte (ed25519_Sign priv msg)
}.
Context `{!SigningOk}.

Lemma ReadFile_written path data d d' :
  read_ok fs path = true -> os_WriteFile path data d = (true, d') -> ReadFile path d' = Some data.
Proof.
  intros Hr. unfold os_WriteFile, ReadFile. destruct (write_fails _ _ _ _); [done|]. intros [= <-].
  by rewrite Hr, lookup_insert_eq.
Qed.

Lemma ReadFile_other path path' data d b d' :
  path' <> path -> os_WriteFile path data d = (b, d') -> ReadFile path' d' = ReadFile path' d.
Proof.
  intros Hne. unfold os_WriteFile, ReadFile. destruct (write_fails _ _ _ _); intros [= <- <-];
    [by rewrite lookup_partial_alter_ne by done|by rewrite lookup_insert_ne by done].
Qed.

Lemma ReadSig_written bundlePath sig d d' :
  read_ok fs (SigPath bundlePath) = true -> Forall is_byte sig -> WriteSig bundlePath sig d = (true, d') ->
  ReadSig bundlePath d' = Some sig.
Proof.
  intros Hr Hs Hw. unfold ReadSig. rewrite (ReadFile_written _ _ _ _ Hr Hw). cbn. by apply decode_line_end.
Qed.

(** Signing writes the signature file and nothing else; on a readable disk the file
    source then gives the bundle with its signature. *)
Lemma SignFile_fetch bundlePath priv data d d' :
  read_ok fs (SigPath bundlePath) = true -> ReadFile bundlePath d = Some data ->
  SignFile bundlePath priv d = (true, d') ->
  Fetch bundlePath d' = Some (data, ed25519_Sign priv data) /\
  forall p, p <> SigPath bundlePath -> ReadFile p d' = ReadFile p d.
Proof.
  intros Hr Hd. unfold SignFile. rewrite Hd. intros Hw. split.
  - unfold Fetch. rewrite (ReadFile_other _ bundlePath _ _ _ _ (not_eq_sym (SigPath_ne bundlePath)) Hw), Hd. cbn.
    by rewrite (ReadSig_written _ _ _ _ Hr (sign_bytes priv data) Hw).
  - intros p Hp. by apply (ReadFile_other _ p _ _ _ _ Hp Hw).
Qed.

Lemma keys_written keyPath pubPath d d1 :
  keyPath <> pubPath -> read_ok fs keyPath = true -> read_ok fs pubPath = true ->
  cmdKeygen keyPath pubPath d = (true, d1) ->
  exists pub priv, ed25519_GenerateKey = Some (pub, priv) /\
    LoadPrivateKey keyPath d1 = Some priv /\ LoadPublicKey pubPath d1 = Some pub.
Proof.
  intros Hne Hrk Hrp. unfold cmdKeygen, Keygen. destruct ed25519_GenerateKey as [[pub priv]|] eqn:Hg; [|done].
  destruct (os_WriteFile keyPath priv d) as [[] d0] eqn:Hk; [|done]. cbn [negb]. intros Hp.
  destruct (generated_sizes _ _ Hg) as [Hlp Hlk]. exists pub, priv. split; [done|].
  unfold LoadPrivateKey, LoadPublicKey.
  rewrite (ReadFile_other _ keyPath _ _ _ _ Hne Hp), (ReadFile_written _ _ _ _ Hrk Hk), (ReadFile_written _ _ _ _ Hrp Hp).
  cbn [mbind option_bind]. rewrite Hlk, Hlp. by rewrite !Nat.eqb_refl.
Qed.

(** Tampering with the bundle after it was signed: the load is refused, and the store is
    untouched, unless the signature also verifies the new text. *)
Lemma tampered_bundle_refused store_ok now pubPath bundlePath pub data sig d s :
  LoadPublicKey pubPath d = Some pub -> Fetch bundlePath d = Some (data, sig) ->
  ed25519_Verify pub data sig = false -> cmdLoad store_ok now pubPath bundlePath d s = (None, s).
Proof.
  intros Hk Hf Hv. unfold cmdLoad. rewrite Hk. destruct store_ok; [|done]. cbn [negb]. unfold Load. rewrite Hf.
  cbn [mbind option_bind fst snd]. unfold Verify. by rewrite Hv.
Qed.

Context `{!VersionStoreLaws S}.

(** C21. From key generation to the agent, through the commands of policyctl: with a
    generated key pair on a readable disk, a bundle that parses and compiles is
    signed and loaded. The signature file, base64 with a line end, verifies; and
    either a write of the store fails, or the load succeeds and the agent that has
    the public key file reads the policy compiled from that bundle, whatever
    implements the store's interface. *)
Theorem signed_bundle_reaches_agent now keyPath pubPath bundlePath d d1 d2 s data b cp :
  keyPath <> pubPath -> keyPath <> SigPath bundlePath -> pubPath <> SigPath bundlePath ->
  (forall p, read_ok fs p = true) ->
  cmdKeygen keyPath pubPath d = (true, d1) -> ReadFile bundlePath d1 = Some data ->
  parse data = Some b -> Compile ParseCIDR ParseIP b = Some cp -> bundle.Version b < 2 ^ 63 ->
  cmdSign keyPath bundlePath d1 = (true, d2) ->
  cmdVerify pubPath bundlePath d2 = true /\
  let r := cmdLoad true now pubPath bundlePath d2 s in
  (r.1 = None /\ exists meta, m_Version meta = bundle.Version b /\ m_State meta = StateEnforced /\
     ((Put now meta data (default [] (ReadSig bundlePath d2)) (Some cp) s).1 = false \/
      (SetCurrent (bundle.Version b) (Put now meta data (default [] (ReadSig bundlePath d2)) (Some cp) s).2).1 = false)) \/
  exists meta pub, r.1 = Some (mk_load_result b cp meta) /\ LoadPublicKey pubPath d2 = Some pub /\
    exists stored, LoadCurrent yaml_unmarshal ParseCIDR ParseIP (ed25519_Verify pub) r.2 = Some (cp, stored).
Proof.
  intros Hkp Hks Hps Hro Hgen Hd Hp Hc Hmax.
  destruct (keys_written keyPath pubPath d d1 Hkp (Hro _) (Hro _) Hgen) as (pub & priv & Hg & Hpriv & Hpub).
  unfold cmdSign. rewrite Hpriv. intros Hsign.
  destruct (SignFile_fetch bundlePath priv data d1 d2 (Hro _) Hd Hsign) as [Hf Hother].
  assert (LoadPublicKey pubPath d2 = Some pub) as Hpub2.
  { unfold LoadPublicKey in *. by rewrite Hother. }
  assert (Verify (ed25519_Verify pub) data (ed25519_Sign priv data) = Some tt) as Hver
    by (unfold Verify; by rewrite (sign_verifies _ _ _ Hg)).
  pose proof Hf as Hf'. unfold Fetch in Hf'. apply bind_Some in Hf' as (data' & Hrd & Hf').
  apply bind_Some in Hf' as (sig' & Hrs & [= -> ->]).
  split.
  { unfold cmdVerify, VerifyFile. by rewrite Hpub2, Hrd, Hrs, Hver. }
  cbv zeta. rewrite Hrs. cbn [default]. unfold cmdLoad. rewrite Hpub2. cbn [negb].
  pose proof (load_then_current_run yaml_unmarshal ParseCIDR ParseIP (ed25519_Verify pub) sha256_hex now
                (Fetch bundlePath d2) s) as Hload.
  unfold Load in *. rewrite Hf in *. cbn [mbind option_bind fst snd] in *. rewrite Hver in *. cbn [mbind option_bind] in *.
  rewrite Hp in *. cbn [mbind option_bind] in *. rewrite Hc in *. cbn [mbind option_bind] in *. cbv zeta in *. cbn [fst snd] in *.
  set (meta := mk_meta _ _ _ _ _ _ _) in *. unfold id in *.
  destruct (Put now meta data (ed25519_Sign priv data) (Some cp) s) as [[] s1] eqn:Hput; cbn [negb fst snd] in *.
  2: { left. split; [done|]. exists meta. split_and!; [done..|left; by rewrite Hput]. }
  destruct (SetCurrent (bundle.Version b) s1) as [[] s2] eqn:Hset; cbn [negb fst snd] in *.
  2: { left. split; [done|]. exists meta. split_and!; [done..|right; rewrite Hput; cbn [fst snd]; by rewrite Hset]. }
  right. exists meta, pub. split; [done|]. split; [done|].
  destruct (Hload _ _ eq_refl Hmax) as (stored & Hcur & _). by exists stored.
Qed.
End files.
