(* ===== verification/Engine.v ===== *)
(** * Engine: the enrollment engine

    [internal/enroll/engine.go], [stats.go] and [multitag.go], and the readings of
    /proc by [internal/enricher/enricher.go]: what the agent does with each event of
    the enroll ring.  One definition per function, in a monad that reads the clock
    and /proc ([proc_env]) and threads the engine's state.  The kernel's tag map is
    behind the interface [KernelTagger], as in the code; log lines are left out. *)

From stdpp Require Import strings.
From Stdlib Require Import String.
From S2P Require Import Prelude Types Policy Fingerprint Proctable Config Feedback.
From S2P Require Formats.
Import Formats proctable.

#[local] Open Scope list_scope.
#[local] Open Scope Z_scope.

(** ** Events (event.go) *)

Definition TypeString (ev : event.Event) : gostring :=
  let ty := event.Type_ ev in
  if ty =? EVENT_EXEC then bytes_of "exec" else
  if ty =? EVENT_FORK then bytes_of "fork" else
  if ty =? EVENT_EXIT then bytes_of "exit" else
  if ty =? EVENT_CONNECT then bytes_of "connect" else
  if ty =? EVENT_OPEN then bytes_of "open" else
  if ty =? EVENT_UNLINK then bytes_of "unlink" else
  if ty =? EVENT_RENAME then bytes_of "rename" else bytes_of "unknown".

Definition oWRONLY : Z := 1.
Definition oRDWR : Z := 2.
Definition oCREAT : Z := 64.
Definition oTRUNC : Z := 512.

Definition IsOpenWriteIntent (flags : Z) : bool :=
  let mode := Z.land flags 3 in
  if (mode =? oWRONLY) || (mode =? oRDWR) then true
  else negb (Z.land flags oCREAT =? 0) || negb (Z.land flags oTRUNC =? 0).

(** ** The clock and /proc *)

Record proc_env := mk_proc_env {
  now : Z;
  Readlink_exe : Z -> option gostring;       (* /proc/<pid>/exe *)
  read_cgroup : Z -> option gostring;        (* /proc/<pid>/cgroup *)
  read_comm : Z -> option gostring;
  read_cmdline : Z -> option gostring;
  read_environ : Z -> option gostring
}.

Module enricher.
Definition Binary (E : proc_env) (pid : Z) : gostring :=
  match Readlink_exe E pid with
  | None => []
  | Some path => TrimSuffix path (bytes_of " (deleted)")
  end.

Definition NEWLINE : Z := 10.

Definition CgroupPath (E : proc_env) (pid : Z) : gostring :=
  match read_cgroup E pid with
  | None => []
  | Some data =>
      match List.find (fun line => HasPrefix line (bytes_of "0::")) (split_on NEWLINE data) with
      | Some line => TrimPrefix line (bytes_of "0::")
      | None => []
      end
  end.
End enricher.

(** ** The kernel's tag map *)

(** Each operation returns whether it succeeded. *)
Class KernelTagger (K : Type) := {
  TagPID : Z -> K -> bool * K;
  UntagPID : Z -> K -> bool * K
}.

Definition NoopTagger : KernelTagger () := {| TagPID _ k := (true, k); UntagPID _ k := (true, k) |}.

(** The loaders' methods on a map [tagged_pids]: the kernel may refuse a new entry,
    and deleting an absent one is an error. *)
Definition MapTagger (put_ok : Z -> gmap Z Z -> bool) : KernelTagger (gmap Z Z) := {|
  TagPID pid m := if put_ok pid m then (true, <[pid := 1]> m) else (false, m);
  UntagPID pid m := (bool_decide (is_Some (m !! pid)), delete pid m)
|}.

(** [MultiTagger]: each in turn until one fails. *)
Fixpoint fan_out {K} (ops : list (K -> bool * K)) (k : K) : bool * K :=
  match ops with
  | [] => (true, k)
  | op :: ops => let r := op k in if r.1 then fan_out ops r.2 else r
  end.

Definition MultiTagger {K} (m : list (KernelTagger K)) : KernelTagger K := {|
  TagPID pid := fan_out ((fun t => @TagPID K t pid) <$> m);
  UntagPID pid := fan_out ((fun t => @UntagPID K t pid) <$> m)
|}.

(** ** Statistics (stats.go) *)

Module stats.
Record AgentStat := mk_agent_stat {
  Exec : Z; Fork : Z; Exit : Z; Connect : Z; Open : Z; Unlink : Z; Rename : Z;
  FirstSeen : Z; LastSeen : Z
}.

Record Stats := mk_stats {
  TotalEvents : Z;
  Enrollments : Z;
  perAgent : gmap gostring AgentStat
}.

Definition newStats : Stats := mk_stats 0 0 ∅.

Definition bump (kind name : gostring) (n : Z) : Z := if streq kind name then u64 (n + 1) else n.

Definition count (kind agentID : gostring) (now : Z) (s : Stats) : Stats :=
  let total := u64 (TotalEvents s + 1) in
  if streq agentID [] then mk_stats total (Enrollments s) (perAgent s) else
  let a := default (mk_agent_stat 0 0 0 0 0 0 0 now 0) (perAgent s !! agentID) in
  let b name n := bump kind (bytes_of name) n in
  mk_stats total (Enrollments s)
    (<[agentID := mk_agent_stat (b "exec" (Exec a)) (b "fork" (Fork a)) (b "exit" (Exit a))
                    (b "connect" (Connect a)) (b "open" (Open a)) (b "unlink" (Unlink a))
                    (b "rename" (Rename a)) (FirstSeen a) now]> (perAgent s)).

Definition enrolled (s : Stats) : Stats := mk_stats (TotalEvents s) (u64 (Enrollments s + 1)) (perAgent s).
End stats.

(** ** The engine *)

Record engine (K : Type) := mk_engine {
  tbl : Table;
  kernel : K;
  stats_ : stats.Stats;
  connectCache : option ConnectCache.cache;
  emitted : list report.Record_
}.
Arguments mk_engine {K} _ _ _ _ _.
Arguments tbl {K} _.
Arguments kernel {K} _.
Arguments stats_ {K} _.
Arguments connectCache {K} _.
Arguments emitted {K} _.

Definition handler (K A : Type) : Type := proc_env -> engine K -> A * engine K.

#[global] Instance handler_ret {K} : MRet (handler K) := fun A a E s => (a, s).
#[global] Instance handler_bind {K} : MBind (handler K) := fun A B f m E s => let r := m E s in f r.1 E r.2.

(** The end of an environment entry's name. *)
Fixpoint IndexByte (s : gostring) (c : Z) : option nat :=
  match s with
  | [] => None
  | b :: s => if b =? c then Some 0%nat else S <$> IndexByte s c
  end.

Definition EQUALS : Z := 61.

Definition env_key (kv : gostring) : option gostring :=
  match IndexByte kv EQUALS with
  | Some (S i) => Some (take (S i) kv)
  | _ => if streq kv [] then None else Some kv
  end.

Definition envKeys (env : list gostring) : list gostring := omap env_key env.

Section engine.
Context {K : Type} `{!KernelTagger K}.
Context (cfg : config.Config) (fps : option (list fp.Fingerprint)).
(** The policy the holder has, with the version of its metadata. *)
Context (policy : option (CompiledPolicy * Z)).
(** The net package: membership and validity of addresses, the text of an address. *)
Context (ipInCIDR : gostring -> gostring -> bool) (ParseIP_ok : gostring -> bool).
Context (addr_text : address -> gostring).

Abbreviation M := (handler K).

Definition ask {A} (f : proc_env -> A) : M A := fun E s => (f E, s).
Definition on_table {A} (f : Table -> A * Table) : M A := fun E s =>
  let r := f (tbl s) in
  (r.1, mk_engine r.2 (kernel s) (stats_ s) (connectCache s) (emitted s)).
Definition get_proc (pid : Z) : M (option Proc) := fun E s => (Get (tbl s) pid, s).
Definition count (kind agentID : gostring) : M () := fun E s =>
  ((), mk_engine (tbl s) (kernel s) (stats.count kind agentID (now E) (stats_ s)) (connectCache s) (emitted s)).
Definition count_enrolled : M () := fun E s =>
  ((), mk_engine (tbl s) (kernel s) (stats.enrolled (stats_ s)) (connectCache s) (emitted s)).
Definition Emit (r : report.Record_) : M () := fun E s =>
  ((), mk_engine (tbl s) (kernel s) (stats_ s) (connectCache s) (emitted s ++ [r])).
Definition on_connects (f : ConnectCache.cache -> ConnectCache.cache) : M () := fun E s =>
  ((), mk_engine (tbl s) (kernel s) (stats_ s) (f <$> connectCache s) (emitted s)).

Definition unless (b : bool) (m : M ()) : M () := if b then mret () else m.

Definition tagKernel (pid : Z) : M () := fun E s =>
  ((), mk_engine (tbl s) (TagPID pid (kernel s)).2 (stats_ s) (connectCache s) (emitted s)).
Definition untagKernel (pid : Z) : M () := fun E s =>
  ((), mk_engine (tbl s) (UntagPID pid (kernel s)).2 (stats_ s) (connectCache s) (emitted s)).

(** The event's process is not the one the entry was made for. *)
Definition other_process (ev : event.Event) (p : Proc) : bool :=
  negb (event.StartTimeNs ev =? 0) && negb (StartNS p =? 0) && negb (event.StartTimeNs ev =? StartNS p).

Definition recordConnectDest (ev : event.Event) : M () :=
  let ip := addr_text (event.DestIP ev) in
  if streq ip [] then mret () else
  p ← get_proc (event.PID ev);
  match p with
  | None => mret ()
  | Some p =>
      if negb (Tagged p) then mret () else
      if other_process ev p then mret () else
      now ← ask now;
      on_connects (ConnectCache.Record_ (event.PID ev) ip (event.DestPort ev) now)
  end.

Definition matchCgroup (pid : Z) : M (option (gostring * gostring)) :=
  cg ← ask (fun E => enricher.CgroupPath E pid);
  if streq cg [] then mret None else
  let a := config.ModeA cfg in
  if existsb (fun sub => negb (streq sub []) && Contains cg sub) (config.CgroupContains a)
  then mret (Some (if streq (config.DefaultAgentID a) [] then bytes_of "agent" else config.DefaultAgentID a, cg))
  else mret None.

(** The two modes on an observation, which the event and /proc provide. *)
Definition tryModes (pid : Z) (obs : M fp.Observation) : M bool :=
  a ← (if config.a_Enabled (config.ModeA cfg) then matchCgroup pid else mret None);
  match a with
  | Some (id, cg) =>
      _ ← on_table (fun t => ((), Tag pid id ModeA (bytes_of "cgroup:" ++ cg) t));
      mret true
  | None =>
      match fps with
      | Some fps =>
          if negb (config.b_Enabled (config.ModeB cfg)) then mret false else
          o ← obs;
          match fp.Evaluate fps o with
          | Some f =>
              _ ← on_table (fun t => ((), Tag pid (fp.AgentID f) ModeB (bytes_of "fingerprint:" ++ fp.ID f) t));
              mret true
          | None => mret false
          end
      | None => mret false
      end
  end.

Definition tryEnroll (ev : event.Event) (binary : gostring) : M bool :=
  tryModes (event.PID ev) (mret (fp.mk_observation binary (event.Argv ev) (envKeys (event.Env ev)))).

Definition handleFork (ev : event.Event) : M () :=
  now ← ask now;
  child ← on_table (OnFork (event.PID ev) (event.PPID ev) (event.Comm ev) now);
  _ ← count (bytes_of "fork") (AgentID child);
  _ ← unless (negb (Tagged child))
        (_ ← tagKernel (PID child);
         _ ← unless (RootPID child =? 0) (tagKernel (RootPID child));
         tagKernel (event.PPID ev));
  unless (negb (Tagged child))
    (Emit (report.mk_record (bytes_of "fork") [] false (PID child) (PPID child) (RootPID child)
             (AgentID child) (Mode child) (Reason child) (Comm child) [] [] [] 0 [] [] false [] 0 [] None)).

Definition handleExec (ev : event.Event) : M () :=
  now ← ask now;
  binary ← (if streq (event.Filename ev) [] then ask (fun E => enricher.Binary E (event.PID ev))
            else mret (event.Filename ev));
  r ← on_table (OnExec (event.PID ev) (event.StartTimeNs ev) (event.PPID ev) (event.Comm ev) binary now);
  let '(p, alreadyTagged) := r in
  r ← (if alreadyTagged : bool then mret (false, p) else
       newlyEnrolled ← tryEnroll ev binary;
       np ← get_proc (event.PID ev);
       mret (newlyEnrolled, default p np));
  let '(newlyEnrolled, p) := r in
  _ ← unless (negb (Tagged p)) (tagKernel (event.PID ev));
  _ ← count (bytes_of "exec") (AgentID p);
  _ ← unless (negb newlyEnrolled) count_enrolled;
  if Tagged p
  then Emit (report.mk_record (bytes_of "exec") [] newlyEnrolled (PID p) (PPID p) (RootPID p)
               (AgentID p) (Mode p) (Reason p) (Comm p) (Binary p) (event.Argv ev) [] 0 [] [] false [] 0 [] None)
  else unless (negb (config.AllEvents (config.Report cfg)))
         (Emit (report.mk_record (bytes_of "exec") [] false (PID p) (PPID p) 0 [] [] [] (Comm p) binary
                  (event.Argv ev) [] 0 [] [] false [] 0 [] None)).

Definition handleExit (ev : event.Event) : M () :=
  p ← get_proc (event.PID ev);
  _ ← match p with
      | Some p =>
          unless (negb (Tagged p))
            (_ ← count (bytes_of "exit") (AgentID p);
             _ ← Emit (report.mk_record (bytes_of "exit") [] false (PID p) 0 (RootPID p) (AgentID p) [] []
                         (Comm p) [] [] [] 0 [] [] false [] 0 [] None);
             untagKernel (event.PID ev))
      | None => mret ()
      end;
  _ ← on_connects (ConnectCache.Forget (event.PID ev));
  now ← ask now;
  on_table (fun t => ((), OnExit (event.PID ev) now t)).

Definition source_label (s : hit_source) : gostring :=
  match s with
  | ShadowSourceShadow => bytes_of "shadow"
  | ShadowSourceLivePreview => bytes_of "live_preview"
  end.

Definition shadow_record (p : Proc) (rec : report.Record_) (version : Z) (hit : hit_source * CompiledRule)
    : report.Record_ :=
  report.mk_record (bytes_of "shadow_deny") [] false (PID p) 0 (RootPID p) (AgentID p)
    (Mode p) (Rationale hit.2) (Comm p) [] []
    (report.Dest rec) (report.DestPort rec) (report.Path rec) (report.NewPath rec)
    (report.Write rec) (ID hit.2) version (source_label hit.1) None.

Definition evaluateShadow (ev : event.Event) (p : Proc) (rec : report.Record_) : M () :=
  match policy with
  | None => mret ()
  | Some (cp, version) =>
      let c := config.Policy_ cfg in
      let scope := if streq (config.p_Scope c) [] then AgentScope cp else config.p_Scope c in
      if negb (ScopeMatches (AgentID p) scope) then mret () else
      cg ← ask (fun E => enricher.CgroupPath E (event.PID ev));
      let i := mk_input (TypeString ev) (event.Path ev) (event.Path2 ev) (addr_text (event.DestIP ev))
                 (event.DestPort ev)
                 ((event.Type_ ev =? EVENT_OPEN) && IsOpenWriteIntent (event.OpenFlags ev))
                 (Some (event.UID ev)) (Binary p) cg in
      let hits := if streq (config.EffectiveMode c) config.PolicyModeEnforce
                  then EvaluateShadowOnly ipInCIDR ParseIP_ok cp i
                  else EvaluateShadowAndLive ipInCIDR ParseIP_ok cp i in
      foldr (fun (hit : hit_source * CompiledRule) (rest : M ()) =>
        _ ← Emit (shadow_record p rec version hit);
        rest) (mret ()) hits
  end.

(** The record of an action, with the fields of its type. *)
Definition action_record (name : gostring) (ev : event.Event) (p : Proc) : report.Record_ :=
  let mk := report.mk_record name [] false (PID p) 0 (RootPID p) (AgentID p) (Mode p) [] (Comm p) [] [] in
  let ty := event.Type_ ev in
  if ty =? EVENT_CONNECT then mk (addr_text (event.DestIP ev)) (event.DestPort ev) [] [] false [] 0 [] None else
  if ty =? EVENT_OPEN then mk [] 0 (event.Path ev) [] (IsOpenWriteIntent (event.OpenFlags ev)) [] 0 [] None else
  if ty =? EVENT_UNLINK then mk [] 0 (event.Path ev) [] false [] 0 [] None else
  if ty =? EVENT_RENAME then mk [] 0 (event.Path ev) (event.Path2 ev) false [] 0 [] None
  else mk [] 0 [] [] false [] 0 [] None.

Definition handleAction (ev : event.Event) : M () :=
  let c := config.Actions cfg in
  if negb (config.act_Enabled c) then mret () else
  let name := TypeString ev in
  if negb (config.CaptureEnabled c name) then mret () else
  p ← get_proc (event.PID ev);
  match p with
  | None => mret ()
  | Some p =>
      if negb (Tagged p) then mret () else
      _ ← tagKernel (event.PID ev);
      if other_process ev p then mret () else
      if (event.Type_ ev =? EVENT_OPEN) && config.OpenWritesOnly c
           && negb (IsOpenWriteIntent (event.OpenFlags ev)) then mret () else
      let rec := action_record name ev p in
      _ ← count name (AgentID p);
      _ ← Emit rec;
      evaluateShadow ev p rec
  end.

Definition Handle (ev : event.Event) : M () :=
  let ty := event.Type_ ev in
  if ty =? EVENT_FORK then handleFork ev else
  if ty =? EVENT_EXEC then handleExec ev else
  if ty =? EVENT_EXIT then handleExit ev else
  if ty =? EVENT_CONNECT then _ ← recordConnectDest ev; handleAction ev else
  if (ty =? EVENT_OPEN) || (ty =? EVENT_UNLINK) || (ty =? EVENT_RENAME) then handleAction ev else
  mret ().
End engine.
