(* ===== verification/Bootstrap.v ===== *)
(** * Bootstrap: enrolling what already runs

    [internal/enroll/bootstrap.go] and [ResyncKernelTags] of engine.go.  A listing of
    /proc is a list of processes with their parents, in the order a range over the
    map yields it; each range has an order of its own.  The search for descendants
    terminates and tags exactly the processes reachable from the seeds
    ([propagate_spec]). *)

From stdpp Require Import strings gmap sets relations.
From Stdlib Require Import String.
From S2P Require Import Prelude Policy Compile Fingerprint Proctable Config Feedback Engine.
Import proctable.

#[local] Open Scope list_scope.
#[local] Open Scope Z_scope.

(** ** /proc *)

Definition readProcComm (E : proc_env) (pid : Z) : gostring :=
  match read_comm E pid with Some data => TrimSpace data | None => [] end.

Definition parts (data : gostring) : list gostring :=
  List.filter (fun p => negb (streq p [])) (split_on 0 data).

Definition readProcCmdline (E : proc_env) (pid : Z) : list gostring :=
  match read_cmdline E pid with Some data => parts data | None => [] end.

Definition environ_key (p : gostring) : option gostring :=
  match IndexByte p EQUALS with Some (S i) => Some (take (S i) p) | _ => None end.

Definition readProcEnvKeys (E : proc_env) (pid : Z) : list gostring :=
  match read_environ E pid with Some data => omap environ_key (parts data) | None => [] end.

(** Process and parent. *)
Abbreviation listing := (list (Z * Z)).

Definition children (ppids : listing) (pid : Z) : list Z :=
  fst <$> List.filter (fun e => e.2 =? pid) ppids.

Section bootstrap.
Context {K : Type} `{!KernelTagger K}.
Context (cfg : config.Config) (fps : option (list fp.Fingerprint)).

Abbreviation M := (handler K).

Definition tryEnrollObs (pid ppid : Z) (binary : gostring) : M bool :=
  done ← tryModes cfg fps pid
           (ask (fun E => fp.mk_observation binary (readProcCmdline E pid) (readProcEnvKeys E pid)));
  if done : bool then mret true else
  parent ← get_proc ppid;
  match parent with
  | Some parent =>
      if negb (Tagged parent) then mret false else
      comm ← ask (fun E => readProcComm E pid);
      now ← ask now;
      _ ← on_table (OnFork pid ppid comm now);
      child ← get_proc pid;
      mret (match child with Some c => Tagged c | None => false end)
  | None => mret false
  end.

Definition bootstrapPID (pid ppid : Z) : M bool :=
  p ← get_proc pid;
  if match p with Some p => Tagged p | None => false end then _ ← tagKernel pid; mret false else
  binary ← ask (fun E => enricher.Binary E pid);
  if streq binary [] then mret false else
  comm ← ask (fun E => readProcComm E pid);
  now ← ask now;
  r ← on_table (OnExec pid 0 ppid comm binary now);
  if (r.2 : bool) then _ ← tagKernel pid; mret false else
  enrolled ← tryEnrollObs pid ppid binary;
  if enrolled : bool then _ ← tagKernel pid; mret true else mret false.

(** ** The search for descendants

    One seed: [stack] with its top first; [seen] and the count are shared between
    seeds.  [None] when the fuel runs out. *)
Fixpoint walk (fuel : nat) (ppids : listing) (stack : list Z) (seen : gset Z) (count : Z)
    : M (option (gset Z * Z)) :=
  match fuel with
  | O => mret None
  | S fuel =>
      match stack with
      | [] => mret (Some (seen, count))
      | pid :: stack =>
          if decide (pid ∈ seen) then walk fuel ppids stack seen count else
          _ ← tagKernel pid;
          walk fuel ppids (reverse (children ppids pid) ++ stack) ({[pid]} ∪ seen) (count + 1)
      end
  end.

Definition walk_fuel (ppids : listing) : nat := S (S (length ppids)).

Fixpoint walk_seeds (ppids : listing) (seeds : list Z) (seen : gset Z) (count : Z)
    : M (option (gset Z * Z)) :=
  match seeds with
  | [] => mret (Some (seen, count))
  | seed :: seeds =>
      r ← walk (walk_fuel ppids) ppids [seed] seen count;
      match r with
      | Some (seen, count) => walk_seeds ppids seeds seen count
      | None => mret None
      end
  end.

Definition seeds_of (t : Table) : gset Z :=
  list_to_set (TaggedSnapshot t ≫= fun p => PID p :: (if RootPID p =? 0 then [] else [RootPID p])).

(** [seed_order] is the order the set of seeds is iterated in. *)
Definition propagateKernelDescendants (ppids : listing) (seed_order : gset Z -> list Z) : M (option Z) :=
  seeds ← (fun _ s => (seed_order (seeds_of (tbl s)), s));
  r ← walk_seeds ppids seeds ∅ 0;
  mret (snd <$> r).

(** ** Start-up and resynchronisation *)

(** A pass over the listing, counting the enrolled. *)
Definition pass (order : listing) (enrolled : Z) : M Z :=
  foldr (fun (e : Z * Z) (rest : Z -> M Z) n =>
    new ← bootstrapPID e.1 e.2;
    rest (if new : bool then n + 1 else n)) (fun n => mret n) order enrolled.

Definition BootstrapRunning (order1 order2 order3 ppids : listing) (seed_order : gset Z -> list Z)
    : M (Z * option Z) :=
  n ← pass order1 0;
  n ← pass order2 n;
  n ← pass order3 n;
  tagged ← propagateKernelDescendants ppids seed_order;
  mret (n, tagged).

Definition ResyncKernelTags (ppids : listing) (seed_order : gset Z -> list Z) : M (option Z) :=
  snapshot ← (fun _ s => (TaggedSnapshot (tbl s), s));
  _ ← foldr (fun p (rest : M ()) =>
        _ ← tagKernel (PID p);
        _ ← unless ((RootPID p =? 0) || (RootPID p =? PID p)) (tagKernel (RootPID p));
        rest) (mret ()) snapshot;
  propagateKernelDescendants ppids seed_order.
End bootstrap.

(** ** The search terminates and finds the descendants *)

Section walk.
Context {K : Type} `{!KernelTagger K}.
Context (ppids : listing).

Definition parent_of (p c : Z) : Prop := (c, p) ∈ ppids.

Definition with_kernel (f : K -> K) (s : engine K) : engine K :=
  mk_engine (tbl s) (f (kernel s)) (stats_ s) (connectCache s) (emitted s).

(** Tagging one process after the other. *)
Definition tag_all (pids : list Z) (k : K) : K := foldl (fun k pid => (TagPID pid k).2) k pids.

(** Edges out of processes not visited yet: each is pushed at most once more. *)
Definition pending_edges (seen : gset Z) : nat := length (List.filter (fun e => bool_decide (e.2 ∉ seen)) ppids).

Lemma elem_of_children p c : c ∈ children ppids p <-> parent_of p c.
Proof.
  unfold children, parent_of. rewrite list_elem_of_fmap. setoid_rewrite list_elem_of_In.
  setoid_rewrite List.filter_In. split.
  - intros ([c' p'] & -> & Hin & Heq%Z.eqb_eq). cbn in *. by subst.
  - intros Hin. exists (c, p). split_and!; [done..|]. apply Z.eqb_refl.
Qed.

Lemma pending_edges_visit pid seen :
  pid ∉ seen ->
  (pending_edges seen = length (children ppids pid) + pending_edges ({[pid]} ∪ seen))%nat.
Proof.
  intros Hp. unfold pending_edges, children. rewrite length_fmap.
  induction ppids as [|[c q] l IH]; [done|]. cbn [List.filter snd].
  destruct (Z.eqb_spec q pid) as [-> |Hq].
  - rewrite bool_decide_true by done. rewrite bool_decide_false by set_solver. cbn [length]. lia.
  - destruct (decide (q ∈ seen)).
    + rewrite !bool_decide_false by set_solver. lia.
    + rewrite !bool_decide_true by set_solver. cbn [length]. lia.
Qed.

Lemma pending_edges_le seen : (pending_edges seen <= length ppids)%nat.
Proof. unfold pending_edges. rewrite List.filter_length_le. done. Qed.

(** Everything below a visited process is visited or waits on the stack. *)
Definition closed_upto (stack : list Z) (seen : gset Z) : Prop :=
  forall p c, p ∈ seen -> parent_of p c -> c ∈ seen \/ c ∈ stack.

Lemma walk_spec fuel stack seen count E s :
  (length stack + pending_edges seen < fuel)%nat -> closed_upto stack seen ->
  exists order,
    walk fuel ppids stack seen count E s =
      (Some (list_to_set order ∪ seen, count + Z.of_nat (length order)), with_kernel (tag_all order) s) /\
    NoDup order /\ (forall x, x ∈ order -> x ∉ seen) /\
    (forall x, x ∈ stack -> x ∈ order \/ x ∈ seen) /\
    closed_upto [] (list_to_set order ∪ seen) /\
    forall x, x ∈ order -> exists y, y ∈ stack /\ rtc parent_of y x.
Proof.
  revert stack seen count s. induction fuel as [|fuel IH]; intros stack seen count s Hf Hc; [lia|].
  destruct stack as [|pid stack]; cbn [walk].
  { exists []. cbn [list_to_set length]. change (Z.of_nat 0) with 0. rewrite Z.add_0_r, (left_id_L ∅ (∪)).
    split_and!; [by destruct s|constructor|set_solver..|set_solver|set_solver]. }
  destruct (decide (pid ∈ seen)) as [Hs|Hs].
  - destruct (IH stack seen count s) as (order & Hw & Hnd & Hnew & Hst & Hcl & Hre).
    { cbn [length] in Hf. lia. }
    { intros p c Hp Hpc. destruct (Hc p c Hp Hpc); set_solver. }
    exists order. rewrite Hw. split_and!; [done..|set_solver|done|].
    intros x Hx. destruct (Hre x Hx) as (y & ? & ?). exists y. set_solver.
  - destruct (IH (reverse (children ppids pid) ++ stack) ({[pid]} ∪ seen) (count + 1)
                (with_kernel (fun k => (TagPID pid k).2) s)) as (order & Hw & Hnd & Hnew & Hst & Hcl & Hre).
    { rewrite length_app, length_reverse. cbn [length] in Hf. rewrite (pending_edges_visit pid seen Hs) in Hf. lia. }
    { intros p c Hp Hpc. apply elem_of_union in Hp as [->%elem_of_singleton|Hp].
      - right. apply elem_of_app. left. by apply elem_of_reverse, elem_of_children.
      - destruct (Hc p c Hp Hpc) as [?|?]; [set_solver|]. set_unfold. tauto. }
    exists (pid :: order). split_and!.
    + unfold mbind, handler_bind. cbv zeta. change (tagKernel pid E s) with ((), with_kernel (fun k => (TagPID pid k).2) s).
      cbn [fst snd]. rewrite Hw. cbn [list_to_set length]. f_equal.
      f_equal. f_equal; [set_solver|lia].
    + constructor; [|done]. intros Hin. by apply (Hnew pid Hin); set_solver.
    + intros x [-> |Hx]%elem_of_cons; [done|]. specialize (Hnew x Hx). set_solver.
    + intros x [-> |Hx]%elem_of_cons; [set_solver|].
      destruct (Hst x) as [?|?]; [set_solver..|]. set_unfold. tauto.
    + intros p c Hp Hpc. destruct (Hcl p c) as [?|?]; [|done|left|right]; set_solver.
    + intros x [-> |Hx]%elem_of_cons; [exists pid; split; [set_solver|done]|].
      destruct (Hre x Hx) as (y & Hy & Hyx). apply elem_of_app in Hy as [Hy|Hy]; [rewrite elem_of_reverse in Hy|].
      * exists pid. split; [set_solver|]. apply (rtc_l _ pid y); [by apply elem_of_children|done].
      * exists y. split; [set_solver|done].
Qed.

Lemma walk_seeds_spec seeds seen count E s :
  closed_upto [] seen ->
  exists order,
    walk_seeds ppids seeds seen count E s =
      (Some (list_to_set order ∪ seen, count + Z.of_nat (length order)), with_kernel (tag_all order) s) /\
    NoDup order /\ (forall x, x ∈ order -> x ∉ seen) /\
    (forall x, x ∈ seeds -> x ∈ order \/ x ∈ seen) /\
    closed_upto [] (list_to_set order ∪ seen) /\
    forall x, x ∈ order -> exists y, y ∈ seeds /\ rtc parent_of y x.
Proof.
  revert seen count s. induction seeds as [|seed seeds IH]; intros seen count s Hc; cbn [walk_seeds].
  { exists []. cbn [list_to_set length]. change (Z.of_nat 0) with 0. rewrite Z.add_0_r, (left_id_L ∅ (∪)).
    split_and!; [by destruct s|constructor|set_solver..|set_solver|set_solver]. }
  destruct (walk_spec (walk_fuel ppids) [seed] seen count E s) as (o1 & Hw & Hnd1 & Hnew1 & Hst1 & Hcl1 & Hre1).
  { pose proof (pending_edges_le seen). unfold walk_fuel. cbn [length]. lia. }
  { intros p c Hp Hpc. destruct (Hc p c Hp Hpc); [by left|set_solver]. }
  destruct (IH (list_to_set o1 ∪ seen) (count + Z.of_nat (length o1)) (with_kernel (tag_all o1) s))
    as (o2 & Hw2 & Hnd2 & Hnew2 & Hst2 & Hcl2 & Hre2); [done|].
  exists (o1 ++ o2). split_and!.
  - unfold mbind, handler_bind. cbv zeta. rewrite Hw. cbn [fst snd]. rewrite Hw2. f_equal.
    + f_equal. rewrite list_to_set_app_L, length_app. f_equal; [set_solver|lia].
    + unfold with_kernel, tag_all. cbn [tbl kernel stats_ connectCache emitted]. by rewrite foldl_app.
  - apply NoDup_app. split_and!; [done| |done]. intros x Hx1 Hx2. specialize (Hnew2 x Hx2). set_solver.
  - intros x [Hx|Hx]%elem_of_app; [auto|]. specialize (Hnew2 x Hx). set_solver.
  - intros x [-> |Hx]%elem_of_cons.
    + destruct (Hst1 seed); [by left|set_solver..].
    + destruct (Hst2 x Hx); set_solver.
  - rewrite list_to_set_app_L. intros p c Hp Hpc. destruct (Hcl2 p c) as [?|?]; set_solver.
  - intros x [Hx|Hx]%elem_of_app.
    + destruct (Hre1 x Hx) as (y & ->%list_elem_of_singleton & ?). exists seed. split; [set_solver|done].
    + destruct (Hre2 x Hx) as (y & ? & ?). exists y. split; [set_solver|done].
Qed.

(** C18. The walk over process descendants ends and is complete for every listing of
    parents, cyclic ones too: it tags each process that is a tagged process, a
    lineage root, or listed as a descendant of one, each once, and no other. *)
Theorem propagate_spec seed_order E s :
  (forall X : gset Z, seed_order X ≡ₚ elements X) ->
  exists order,
    propagateKernelDescendants ppids seed_order E s =
      (Some (Z.of_nat (length order)), with_kernel (tag_all order) s) /\
    NoDup order /\
    forall x, x ∈ order <-> exists y, y ∈ seeds_of (tbl s) /\ rtc parent_of y x.
Proof.
  intros Hord. unfold propagateKernelDescendants, mbind, handler_bind. cbv zeta. cbn [fst snd].
  destruct (walk_seeds_spec (seed_order (seeds_of (tbl s))) ∅ 0 E s) as (order & Hw & Hnd & _ & Hst & Hcl & Hre).
  { intros p c Hp. set_solver. }
  rewrite Hw. exists order. split_and!; [done..|]. intros x. split.
  - intros Hx. destruct (Hre x Hx) as (y & Hy & ?). exists y. split; [|done].
    rewrite Hord in Hy. by apply elem_of_elements.
  - intros (y & Hy & Hyx). assert (y ∈ order) as Hyo.
    { destruct (Hst y) as [?|?]; [|done|set_solver]. rewrite Hord. by apply elem_of_elements. }
    clear Hy. induction Hyx as [|a b c Hab Hbc IH]; [done|]. apply IH.
    destruct (Hcl a b) as [?|?]; set_solver.
Qed.
End walk.
