(* ===== verification/EngineFacts.v ===== *)
(** * EngineFacts: what the engine does with a process

    The effect of each handler on the table, the kernel's tags and the records, and
    the invariants of a whole run ([run]): whose agent an entry and a record name,
    and that the kernel has the tag of every live tagged process. *)

From stdpp Require Import strings gmap sets.
From Stdlib Require Import String.
From S2P Require Import Prelude Types Policy Compile Fingerprint Proctable Config Feedback Engine Bootstrap.
From S2P Require Formats.
Import Formats proctable.

#[local] Open Scope list_scope.
#[local] Open Scope Z_scope.

(** ** The interface of the kernel's tag map *)

Class TaggerLaws (K : Type) `{KernelTagger K} (tagged : K -> gset Z) : Prop := {
  tag_effect pid k :
    tagged (TagPID pid k).2 = {[pid]} ∪ tagged k \/
    ((TagPID pid k).1 = false /\ tagged (TagPID pid k).2 = tagged k);
  untag_effect pid k : tagged (UntagPID pid k).2 = tagged k ∖ {[pid]}
}.

Lemma MapTagger_laws put_ok : @TaggerLaws (gmap Z Z) (MapTagger put_ok) dom.
Proof.
  split; intros pid m; cbn [TagPID UntagPID MapTagger].
  - destruct (put_ok pid m); cbn; [left|right]; [by rewrite dom_insert_L|done].
  - cbn. by rewrite dom_delete_L.
Qed.

(** The agent writes one shared map through two loaders.  Untagging reports an error
    from the second, which finds the tag gone, but has its effect. *)
Lemma MultiTagger_laws {K} (tagged : K -> gset Z) (t : KernelTagger K) (ts : list (KernelTagger K)) :
  (forall u, u ∈ t :: ts -> @TaggerLaws K u tagged) -> @TaggerLaws K (MultiTagger (t :: ts)) tagged.
Proof.
  intros Hl. split; intros pid k; cbn [TagPID UntagPID MultiTagger].
  - revert t k Hl. induction ts as [|u ts IH]; intros t k Hl; cbn [fmap list_fmap fan_out].
    + pose proof (@tag_effect K t tagged (Hl t ltac:(set_solver)) pid k) as Ht.
      by destruct (@TagPID K t pid k) as [[] k'].
    + cbn [fmap list_fmap fan_out] in IH.
      pose proof (@tag_effect K t tagged (Hl t ltac:(set_solver)) pid k) as Ht.
      destruct (@TagPID K t pid k) as [[] k']; cbn [fst snd] in *.
      * destruct Ht as [Ht|[? _]]; [|done].
        destruct (IH u k' (fun v Hv => Hl v ltac:(set_solver))) as [He|[He He']]; left; set_solver.
      * destruct Ht as [?|[_ ?]]; auto.
  - revert t k Hl. induction ts as [|u ts IH]; intros t k Hl; cbn [fmap list_fmap fan_out].
    + pose proof (@untag_effect K t tagged (Hl t ltac:(set_solver)) pid k).
      by destruct (@UntagPID K t pid k) as [[] ?].
    + cbn [fmap list_fmap fan_out] in IH.
      pose proof (@untag_effect K t tagged (Hl t ltac:(set_solver)) pid k) as Ht.
      destruct (@UntagPID K t pid k) as [[] k']; cbn [fst snd] in *; [|done].
      rewrite (IH u k' (fun v Hv => Hl v ltac:(set_solver))). set_solver.
Qed.

(** ** Environment keys *)

Lemma env_key_nonempty kv : env_key kv <> Some [].
Proof.
  unfold env_key. destruct (IndexByte kv EQUALS) as [[|i]|] eqn:Hi.
  - destruct (streq kv []) eqn:He; [done|]. intros [= ->]. done.
  - destruct kv; cbn in *; done.
  - destruct (streq kv []) eqn:He; [done|]. intros [= ->]. done.
Qed.

Lemma envKeys_nonempty env : [] ∉ envKeys env.
Proof. unfold envKeys. rewrite list_elem_of_omap. intros (kv & _ & Hk). by apply env_key_nonempty in Hk. Qed.

Lemma readProcEnvKeys_nonempty E pid : [] ∉ readProcEnvKeys E pid.
Proof.
  unfold readProcEnvKeys. destruct (read_environ E pid) as [data|]; [|set_solver].
  rewrite list_elem_of_omap. intros (kv & _ & Hk). unfold environ_key in Hk.
  destruct (IndexByte kv EQUALS) as [[|i]|] eqn:Hi; [done| |done]. by destruct kv.
Qed.

(** ** Effects of the handlers *)

Section effects.
Context {K : Type} `{!KernelTagger K}.
Context (cfg : config.Config) (fps : option (list fp.Fingerprint)) (policy : option (CompiledPolicy * Z)).
Context (ipInCIDR : gostring -> gostring -> bool) (ParseIP_ok : gostring -> bool).
Context (addr_text : address -> gostring).

Definition with_table (f : Table -> Table) (s : engine K) : engine K :=
  mk_engine (f (tbl s)) (kernel s) (stats_ s) (connectCache s) (emitted s).
Definition with_emitted (rs : list report.Record_) (s : engine K) : engine K :=
  mk_engine (tbl s) (kernel s) (stats_ s) (connectCache s) (emitted s ++ rs).

(** The primitives in front of a continuation. *)
Lemma run_eq {X Y} (m : handler K X) (g : X -> handler K Y) E s a s' :
  m E s = (a, s') -> (m ≫= g) E s = g a E s'.
Proof. intros H. unfold mbind, handler_bind. by rewrite H. Qed.

Lemma run_ask {X Y} (f : proc_env -> X) (g : X -> handler K Y) E s : (ask f ≫= g) E s = g (f E) E s.
Proof. done. Qed.

Lemma run_on_table {X Y} (f : Table -> X * Table) (g : X -> handler K Y) E s :
  (on_table f ≫= g) E s = g (f (tbl s)).1 E (with_table (fun _ => (f (tbl s)).2) s).
Proof. done. Qed.

Lemma run_get_proc {Y} pid (g : option Proc -> handler K Y) E s :
  (get_proc pid ≫= g) E s = g (tbl s !! pid) E s.
Proof. done. Qed.

(** The process is in a cgroup of Mode A. *)
Definition in_agent_cgroup (E : proc_env) (pid : Z) : bool :=
  config.a_Enabled (config.ModeA cfg) && negb (streq (enricher.CgroupPath E pid) []) &&
  existsb (fun sub => negb (streq sub []) && Contains (enricher.CgroupPath E pid) sub)
    (config.CgroupContains (config.ModeA cfg)).

Definition cgroup_agent : gostring :=
  let id := config.DefaultAgentID (config.ModeA cfg) in if streq id [] then bytes_of "agent" else id.

(** The agent a process enrolls as, and by which mode. *)
Definition enrolment (E : proc_env) (pid : Z) (o : fp.Observation) : option (gostring * gostring) :=
  if in_agent_cgroup E pid then Some (cgroup_agent, ModeA) else
  match fps with
  | Some fps =>
      if config.b_Enabled (config.ModeB cfg)
      then (fun f => (fp.AgentID f, ModeB)) <$> fp.Evaluate fps o else None
  | None => None
  end.

Lemma tryModes_run pid (obs : handler K fp.Observation) E s o :
  obs E s = (o, s) ->
  exists reason, tryModes cfg fps pid obs E s =
    match enrolment E pid o with
    | Some (a, mode) => (true, with_table (Tag pid a mode reason) s)
    | None => (false, s)
    end.
Proof.
  intros Hobs. unfold tryModes, matchCgroup, enrolment, in_agent_cgroup.
  unfold mbind, handler_bind, mret, handler_ret, ask, on_table, with_table. cbv zeta.
  destruct (config.a_Enabled _); cbn [fst snd andb].
  1: destruct (streq (enricher.CgroupPath E pid) []); cbn [fst snd andb negb].
  2: destruct (existsb _ (config.CgroupContains _)); cbn [fst snd].
  2: by eexists.
  all: destruct fps as [l|]; [|by exists []].
  all: destruct (config.b_Enabled _); cbn [negb]; [|by exists []].
  all: rewrite Hobs; cbn [fst snd]; destruct (fp.Evaluate l o) as [f|]; cbn; [by eexists|by exists []].
Qed.

Lemma enrolment_nonempty E pid o a mode :
  (forall l, fps = Some l -> fp.validate l = true) ->
  enrolment E pid o = Some (a, mode) -> a <> [] /\ (mode = ModeA \/ mode = ModeB).
Proof.
  intros Hv. unfold enrolment. destruct (in_agent_cgroup E pid).
  - intros [= <- <-]. split; [|auto]. unfold cgroup_agent. cbv zeta.
    destruct (streq _ []) eqn:He; [done|]. intros Hn. rewrite Hn, streq_refl in He. discriminate.
  - destruct fps as [l|]; [|done]. destruct (config.b_Enabled _); [|done].
    unfold fp.Evaluate. destruct (List.find _ l) as [f|] eqn:Hf; [|done]. intros [= <- <-]. split; [|auto].
    apply List.find_some in Hf as [Hin _]. specialize (Hv l eq_refl). unfold fp.validate in Hv.
    rewrite forallb_forall in Hv. specialize (Hv f Hin). rewrite !andb_true_iff, !negb_true_iff in Hv.
    intros Hn. rewrite Hn, streq_refl in Hv. destruct Hv as [[_ Hv] _]. discriminate.
Qed.

(** The table and the kernel after a handler; nothing else decides on tags. *)
Definition view (s : engine K) : Table * K := (tbl s, kernel s).

Lemma evaluateShadow_run ev p rec E s :
  exists rs, evaluateShadow cfg policy ipInCIDR ParseIP_ok addr_text ev p rec E s = ((), with_emitted rs s) /\
    Forall (fun r => report.PID r = PID p /\ report.AgentID r = AgentID p /\ report.RootPID r = RootPID p) rs.
Proof.
  assert (forall s : engine K, with_emitted [] s = s) as Hnil.
  { intros []. unfold with_emitted. cbn. by rewrite app_nil_r. }
  unfold evaluateShadow. destruct policy as [[cp version]|]; [|exists []; by rewrite Hnil]. cbv zeta.
  destruct (negb (ScopeMatches _ _)); [exists []; by rewrite Hnil|].
  unfold mbind, handler_bind. cbv zeta. cbn [fst snd ask].
  set (hits := if streq _ config.PolicyModeEnforce then _ else _). clearbody hits.
  unfold ask. cbn [snd]. revert s. induction hits as [|hit hits IH]; intros s; cbn [foldr].
  { exists []. by rewrite Hnil. }
  destruct (IH (with_emitted [shadow_record p rec version hit] s)) as (rs & Hr & Hall).
  exists (shadow_record p rec version hit :: rs). split; [|by constructor].
  etransitivity; [exact Hr|]. unfold with_emitted. cbn. by rewrite <- app_assoc.
Qed.

Lemma handleFork_view ev E s :
  let r := OnFork (event.PID ev) (event.PPID ev) (event.Comm ev) (now E) (tbl s) in
  view (handleFork ev E s).2 =
    (r.2, if Tagged r.1
          then tag_all (PID r.1 :: (if RootPID r.1 =? 0 then [] else [RootPID r.1]) ++ [event.PPID ev]) (kernel s)
          else kernel s).
Proof.
  cbv zeta. unfold handleFork, mbind, handler_bind, on_table, ask. cbn [fst snd tbl].
  destruct (OnFork _ _ _ _ _) as [c t']. cbn [fst snd]. destruct (Tagged c); [|done].
  by destruct (RootPID c =? 0).
Qed.

Lemma handleExit_view ev E s :
  view (handleExit ev E s).2 =
    (OnExit (event.PID ev) (now E) (tbl s),
     match tbl s !! event.PID ev with
     | Some p => if Tagged p then (UntagPID (event.PID ev) (kernel s)).2 else kernel s
     | None => kernel s
     end).
Proof.
  unfold handleExit, mbind, handler_bind, get_proc, Get. cbn [fst snd].
  destruct (tbl s !! event.PID ev) as [p|]; [|done]. by destruct (Tagged p).
Qed.

Lemma recordConnectDest_view ev E s : view (recordConnectDest addr_text ev E s).2 = view s.
Proof.
  unfold recordConnectDest, mbind, handler_bind, get_proc, Get. cbv zeta. cbn [fst snd].
  destruct (streq _ _); [done|]. destruct (tbl s !! event.PID ev) as [p|]; [|done]. cbn [fst snd].
  destruct (Tagged p); [|done]. by destruct (other_process ev p).
Qed.

(** The conditions under which an action of a tagged process tags it again. *)
Definition retagged (ev : event.Event) (t : Table) : bool :=
  config.act_Enabled (config.Actions cfg) && config.CaptureEnabled (config.Actions cfg) (TypeString ev) &&
  match t !! event.PID ev with Some p => Tagged p | None => false end.

Lemma handleAction_view ev E s :
  view (handleAction cfg policy ipInCIDR ParseIP_ok addr_text ev E s).2 =
    (tbl s, if retagged ev (tbl s) then (TagPID (event.PID ev) (kernel s)).2 else kernel s).
Proof.
  unfold handleAction, retagged. cbv zeta.
  destruct (config.act_Enabled _); cbn [negb andb]; [|done].
  destruct (config.CaptureEnabled _ _); cbn [negb andb]; [|done].
  unfold mbind, handler_bind, get_proc, Get. cbv zeta. cbn [fst snd].
  destruct (tbl s !! event.PID ev) as [p|]; [|done]. destruct (Tagged p); cbn [negb]; [|done].
  destruct (other_process ev p); [done|]. destruct (_ && _ && _); [done|].
  set (rec := action_record _ _ _ _).
  edestruct (evaluateShadow_run ev p rec E) as (rs & Hr & _). erewrite Hr. done.
Qed.

(** The start times of an entry and of an event are both known and differ. *)
Definition start_times_differ (p : Proc) (startNS : Z) : Prop :=
  StartNS p <> 0 /\ startNS <> 0 /\ StartNS p <> startNS.

#[global] Instance start_times_differ_dec p startNS : base.Decision (start_times_differ p startNS).
Proof. unfold start_times_differ. apply _. Defined.

Lemma reused_spec p startNS : reused p startNS = bool_decide (start_times_differ p startNS).
Proof.
  apply eq_bool_prop_intro. rewrite bool_decide_spec. unfold reused, start_times_differ.
  rewrite !andb_True, !negb_True, !Is_true_false, !Z.eqb_neq. tauto.
Qed.

(** Where the tag of a process comes from when it execs: its own entry unless the id
    was reused, then its parent, then the modes. *)
Definition exec_tag (E : proc_env) (t : Table) (pid ppid startNS : Z) (o : fp.Observation)
    : option (gostring * Z) :=
  let parent :=
    match (if ppid =? pid then None else t !! ppid) with
    | Some q => if Tagged q then Some (AgentID q, RootPID q) else (fun r => (r.1, pid)) <$> enrolment E pid o
    | None => (fun r => (r.1, pid)) <$> enrolment E pid o
    end in
  match t !! pid with
  | Some p => if Tagged p && negb (bool_decide (start_times_differ p startNS)) then Some (AgentID p, RootPID p) else parent
  | None => parent
  end.

Lemma OnExec_frame pid startNS ppid comm binary now t q :
  q <> pid -> (OnExec pid startNS ppid comm binary now t).2 !! q = t !! q.
Proof. intros Hq. unfold OnExec. cbn [snd]. by rewrite !lookup_insert_ne. Qed.

Lemma OnExec_lookup pid startNS ppid comm binary now t :
  (OnExec pid startNS ppid comm binary now t).2 !! pid = Some (OnExec pid startNS ppid comm binary now t).1.1.
Proof. unfold OnExec. cbn [fst snd]. by rewrite lookup_insert_eq. Qed.
(** Where a record's agent comes from: a tagged entry, unless it names none. *)
Definition attributed (t : Table) (r : report.Record_) : Prop :=
  report.AgentID r <> [] ->
  exists p, t !! report.PID r = Some p /\ Tagged p = true /\
    report.AgentID r = AgentID p /\ report.RootPID r = RootPID p.

(** A handler that changes the table to [t] and the kernel to [k] and emits only
    attributed records. *)
Definition handles (s s' : engine K) (t : Table) (k : K) : Prop :=
  view s' = (t, k) /\ exists rs, emitted s' = emitted s ++ rs /\ Forall (attributed t) rs.

Lemma handles_nothing s s' : view s' = view s -> emitted s' = emitted s -> handles s s' (tbl s) (kernel s).
Proof. intros Hv He. split; [done|]. exists []. by rewrite He, app_nil_r. Qed.

Definition exec_binary (E : proc_env) (ev : event.Event) : gostring :=
  if streq (event.Filename ev) [] then enricher.Binary E (event.PID ev) else event.Filename ev.

Definition exec_observation (E : proc_env) (ev : event.Event) : fp.Observation :=
  fp.mk_observation (exec_binary E ev) (event.Argv ev) (envKeys (event.Env ev)).

Definition OnExec_of (E : proc_env) (ev : event.Event) (t : Table) : Proc * bool * Table :=
  OnExec (event.PID ev) (event.StartTimeNs ev) (event.PPID ev) (event.Comm ev) (exec_binary E ev) (now E) t.

Lemma OnExec_tagged pid startNS ppid comm binary now t :
  (OnExec pid startNS ppid comm binary now t).1.2 = Tagged (OnExec pid startNS ppid comm binary now t).1.1.
Proof. done. Qed.

Lemma OnExec_pid A pid startNS ppid comm binary now t :
  table_ok A t -> PID (OnExec pid startNS ppid comm binary now t).1.1 = pid.
Proof.
  intros Ht. pose proof (OnExec_ok A pid startNS ppid comm binary now t Ht) as Ht'.
  apply (entry_pid A), (Ht' pid). apply OnExec_lookup.
Qed.

(** What follows [OnExec]: an untagged process may enroll, a tagged one is tagged in
    the kernel. *)
Definition settle (E : proc_env) (pid : Z) (r : Proc * bool * Table) (o : fp.Observation) (reason : gostring)
    (k : K) : Table * K :=
  (if Tagged r.1.1 then r.2 else
   match enrolment E pid o with Some (a, mode) => Tag pid a mode reason r.2 | None => r.2 end,
   if Tagged r.1.1 || bool_decide (is_Some (enrolment E pid o)) then (TagPID pid k).2 else k).

Section exec.
Context (Hv : forall l, fps = Some l -> fp.validate l = true).
Context (A : Z -> gostring -> Prop).

Lemma handleExec_handles ev E s :
  table_ok A (tbl s) ->
  let r := OnExec_of E ev (tbl s) in
  exists reason,
  let v := settle E (event.PID ev) r (exec_observation E ev) reason (kernel s) in
  handles s (handleExec cfg fps ev E s).2 v.1 v.2.
Proof.
  intros Ht r.
  pose proof (OnExec_lookup (event.PID ev) (event.StartTimeNs ev) (event.PPID ev) (event.Comm ev)
                (exec_binary E ev) (now E) (tbl s)) as Hl.
  pose proof (OnExec_pid A (event.PID ev) (event.StartTimeNs ev) (event.PPID ev) (event.Comm ev)
                (exec_binary E ev) (now E) (tbl s) Ht) as Hpid.
  unfold handleExec.
  assert (forall X (f : gostring -> handler K X),
    ((if streq (event.Filename ev) [] then ask (fun E => enricher.Binary E (event.PID ev))
      else mret (event.Filename ev)) ≫= f) E s = f (exec_binary E ev) E s) as Hbin.
  { intros. unfold exec_binary. by destruct (streq _ _). }
  rewrite run_ask, Hbin, run_on_table. clear Hbin. subst r. unfold OnExec_of, settle. cbn [fst snd].
  destruct (OnExec _ _ _ _ _ _ _) as [[p b] t'] eqn:Hr. cbn [fst snd] in *.
  assert (b = Tagged p) as -> by (pose proof (f_equal (fun x => (x.1.1, x.1.2)) Hr) as [= <- <-]; done).
  destruct (Tagged p) eqn:Htag; cbn [orb].
  - exists []. split; unfold mbind, handler_bind, mret, handler_ret, unless; cbn -[Tagged]; rewrite Htag; [done|].
    eexists. split; [done|]. constructor; [|done]. intros _. exists p. cbn. by rewrite Hpid.
  - set (s1 := with_table (fun _ => t') s).
    destruct (tryModes_run (event.PID ev) (mret (exec_observation E ev)) E s1 (exec_observation E ev) eq_refl)
      as (reason & Hrun).
    exists reason.
    change (tryEnroll cfg fps ev (exec_binary E ev) E s1 = match enrolment E (event.PID ev) (exec_observation E ev) with
      | Some (a, mode) => (true, with_table (Tag (event.PID ev) a mode reason) s1) | None => (false, s1) end) in Hrun.
    destruct (enrolment E (event.PID ev) (exec_observation E ev)) as [[a mode]|] eqn:Hen.
    + destruct (enrolment_nonempty E _ _ a mode Hv Hen) as [Ha _]. rewrite bool_decide_true by eauto.
      set (q := set_tag p a mode reason (event.PID ev)).
      assert (Tag (event.PID ev) a mode reason t' = <[event.PID ev := q]> t') as Htg by by unfold Tag; rewrite Hl.
      assert (Tagged q = true) as Hq by by apply Tagged_spec.
      assert (with_table (Tag (event.PID ev) a mode reason) s1 = with_table (fun _ => <[event.PID ev := q]> t') s) as Hs.
      { unfold with_table. cbn [tbl kernel stats_ connectCache emitted s1 with_table]. by rewrite Htg. }
      rewrite Hs in Hrun. erewrite run_eq.
      2: { erewrite run_eq by exact Hrun. rewrite run_get_proc. cbn [with_table tbl]. rewrite lookup_insert_eq. reflexivity. }
      cbn [from_option]. change (id q) with q. rewrite Htg.
      split; unfold mbind, handler_bind, unless; cbn -[Tagged q]; rewrite Hq; [done|].
      eexists. split; [done|]. constructor; [|done]. intros _. exists q. cbn -[Tagged q].
      change (PID q) with (PID p). by rewrite Hpid, lookup_insert_eq.
    + rewrite bool_decide_false by (by intros []).
      erewrite run_eq.
      2: { erewrite run_eq by exact Hrun. rewrite run_get_proc. cbn [with_table tbl s1]. rewrite Hl. reflexivity. }
      cbn [from_option]. change (id p) with p.
      split; unfold mbind, handler_bind, mret, handler_ret, unless; cbn -[Tagged]; rewrite Htag;
        destruct (config.AllEvents _); cbn; [done..| |].
      * eexists. split; [done|]. constructor; [|done]. by intros [].
      * exists []. by rewrite app_nil_r.
Qed.

(** *** The tag after an exec *)

Lemma OnExec_tag E pid ppid startNS comm binary t o :
  let p := (OnExec pid startNS ppid comm binary (now E) t).1.1 in
  exec_tag E t pid ppid startNS o =
    (if Tagged p then Some (AgentID p, RootPID p) else (fun r => (r.1, pid)) <$> enrolment E pid o).
Proof.
  cbv zeta. unfold OnExec, exec_tag. cbn [fst].
  set (q := mk_proc _ startNS ppid comm binary _ _ _ _ _ (now E) false).
  assert (match (if ppid =? pid then None else t !! ppid) with
          | Some r => if Tagged r then Some (AgentID r, RootPID r) else (fun r => (r.1, pid)) <$> enrolment E pid o
          | None => (fun r => (r.1, pid)) <$> enrolment E pid o
          end = (if Tagged q then (fun r => (r.1, pid)) <$> enrolment E pid o else
                 let p := match <[pid := q]> t !! ppid with
                   | Some parent => if Tagged parent
                       then set_tag q (AgentID parent) ModeInherited (bytes_of "child of " ++ Comm parent) (RootPID parent)
                       else q
                   | None => q end in
                 if Tagged p then Some (AgentID p, RootPID p) else (fun r => (r.1, pid)) <$> enrolment E pid o)
          \/ Tagged q = true) as Hpar.
  { destruct (Tagged q) eqn:Hq; [by right|left]. cbv zeta. destruct (Z.eqb_spec ppid pid) as [-> |Hne].
    - by rewrite lookup_insert_eq, Hq, Hq.
    - rewrite lookup_insert_ne by done. destruct (t !! ppid) as [r|]; [|by rewrite Hq].
      destruct (Tagged r) eqn:Hr; [|by rewrite Hq].
      replace (Tagged (set_tag _ _ _ _ _)) with true by (symmetry; exact Hr). done. }
  assert (Tagged q = match t !! pid with Some p => Tagged p && negb (reused p startNS) | None => false end) as Hq.
  { subst q. unfold Tagged at 1. cbn [AgentID]. destruct (t !! pid) as [p|]; [|done].
    destruct (reused p startNS); cbn [negb]; [by rewrite andb_false_r|by rewrite andb_true_r]. }
  destruct (t !! pid) as [p|] eqn:Hp.
  - rewrite <- reused_spec. destruct (reused p startNS) eqn:Hre; cbn [negb] in *.
    + rewrite andb_false_r in *. destruct Hpar as [-> |]; [by rewrite Hq|congruence].
    + rewrite andb_true_r in *. destruct (Tagged p) eqn:Htp; [|destruct Hpar as [-> |]; [by rewrite Hq|congruence]].
      rewrite Hq, Hq. done.
  - destruct Hpar as [-> |]; [by rewrite Hq|congruence].
Qed.

Lemma exec_run ev E s :
  table_ok A (tbl s) ->
  let s' := (handleExec cfg fps ev E s).2 in
  (exists p, tbl s' !! event.PID ev = Some p /\
     match exec_tag E (tbl s) (event.PID ev) (event.PPID ev) (event.StartTimeNs ev) (exec_observation E ev) with
     | Some (a, root) => Tagged p = true /\ AgentID p = a /\ RootPID p = root /\
                         kernel s' = (TagPID (event.PID ev) (kernel s)).2
     | None => Tagged p = false /\ kernel s' = kernel s
     end) /\
  forall q, q <> event.PID ev -> tbl s' !! q = tbl s !! q.
Proof.
  intros Ht s'. destruct (handleExec_handles ev E s Ht) as (reason & Hview & _). fold s' in Hview.
  unfold OnExec_of, settle in Hview. apply pair_equal_spec in Hview as [-> ->].
  pose proof (OnExec_lookup (event.PID ev) (event.StartTimeNs ev) (event.PPID ev) (event.Comm ev)
                (exec_binary E ev) (now E) (tbl s)) as Hl.
  pose proof (OnExec_frame (event.PID ev) (event.StartTimeNs ev) (event.PPID ev) (event.Comm ev)
                (exec_binary E ev) (now E) (tbl s)) as Hfr.
  rewrite (OnExec_tag E (event.PID ev) (event.PPID ev) (event.StartTimeNs ev) (event.Comm ev) (exec_binary E ev)).
  destruct (OnExec _ _ _ _ _ _ _) as [[p b] t']. cbn [fst snd] in *.
  destruct (Tagged p) eqn:Htag; cbn [orb]; [split; [exists p; auto|exact Hfr]|].
  destruct (enrolment E (event.PID ev) (exec_observation E ev)) as [[a mode]|] eqn:Hen; cbn [fmap option_fmap option_map fst].
  - rewrite bool_decide_true by eauto. unfold Tag. rewrite Hl. split.
    + exists (set_tag p a mode reason (event.PID ev)). rewrite lookup_insert_eq. split_and!; [done| |done..].
      apply Tagged_spec. by destruct (enrolment_nonempty E _ _ a mode Hv Hen).
    + intros q Hq. rewrite lookup_insert_ne by done. by apply Hfr.
  - rewrite bool_decide_false by (by intros []). split; [exists p; auto|exact Hfr].
Qed.

(** C15. Which process is an agent's after an exec: it keeps the tag of its table
    entry unless the start times show a reused process id, else has the tag of its
    parent, else the one the cgroup or the first matching signature gives, and else
    none; the kernel map has it exactly when it is tagged now or the map had it
    before, and nothing else changes in either. *)
Theorem exec_tags ev E s :
  table_ok A (tbl s) ->
  let s' := (handleExec cfg fps ev E s).2 in
  (exists p, tbl s' !! event.PID ev = Some p /\
     match exec_tag E (tbl s) (event.PID ev) (event.PPID ev) (event.StartTimeNs ev) (exec_observation E ev) with
     | Some (a, root) => Tagged p = true /\ AgentID p = a /\ RootPID p = root /\
                         kernel s' = (TagPID (event.PID ev) (kernel s)).2
     | None => Tagged p = false /\ kernel s' = kernel s
     end) /\
  forall q, q <> event.PID ev -> tbl s' !! q = tbl s !! q.
Proof. exact (exec_run ev E s). Qed.
End exec.
End effects.
