(* ===== verification/Lineage.v ===== *)
(** * Lineage: runs of the engine

    A run is a sequence of inputs from an empty table: events, the enrolment of what
    already runs, resynchronisations and prunes, each with the clock and /proc of its
    moment.  In every run, an entry and a record name the agent of an enrolment of
    their root ([lineage_sound]), and the kernel has the tag of every live tagged
    process but those whose exit it has already seen ([tags_reach_kernel]). *)

From stdpp Require Import strings gmap sets.
From Stdlib Require Import String.
From S2P Require Import Prelude Types Policy Compile Fingerprint Proctable Config Feedback Engine Bootstrap EngineFacts.
From S2P Require Formats.
Import Formats proctable.

#[local] Open Scope list_scope.
#[local] Open Scope Z_scope.

Inductive input :=
  | Event (ev : event.Event)
  | Start (order1 order2 order3 ppids : listing) (seed_order : gset Z -> list Z)
  | Resync (ppids : listing) (seed_order : gset Z -> list Z)
  | PruneAfter (maxAge : Z).

Section lineage.
Context {K : Type} `{!KernelTagger K}.
Context (cfg : config.Config) (fps : option (list fp.Fingerprint)) (policy : option (CompiledPolicy * Z)).
Context (ipInCIDR : gostring -> gostring -> bool) (ParseIP_ok : gostring -> bool).
Context (addr_text : address -> gostring).

Definition step_input (E : proc_env) (i : input) (s : engine K) : engine K :=
  match i with
  | Event ev => (Handle cfg fps policy ipInCIDR ParseIP_ok addr_text ev E s).2
  | Start o1 o2 o3 ppids seed_order => (BootstrapRunning cfg fps o1 o2 o3 ppids seed_order E s).2
  | Resync ppids seed_order => (ResyncKernelTags ppids seed_order E s).2
  | PruneAfter maxAge => with_table (fun t => (Prune maxAge (now E) t).2) s
  end.

Definition run (h : list (proc_env * input)) (s : engine K) : engine K :=
  foldl (fun s x => step_input x.1 x.2 s) s h.

Definition started (k : K) (cache : bool) : engine K :=
  mk_engine ∅ k stats.newStats (if cache then Some ∅ else None) [].

(** ** Enrolments *)

Definition bootstrap_observation (E : proc_env) (pid : Z) : fp.Observation :=
  fp.mk_observation (enricher.Binary E pid) (readProcCmdline E pid) (readProcEnvKeys E pid).

(** The input may enroll the process as the agent: it execs, or runs at the start,
    and a mode recognises it. *)
Definition enrolls (E : proc_env) (i : input) (pid : Z) (a : gostring) : Prop :=
  match i with
  | Event ev => event.Type_ ev = EVENT_EXEC /\ event.PID ev = pid /\
                exists mode, enrolment cfg fps E pid (exec_observation E ev) = Some (a, mode)
  | Start o1 o2 o3 _ _ => (exists ppid, (pid, ppid) ∈ o1 ++ o2 ++ o3) /\
                exists mode, enrolment cfg fps E pid (bootstrap_observation E pid) = Some (a, mode)
  | _ => False
  end.

Definition anchors (h : list (proc_env * input)) (pid : Z) (a : gostring) : Prop :=
  exists E i, (E, i) ∈ h /\ enrolls E i pid a.

(** The search and the resynchronisation only tag processes in the kernel. *)
Lemma propagate_run ppids seed_order E s :
  exists n order, propagateKernelDescendants ppids seed_order E s = (Some n, with_kernel (tag_all order) s).
Proof.
  unfold propagateKernelDescendants, mbind, handler_bind. cbv zeta. cbn [fst snd].
  destruct (walk_seeds_spec ppids (seed_order (seeds_of (tbl s))) ∅ 0 E s) as (order & Hw & _).
  { intros p c Hp. set_solver. }
  rewrite Hw. eauto.
Qed.

Lemma resync_run ppids seed_order E s :
  exists n order, ResyncKernelTags ppids seed_order E s = (Some n, with_kernel (tag_all order) s).
Proof.
  unfold ResyncKernelTags.
  assert (forall l s, exists order, (foldr (fun p (rest : handler K ()) =>
        _ ← tagKernel (PID p);
        _ ← unless ((RootPID p =? 0) || (RootPID p =? PID p)) (tagKernel (RootPID p));
        rest) (mret ()) l) E s = ((), with_kernel (tag_all order) s)) as Hl.
  { clear s. intros l. induction l as [|p l IH]; intros s; cbn [foldr]; [exists []; by destruct s|].
    unfold unless. destruct (_ || _).
    - destruct (IH (with_kernel (fun k => (TagPID (PID p) k).2) s)) as [order Ho].
      exists (PID p :: order). exact Ho.
    - destruct (IH (with_kernel (fun k => (TagPID (RootPID p) (TagPID (PID p) k).2).2) s)) as [order Ho].
      exists (PID p :: RootPID p :: order). exact Ho. }
  destruct (Hl (TaggedSnapshot (tbl s)) s) as [order Ho].
  destruct (propagate_run ppids seed_order E (with_kernel (tag_all order) s)) as (n & order' & Hp).
  exists n, (order ++ order'). erewrite run_eq by reflexivity. erewrite run_eq by exact Ho. rewrite Hp.
  unfold with_kernel, tag_all. cbn [tbl kernel stats_ connectCache emitted]. by rewrite foldl_app.
Qed.

Section invariant.
Context (A : Z -> gostring -> Prop).
Context (Hv : forall l, fps = Some l -> fp.validate l = true).

Lemma Tag_keeps pid a mode reason t :
  table_ok A t -> a <> [] -> mode <> [] -> A pid a -> table_ok A (Tag pid a mode reason t).
Proof.
  intros Ht Ha Hm HA. eapply table_ok_mono; [|by apply (Tag_ok A)]. intros r b [?|[-> ->]]; done.
Qed.

Lemma settle_ok E pid start ppid comm binary now t o reason (k : K) :
  table_ok A t -> (forall a mode, enrolment cfg fps E pid o = Some (a, mode) -> A pid a) ->
  table_ok A (settle cfg fps E pid (OnExec pid start ppid comm binary now t) o reason k).1.
Proof.
  intros Ht HA. unfold settle. cbn [fst].
  pose proof (OnExec_ok A pid start ppid comm binary now t Ht) as Ht'.
  destruct (OnExec _ _ _ _ _ _ _) as [[p b] t']. cbn [fst snd] in *. destruct (Tagged p); [done|].
  destruct (enrolment cfg fps E pid o) as [[a mode]|] eqn:He; [|done].
  destruct (enrolment_nonempty cfg fps E pid o a mode Hv He) as [Ha Hm].
  apply Tag_keeps; [done..| |by apply (HA a mode)]. destruct Hm as [-> | ->]; done.
Qed.

Definition records_ok (s : engine K) : Prop :=
  Forall (fun r => report.AgentID r <> [] -> A (report.RootPID r) (report.AgentID r)) (emitted s).

Definition lineage_ok (s : engine K) : Prop := table_ok A (tbl s) /\ records_ok s.

Lemma handles_ok s s' t (k : K) : handles s s' t k -> lineage_ok s -> table_ok A t -> lineage_ok s'.
Proof.
  intros ([= Ht' _] & rs & He & Hrs) [_ Hr] Ht. split; [by rewrite Ht'|].
  unfold records_ok. rewrite He. apply Forall_app_2; [done|].
  eapply Forall_impl; [exact Hrs|]. intros r Hat Ha.
  destruct (Hat Ha) as (p & Hp & Htag & -> & ->). by apply (Ht _ p Hp).
Qed.

Lemma handleFork_handles ev E s :
  table_ok A (tbl s) ->
  let r := OnFork (event.PID ev) (event.PPID ev) (event.Comm ev) (now E) (tbl s) in
  handles s (handleFork ev E s).2 r.2
    (if Tagged r.1
     then tag_all (PID r.1 :: (if RootPID r.1 =? 0 then [] else [RootPID r.1]) ++ [event.PPID ev]) (kernel s)
     else kernel s).
Proof.
  intros Ht r. split; [apply handleFork_view|].
  assert (PID r.1 = event.PID ev /\ (Tagged r.1 = true -> r.2 !! event.PID ev = Some r.1)) as [Hpid Hl].
  { subst r. unfold OnFork. destruct (tbl s !! event.PPID ev) as [p|]; [|done].
    destruct (Tagged p); [|done]. split; [done|]. cbn [fst snd]. by rewrite lookup_insert_eq. }
  unfold handleFork. rewrite run_ask, run_on_table. fold r. clearbody r. destruct r as [c t']. cbn [fst snd] in *.
  unfold mbind, handler_bind, unless. cbn -[Tagged]. destruct (Tagged c) eqn:Htag; cbn -[Tagged].
  - destruct (RootPID c =? 0).
    all: eexists; split; [done|]; constructor; [|done]; intros _; exists c; cbn; rewrite Hpid; auto.
  - exists []. by rewrite app_nil_r.
Qed.

Lemma handleExit_handles ev E s :
  table_ok A (tbl s) ->
  handles s (handleExit ev E s).2 (OnExit (event.PID ev) (now E) (tbl s))
    (match tbl s !! event.PID ev with
     | Some p => if Tagged p then (UntagPID (event.PID ev) (kernel s)).2 else kernel s
     | None => kernel s
     end).
Proof.
  intros Ht. split; [apply handleExit_view|]. unfold OnExit, handleExit. rewrite run_get_proc.
  destruct (tbl s !! event.PID ev) as [p|] eqn:Hp; [|exists []; by rewrite app_nil_r].
  destruct (Tagged p) eqn:Htag; unfold unless; cbn [negb]; [|exists []; by rewrite app_nil_r].
  eexists. split; [done|]. constructor; [|done]. intros _. cbn [report.PID report.AgentID report.RootPID].
  rewrite (entry_pid A _ _ (Ht _ _ Hp)), lookup_insert_eq. eexists. split_and!; [done..|done|done].
Qed.

Lemma handleAction_handles ev E s :
  table_ok A (tbl s) ->
  handles s (handleAction cfg policy ipInCIDR ParseIP_ok addr_text ev E s).2 (tbl s)
    (if retagged cfg ev (tbl s) then (TagPID (event.PID ev) (kernel s)).2 else kernel s).
Proof.
  intros Ht. split; [apply handleAction_view|]. unfold handleAction. cbv zeta.
  assert (exists rs, emitted s = emitted s ++ rs /\ Forall (attributed (tbl s)) rs) as Hno.
  { exists []. by rewrite app_nil_r. }
  destruct (config.act_Enabled _); cbn [negb]; [|done].
  destruct (config.CaptureEnabled _ _); cbn [negb]; [|done].
  rewrite run_get_proc. destruct (tbl s !! event.PID ev) as [p|] eqn:Hp; [|done].
  destruct (Tagged p) eqn:Htag; cbn [negb]; [|done].
  unfold mbind at 1, handler_bind at 1. cbv zeta.
  destruct (other_process ev p); [done|]. destruct (_ && _ && _); [done|].
  unfold mbind, handler_bind. cbv zeta. set (rec := action_record _ _ _ _).
  match goal with |- context [evaluateShadow _ _ _ _ _ ev p rec E ?s1] =>
    destruct (evaluateShadow_run cfg policy ipInCIDR ParseIP_ok addr_text ev p rec E s1) as (rs & Hr & Hrs);
    rewrite Hr end.
  cbn [snd with_emitted emitted Emit count tagKernel tbl kernel]. exists (rec :: rs). rewrite <- app_assoc. split; [done|].
  assert (report.PID rec = PID p /\ report.AgentID rec = AgentID p /\ report.RootPID rec = RootPID p) as Hrec.
  { subst rec. unfold action_record. by repeat destruct (_ =? _). }
  eapply (Forall_impl (fun r => report.PID r = PID p /\ report.AgentID r = AgentID p /\ report.RootPID r = RootPID p));
    [by constructor|].
  intros r (H1 & H2 & H3) _. exists p. by rewrite H1, (entry_pid A _ _ (Ht _ _ Hp)).
Qed.
(** *** Enrolling what already runs *)

(** [OnExec] has looked at the parent, so an untagged process has no tagged one: the
    last branch of [tryEnrollObs] is never taken. *)
Lemma OnExec_parent pid start ppid comm binary now t :
  let r := OnExec pid start ppid comm binary now t in
  Tagged r.1.1 = false -> forall p, r.2 !! ppid = Some p -> Tagged p = false.
Proof.
  cbv zeta. unfold OnExec. cbn [fst snd]. set (q := mk_proc _ _ _ _ _ _ _ _ _ _ _ _).
  destruct (decide (ppid = pid)) as [-> |Hne]; [rewrite !lookup_insert_eq; by intros Hu p [= <-]|].
  rewrite !lookup_insert_ne by done. destruct (Tagged q) eqn:Hq; [congruence|].
  intros Hu p Hp. rewrite Hp in Hu. destruct (Tagged p) eqn:Htp; [|done].
  unfold Tagged in Hu, Htp. cbn in Hu. congruence.
Qed.

Lemma bootstrapPID_handles pid ppid E s :
  exists reason,
  let v := match tbl s !! pid with
           | Some p => if Tagged p then (tbl s, (TagPID pid (kernel s)).2) else
               if streq (enricher.Binary E pid) [] then (tbl s, kernel s) else
               settle cfg fps E pid (OnExec pid 0 ppid (readProcComm E pid) (enricher.Binary E pid) (now E) (tbl s))
                 (bootstrap_observation E pid) reason (kernel s)
           | None =>
               if streq (enricher.Binary E pid) [] then (tbl s, kernel s) else
               settle cfg fps E pid (OnExec pid 0 ppid (readProcComm E pid) (enricher.Binary E pid) (now E) (tbl s))
                 (bootstrap_observation E pid) reason (kernel s)
           end in
  view (bootstrapPID cfg fps pid ppid E s).2 = v /\ emitted (bootstrapPID cfg fps pid ppid E s).2 = emitted s.
Proof.
  assert (exists reason,
    let rest := (comm ← ask (fun E => readProcComm E pid); now ← ask now;
                 r ← on_table (OnExec pid 0 ppid comm (enricher.Binary E pid) now);
                 if (r.2 : bool) then _ ← tagKernel pid; mret false else
                 enrolled ← tryEnrollObs cfg fps pid ppid (enricher.Binary E pid);
                 if enrolled : bool then _ ← tagKernel pid; mret true else mret false) E s in
    view rest.2 = settle cfg fps E pid
      (OnExec pid 0 ppid (readProcComm E pid) (enricher.Binary E pid) (now E) (tbl s))
      (bootstrap_observation E pid) reason (kernel s) /\ emitted rest.2 = emitted s) as [reason Hrest].
  { cbv zeta. rewrite !run_ask, run_on_table. unfold settle.
    pose proof (OnExec_parent pid 0 ppid (readProcComm E pid) (enricher.Binary E pid) (now E) (tbl s)) as Hpar.
    pose proof (OnExec_tagged pid 0 ppid (readProcComm E pid) (enricher.Binary E pid) (now E) (tbl s)) as Hb.
    destruct (OnExec _ _ _ _ _ _ _) as [[p b] t']. cbn [fst snd] in *. subst b.
    destruct (Tagged p) eqn:Htag; [by exists []|]. cbn [orb].
    destruct (tryModes_run cfg fps pid
      (ask (fun E' => fp.mk_observation (enricher.Binary E pid) (readProcCmdline E' pid) (readProcEnvKeys E' pid)))
      E (with_table (fun _ => t') s) (bootstrap_observation E pid) eq_refl) as (reason & Hrun).
    exists reason. unfold tryEnrollObs.
    destruct (enrolment cfg fps E pid (bootstrap_observation E pid)) as [[a mode]|].
    - rewrite bool_decide_true by eauto. erewrite run_eq; [|erewrite run_eq by exact Hrun; reflexivity]. done.
    - rewrite bool_decide_false by (by intros []). erewrite run_eq.
      2: { erewrite run_eq by exact Hrun. cbn beta iota. rewrite run_get_proc. cbn [with_table tbl].
           specialize (Hpar eq_refl). destruct (t' !! ppid) as [q|]; [|reflexivity]. rewrite (Hpar q) by done. reflexivity. }
      done. }
  exists reason. cbv zeta. cbv zeta in Hrest. unfold bootstrapPID. rewrite run_get_proc.
  destruct (tbl s !! pid) as [p|].
  - destruct (Tagged p); [done|]. rewrite run_ask. by destruct (streq (enricher.Binary E pid) []).
  - rewrite run_ask. by destruct (streq (enricher.Binary E pid) []).
Qed.

Lemma bootstrapPID_ok pid ppid E s :
  (forall a mode, enrolment cfg fps E pid (bootstrap_observation E pid) = Some (a, mode) -> A pid a) ->
  lineage_ok s -> lineage_ok (bootstrapPID cfg fps pid ppid E s).2.
Proof.
  intros HA [Ht Hr]. destruct (bootstrapPID_handles pid ppid E s) as (reason & Hview & He). cbv zeta in Hview.
  split; [|unfold records_ok; by rewrite He]. apply (f_equal fst) in Hview. unfold view in Hview. cbn [fst] in Hview.
  rewrite Hview. clear Hview He.
  pose proof (settle_ok E pid 0 ppid (readProcComm E pid) (enricher.Binary E pid) (now E) (tbl s)
    (bootstrap_observation E pid) reason (kernel s) Ht HA).
  destruct (tbl s !! pid) as [p|]; [destruct (Tagged p); [done|]|]; by destruct (streq _ _).
Qed.

Lemma pass_ok order n E s :
  (forall pid ppid a mode, (pid, ppid) ∈ order ->
     enrolment cfg fps E pid (bootstrap_observation E pid) = Some (a, mode) -> A pid a) ->
  lineage_ok s -> lineage_ok (pass cfg fps order n E s).2.
Proof.
  revert n s. induction order as [|[pid ppid] order IH]; intros n s HA Hs; [done|].
  unfold pass. cbn [foldr fst snd]. apply IH; [set_solver|]. apply bootstrapPID_ok; [|done].
  intros a mode. apply (HA pid ppid). set_solver.
Qed.
(** *** One input *)

Lemma Handle_handles ev E s :
  table_ok A (tbl s) ->
  (event.Type_ ev = EVENT_EXEC -> forall a mode,
     enrolment cfg fps E (event.PID ev) (exec_observation E ev) = Some (a, mode) -> A (event.PID ev) a) ->
  lineage_ok s -> lineage_ok (Handle cfg fps policy ipInCIDR ParseIP_ok addr_text ev E s).2.
Proof.
  intros Ht HA Hs. unfold Handle. cbv zeta.
  destruct (Z.eqb_spec (event.Type_ ev) EVENT_FORK).
  { eapply handles_ok; [by apply handleFork_handles|done|]. by apply OnFork_ok. }
  destruct (Z.eqb_spec (event.Type_ ev) EVENT_EXEC) as [Hexec|].
  { destruct (handleExec_handles cfg fps Hv A ev E s Ht) as [reason Hh].
    eapply handles_ok; [exact Hh|done|]. apply settle_ok; [done|exact (HA Hexec)]. }
  destruct (Z.eqb_spec (event.Type_ ev) EVENT_EXIT).
  { eapply handles_ok; [by apply handleExit_handles|done|]. by apply OnExit_ok. }
  destruct (Z.eqb_spec (event.Type_ ev) EVENT_CONNECT).
  { unfold mbind, handler_bind. cbv zeta. set (s1 := (recordConnectDest addr_text ev E s).2).
    assert (lineage_ok s1) as Hs1.
    { eapply handles_ok; [apply handles_nothing; [apply recordConnectDest_view|]|done|done].
      subst s1. unfold recordConnectDest. cbv zeta. destruct (streq _ _); [done|]. rewrite run_get_proc.
      destruct (tbl s !! event.PID ev) as [p|]; [|done]. destruct (Tagged p); [|done].
      by destruct (other_process ev p). }
    eapply handles_ok; [apply handleAction_handles; apply Hs1|done|apply Hs1]. }
  destruct (_ || _ || _); [|done].
  eapply handles_ok; [by apply handleAction_handles|done|done].
Qed.

Lemma step_ok E i s :
  (forall pid a, enrolls E i pid a -> A pid a) -> lineage_ok s -> lineage_ok (step_input E i s).
Proof.
  intros HA Hs. destruct i as [ev|o1 o2 o3 ppids so|ppids so|maxAge]; cbn [step_input enrolls] in *.
  - apply Handle_handles; [apply Hs| |done]. intros Hty a mode He. eauto.
  - assert (forall o n s, (forall e, e ∈ o -> e ∈ o1 ++ o2 ++ o3) -> lineage_ok s ->
      lineage_ok (pass cfg fps o n E s).2) as Hpass.
    { intros o n s' Hsub Hs'. apply pass_ok; [|done]. intros pid ppid a mode Hin He. apply HA. split; eauto. }
    unfold BootstrapRunning, mbind, handler_bind. cbv zeta.
    match goal with |- context [propagateKernelDescendants ppids so E ?s3] =>
      destruct (propagate_run ppids so E s3) as (n & order & Hp); rewrite Hp; assert (lineage_ok s3) as Hs3 end.
    { repeat (apply Hpass; [set_solver|]). done. }
    exact Hs3.
  - destruct (resync_run ppids so E s) as (n & order & Hp). rewrite Hp. exact Hs.
  - split; [|apply Hs]. cbn [with_table tbl]. apply Prune_ok, Hs.
Qed.
End invariant.

(** C16. No process is an agent's without cause: in every run of the engine over
    events, bootstrap scans, resyncs and prunings, a tagged entry of the process
    table, and every record the reporter is given, carries the agent of an earlier
    event or scan that enrolled the root it names. *)
Theorem lineage_sound h k cache :
  (forall l, fps = Some l -> fp.validate l = true) ->
  let s := run h (started k cache) in
  (forall pid p, tbl s !! pid = Some p -> Tagged p = true -> anchors h (RootPID p) (AgentID p)) /\
  (forall r, r ∈ emitted s -> report.AgentID r <> [] -> anchors h (report.RootPID r) (report.AgentID r)).
Proof.
  intros Hv. cbv zeta.
  assert (lineage_ok (anchors h) (run h (started k cache))) as [Ht Hr].
  { induction h as [|[E i] h IH] using rev_ind; [by split; [apply table_ok_empty|constructor]|].
    unfold run. rewrite foldl_app. cbn [foldl fst snd]. apply step_ok; [done| |].
    - intros pid a He. exists E, i. split; [set_solver|done].
    - destruct IH as [Ht Hr].
      assert (forall pid a, anchors h pid a -> anchors (h ++ [(E, i)]) pid a) as Hmono.
      { intros pid a (E' & i' & Hin & He). exists E', i'. split; [set_solver|done]. }
      split; [by eapply table_ok_mono|]. eapply Forall_impl; [exact Hr|]. cbn. auto. }
  split.
  - intros pid p Hp. by apply (Ht pid p Hp).
  - intros r Hin. unfold records_ok in Hr. rewrite Forall_forall in Hr. by apply Hr.
Qed.
(** ** The kernel's tags *)

Section coverage.
Context (tags : K -> gset Z) `{!TaggerLaws K tags}.
(** The kernel accepts every tag: its map is not full. *)
Context (accepting : forall pid k, (TagPID pid k).1 = true).
Context (Hv : forall l, fps = Some l -> fp.validate l = true).

(** The engine together with the kernel, whose own programs change the tags: [gone]
    are the processes they untagged, at their exit, and whose exit event the engine has
    still to handle. *)
Inductive reaches (k0 : K) (cache : bool) : engine K -> gset Z -> Prop :=
  | reaches_started : reaches k0 cache (started k0 cache) ∅
  | reaches_input E i s gone :
      reaches k0 cache s gone ->
      reaches k0 cache (step_input E i s)
        (match i with
         | Event ev => if event.Type_ ev =? EVENT_EXIT then gone ∖ {[event.PID ev]} else gone
         | _ => gone
         end)
  | reaches_kernel k' exits s gone :
      reaches k0 cache s gone -> tags (kernel s) ∖ exits ⊆ tags k' ->
      reaches k0 cache (with_kernel (fun _ => k') s) (gone ∪ exits).

Definition covers (gone : gset Z) (t : Table) (k : K) : Prop :=
  forall pid p, t !! pid = Some p -> Tagged p = true -> Exited p = false -> pid ∉ gone -> pid ∈ tags k.

Lemma tags_TagPID pid k : tags (TagPID pid k).2 = {[pid]} ∪ tags k.
Proof. destruct (tag_effect (tagged := tags) pid k) as [?|[Hf _]]; [done|]. by rewrite accepting in Hf. Qed.

Lemma tags_tag_all l k : tags (tag_all l k) = list_to_set l ∪ tags k.
Proof.
  revert k. induction l as [|pid l IH]; intros k; cbn [tag_all foldl list_to_set]; [set_solver|].
  change (foldl _ ?k l) with (tag_all l k). rewrite IH, tags_TagPID. cbn. set_solver.
Qed.

Lemma covers_more gone t k k' : covers gone t k -> tags k ⊆ tags k' -> covers gone t k'.
Proof. intros Hc Hsub pid p H1 H2 H3 H4. apply Hsub. by eapply Hc. Qed.

(** The entry of one process changes. *)
Lemma covers_at gone t t' k k' pid :
  covers gone t k -> tags k ⊆ tags k' -> (forall q, q <> pid -> t' !! q = t !! q) ->
  (forall p, t' !! pid = Some p -> Tagged p = true -> pid ∈ tags k') -> covers gone t' k'.
Proof.
  intros Hc Hsub Hfr Hp q p Hq Htag He Hg. destruct (decide (q = pid)) as [-> |Hne]; [by eapply Hp|].
  rewrite Hfr in Hq by done. apply Hsub. by eapply Hc.
Qed.

Lemma settle_covers gone E pid start ppid comm binary t o reason k :
  covers gone t k ->
  let v := settle cfg fps E pid (OnExec pid start ppid comm binary (now E) t) o reason k in
  covers gone v.1 v.2.
Proof.
  intros Hc. cbv zeta. unfold settle. cbn [fst snd].
  pose proof (OnExec_frame pid start ppid comm binary (now E) t) as Hfr.
  pose proof (OnExec_lookup pid start ppid comm binary (now E) t) as Hl.
  destruct (OnExec _ _ _ _ _ _ _) as [[p b] t']. cbn [fst snd] in *.
  destruct (Tagged p) eqn:Htag; cbn [orb].
  { apply (covers_at gone t t' k _ pid); [done|rewrite tags_TagPID; set_solver|auto|].
    intros _ _ _. rewrite tags_TagPID. set_solver. }
  destruct (enrolment cfg fps E pid o) as [[a mode]|].
  - rewrite bool_decide_true by eauto.
    apply (covers_at gone t _ k _ pid); [done|rewrite tags_TagPID; set_solver| |].
    + intros q Hq. unfold Tag. rewrite Hl, lookup_insert_ne by done. auto.
    + intros _ _ _. rewrite tags_TagPID. set_solver.
  - rewrite bool_decide_false by (by intros []). apply (covers_at gone t _ k _ pid); [done..|auto|].
    intros q. rewrite Hl. intros [= <-]. congruence.
Qed.

Lemma OnExit_covers gone pid now t k k' :
  covers gone t k -> tags k ∖ {[pid]} ⊆ tags k' -> covers (gone ∖ {[pid]}) (OnExit pid now t) k'.
Proof.
  intros Hc Hsub q p. unfold OnExit. destruct (decide (q = pid)) as [-> |Hne].
  - destruct (t !! pid) as [r|] eqn:Hr; [|congruence]. rewrite lookup_insert_eq. by intros [= <-].
  - intros Hq Htag He Hg. apply Hsub. assert (t !! q = Some p) as Hp.
    { destruct (t !! pid); [by rewrite lookup_insert_ne in Hq|done]. }
    pose proof (Hc q p Hp Htag He). set_solver.
Qed.

Definition anyone (pid : Z) (a : gostring) : Prop := True.

Definition covered (gone : gset Z) (s : engine K) : Prop :=
  lineage_ok anyone s /\ covers gone (tbl s) (kernel s).

Lemma covered_view gone (s' : engine K) t k :
  lineage_ok anyone s' -> view s' = (t, k) -> covers gone t k -> covered gone s'.
Proof. intros Hl [= Ht Hk] Hc. split; [done|]. by rewrite Ht, Hk. Qed.

Lemma handle_covers gone ev E s :
  covered gone s ->
  covered (if event.Type_ ev =? EVENT_EXIT then gone ∖ {[event.PID ev]} else gone)
    (Handle cfg fps policy ipInCIDR ParseIP_ok addr_text ev E s).2.
Proof.
  intros [Hl Hc]. pose proof Hl as [Ht _].
  assert (lineage_ok anyone (Handle cfg fps policy ipInCIDR ParseIP_ok addr_text ev E s).2) as Hl'.
  { by apply Handle_handles. }
  split; [done|]. clear Hl'. unfold Handle. cbv zeta.
  destruct (Z.eqb_spec (event.Type_ ev) EVENT_FORK) as [Hf|_].
  { rewrite Hf. change (EVENT_FORK =? EVENT_EXIT) with false. cbn iota.
    pose proof (handleFork_view ev E s) as Hview. cbv zeta in Hview.
    apply pair_equal_spec in Hview as [Htbl Hker]. cbn [fst snd] in *. rewrite Htbl, Hker. unfold OnFork.
    destruct (tbl s !! event.PPID ev) as [p|]; [|done]. destruct (Tagged p) eqn:Htag; [|done]. cbn [fst snd].
    replace (Tagged (set_tag _ _ _ _ _)) with true by (symmetry; exact Htag). cbn [PID set_tag].
    apply (covers_at gone (tbl s) _ (kernel s) _ (event.PID ev)); [done|rewrite tags_tag_all; set_solver| |].
    - intros q Hq. by rewrite lookup_insert_ne.
    - intros _ _ _. rewrite tags_tag_all. cbn [list_to_set]. set_solver. }
  destruct (Z.eqb_spec (event.Type_ ev) EVENT_EXEC) as [He|_].
  { rewrite He. change (EVENT_EXEC =? EVENT_EXIT) with false. cbn iota.
    destruct (handleExec_handles cfg fps Hv anyone ev E s Ht) as (reason & Hview & _).
    apply pair_equal_spec in Hview as [Htbl Hker]. rewrite Htbl, Hker. by apply settle_covers. }
  destruct (Z.eqb_spec (event.Type_ ev) EVENT_EXIT) as [Hx|_].
  { pose proof (handleExit_view ev E s) as Hview. apply pair_equal_spec in Hview as [Htbl Hker]. rewrite Htbl, Hker.
    apply (OnExit_covers gone _ _ _ (kernel s)); [done|].
    destruct (tbl s !! event.PID ev) as [p|]; [|set_solver]. destruct (Tagged p); [|set_solver].
    by rewrite (untag_effect (tagged := tags)). }
  assert (forall s1 : engine K, view s1 = view s ->
    covers gone (tbl (handleAction cfg policy ipInCIDR ParseIP_ok addr_text ev E s1).2)
      (kernel (handleAction cfg policy ipInCIDR ParseIP_ok addr_text ev E s1).2)) as Hact.
  { intros s1 Hs1. apply pair_equal_spec in Hs1 as [Htbl1 Hker1].
    pose proof (handleAction_view cfg policy ipInCIDR ParseIP_ok addr_text ev E s1) as Hview.
    apply pair_equal_spec in Hview as [Htbl Hker]. rewrite Htbl, Hker, Htbl1, Hker1.
    apply (covers_more _ _ (kernel s)); [done|]. destruct (retagged cfg ev (tbl s)); [rewrite tags_TagPID|]; set_solver. }
  destruct (_ =? EVENT_CONNECT).
  { apply Hact, recordConnectDest_view. }
  destruct (_ || _ || _); [|done]. by apply Hact.
Qed.

Lemma pass_covers gone o n E s : covered gone s -> covered gone (pass cfg fps o n E s).2.
Proof.
  revert n s. induction o as [|[pid ppid] o IH]; intros n s Hs; [done|].
  unfold pass. cbn [foldr fst snd]. apply IH. clear IH. destruct Hs as [Hl Hc].
  split; [by apply bootstrapPID_ok|]. destruct (bootstrapPID_handles pid ppid E s) as (reason & Hview & _).
  cbv zeta in Hview.
  assert (covers gone (tbl s) (TagPID pid (kernel s)).2) as Htagged.
  { apply (covers_more _ _ (kernel s)); [done|]. rewrite tags_TagPID. set_solver. }
  pose proof (settle_covers gone E pid 0 ppid (readProcComm E pid) (enricher.Binary E pid) (tbl s)
    (bootstrap_observation E pid) reason (kernel s) Hc) as Hsettle.
  unfold view in Hview. destruct (settle _ _ _ _ _ _ _) as [t1 k1]. cbn [fst snd] in Hsettle.
  destruct (tbl s !! pid) as [p|]; [destruct (Tagged p)|]; [|destruct (streq (enricher.Binary E pid) [])..];
    apply pair_equal_spec in Hview as [-> ->]; done.
Qed.

Lemma covered_tag_all gone order s : covered gone s -> covered gone (with_kernel (tag_all order) s).
Proof.
  intros [Hl Hc]. split; [exact Hl|]. apply (covers_more _ _ (kernel s)); [done|].
  cbn [with_kernel kernel]. rewrite tags_tag_all. set_solver.
Qed.

Lemma reaches_covered k0 cache s gone : reaches k0 cache s gone -> covered gone s.
Proof.
  intros Hr.
  induction Hr as [|E i s gone _ IH|k' exits s gone _ IH Hsub].
  - split; [split; [apply table_ok_empty|constructor]|]. intros pid p Hp. discriminate Hp.
  - destruct i as [ev|o1 o2 o3 ppids so|ppids so|maxAge]; cbn [step_input].
    + by apply handle_covers.
    + unfold BootstrapRunning, mbind, handler_bind. cbv zeta.
      match goal with |- context [propagateKernelDescendants ppids so E ?s3] =>
        destruct (propagate_run ppids so E s3) as (n & order & Hp); rewrite Hp; assert (covered gone s3) as Hs3 end.
      { by repeat apply pass_covers. }
      by apply covered_tag_all.
    + destruct (resync_run ppids so E s) as (n & order & Hp). rewrite Hp. by apply covered_tag_all.
    + destruct IH as [[Ht Hl] Hc]. split; [split; [by apply Prune_ok|done]|].
      intros pid p Hp%Prune_spec. destruct Hp as [Hp _]. by apply Hc.
  - destruct IH as [Hl Hc]. split; [exact Hl|]. intros pid p Hp Htag He Hg.
    apply Hsub. apply elem_of_difference. split; [|set_solver]. by apply (Hc pid p); [..|set_solver].
Qed.

(** C17. The kernel enforces on every process the table tags: in every run in which
    the kernel accepts the tags, a tagged process is in the kernel's map until its
    exit is handled, across forks, execs, actions, bootstrap, resync and pruning. *)
Theorem tags_reach_kernel k0 cache s gone :
  reaches k0 cache s gone ->
  forall pid p, tbl s !! pid = Some p -> Tagged p = true -> Exited p = false -> pid ∉ gone ->
    pid ∈ tags (kernel s).
Proof. intros Hr. exact (proj2 (reaches_covered _ _ _ _ Hr)). Qed.
End coverage.
End lineage.
