(* ===== verification/Reuse.v ===== *)
(** * Reuse: a kernel tag that outlives its process

    The engine takes a tag back from the kernel's map only when a process that its
    table has tagged exits ([run_keeps]).  A fork tags the root of the lineage again,
    whether it still runs or not, so the process that gets the root's id next keeps a
    tag that no later event removes ([reused_root_stays_tagged]). *)

From stdpp Require Import gmap sets.
From Stdlib Require Import String.
From S2P Require Import Prelude Types Policy Compile Fingerprint Proctable Config Feedback Engine Bootstrap EngineFacts Lineage.
From S2P Require Formats.
Import Formats proctable.

#[local] Open Scope list_scope.
#[local] Open Scope Z_scope.

Section reuse.
Context {K : Type} `{!KernelTagger K} (tags : K -> gset Z) `{!TaggerLaws K tags}.
Context (cfg : config.Config) (fps : option (list fp.Fingerprint)) (policy : option (CompiledPolicy * Z)).
Context (ipInCIDR : gostring -> gostring -> bool) (ParseIP_ok : gostring -> bool).
Context (addr_text : address -> gostring).
Context (accepting : forall pid k, (TagPID pid k).1 = true).
Context (Hv : forall l, fps = Some l -> fp.validate l = true).

Notation step := (step_input cfg fps policy ipInCIDR ParseIP_ok addr_text).
Notation run := (run cfg fps policy ipInCIDR ParseIP_ok addr_text).

(** ** What a step takes back *)

Definition is_exit_of (x : Z) (i : input) : Prop :=
  exists ev, i = Event ev /\ event.Type_ ev = EVENT_EXIT /\ event.PID ev = x.

Definition untagged_in (t : Table) (x : Z) : Prop := forall p, t !! x = Some p -> Tagged p = false.

Lemma tags_settle E pid r o reason k : tags k ⊆ tags (settle cfg fps E pid r o reason k).2.
Proof.
  unfold settle. cbn [snd]. destruct (_ || _); [|done].
  rewrite (tags_TagPID tags accepting). set_solver.
Qed.

Lemma tags_bootstrapPID pid ppid E s : tags (kernel s) ⊆ tags (kernel (bootstrapPID cfg fps pid ppid E s).2).
Proof.
  destruct (bootstrapPID_handles cfg fps pid ppid E s) as (reason & Hview & _). cbv zeta in Hview.
  pose proof (tags_settle E pid (OnExec pid 0 ppid (readProcComm E pid) (enricher.Binary E pid) (now E) (tbl s))
    (bootstrap_observation E pid) reason (kernel s)) as Hs.
  unfold view in Hview. destruct (settle _ _ _ _ _ _ _) as [t1 k1]. cbn [snd] in Hs.
  destruct (tbl s !! pid) as [p|]; [destruct (Tagged p)|]; [|destruct (streq (enricher.Binary E pid) [])..];
    apply pair_equal_spec in Hview as [_ ->]; try done.
  rewrite (tags_TagPID tags accepting). set_solver.
Qed.

Lemma tags_pass o n E s : tags (kernel s) ⊆ tags (kernel (pass cfg fps o n E s).2).
Proof.
  revert n s. induction o as [|[pid ppid] o IH]; intros n s; [done|].
  unfold pass. cbn [foldr fst snd]. etransitivity; [apply (tags_bootstrapPID pid ppid E s)|apply IH].
Qed.

Lemma tags_with_all order (s : engine K) : tags (kernel s) ⊆ tags (kernel (with_kernel (tag_all order) s)).
Proof. cbn [with_kernel kernel]. rewrite (tags_tag_all fps ipInCIDR ParseIP_ok tags accepting Hv). set_solver. Qed.

Lemma handle_keeps ev E s x :
  table_ok anyone (tbl s) -> (is_exit_of x (Event ev) -> untagged_in (tbl s) x) ->
  x ∈ tags (kernel s) -> x ∈ tags (kernel (Handle cfg fps policy ipInCIDR ParseIP_ok addr_text ev E s).2).
Proof.
  intros Ht Hex Hx. unfold Handle. cbv zeta.
  destruct (Z.eqb_spec (event.Type_ ev) EVENT_FORK).
  { pose proof (handleFork_view ev E s) as Hview. cbv zeta in Hview. apply pair_equal_spec in Hview as [_ ->].
    destruct (Tagged _); [|done]. rewrite (tags_tag_all fps ipInCIDR ParseIP_ok tags accepting Hv). set_solver. }
  destruct (Z.eqb_spec (event.Type_ ev) EVENT_EXEC).
  { destruct (handleExec_handles cfg fps Hv anyone ev E s Ht) as (reason & Hview & _).
    apply pair_equal_spec in Hview as [_ ->]. by apply tags_settle. }
  destruct (Z.eqb_spec (event.Type_ ev) EVENT_EXIT) as [Hexit|].
  { pose proof (handleExit_view ev E s) as Hview. apply pair_equal_spec in Hview as [_ ->].
    destruct (tbl s !! event.PID ev) as [p|] eqn:Hp; [|done]. destruct (Tagged p) eqn:Htag; [|done].
    rewrite (untag_effect (tagged := tags)). apply elem_of_difference. split; [done|].
    intros ->%elem_of_singleton. by rewrite (Hex ltac:(by exists ev) p Hp) in Htag. }
  assert (forall s1 : engine K, view s1 = view s ->
    x ∈ tags (kernel (handleAction cfg policy ipInCIDR ParseIP_ok addr_text ev E s1).2)) as Hact.
  { intros s1 [_ Hk]%pair_equal_spec.
    pose proof (handleAction_view cfg policy ipInCIDR ParseIP_ok addr_text ev E s1) as Hview.
    apply pair_equal_spec in Hview as [_ ->]. rewrite Hk. destruct (retagged cfg ev (tbl s1)); [|done].
    rewrite (tags_TagPID tags accepting). set_solver. }
  destruct (_ =? EVENT_CONNECT); [apply Hact, recordConnectDest_view|].
  destruct (_ || _ || _); [by apply Hact|done].
Qed.

Lemma step_keeps E i s x :
  table_ok anyone (tbl s) -> (is_exit_of x i -> untagged_in (tbl s) x) ->
  x ∈ tags (kernel s) -> x ∈ tags (kernel (step E i s)).
Proof.
  intros Ht Hex Hx. destruct i as [ev|o1 o2 o3 ppids so|ppids so|maxAge]; cbn [step_input].
  - by apply handle_keeps.
  - unfold BootstrapRunning, mbind, handler_bind. cbv zeta.
    match goal with |- context [propagateKernelDescendants ppids so E ?s3] =>
      destruct (propagate_run ppids so E s3) as (n & order & Hp); rewrite Hp; assert (x ∈ tags (kernel s3)) as Hs3 end.
    { by repeat apply tags_pass. }
    by apply (tags_with_all order).
  - destruct (resync_run ppids so E s) as (n & order & Hp). rewrite Hp.
    by apply (tags_with_all order).
  - exact Hx.
Qed.

(** ** Runs *)

(** Whenever the run handles an exit of the process, the table does not have it tagged. *)
Definition no_tagged_exit (x : Z) (h : list (proc_env * input)) (s : engine K) : Prop :=
  forall h1 E i h2, h = h1 ++ (E, i) :: h2 -> is_exit_of x i -> untagged_in (tbl (run h1 s)) x.

Lemma no_tagged_exit_nil x s : no_tagged_exit x [] s.
Proof. intros [] E i h2 Hh; discriminate Hh. Qed.

Lemma no_tagged_exit_one x E i s : untagged_in (tbl s) x -> no_tagged_exit x [(E, i)] s.
Proof. intros Hu [|? []] E' i' h2 Hh _; [exact Hu|discriminate Hh..]. Qed.

Lemma run_snoc h E i s : run (h ++ [(E, i)]) s = step E i (run h s).
Proof. unfold Lineage.run. by rewrite foldl_app. Qed.

Lemma run_lineage_ok h s : lineage_ok anyone s -> lineage_ok anyone (run h s).
Proof.
  intros Hs. induction h as [|[E i] h IH] using rev_ind; [done|]. rewrite run_snoc. by apply step_ok.
Qed.

Lemma run_keeps h s x :
  lineage_ok anyone s -> no_tagged_exit x h s -> x ∈ tags (kernel s) -> x ∈ tags (kernel (run h s)).
Proof.
  intros Hs Hno Hx. induction h as [|[E i] h IH] using rev_ind; [done|]. rewrite run_snoc. apply step_keeps.
  - apply (run_lineage_ok h s Hs).
  - by apply (Hno h E i []).
  - apply IH. intros h1 E' i' h2 ->. apply (Hno h1 E' i' (h2 ++ [(E, i)])). by rewrite <- app_assoc.
Qed.

Lemma started_ok k0 cache : lineage_ok anyone (started k0 cache : engine K).
Proof. by split; [apply table_ok_empty|constructor]. Qed.

(** A fork of a tagged process tags the root of its lineage. *)
Lemma fork_tags_root ev E s parent :
  event.Type_ ev = EVENT_FORK -> tbl s !! event.PPID ev = Some parent -> Tagged parent = true ->
  RootPID parent <> 0 -> RootPID parent ∈ tags (kernel (step E (Event ev) s)).
Proof.
  intros Hty Hp Htag Hr. cbn [step_input]. unfold Handle. cbv zeta. rewrite Hty, Z.eqb_refl.
  pose proof (handleFork_view ev E s) as Hview. cbv zeta in Hview. apply pair_equal_spec in Hview as [_ ->].
  unfold OnFork. rewrite Hp, Htag. cbn [fst].
  replace (Tagged (set_tag _ _ _ _ _)) with true by (symmetry; exact Htag). cbn [RootPID set_tag].
  rewrite (proj2 (Z.eqb_neq _ 0) Hr), (tags_tag_all fps ipInCIDR ParseIP_ok tags accepting Hv). cbn [app list_to_set]. set_solver.
Qed.

(** C27. A kernel tag outlives its process. When a process of a lineage forks, the
    lineage's root is tagged in the kernel again, whether it still runs or not; when
    the root's id is later reused by a process that is no agent's (other start time,
    untagged parent, recognised by no mode), its exec leaves it untagged in the
    table, but no later event, scan, resync or pruning of the engine takes the tag
    from the kernel's map, not even its own exit, as long as no exit finds the id
    tagged in the table. For a kernel that accepts the tags. *)
Theorem reused_root_stays_tagged k0 cache h0 E1 ev1 h1 E2 ev2 parent :
  let s := run h0 (started k0 cache) in
  event.Type_ ev1 = EVENT_FORK -> tbl s !! event.PPID ev1 = Some parent -> Tagged parent = true ->
  let r := RootPID parent in
  r <> 0 ->
  let forked := step E1 (Event ev1) s in
  no_tagged_exit r h1 forked ->
  let s1 := run h1 forked in
  event.Type_ ev2 = EVENT_EXEC -> event.PID ev2 = r ->
  (forall q, tbl s1 !! r = Some q -> Tagged q = true -> start_times_differ q (event.StartTimeNs ev2)) ->
  (event.PPID ev2 <> r -> untagged_in (tbl s1) (event.PPID ev2)) ->
  enrolment cfg fps E2 r (exec_observation E2 ev2) = None ->
  let s2 := step E2 (Event ev2) s1 in
  (exists p, tbl s2 !! r = Some p /\ Tagged p = false) /\
  forall h2, no_tagged_exit r h2 s2 -> r ∈ tags (kernel (run h2 s2)).
Proof.
  intros s Hf Hp Htag r Hr forked Hno s1 He Hpid Hreuse Hparent Hen s2.
  assert (lineage_ok anyone s) as Hs by apply run_lineage_ok, started_ok.
  assert (lineage_ok anyone forked) as Hfk by by apply step_ok.
  assert (lineage_ok anyone s1) as Hs1 by by apply run_lineage_ok.
  assert (lineage_ok anyone s2) as Hs2 by by apply step_ok.
  split.
  - destruct (exec_run cfg fps Hv anyone ev2 E2 s1 (proj1 Hs1)) as [(p & Hl & Hm) _].
    assert (exec_tag cfg fps E2 (tbl s1) (event.PID ev2) (event.PPID ev2) (event.StartTimeNs ev2)
              (exec_observation E2 ev2) = None) as Hx.
    { unfold exec_tag. rewrite Hpid, Hen. cbv zeta. cbn [fmap option_fmap option_map].
      assert (forall b : bool, (if b then None else
        match (if event.PPID ev2 =? r then None else tbl s1 !! event.PPID ev2) with
        | Some q => if Tagged q then Some (AgentID q, RootPID q) else None
        | None => None end) = None) as Hpar.
      { intros []; [done|]. destruct (Z.eqb_spec (event.PPID ev2) r) as [|Hne]; [done|].
        destruct (tbl s1 !! event.PPID ev2) as [q|] eqn:Hq; [|done]. by rewrite (Hparent Hne q Hq). }
      destruct (tbl s1 !! r) as [q|] eqn:Hq; [|exact (Hpar false)].
      destruct (Tagged q) eqn:Hqt; [|exact (Hpar false)].
      rewrite bool_decide_true by by apply Hreuse. exact (Hpar false). }
    rewrite Hx in Hm. exists p. subst s2. cbn [step_input]. unfold Handle. cbv zeta. rewrite He.
    change (EVENT_EXEC =? EVENT_FORK) with false. rewrite Z.eqb_refl, <- Hpid. split; [exact Hl|apply Hm].
  - intros h2 Hno2. apply run_keeps; [done|done|]. apply step_keeps.
    + apply Hs1.
    + intros (ev & [= <-] & Hx & _). by rewrite He in Hx.
    + apply run_keeps; [done|done|]. by apply fork_tags_root.
Qed.
End reuse.
