(* ===== verification/Loader.v ===== *)
(** * Loader: what the agent gets from the kernel's objects

    The rest of [internal/ebpfloader] (pin.go, LoadEnforcer and the counters of
    enforcer.go, Drops of loader.go) and the directory the cgroup programs are
    attached to ([internal/cgroup/path.go]).  Loading a collection and the calls on
    bpffs are a library's and the kernel's: what they answer is a parameter.  The
    policy maps the enforcer works on are the pinned ones ([pins_are_the_policy_maps]),
    the counters add up over the CPUs ([counters_add_up]). *)

From stdpp Require Import strings gmap.
From Stdlib Require Import String.
From S2P Require Import Prelude Types Structs Bpf State Logic.
From S2P Require Import Enforcer Gate Hooks Machine Policy.

#[local] Open Scope string_scope.
#[local] Open Scope list_scope.
#[local] Open Scope Z_scope.

(** ** Pinned policy maps (pin.go, LoadEnforcer) *)

Section pins.
(** A kernel map; the files under the pin path, and a collection's maps, by name. *)
Context {M : Type}.

(** Which calls succeed: creating the directory, pinning, reading a pin that is
    there, removing one. *)
Record bpffs := mk_bpffs {
  mkdir_ok : bool;
  pin_ok : string -> bool;
  open_ok : string -> bool;
  remove_ok : string -> bool
}.

Context (fs : bpffs).

Fixpoint pin_each (names : list string) (maps pins : gmap string M) : bool * gmap string M :=
  match names with
  | [] => (true, pins)
  | name :: names =>
      match maps !! name with
      | None => (false, pins)
      | Some m => if pin_ok fs name then pin_each names maps (<[name := m]> pins) else (false, pins)
      end
  end.

Definition PinPolicyMaps (pinPath : string) (maps pins : gmap string M) : bool * gmap string M :=
  if String.eqb pinPath "" then (true, pins) else
  if negb (mkdir_ok fs) then (false, pins) else pin_each agent.policyMapNames maps pins.

Definition ClearPinnedPolicyMaps (pinPath : string) (pins : gmap string M) : gmap string M :=
  if String.eqb pinPath "" then pins else
  foldl (fun pins name => if remove_ok fs name then delete name pins else pins) pins agent.policyMapNames.

Fixpoint open_each (names : list string) (pins out : gmap string M) : option (gmap string M) :=
  match names with
  | [] => Some out
  | name :: names =>
      match pins !! name with
      | None => None
      | Some m => if open_ok fs name then open_each names pins (<[name := m]> out) else None
      end
  end.

Definition LoadPinnedPolicyMaps (pinPath : string) (pins : gmap string M) : option (gmap string M) * gmap string M :=
  if String.eqb pinPath "" then (None, pins) else
  match open_each agent.policyMapNames pins ∅ with
  | Some out => (Some out, pins)
  | None => (None, ClearPinnedPolicyMaps pinPath pins)
  end.

Definition mergeReplacements (base extra : gmap string M) : gmap string M := base ∪ extra.

Record EnforcerLoader := mk_enforcer_loader {
  coll_Maps : gmap string M;
  el_pinPath : string;
  reusedPins : bool
}.

(** The memory limit is lifted and the object parses; the maps of a new collection with these replacements, at the
    first and at the second attempt. *)
Context (spec_ok : bool) (newEnforcerCollection : bool -> gmap string M -> option (gmap string M)).

Definition LoadEnforcer (pinPath : string) (given pins : gmap string M)
    : option EnforcerLoader * gmap string M :=
  if negb spec_ok then (None, pins) else
  let '(pinned, pins) := if String.eqb pinPath "" then (None, pins) else LoadPinnedPolicyMaps pinPath pins in
  let replacements := match pinned with Some out => mergeReplacements given out | None => given end in
  let '(coll, reused, pins) :=
    match newEnforcerCollection true replacements, pinned with
    | Some maps, _ => (Some maps, bool_decide (is_Some pinned), pins)
    | None, None => (None, false, pins)
    | None, Some _ => (newEnforcerCollection false given, false, ClearPinnedPolicyMaps pinPath pins)
    end in
  match coll with
  | None => (None, pins)
  | Some maps =>
      if negb (String.eqb pinPath "") && negb reused then
        let '(ok, pins) := PinPolicyMaps pinPath maps pins in
        if ok then (Some (mk_enforcer_loader maps pinPath false), pins) else (None, pins)
      else (Some (mk_enforcer_loader maps pinPath reused), pins)
  end.

(** *** Facts *)

Lemma open_each_spec names pins out out' :
  open_each names pins out = Some out' ->
  (forall name, name ∈ names -> is_Some (pins !! name) /\ out' !! name = pins !! name) /\
  (forall name, name ∉ names -> out' !! name = out !! name).
Proof.
  revert out. induction names as [|n names IH]; intros out; cbn [open_each].
  { intros [= <-]. split; [by intros ? ?%not_elem_of_nil|done]. }
  destruct (pins !! n) as [m|] eqn:Hm; [|done]. destruct (open_ok fs n); [|done].
  intros (Hin & Hout)%IH. split.
  - intros name [-> |Hn]%elem_of_cons; [|by apply Hin]. rewrite Hm. split; [done|].
    destruct (decide (n ∈ names)) as [Hn|Hn]; [by rewrite (proj2 (Hin n Hn)), Hm|].
    by rewrite (Hout n Hn), lookup_insert_eq.
  - intros name [Hne Hn]%not_elem_of_cons. rewrite (Hout name Hn). by apply lookup_insert_ne.
Qed.

Lemma pin_each_spec names maps pins pins' :
  pin_each names maps pins = (true, pins') ->
  forall name, name ∈ names -> is_Some (maps !! name) /\ pins' !! name = maps !! name.
Proof.
  assert (forall names pins pins', pin_each names maps pins = (true, pins') ->
            (forall name, name ∈ names -> is_Some (maps !! name) /\ pins' !! name = maps !! name) /\
            (forall name, name ∉ names -> pins' !! name = pins !! name)) as H; [|by intros Hp; apply (H names pins)].
  clear names pins pins'. intros names. induction names as [|n names IH]; intros pins pins'; cbn [pin_each].
  { intros [= <-]. split; [by intros ? ?%not_elem_of_nil|done]. }
  destruct (maps !! n) as [m|] eqn:Hm; [|done]. destruct (pin_ok fs n); [|done].
  intros (Hin & Hout)%IH. split.
  - intros name [-> |Hn]%elem_of_cons; [|by apply Hin]. rewrite Hm. split; [done|].
    destruct (decide (n ∈ names)) as [Hn|Hn]; [by rewrite (proj2 (Hin n Hn)), Hm|].
    by rewrite (Hout n Hn), lookup_insert_eq.
  - intros name [Hne Hn]%not_elem_of_cons. rewrite (Hout name Hn). by apply lookup_insert_ne.
Qed.

Lemma cleared_gone pinPath pins name :
  pinPath <> "" -> name ∈ agent.policyMapNames -> remove_ok fs name = true -> ClearPinnedPolicyMaps pinPath pins !! name = None.
Proof.
  intros Hp Hn Hr. unfold ClearPinnedPolicyMaps. apply String.eqb_neq in Hp. rewrite Hp.
  revert pins Hn. generalize agent.policyMapNames. intros names. induction names as [|n names IH] using rev_ind; intros pins.
  { by intros ?%not_elem_of_nil. }
  rewrite foldl_app, elem_of_app, list_elem_of_singleton. cbn [foldl].
  destruct (decide (name = n)) as [<-|Hne].
  - intros _. rewrite Hr. apply lookup_delete_eq.
  - intros [Hn| ->]; [|done]. destruct (remove_ok fs n); [|by apply IH].
    rewrite lookup_delete_ne by done. by apply IH.
Qed.

(** No map is both shared with the enroll object and pinned. *)
Lemma shared_not_policy name : name ∈ agent.MapReplacements -> name ∈ agent.policyMapNames -> False.
Proof.
  assert (Forall (fun n => n ∉ agent.policyMapNames) agent.MapReplacements) as H
    by (apply (bool_decide_unpack _); vm_compute; exact I).
  rewrite Forall_forall in H. intros Hn Hp. by apply (H name).
Qed.

(** A collection uses the maps it is given. *)
Definition uses_replacements : Prop :=
  forall b given maps name m, newEnforcerCollection b given = Some maps -> given !! name = Some m -> maps !! name = Some m.

(** A pin set that is not complete, or not readable, is not used but removed. *)
Lemma partial_pins_discarded pinPath pins name :
  pinPath <> "" -> name ∈ agent.policyMapNames -> pins !! name = None \/ open_ok fs name = false ->
  LoadPinnedPolicyMaps pinPath pins = (None, ClearPinnedPolicyMaps pinPath pins).
Proof.
  intros Hp Hn Hbad. unfold LoadPinnedPolicyMaps. pose proof Hp as Hp'. apply String.eqb_neq in Hp'. rewrite Hp'.
  destruct (open_each _ _ _) as [out|] eqn:Ho; [|done]. exfalso.
  destruct Hbad as [Hnone|Hbad].
  - apply open_each_spec in Ho as [Ho _]. destruct (Ho name Hn) as [[? ?] _]. congruence.
  - clear Hp Hp'. revert Hn Ho. generalize (∅ : gmap string M). generalize agent.policyMapNames. intros names.
    induction names as [|n names IH]; intros m; [by intros ?%not_elem_of_nil|]. cbn [open_each].
    intros [<- |Hn]%elem_of_cons; [destruct (pins !! name); [by rewrite Hbad|done]|].
    destruct (pins !! n); [|done]. destruct (open_ok fs n); [|done]. by apply IH.
Qed.

(** C23. Whatever bpffs and the kernel answer, an enforcer that loads shares the
    maps of the enroll object it was given, and with a pin path its nine policy maps
    are the ones pinned afterwards: those pinned before, all of them, when it reused
    pins, else the collection's own. A policy is never half from a previous run. *)
Theorem pins_are_the_policy_maps pinPath given pins l pins' :
  uses_replacements -> (forall name, is_Some (given !! name) -> name ∈ agent.MapReplacements) ->
  LoadEnforcer pinPath given pins = (Some l, pins') ->
  (forall name m, given !! name = Some m -> coll_Maps l !! name = Some m) /\
  (pinPath <> "" -> forall name, name ∈ agent.policyMapNames ->
     is_Some (coll_Maps l !! name) /\ pins' !! name = coll_Maps l !! name) /\
  (reusedPins l = true -> pins' = pins).
Proof.
  intros Huse Hmine. unfold LoadEnforcer.
  assert (forall name, name ∈ agent.policyMapNames -> given !! name = None) as Hgiven
    by (intros name Hn; apply eq_None_not_Some; intros Hs; by eapply shared_not_policy; [apply Hmine|]). destruct spec_ok; [|done]. cbn [negb].
  destruct (String.eqb_spec pinPath "") as [Hp|Hp].
  - destruct (newEnforcerCollection true given) as [maps|] eqn:Hc; [|done]. cbn [negb andb].
    intros [= <- <-]. cbn [coll_Maps reusedPins]. split_and!; [|done|done]. intros name m. by apply (Huse true given).
  - unfold LoadPinnedPolicyMaps. pose proof Hp as Hp'. apply String.eqb_neq in Hp'. rewrite Hp'.
    assert (forall b given' maps pins0, newEnforcerCollection b given' = Some maps ->
              (forall name m, given !! name = Some m -> given' !! name = Some m) ->
              (let '(ok, pins1) := PinPolicyMaps pinPath maps pins0 in
               if ok then (Some (mk_enforcer_loader maps pinPath false), pins1) else (None, pins1)) = (Some l, pins') ->
              (forall name m, given !! name = Some m -> coll_Maps l !! name = Some m) /\
              (pinPath <> "" -> forall name, name ∈ agent.policyMapNames ->
                 is_Some (coll_Maps l !! name) /\ pins' !! name = coll_Maps l !! name) /\
              (reusedPins l = true -> pins' = pins)) as Hfresh.
    { intros b given' maps pins0 Hc Hsub. destruct (PinPolicyMaps pinPath maps pins0) as [[] pins1] eqn:Hpin; [|done].
      intros [= <- <-]. cbn [coll_Maps reusedPins]. split_and!; [|intros _|done].
      - intros name m Hm. by apply (Huse b given'), Hsub.
      - unfold PinPolicyMaps in Hpin. rewrite Hp' in Hpin. destruct (mkdir_ok fs); [|done]. cbn [negb] in Hpin.
        exact (pin_each_spec _ _ _ _ Hpin). }
    destruct (open_each agent.policyMapNames pins ∅) as [out|] eqn:Hopen; cbn [fst snd].
    + destruct (newEnforcerCollection true _) as [maps|] eqn:Hc.
      * rewrite bool_decide_true by done. cbn [negb andb]. intros [= <- <-]. cbn [coll_Maps reusedPins].
        apply open_each_spec in Hopen as [Hin _]. split_and!; [|intros _ name Hn|done].
        -- intros name m Hm. apply (Huse true _ _ _ _ Hc). unfold mergeReplacements. by apply lookup_union_Some_l.
        -- destruct (Hin name Hn) as [[m Hm] Ho]. rewrite Hm in Ho.
           assert (maps !! name = Some m) as ->; [|by rewrite Hm].
           apply (Huse true _ _ _ _ Hc). unfold mergeReplacements. rewrite lookup_union_r by (by apply Hgiven). done.
      * destruct (newEnforcerCollection false given) as [maps|] eqn:Hc2; [|done]. cbn [negb andb]. by apply (Hfresh false given).
    + destruct (newEnforcerCollection true given) as [maps|] eqn:Hc; [|done].
      rewrite bool_decide_false by (by intros []). cbn [negb andb]. by apply (Hfresh true given).
Qed.
End pins.

(** ** Counters (EnforceStats, Drops) *)

(** A lookup in a per-CPU array gives the entry of every CPU. *)
Definition sum_counter (key : Z) (m : percpu Z) : option Z :=
  perCPU ← mapM (fun row => row !! Z.to_nat key) m;
  Some (foldl (fun total v => u64 (total + v)) 0 perCPU).

Record EnforceStats := mk_EnforceStats {
  FileOpenCalls : Z; GatePass : Z; OpenatFmod : Z; OpenatDeny : Z; ConnectFmod : Z; ConnectDeny : Z;
  CgroupConnect : Z; UnlinkatFmod : Z; UnlinkatDeny : Z; RenameatFmod : Z; RenameatDeny : Z
}.

Definition read_EnforceStats (m : percpu Z) : option EnforceStats :=
  fileOpen ← sum_counter STAT_FILE_OPEN m;
  gatePass ← sum_counter STAT_GATE_PASS m;
  openatFmod ← sum_counter STAT_OPENAT_FMOD m;
  openatDeny ← sum_counter STAT_OPENAT_DENY m;
  connectFmod ← sum_counter STAT_CONNECT_FMOD m;
  connectDeny ← sum_counter STAT_CONNECT_DENY m;
  cgroupConnect ← sum_counter STAT_CGROUP_CONNECT m;
  unlinkatFmod ← sum_counter STAT_UNLINKAT_FMOD m;
  unlinkatDeny ← sum_counter STAT_UNLINKAT_DENY m;
  renameatFmod ← sum_counter STAT_RENAMEAT_FMOD m;
  renameatDeny ← sum_counter STAT_RENAMEAT_DENY m;
  Some (mk_EnforceStats fileOpen gatePass openatFmod openatDeny connectFmod connectDeny cgroupConnect
          unlinkatFmod unlinkatDeny renameatFmod renameatDeny).

Definition Drops (m : percpu Z) : option Z := sum_counter 0 m.

Definition zsum (l : list Z) : Z := foldr Z.add 0 l.

Lemma foldl_u64 l a : foldl (fun total v => u64 (total + v)) (u64 a) l = u64 (a + zsum l).
Proof.
  revert a. induction l as [|x l IH]; intros a; cbn [foldl zsum foldr]; [by rewrite Z.add_0_r|].
  replace (u64 (u64 a + x)) with (u64 (a + x)) by (unfold u64; by rewrite Zplus_mod_idemp_l).
  rewrite IH. f_equal. unfold zsum. lia.
Qed.

Definition entry_of (key : Z) (row : list Z) : Z := default 0 (row !! Z.to_nat key).

Lemma sum_counter_shape n k key (P : Z -> Prop) m :
  pc_shape n k P m -> (Z.to_nat key < k)%nat -> sum_counter key m = Some (u64 (zsum (entry_of key <$> m))).
Proof.
  intros [_ Hm] Hk. unfold sum_counter.
  assert (mapM (fun row => row !! Z.to_nat key) m = Some (entry_of key <$> m)) as ->.
  { induction Hm as [|row m [Hl _] _ IH]; [done|]. cbn. unfold entry_of at 1.
    destruct (lookup_lt_is_Some_2 row (Z.to_nat key)) as [v Hv]; [lia|]. rewrite Hv. cbn.
    by rewrite IH. }
  cbn. change 0 with (u64 0) at 1. by rewrite foldl_u64.
Qed.

Lemma zsum_alter g (f : list Z -> list Z) c m row :
  m !! c = Some row -> zsum (g <$> alter f c m) = zsum (g <$> m) + (g (f row) - g row).
Proof.
  revert c. induction m as [|r m IH]; intros [|c]; cbn; [done|done| |].
  - intros [= ->]. unfold zsum. lia.
  - intros H%IH. unfold zsum in *. cbn in H. rewrite H. lia.
Qed.

Lemma pc_write_sum n k key (P : Z -> Prop) c i v m old :
  pc_shape n k P m -> P v -> (Z.to_nat key < k)%nat -> (Z.to_nat i < k)%nat -> pc_lookup c i m = Some old ->
  sum_counter key (pc_write c i v m) =
    Some (u64 (zsum (entry_of key <$> m) + if decide (Z.to_nat key = Z.to_nat i) then v - old else 0)).
Proof.
  intros Hm Hv Hk Hi Hl. rewrite (sum_counter_shape n k key P) by auto using pc_shape_write.
  do 2 f_equal. unfold pc_write, pc_lookup in *.
  destruct (m !! c) as [row|] eqn:Hr; [|done]. cbn in Hl. rewrite (zsum_alter _ _ _ _ row Hr). f_equal.
  unfold entry_of. destruct (decide _) as [->|Hne].
  - rewrite Hl, list_lookup_insert_eq by (by eapply lookup_lt_Some). done.
  - rewrite list_lookup_insert_ne by done. lia.
Qed.

Lemma bump_stats E k s old :
  pc_lookup (cpu E) k (enforce_stats (enforcer s)) = Some old ->
  enforce_stats (enforcer (bump E k s)) = pc_write (cpu E) k (u64 (old + 1)) (enforce_stats (enforcer s)).
Proof.
  intros Hold. unfold bump, stat_inc, state_of, mbind, prog_bind, this_cpu. cbn beta iota. by rewrite Hold.
Qed.

(** The counter the agent reads goes up by one, modulo 2^64, when a program counts, on
    whichever CPU it runs, and no other counter does. *)
Theorem counters_add_up n E k s key :
  wf n s -> (cpu E < n)%nat -> 0 <= k < STAT_ENFORCE_MAX -> 0 <= key < STAT_ENFORCE_MAX ->
  exists t, sum_counter key (enforce_stats (enforcer s)) = Some t /\
    sum_counter key (enforce_stats (enforcer (bump E k s))) = Some (if decide (key = k) then u64 (t + 1) else t).
Proof.
  intros Hwf Hc Hk Hkey. pose proof (wf_stats _ _ Hwf) as Hm. unfold STAT_ENFORCE_MAX in *.
  assert (forall j, 0 <= j < 11 -> (Z.to_nat j < Z.to_nat 11)%nat) as Hlt by lia.
  rewrite (sum_counter_shape _ _ key _ _ Hm) by auto. eexists. split; [done|].
  destruct (pc_shape_lookup _ _ _ (cpu E) k _ Hm Hc (Hlt k Hk)) as (old & Hold & Hu).
  rewrite (bump_stats E k s old Hold).
  assert (is_u64 (u64 (old + 1))) as Hu' by (unfold is_u64, u64; apply Z.mod_pos_bound; lia).
  rewrite (pc_write_sum _ _ key _ _ k _ _ old Hm Hu') by auto. f_equal.
  set (t := zsum _). destruct (decide (key = k)) as [->|Hne].
  - rewrite decide_True by done. unfold u64. rewrite !Zplus_mod_idemp_l.
    replace (t + ((old + 1) mod 2 ^ 64 - old)) with ((old + 1) mod 2 ^ 64 + (t - old)) by lia.
    rewrite Zplus_mod_idemp_l. f_equal. lia.
  - rewrite decide_False by lia. by rewrite Z.add_0_r.
Qed.

(** ** The cgroup directory (internal/cgroup/path.go) *)

(** What [WalkDir] visits: the path below the root, empty for the root itself, and
    whether it is a directory that can be read. *)
Definition cgroupV2Root : gostring := bytes_of "/sys/fs/cgroup".

Definition below (root rel : gostring) : gostring :=
  if streq rel [] then root else root ++ bytes_of "/" ++ rel.

Definition named (contains : list gostring) (rel : gostring) : bool :=
  existsb (fun sub => negb (streq sub []) && Contains (bytes_of "/" ++ rel) sub) contains.

Definition visit (root : gostring) (contains : list gostring) (best : gostring) (d : gostring * bool) : gostring :=
  if negb d.2 then best else
  if streq d.1 [] then best else
  if named contains d.1
  then if streq best [] || (length (below root d.1) <? length best)%nat then below root d.1 else best
  else best.

Definition resolveV2Dir (root : gostring) (root_ok : bool) (walk : list (gostring * bool)) (contains : list gostring)
    : option gostring :=
  match contains with
  | [] => None
  | _ =>
      if negb root_ok then None else
      let best := foldl (visit root contains) [] walk in
      if streq best [] then None else Some best
  end.

Definition ResolveV2Dir := resolveV2Dir cgroupV2Root.

(** The directories of a walk that match. *)
Definition candidate (root : gostring) (contains : list gostring) (walk : list (gostring * bool)) (p : gostring) : Prop :=
  exists rel, (rel, true) ∈ walk /\ rel <> [] /\ named contains rel = true /\ p = below root rel.

Lemma visit_best root contains walk :
  let best := foldl (visit root contains) [] walk in
  (best = [] -> forall p, ~ candidate root contains walk p) /\
  (best <> [] -> candidate root contains walk best /\
     forall p, candidate root contains walk p -> (length best <= length p)%nat).
Proof.
  induction walk as [|[rel dir] walk IH] using rev_ind; cbv zeta in *.
  { split; [|done]. intros _ p (rel & H%not_elem_of_nil & _). done. }
  rewrite foldl_app. cbn [foldl]. set (best := foldl (visit root contains) [] walk) in *.
  assert (forall p, candidate root contains (walk ++ [(rel, dir)]) p <->
            candidate root contains walk p \/
            (dir = true /\ rel <> [] /\ named contains rel = true /\ p = below root rel)) as Hc.
  { intros p. unfold candidate. setoid_rewrite elem_of_app. setoid_rewrite list_elem_of_singleton. split.
    - intros (r & [Hr|[= -> <-]] & ? & ? & ?); [left; by exists r|by right].
    - intros [(r & ? & ?)|(-> & ? & ? & ?)]; [exists r; by auto|exists rel; by auto]. }
  assert (dir = true -> rel <> [] -> below root rel <> []) as Hne.
  { intros _ Hr. unfold below. destruct (streq rel []) eqn:He; [by apply streq_spec in He|]. by destruct root. }
  unfold visit. cbn [fst snd].
  destruct dir; cbn [negb]; [|split; [intros Hb p [?|[? _]]%Hc; [by eapply IH|done]
    |intros Hb; destruct (proj2 IH Hb); split; [apply Hc; by left|intros p [?|[? _]]%Hc; auto; done]]].
  destruct (streq rel []) eqn:Hrel.
  { apply streq_spec in Hrel. split.
    - intros Hb p [?|(_ & ? & _)]%Hc; [by eapply IH|done].
    - intros Hb. destruct (proj2 IH Hb). split; [apply Hc; by left|]. intros p [?|(_ & ? & _)]%Hc; auto; done. }
  assert (rel <> []) as Hrn by (intros ->; by rewrite streq_refl in Hrel).
  destruct (named contains rel) eqn:Hn.
  2: { split.
    - intros Hb p [?|(_ & _ & ? & _)]%Hc; [by eapply IH|done].
    - intros Hb. destruct (proj2 IH Hb). split; [apply Hc; by left|]. intros p [?|(_ & _ & ? & _)]%Hc; auto; done. }
  destruct (streq best []) eqn:Hb; cbn [orb].
  { apply streq_spec in Hb. split; [intros He; by destruct (Hne eq_refl Hrn)|]. intros _. split; [apply Hc; by right|].
    intros p [Hp|(_ & _ & _ & ->)]%Hc; [|done]. by destruct (proj1 IH Hb p). }
  assert (best <> []) as Hbn by (intros He; by rewrite He, streq_refl in Hb).
  destruct (proj2 IH Hbn) as [Hcand Hmin]. destruct (Nat.ltb_spec (length (below root rel)) (length best)).
  - split; [intros He; by destruct (Hne eq_refl Hrn)|]. intros _. split; [apply Hc; by right|].
    intros p [Hp|(_ & _ & _ & ->)]%Hc; [|done]. specialize (Hmin p Hp). lia.
  - split; [done|]. intros _. split; [apply Hc; by left|]. intros p [Hp|(_ & _ & _ & ->)]%Hc; [by apply Hmin|done].
Qed.

(** The directory the cgroup programs are attached to: a shortest one below the root
    whose path contains a configured text; an error when there is none. *)
Theorem resolve_shortest root walk contains :
  match resolveV2Dir root true walk contains with
  | Some best => candidate root contains walk best /\
      forall p, candidate root contains walk p -> (length best <= length p)%nat
  | None => forall p, ~ candidate root contains walk p
  end.
Proof.
  unfold resolveV2Dir. destruct contains as [|c cs]; [intros p (rel & _ & _ & Hn & _); done|]. cbn [negb].
  destruct (visit_best root (c :: cs) walk) as [H0 H1]. cbv zeta.
  destruct (streq _ []) eqn:Hb; [apply H0; by apply streq_spec|]. apply H1. intros He. by rewrite He, streq_refl in Hb.
Qed.
