(* ===== verification/ShadowReport.v ===== *)
(** * ShadowReport: counting the audit's shadow denials

    [internal/policy/shadow_report.go]: the report over the lines of the audit, what it
    counts ([shadow_report_counts]) and that it counts what the engine reported
    ([engine_denials_counted]).  Decoding a line is a library's. *)

From stdpp Require Import strings gmap sorting lexico.
From Stdlib Require Import String.
From S2P Require Import Prelude Types Policy Compile Feedback.

#[local] Open Scope list_scope.
#[local] Open Scope Z_scope.

(** The fields of a line; the zero [time.Time] is 0. *)
Record audit_line := mk_line {
  l_Event : gostring;
  l_Time : Z;
  l_RuleID : gostring;
  l_ShadowSource : gostring;
  l_AgentID : gostring
}.

Record ShadowReportRow := mk_row {
  row_RuleID : gostring;
  row_Source : gostring;
  row_AgentID : gostring;
  Count : Z
}.

Abbreviation row_key := (gostring * gostring * gostring)%type.

(** The order of rows: by rule, source and agent, as strings. *)
Definition key_le (a b : row_key) : Prop := a = b \/ lexico a b.

#[global] Instance key_le_dec : RelDecision key_le.
Proof. intros a b. unfold key_le. apply _. Defined.

Section report.
Context (unmarshal : gostring -> option audit_line).

(** Whether a line counts, and under which key. *)
Definition line_key (since : Z) (text : gostring) : option row_key :=
  let line := TrimSpace text in
  if streq line [] then None else
  rec ← unmarshal line;
  if negb (streq (l_Event rec) (bytes_of "shadow_deny")) then None else
  if negb (since =? 0) && negb (l_Time rec =? 0) && (l_Time rec <? since) then None else
  Some (l_RuleID rec, l_ShadowSource rec, l_AgentID rec).

Definition count_line (since : Z) (counts : gmap row_key Z) (text : gostring) : gmap row_key Z :=
  match line_key since text with
  | Some k => <[k := default 0 (counts !! k) + 1]> counts
  | None => counts
  end.

(** The lines a scanner yields, and whether it ended without an error (a line longer
    than its buffer is one). *)
Definition ShadowReportFromReader (scanned : list gostring * bool) (since : Z) : option (list ShadowReportRow) :=
  let counts := foldl (count_line since) ∅ scanned.1 in
  if negb scanned.2 then None else
  Some ((fun k => mk_row k.1.1 k.1.2 k.2 (default 0 (counts !! k))) <$> merge_sort key_le (fst <$> map_to_list counts)).

(** ** What it counts *)

Definition key_of (r : ShadowReportRow) : row_key := (row_RuleID r, row_Source r, row_AgentID r).

Definition occurrences (k : row_key) (ks : list (option row_key)) : Z :=
  Z.of_nat (length (filter (fun x => x = Some k) ks)).

Lemma counts_spec since lines k :
  let counts := foldl (count_line since) ∅ lines in
  let n := occurrences k (line_key since <$> lines) in
  counts !! k = if decide (n = 0) then None else Some n.
Proof.
  cbv zeta. unfold occurrences. induction lines as [|l lines IH] using rev_ind; [done|].
  rewrite foldl_app, fmap_app, filter_app, length_app. cbn [foldl fmap list_fmap]. unfold count_line at 1.
  destruct (line_key since l) as [k'|] eqn:Hk.
  - destruct (decide (k' = k)) as [->|Hne].
    + rewrite lookup_insert_eq, filter_cons_True by done. cbn [filter list_filter length]. rewrite IH.
      destruct (decide _) as [He|He]; cbn [default]; rewrite decide_False by lia; unfold id; f_equal; lia.
    + rewrite lookup_insert_ne, filter_cons_False by congruence. cbn [filter list_filter length].
      rewrite IH. by rewrite Nat.add_0_r.
  - rewrite filter_cons_False by done. cbn [filter list_filter length]. by rewrite Nat.add_0_r.
Qed.

#[local] Instance key_le_trans : Transitive key_le.
Proof. intros a b c [->|H1] [->|H2]; unfold key_le; auto. right. by transitivity b. Qed.
#[local] Instance key_le_total : Total key_le.
Proof. intros a b. unfold key_le. destruct (trichotomyT lexico a b) as [[?|?]|?]; auto. Qed.

(** The report has one row per rule, source and agent that the audit has shadow
    denials for since the given time, with their number, in strictly ascending order;
    it fails only when the scan does. *)
Theorem shadow_report_counts scanned since rows :
  ShadowReportFromReader scanned since = Some rows ->
  StronglySorted lexico (key_of <$> rows) /\
  forall k n, (exists r, r ∈ rows /\ key_of r = k /\ Count r = n) <->
    n = occurrences k (line_key since <$> scanned.1) /\ 0 < n.
Proof.
  unfold ShadowReportFromReader. destruct (scanned.2); [|done]. cbn [negb]. intros [= <-].
  pose proof (counts_spec since scanned.1) as Hc. cbv zeta in Hc.
  set (counts := foldl _ _ _) in *. set (ks := merge_sort key_le (fst <$> map_to_list counts)).
  assert (ks ≡ₚ fst <$> map_to_list counts) as Hperm by apply merge_sort_Permutation. split.
  - rewrite <- list_fmap_compose.
    replace (key_of ∘ _ <$> ks) with ks by (rewrite <- (list_fmap_id ks) at 1; apply list_fmap_ext; by intros _ [[] ?] _).
    assert (NoDup ks) as Hnd by (rewrite Hperm; apply NoDup_fst_map_to_list).
    assert (StronglySorted key_le ks) as Hs by apply (StronglySorted_merge_sort key_le).
    clear Hperm. clearbody ks. induction Hs as [|k ks _ IH Hk]; [constructor|]. apply NoDup_cons in Hnd as [Hin Hnd].
    constructor; [by apply IH|]. rewrite Forall_forall in *. intros k' Hk'. destruct (Hk k' Hk') as [<-|?]; [done|done].
  - assert (forall k, k ∈ ks <-> is_Some (counts !! k)) as Hks.
    { intros k. rewrite Hperm, list_elem_of_fmap. split.
      - intros ([k' n] & -> & Hn%elem_of_map_to_list). by exists n.
      - intros [n Hn]. exists (k, n). by rewrite elem_of_map_to_list. }
    assert (forall k, 0 <= occurrences k (line_key since <$> scanned.1)) as Hpos by (intros; unfold occurrences; lia).
    intros k n. split.
    + intros (r & (k' & -> & Hk')%list_elem_of_fmap & <- & <-). destruct k' as [[r s] a]. cbn [Count key_of row_RuleID row_Source row_AgentID fst snd].
      apply Hks in Hk' as [v Hv]. rewrite Hv. rewrite Hc in Hv. specialize (Hpos (r, s, a)).
      destruct (decide _); [done|]. injection Hv as <-. cbn [default]. unfold id. split; [done|lia].
    + intros [-> Hn]. exists (mk_row k.1.1 k.1.2 k.2 (default 0 (counts !! k))). destruct k as [[r s] a].
      split_and!; [|done|].
      * apply list_elem_of_fmap. exists (r, s, a). split; [done|]. apply Hks. rewrite Hc. rewrite decide_False by lia. by eexists.
      * cbn [Count fst snd]. rewrite Hc, decide_False by lia. done.
Qed.

(** ** The engine's denials *)

(** What the reporter writes for a record at a time (json.Marshal), and what decoding
    gives back. *)
Context (marshal : Z -> report.Record_ -> gostring).
Context (marshal_decodes : forall t rec, unmarshal (TrimSpace (marshal t rec)) =
  Some (mk_line (report.Event rec) t (report.RuleID rec) (report.ShadowSource rec) (report.AgentID rec))).
Context (marshal_text : forall t rec, TrimSpace (marshal t rec) <> []).

Definition is_shadow_deny (k : row_key) (rec : report.Record_) : Prop :=
  report.Event rec = bytes_of "shadow_deny" /\ k = (report.RuleID rec, report.ShadowSource rec, report.AgentID rec).

#[global] Instance is_shadow_deny_dec k rec : base.Decision (is_shadow_deny k rec).
Proof. unfold is_shadow_deny. apply _. Defined.

(** An audit of records written since the given time is counted whole: the row of a
    rule, source and agent has the number of the shadow denials reported for it. *)
Theorem engine_denials_counted since (log : list (Z * report.Record_)) rows :
  Forall (fun e => since <= e.1) log ->
  ShadowReportFromReader ((fun e => marshal e.1 e.2) <$> log, true) since = Some rows ->
  forall k, 0 < Z.of_nat (length (filter (is_shadow_deny k) log.*2)) ->
  exists r, r ∈ rows /\ key_of r = k /\ Count r = Z.of_nat (length (filter (is_shadow_deny k) log.*2)).
Proof.
  intros Ht Hrep k Hpos. apply shadow_report_counts in Hrep as [_ Hrep]. apply Hrep. split; [|done].
  cbn [fst]. unfold occurrences. f_equal. clear Hpos Hrep rows. induction Ht as [|[t rec] log Hle _ IH]; [done|].
  cbn [fmap list_fmap fst snd] in *. unfold line_key at 1. destruct (streq (TrimSpace _) []) eqn:He.
  { apply streq_spec in He. by apply marshal_text in He. }
  rewrite marshal_decodes. cbn [mbind option_bind l_Event l_Time l_RuleID l_ShadowSource l_AgentID].
  replace (negb (since =? 0) && negb (t =? 0) && (t <? since)) with false
    by (symmetry; rewrite !andb_false_iff; right; lia).
  destruct (streq (report.Event rec) (bytes_of "shadow_deny")) eqn:Hev; cbn [negb].
  - apply streq_spec in Hev. destruct (decide (k = (report.RuleID rec, report.ShadowSource rec, report.AgentID rec))) as [->|Hne].
    + rewrite !filter_cons_True by done. cbn [length]. by rewrite IH.
    + rewrite (filter_cons_False (is_shadow_deny k)) by (by intros [_ ?]). by rewrite filter_cons_False by congruence.
  - rewrite (filter_cons_False (is_shadow_deny k)) by (intros [Hs _]; apply streq_spec in Hs; congruence).
    by rewrite filter_cons_False by done.
Qed.
End report.
