(* ===== verification/Shim.v ===== *)
(** * Shim: how a denial reaches the agent's runtime

    The readers of the feedback: [internal/feedback/lookup.go] (the tail of the file,
    the debug server, the polling search), the handlers of
    [internal/debugsrv/debugsrv.go] and the command [cmd/shim/main.go].  Decoding a
    decision is a library's ([DecisionCodec]).  The search ends
    ([search_ends]) and finds what the agent recorded ([blocked_command_explained]). *)

From stdpp Require Import strings gmap sorting lexico.
From Stdlib Require Import String.
From S2P Require Import Prelude Types Policy Compile Text Fingerprint Proctable Config Feedback Engine.

#[local] Open Scope list_scope.
#[local] Open Scope Z_scope.

(** ** The feedback file *)

Definition NL : Z := 10.

(** What a scanner for lines yields: the last piece only if it is not empty.  A carriage
    return it drops is white space to the caller.  A line its buffer cannot hold, with
    its end, is an error. *)
Definition scan_lines (s : gostring) : list gostring :=
  let ps := split_on NL s in
  match last ps with
  | Some [] => List.removelast ps
  | _ => ps
  end.

Definition scan_buffer : nat := Z.to_nat 65536.
Definition scannable (line : gostring) : bool := (length line <? scan_buffer)%nat.

(** A decision as JSON and back: one line of text, of which no proper tail is a
    decision. *)
Class DecisionCodec (marshal : feedback.Decision -> gostring) (unmarshal : gostring -> option feedback.Decision) : Prop := {
  decision_back d : unmarshal (marshal d) = Some d;
  decision_line d : NL ∉ marshal d;
  decision_trimmed d : TrimSpace (marshal d) = marshal d;
  decision_nonempty d : marshal d <> [];
  decision_tail d k : (0 < k)%nat -> TrimSpace (drop k (marshal d)) <> [] -> unmarshal (TrimSpace (drop k (marshal d))) = None
}.

Section lookup.
Context (marshal : feedback.Decision -> gostring) (unmarshal : gostring -> option feedback.Decision).

Definition decode_line (text : gostring) : option feedback.Decision :=
  let line := TrimSpace text in if streq line [] then None else unmarshal line.

Definition tailMax : nat := Z.to_nat (Z.shiftl 256 10).

(** [None] content: the file cannot be opened. *)
Definition RecentFromFile (content : option (list Z)) (limit : Z) : option (list feedback.Decision) :=
  let limit := if limit <=? 0 then 32 else limit in
  data ← content;
  let lines := scan_lines (drop (length data - tailMax) data) in
  if forallb scannable lines then Some (last_n limit (omap decode_line lines)) else None.

(** ** The debug server *)

(** The parameters of a request: agent_id and limit; [None]: not found. *)
Definition handleFeedback (fb : option feedback.Hub) (agentID limit : gostring) : option (list feedback.Decision) :=
  match fb with
  | None => None
  | Some h =>
      if negb (streq agentID []) then Some (feedback.ForAgent agentID h) else
      let limit := if streq limit [] then 20 else
                   match Atoi limit with Some n => if 0 <? n then n else 20 | None => 20 end in
      Some (feedback.Recent limit h)
  end.

Definition handleAgents {K} (eng : engine K) : list proctable.Proc := proctable.TaggedSnapshot (tbl eng).

Definition id_le (a b : gostring * stats.AgentStat) : Prop := a.1 = b.1 \/ lexico a.1 b.1.

#[global] Instance id_le_dec : RelDecision id_le.
Proof. intros a b. unfold id_le. apply _. Defined.

(** [Stats.Snapshot]: the agents by their id. *)
Definition Snapshot (s : stats.Stats) : Z * Z * list (gostring * stats.AgentStat) :=
  (stats.TotalEvents s, stats.Enrollments s, merge_sort id_le (map_to_list (stats.perAgent s))).

Definition handleStats {K} (eng : engine K)
    : Z * Z * list (gostring * stats.AgentStat) * nat :=
  (Snapshot (stats_ eng), proctable.Len (tbl eng)).

(** ** The search (FindForPID) *)

Record LookupConfig := mk_lookup {
  File : gostring;
  URL : gostring;
  lk_AgentID : gostring;
  Wait : Z;
  Poll : Z
}.

Definition defaultWait : Z := 500000000.
Definition defaultPoll : Z := 50000000.

(** The parameters in the query of a URL ([None]: it does not parse), and the decoded
    answer of the server to a request with parameters ([None]: no answer in time, another
    status, or not JSON). *)
Definition FromHTTP (query : gostring -> option (gostring * gostring)) (serve : gostring -> gostring -> option (list feedback.Decision))
    (baseURL agentID : gostring) : option (list feedback.Decision) :=
  q ← query baseURL;
  if negb (streq agentID []) then serve agentID q.2
  else if streq q.2 [] then serve q.1 (bytes_of "32") else serve q.1 q.2.

(** The decisions, and whether there is an error. *)
Definition collect (cfg : LookupConfig) (content : option (list Z)) (http : option (list feedback.Decision))
    : list feedback.Decision * bool :=
  let from (used : bool) (r : option (list feedback.Decision)) :=
    if negb used then ([], false) else match r with Some l => (l, false) | None => ([], true) end in
  let f := from (negb (streq (File cfg) [])) (RecentFromFile content 64) in
  let h := from (negb (streq (URL cfg) [])) http in
  let out := f.1 ++ h.1 in
  if negb (nonempty out) && (f.2 || h.2) then ([], true) else (out, false).

(** What the rounds of the search meet: the file, the server's answer and the clock when
    the round ends. *)
Record rounds := mk_rounds {
  content : nat -> option (list Z);
  http : nat -> option (list feedback.Decision);
  clock : nat -> Z
}.

Definition round (cfg : LookupConfig) (w : rounds) (i : nat) : list feedback.Decision * bool :=
  collect cfg (content w i) (http w i).

Fixpoint search (fuel : nat) (cfg : LookupConfig) (w : rounds) (pid since deadline : Z) (i : nat) (lastErr : bool)
    : option (option feedback.Decision * bool) :=
  match fuel with
  | O => None
  | Datatypes.S fuel =>
      let '(list, err) := round cfg w i in
      let lastErr := lastErr || err in
      match feedback.matchPID list pid since with
      | Some d => Some (Some d, false)
      | None => if deadline <? clock w i then Some (None, lastErr)
                else search fuel cfg w pid since deadline (Datatypes.S i) lastErr
      end
  end.

Definition wait_of (cfg : LookupConfig) : Z := if Wait cfg <=? 0 then defaultWait else Wait cfg.
Definition poll_of (cfg : LookupConfig) : Z := if Poll cfg <=? 0 then defaultPoll else Poll cfg.

Definition search_fuel (cfg : LookupConfig) : nat := Z.to_nat (wait_of cfg / poll_of cfg) + 2.

Definition FindForPID (cfg : LookupConfig) (w : rounds) (now pid since : Z) : option (option feedback.Decision * bool) :=
  search (search_fuel cfg) cfg w pid since (now + wait_of cfg) 0 false.

(** ** The shim *)

Context (Quote : gostring -> gostring).

Definition ShimPrefix : gostring := bytes_of "AIBLOCKER_POLICY_FEEDBACK:".

Definition HumanMessage (d : feedback.Decision) : gostring :=
  bytes_of "Policy blocked action " ++ Quote (feedback.Action d) ++
  (if negb (streq (feedback.Target d) []) then bytes_of " on " ++ Quote (feedback.Target d) else []) ++
  bytes_of " (rule " ++ Quote (feedback.MatchedRule d) ++ bytes_of "). " ++ feedback.Reason d ++
  bytes_of " Retry: " ++ feedback.Retry d ++ bytes_of ".".

Definition ShimLine (d : feedback.Decision) : gostring := ShimPrefix ++ marshal d.

(** How the command ended: with a code, by a signal, waited for without success, or not
    started at all. *)
Inductive command := ExitedWith (code : Z) | Killed | WaitFailed | NotStarted.

Definition exitCode (c : command) : Z :=
  match c with ExitedWith code => code | Killed => -1 | WaitFailed | NotStarted => 1 end.

Definition has_process (c : command) : bool := match c with NotStarted => false | _ => true end.

(** Whether the feedback is looked up. *)
Definition looks_up (cfg : LookupConfig) (c : command) : bool :=
  negb (exitCode c =? 0) && has_process c && (negb (streq (File cfg) []) || negb (streq (URL cfg) [])).

(** The status of the shim and the lines of feedback on its standard error. *)
Definition shim (cfg : LookupConfig) (w : rounds) (quiet : bool) (c : command) (now pid start : Z)
    : option (Z * list gostring) :=
  lines ← (if looks_up cfg c then
             r ← FindForPID cfg w now pid start;
             Some match r.1 with
                  | Some d => ShimLine d :: (if quiet then [] else [HumanMessage d])
                  | None => []
                  end
           else Some []);
  Some (exitCode c mod 256, lines).

(** ** The search ends, with the newest decision *)

Section search.
Context (cfg : LookupConfig) (w : rounds) (now pid since : Z).
(** The clock starts at [now] and each round sleeps for the poll interval. *)
Context (Hstart : now <= clock w 0) (Hsleep : forall i, clock w i + poll_of cfg <= clock w (Datatypes.S i)).

Notation deadline := (now + wait_of cfg).
Notation cutoff := (since - feedback.matchGrace).

(** Round [i] is reached: no earlier round ended after the deadline. *)
Definition reached (i : nat) : Prop := forall j, (j < i)%nat -> clock w j <= deadline.

(** What a search that is at round [i] comes to. *)
Definition finds (i : nat) (r : option feedback.Decision * bool) : Prop :=
  match r.1 with
  | Some d => exists k, (i <= k)%nat /\ (forall j, (i <= j < k)%nat -> clock w j <= deadline) /\
      d ∈ (round cfg w k).1 /\ feedback.PID d = pid /\ cutoff <= feedback.Time d /\
      forall e, e ∈ (round cfg w k).1 -> feedback.PID e = pid -> feedback.Time e <= feedback.Time d
  | None => forall k, (i <= k)%nat -> (forall j, (i <= j < k)%nat -> clock w j <= deadline) ->
      forall e, e ∈ (round cfg w k).1 -> feedback.PID e = pid -> feedback.Time e < cutoff
  end.

Lemma clock_lower i : now + Z.of_nat i * poll_of cfg <= clock w i.
Proof. induction i as [|i IH]; [lia|]. specialize (Hsleep i). lia. Qed.

Lemma poll_positive : 0 < poll_of cfg.
Proof. unfold poll_of, defaultPoll. destruct (Z.leb_spec (Poll cfg) 0); lia. Qed.

Lemma search_result fuel i err r :
  search fuel cfg w pid since deadline i err = Some r -> finds i r.
Proof.
  revert i err. induction fuel as [|fuel IH]; intros i err; [done|]. cbn [search].
  destruct (round cfg w i) as [l e] eqn:Hr. pose proof (newer_spec cutoff pid l) as Hn.
  fold (feedback.matchPID l pid since) in Hn. destruct (feedback.matchPID l pid since) as [b|].
  - intros [= <-]. unfold finds. cbn [fst]. exists i. rewrite Hr. cbn [fst]. destruct Hn as (H1 & H2 & H3 & H4).
    split_and!; [lia|intros j Hj; lia|done..].
  - assert (forall k, (i <= k)%nat -> (k = i \/ (Datatypes.S i <= k)%nat)) as Hk by lia.
    destruct (Z.ltb_spec deadline (clock w i)) as [Hd|Hd].
    + intros [= <-]. unfold finds. cbn [fst]. intros k Hik Hj x Hx Hp. destruct (Hk k Hik) as [-> |Hlt].
      * rewrite Hr in Hx. by apply Hn.
      * specialize (Hj i ltac:(lia)). lia.
    + intros Hs%IH. unfold finds in *. destruct (r.1) as [d|].
      * destruct Hs as (k & Hik & Hj & Hrest). exists k. split; [lia|]. split; [|done].
        intros j Hij. destruct (decide (j = i)) as [-> |]; [done|]. apply Hj. lia.
      * intros k Hik Hj x Hx Hp. destruct (Hk k Hik) as [-> |Hlt]; [rewrite Hr in Hx; by apply Hn|].
        apply (Hs k Hlt); [|done..]. intros j Hij. apply Hj. lia.
Qed.

Lemma search_total fuel i err :
  (Z.to_nat (wait_of cfg / poll_of cfg) + 2 <= fuel + i)%nat -> (0 < fuel)%nat ->
  is_Some (search fuel cfg w pid since deadline i err).
Proof.
  revert i err. induction fuel as [|fuel IH]; intros i err Hf Hpos; [lia|]. cbn [search].
  destruct (round cfg w i) as [l e]. destruct (feedback.matchPID l pid since); [done|].
  destruct (Z.ltb_spec deadline (clock w i)) as [Hd|Hd]; [done|]. apply IH; [lia|].
  destruct fuel as [|fuel]; [|lia]. exfalso.
  pose proof poll_positive as Hp. pose proof (clock_lower i) as Hc.
  pose proof (Z.div_mod (wait_of cfg) (poll_of cfg) ltac:(lia)) as Hdm.
  pose proof (Z.mod_pos_bound (wait_of cfg) (poll_of cfg) Hp) as Hm.
  assert (wait_of cfg / poll_of cfg + 1 <= Z.of_nat i) as Hi by lia.
  assert ((wait_of cfg / poll_of cfg + 1) * poll_of cfg <= Z.of_nat i * poll_of cfg) by (apply Z.mul_le_mono_nonneg_r; lia).
  lia.
Qed.

(** The search for the feedback of a process ends within the wait divided by the poll
    interval, plus two, rounds.  It comes back with the newest decision of the first
    round that has one for the process since its start (less the grace), and without one
    only when no round up to the deadline had any. *)
Theorem search_ends : exists r, FindForPID cfg w now pid since = Some r /\ finds 0 r.
Proof.
  destruct (search_total (search_fuel cfg) 0 false) as [r Hr]; [unfold search_fuel; lia..|].
  exists r. split; [done|]. by apply search_result in Hr.
Qed.
End search.

(** ** The file the agent writes *)

Context `{!DecisionCodec marshal unmarshal}.

Definition line_of (d : feedback.Decision) : list Z := marshal d ++ [NL].
Definition file_text (ds : list feedback.Decision) : list Z := concat (line_of <$> ds).

(** The scanner can hold every line. *)
Definition short_lines (ds : list feedback.Decision) : Prop := Forall (fun d => scannable (marshal d) = true) ds.

Lemma split_on_app a s : NL ∉ a -> split_on NL (a ++ NL :: s) = a :: split_on NL s.
Proof.
  induction a as [|b a IH]; cbn [app split_on]; [done|]. intros [Hb Ha]%not_elem_of_cons.
  rewrite (proj2 (Z.eqb_neq b NL)) by congruence. by rewrite IH.
Qed.

Lemma split_on_ne s : split_on NL s <> [].
Proof. destruct s as [|b s]; cbn [split_on]; [done|]. destruct (b =? NL); [done|]. by destruct (split_on NL s). Qed.

Lemma scan_lines_app a s : NL ∉ a -> scan_lines (a ++ NL :: s) = a :: scan_lines s.
Proof.
  intros Ha. unfold scan_lines. rewrite split_on_app by done. pose proof (split_on_ne s) as Hne.
  destruct (split_on NL s) as [|p ps]; [done|]. change (last (a :: p :: ps)) with (last (p :: ps)).
  destruct (last (p :: ps)) as [[|b l]|]; try done.
Qed.

Lemma decode_whole d : decode_line (marshal d) = Some d.
Proof.
  unfold decode_line. cbv zeta. rewrite decision_trimmed. destruct (streq (marshal d) []) eqn:He.
  - apply streq_spec in He. by apply decision_nonempty in He.
  - apply decision_back.
Qed.

Lemma decode_tail d k : (0 < k)%nat -> decode_line (drop k (marshal d)) = None.
Proof.
  intros Hk. unfold decode_line. cbv zeta. destruct (streq _ []) eqn:He; [done|]. apply decision_tail; [done|].
  intros Hn. rewrite Hn, streq_refl in He. done.
Qed.

Lemma elem_of_dropped {A} n (x : A) l : x ∈ drop n l -> x ∈ l.
Proof. intros H. rewrite <- (take_drop n l). apply elem_of_app. by right. Qed.

Lemma suffix_cons_cases {A} (x : A) l l' : l' `suffix_of` x :: l -> l' = x :: l \/ l' `suffix_of` l.
Proof. intros [[|y k] Hk]; [by left|]. right. injection Hk as _ ->. by exists k. Qed.

(** What is read after the first [n] bytes: the decisions of the whole lines. *)
Lemma read_tail ds n :
  short_lines ds -> (n <= length (file_text ds))%nat ->
  let lines := scan_lines (drop n (file_text ds)) in
  forallb scannable lines = true /\
  exists ds', ds' `suffix_of` ds /\ omap decode_line lines = ds' /\
    forall ds1, ds1 `suffix_of` ds -> (length (file_text ds1) + n <= length (file_text ds))%nat -> ds1 `suffix_of` ds'.
Proof.
  cbv zeta. revert n. induction ds as [|d ds IH]; intros n Hs Hn.
  { change (file_text []) with (@nil Z). rewrite drop_nil. split; [done|]. exists []. split_and!; [done..|]. by intros ds1 H _. }
  apply Forall_cons in Hs as [Hd Hs]. change (file_text (d :: ds)) with (line_of d ++ file_text ds) in *.
  rewrite length_app in *. unfold line_of in *. rewrite length_app in *. cbn [length] in *.
  destruct (decide (length (marshal d) + 1 <= n)%nat) as [Hge|Hlt].
  - rewrite drop_app_ge by (rewrite length_app; cbn [length]; lia). rewrite length_app. cbn [length].
    destruct (IH (n - (length (marshal d) + 1))%nat Hs ltac:(lia)) as (Hb & ds' & Hsuf & Hds & Hmax).
    split; [done|]. exists ds'. split_and!; [by apply suffix_cons_r|done|]. intros ds1 H1 Hl.
    apply suffix_cons_cases in H1 as [->|H1]; [|apply Hmax; [done|lia]]. exfalso.
    change (file_text (d :: ds)) with (line_of d ++ file_text ds) in Hl. unfold line_of in Hl.
    rewrite !length_app in Hl. cbn [length] in Hl. lia.
  - destruct (IH 0%nat Hs ltac:(lia)) as (Hb & ds' & Hsuf & Hds & Hmax). rewrite drop_0 in *.
    rewrite drop_app_le by (rewrite length_app; cbn [length]; lia). rewrite drop_app_le by lia.
    rewrite <- app_assoc. cbn [app]. rewrite scan_lines_app.
    2: { intros Hin. apply (decision_line d). by eapply elem_of_dropped. }
    assert (scannable (drop n (marshal d)) = true) as Hsc.
    { unfold scannable in *. rewrite length_drop. apply Nat.ltb_lt. apply Nat.ltb_lt in Hd. lia. }
    cbn [forallb]. rewrite Hsc. split; [done|]. cbn [omap list_omap].
    assert (ds' = ds) as ->.
    { destruct (Hmax ds ltac:(done) ltac:(lia)) as [l Hl]. destruct Hsuf as [l' Hl'].
      pose proof (f_equal length Hl) as H1. pose proof (f_equal length Hl') as H2. rewrite length_app in H1, H2.
      destruct l; [done|]. cbn [length] in H1. lia. }
    destruct n as [|n].
    + rewrite drop_0, decode_whole, Hds. exists (d :: ds). split_and!; [done..|]. by intros ds1 H1 _.
    + rewrite decode_tail by lia. exists ds. split_and!; [by apply suffix_cons_r|done|]. intros ds1 H1 Hl.
      apply suffix_cons_cases in H1 as [->|H1]; [|done]. exfalso.
      change (file_text (d :: ds)) with (line_of d ++ file_text ds) in Hl. unfold line_of in Hl.
      rewrite !length_app in Hl. cbn [length] in Hl. lia.
Qed.

(** The file the hub appended to is read back: the latest of its decisions, as many as
    asked for, of those whose lines lie wholly in the last 256 KiB. *)
Lemma recent_of_history ds limit :
  short_lines ds ->
  exists ds', ds' `suffix_of` ds /\
    RecentFromFile (Some (file_text ds)) limit = Some (last_n (if limit <=? 0 then 32 else limit) ds') /\
    forall ds1, ds1 `suffix_of` ds -> (length (file_text ds1) <= tailMax)%nat -> ds1 `suffix_of` ds'.
Proof.
  intros Hs. unfold RecentFromFile. cbn [mbind option_bind].
  destruct (read_tail ds (length (file_text ds) - tailMax)%nat Hs ltac:(lia)) as (Hb & ds' & Hsuf & Hds & Hmax).
  rewrite Hb, Hds. exists ds'. split_and!; [done..|]. intros ds1 H1 Hl. apply Hmax; [done|].
  destruct H1 as [l ->]. unfold file_text in *. rewrite fmap_app, concat_app, length_app. lia.
Qed.

Lemma suffix_last_n {A} (n : Z) (l l' : list A) : l `suffix_of` l' -> feedback.len l <= n -> l `suffix_of` last_n n l'.
Proof.
  intros [k ->] Hl. unfold last_n, feedback.len in *. rewrite drop_app_le by (rewrite length_app; lia).
  by apply suffix_app_r.
Qed.

(** ** A blocked command is explained *)

(** C22. A blocked command is explained. The shim reads a feedback file and no URL,
    every round of polling finds the file readable with lines of less than 64 KiB,
    and each round takes at least the poll interval. When a command under the shim
    fails, and in some round that starts before the deadline the file holds a
    decision for its process, recorded no more than 200 ms before the command's
    start, among the last 64 and in the last 256 KiB, the search ends, the shim
    prints a decision the agent recorded for that process, no more than 200 ms
    before the start either, and exits with the command's status. *)
Theorem blocked_command_explained cfg w quiet code now pid start (history : nat -> list feedback.Decision) k d ds1 :
  code <> 0 -> File cfg <> [] -> URL cfg = [] ->
  now <= clock w 0 -> (forall i, clock w i + poll_of cfg <= clock w (Datatypes.S i)) ->
  (forall i, content w i = Some (file_text (history i)) /\ short_lines (history i)) ->
  reached cfg w now k -> (d :: ds1) `suffix_of` history k ->
  (length (file_text (d :: ds1)) <= tailMax)%nat -> feedback.len (d :: ds1) <= 64 ->
  feedback.PID d = pid -> start - feedback.matchGrace <= feedback.Time d ->
  exists i e, e ∈ history i /\ feedback.PID e = pid /\ start - feedback.matchGrace <= feedback.Time e /\
    shim cfg w quiet (ExitedWith code) now pid start =
      Some (code mod 256, ShimLine e :: (if quiet then [] else [HumanMessage e])).
Proof.
  intros Hcode Hfile Hurl Hstart Hsleep Hfiles Hk Hsuf Htail Hlen Hpid Htime.
  assert (forall i, exists ds', ds' `suffix_of` history i /\ (round cfg w i).1 = last_n 64 ds' /\
            forall ds1, ds1 `suffix_of` history i -> (length (file_text ds1) <= tailMax)%nat -> ds1 `suffix_of` ds') as Hround.
  { intros i. destruct (Hfiles i) as [Hc Hs]. destruct (recent_of_history (history i) 64 Hs) as (ds' & H1 & H2 & H3).
    exists ds'. split_and!; [done| |done]. unfold round, collect. cbv zeta. rewrite Hc, H2, Hurl, streq_refl.
    replace (streq (File cfg) []) with false by (symmetry; apply not_true_iff_false; by rewrite streq_spec).
    cbn [negb fst snd]. rewrite app_nil_r. cbn [orb]. by rewrite andb_false_r. }
  destruct (search_ends cfg w now pid start Hstart Hsleep) as ([best err] & Hfind & Hbest).
  assert (exists e, best = Some e) as [e ->].
  { destruct best as [e|]; [by exists e|]. exfalso. unfold finds in Hbest. cbn [fst] in Hbest.
    destruct (Hround k) as (ds' & _ & Hr & Hmax). pose proof (Hmax _ Hsuf Htail) as Hin.
    apply (suffix_last_n 64) in Hin as [l Hl]; [|done]. rewrite Hl in Hr.
    specialize (Hbest k ltac:(lia) ltac:(intros j Hj; apply Hk; lia) d). rewrite Hr in Hbest.
    specialize (Hbest ltac:(apply elem_of_app; right; left) Hpid). lia. }
  destruct Hbest as (i & _ & _ & Hin & Hp & Ht & _). cbn [fst] in *.
  destruct (Hround i) as (ds' & Hs' & Hr & _). exists i, e. split_and!; [|done..|].
  - rewrite Hr in Hin. unfold last_n in Hin. destruct Hs' as [l ->]. apply elem_of_app. right.
    by eapply elem_of_dropped.
  - unfold shim, looks_up. cbn [exitCode has_process]. rewrite Hfind. cbn [mbind option_bind fst].
    rewrite (proj2 (Z.eqb_neq code 0) Hcode).
    by replace (streq (File cfg) []) with false by (symmetry; apply not_true_iff_false; by rewrite streq_spec).
Qed.

(** A command that succeeds, or that has no feedback configured, is passed through. *)
Lemma shim_transparent cfg w quiet c now pid start :
  exitCode c = 0 \/ has_process c = false \/ (File cfg = [] /\ URL cfg = []) ->
  shim cfg w quiet c now pid start = Some (exitCode c mod 256, []).
Proof.
  intros H. unfold shim, looks_up. destruct H as [->|[->|[-> ->]]]; cbn [negb andb]; [done|by rewrite andb_false_r|].
  rewrite streq_refl. cbn [negb orb]. by rewrite andb_false_r.
Qed.
End lookup.
