(* ===== verification/EndToEnd.v ===== *)
(** * EndToEnd: from a signed bundle and an exec to the answer of a syscall

    The parts put together.  The agent holds a policy it read from a signed bundle and
    has loaded into the kernel maps ([Lifecycle]), its engine has tagged a process
    ([Lineage]), the process passes a path or an address to a syscall, and the hook
    answers as the bundle's rules say ([signed_policy_decides_opens],
    [signed_policy_decides_connects]). *)

From stdpp Require Import gmap.
From Stdlib Require Import String.
From S2P Require Import Prelude Types Bpf State Logic.
From S2P Require Enforcer Enroll.
From S2P Require Import Gate PathVerdict Hooks ConnectVerdict Staging Machine Pipeline.
From S2P Require Import Policy MapLoad LoadFacts PathLoad LoadedPaths PathPolicy Compile CompileFacts.
From S2P Require Import Net ConnectLoad ConnectPolicy.
From S2P Require Import Formats Fingerprint Proctable Config Engine EngineFacts Lineage Store Lifecycle.
Import proctable.

#[local] Open Scope list_scope.
#[local] Open Scope Z_scope.

(** ** Patterns that do not depend on the home directories *)

Section homes.
Context (ParseCIDR : gostring -> option (list Z * Z)) (ParseIP : gostring -> option (list Z)).

Lemma compiled_expanded homes b cp r :
  Compile ParseCIDR ParseIP b = Some cp -> Forall simple_rule (bundle.Rules b) -> r ∈ Live cp ->
  expanded homes r = PathIn r.
Proof.
  intros Hc Hs Hr. destruct (Compile_inv _ _ _ _ Hc) as (Hl & _).
  destruct (compile_rules_live _ _ _ _ _ _ Hl Hr) as (br & act & Hbr & _ & _ & ->).
  rewrite Forall_forall in Hs. unfold expanded. cbn [PathIn lowered].
  destruct (Hs br Hbr) as [[_ Hp]|(q & Hq & Hp & _)]; rewrite Hp; [done|]. cbn.
  by rewrite (simple_expanded homes q Hq).
Qed.

Lemma decided_at_homes homes homes' cp allow v wi p pre :
  (forall r, r ∈ Live cp -> expanded homes r = expanded homes' r) ->
  decided_at homes cp allow v wi p pre <-> decided_at homes' cp allow v wi p pre.
Proof.
  intros He.
  assert (forall pre r, pattern_of homes cp allow pre r <-> pattern_of homes' cp allow pre r) as Hp.
  { intros pre' r. unfold pattern_of. split; intros (Hr & Ht & Hq); (split_and!; [done..|]);
      [by rewrite <- He|by rewrite He]. }
  unfold decided_at, longest_pattern. by setoid_rewrite Hp.
Qed.
End homes.

(** ** The parts together *)

Section system.
(** The agent's store, and the libraries it calls. *)
Context {S : Type} `{!VersionStore S}.
Context (yaml_unmarshal : list Z -> option bundle.Bundle) (ed25519_Verify : list Z -> list Z -> bool).
Context (ParseCIDR : gostring -> option (list Z * Z)) (ParseIP : gostring -> option (list Z)).
Context `{L : LpmTrie, !LpmTrieSpec L}.
(** The engine, which writes the shared map [tagged_pids]. *)
Context `{!KernelTagger (gmap Z Z)} `{!TaggerLaws (gmap Z Z) dom}.
Context (accepting : forall pid k, (TagPID pid k).1 = true).
Context (cfg : config.Config) (fps : option (list fp.Fingerprint)) (policy : option (CompiledPolicy * Z)).
Context (Hfps : forall l, fps = Some l -> fp.validate l = true).
Context (in_cidr : gostring -> gostring -> bool) (ip_ok : gostring -> bool) (addr_text : address -> gostring).
(** The invocations of the tracepoint and of the hook. *)
Context (n : nat) (E1 E2 : env) `{!EnvOk E1, !EnvOk E2}.
Context (Hk1 : kernel_reads E1) (Hk2 : kernel_reads E2).
Context (Hpid : current_pid E2 = current_pid E1).
Context (Hc1 : (cpu E1 < n)%nat) (Hc2 : (cpu E2 < n)%nat).

(** The kernel's maps hold the agent's policy and the engine's tags. *)
Record shares (a : agent) (es : engine (gmap Z Z)) (s : kstate) : Prop := {
  shares_policy : pol_eq (enforcer s) (maps a);
  shares_tags : tagged_pids (enroll s) = kernel es
}.

(** The engine counts the process as an agent's, and has not seen it exit. *)
Definition agent_process (es : engine (gmap Z Z)) (gone : gset Z) (pid : Z) : Prop :=
  exists p, tbl es !! pid = Some p /\ Tagged p = true /\ Exited p = false /\ pid ∉ gone.

Lemma agent_process_enrolled k0 cache a es gone s :
  reaches cfg fps policy in_cidr ip_ok addr_text dom k0 cache es gone -> shares a es s ->
  agent_process es gone (current_pid E1) -> enrolled E1 s.
Proof.
  intros Hr Hs (p & Hp & Ht & He & Hg). left. unfold is_tagged. rewrite (shares_tags _ _ _ Hs).
  destruct (reaches_covered cfg fps policy in_cidr ip_ok addr_text dom accepting Hfps k0 cache es gone Hr) as [_ Hc].
  apply elem_of_dom. by apply (Hc (current_pid E1) p).
Qed.

Notation agent_state := (agent_reaches yaml_unmarshal ParseCIDR ParseIP ed25519_Verify true).
Notation is_signed := (signed yaml_unmarshal ParseCIDR ParseIP ed25519_Verify).

(** The policy an enforcing agent holds, and its load, where enforcement is on. *)
Lemma enforced_policy a es s :
  agent_state a -> shares a es s -> active s = true ->
  exists cp meta, held a = Some (cp, meta) /\ is_signed cp /\ loaded_with ParseCIDR ParseIP cp (maps a).
Proof.
  intros Hr Hs Ha. apply reaches_ok in Hr as (cp & meta & Hh & Hsig & Hm). exists cp, meta. split_and!; [done..|].
  destruct (Hm eq_refl) as [[p Hp]|]; [|done]. exfalso.
  apply (loading_suspended p (enroll s)) in Hp as [Hf _]. revert Ha Hf. unfold active, ctrl. cbn [enforcer].
  rewrite (eq_ctrl _ _ (shares_policy _ _ _ Hs)). by intros ->.
Qed.

(** ** Paths *)

(** Every bundle the key verifies has simple path rules. *)
Definition simple_bundles : Prop :=
  forall data sig b, ed25519_Verify data sig = true -> Parse yaml_unmarshal ParseCIDR ParseIP data = Some b ->
    Forall simple_rule (bundle.Rules b) /\ byte_rules b.

(** The rules deny the path: the longest deny pattern on it has a rule for the action,
    and no longer pattern, longest among the allow patterns, has one. *)
Definition rules_deny (homes : dir_entries) (cp : CompiledPolicy) (v : Z) (wi : bool) (p : gostring) : Prop :=
  exists pre, decided_at homes cp false v wi p pre /\
    ~ exists pre', decided_at homes cp true v wi p pre' /\ (length pre < length pre')%nat.

Lemma signed_canonical homes cp :
  simple_bundles -> is_signed cp ->
  canonical homes cp /\ byte_patterns homes cp /\ forall homes' r, r ∈ Live cp -> expanded homes' r = expanded homes r.
Proof.
  intros Hb (data & sig & b & Hv & Hp & Hc). destruct (Hb data sig b Hv Hp) as [Hs Hby]. split_and!.
  - by apply (compiled_canonical ParseCIDR ParseIP homes b).
  - by apply (compiled_bytes ParseCIDR ParseIP homes b).
  - intros homes' r Hr. by rewrite !(compiled_expanded ParseCIDR ParseIP _ b cp r).
Qed.

(** After a load of a policy with simple rules, denied paths are the rules'. *)
Lemma loaded_rules_deny homes cp m v wi p :
  simple_bundles -> is_signed cp -> loaded_with ParseCIDR ParseIP cp m -> is_verdict v -> Forall is_byte p ->
  tries_functional m /\
  ((exists h, path_denied m v wi p h) <-> rules_deny homes cp v wi p) /\
  forall h, path_denied m v wi p h ->
    exists r, r ∈ Live cp /\ path_target false r = true /\ PathPolicy.covers homes r p /\ h = RuleIDHash (ID r).
Proof.
  intros Hb Hs (w & m0 & st & tr & Hl & ->) Hv Hp.
  destruct (signed_canonical (w_homes w) cp Hb Hs) as (Hcan & Hby & Hexp).
  split_and!.
  - split; [exact (loaded_functional _ _ _ _ _ _ _ _ _ _ _ Hl Hby false)
           |exact (loaded_functional _ _ _ _ _ _ _ _ _ _ _ Hl Hby true)].
  - rewrite (longest_pattern_denied _ _ _ _ _ _ _ _ _ _ _ Hl Hby v wi p Hcan Hv Hp). unfold rules_deny.
    by setoid_rewrite (decided_at_homes (w_homes w) homes cp); [|intros r Hr; symmetry; by apply Hexp..].
  - intros h Hh. destruct (denied_hash _ _ _ _ _ _ _ _ _ _ _ Hl Hby v wi p h Hp Hh) as (r & Hr & Ht & Hcv & Heq).
    exists r. split_and!; [done..| |done]. unfold PathPolicy.covers in *. by rewrite (Hexp homes r Hr).
Qed.
(** ** Connects *)

(** The policies of the bundles the key verifies have connect rules that deny IPv4
    networks or ports. *)
Definition plain_bundles : Prop := forall cp, is_signed cp -> Forall (plain_connect ParseCIDR ParseIP) (Live cp).

(** C2. From the signed bundle and the exec to the answer of a connect, while
    enforcement is live. Where every connect rule of the policies the key verifies
    is a deny rule either on IPv4 networks or on non-zero ports, with no other
    predicate, an IPv4 connect of an agent's process to a non-zero port, whose
    socket address can be read and staged, is answered by -EPERM exactly when the
    agent's own evaluator has a deny hit for that address and port under the policy
    it holds, and the report names a deny rule of that policy for connects, one of
    whose networks covers the address or one of whose ports is the port; otherwise
    it is answered by 0 and nothing is reported. *)
Theorem signed_policy_decides_connects `{!NetOk ParseCIDR ParseIP} k0 cache a es gone s s2 ctx hi lo addr i :
  plain_bundles -> agent_state a -> reaches cfg fps policy in_cidr ip_ok addr_text dom k0 cache es gone ->
  shares a es s -> agent_process es gone (current_pid E1) -> active s = true -> wf n s ->
  map_update_ok E1 M_pending_connects = true ->
  is_byte hi -> is_byte lo -> 0 < hi + lo -> length addr = 4%nat -> Forall is_byte addr ->
  reads_bytes E1 (arg ctx 1) 2 (le_bytes 2 AF_INET) -> reads_bytes E1 (arg ctx 1) 8 (sockaddr4 hi lo addr) ->
  connect_input ParseIP i addr (256 * hi + lo) ->
  rtc (other_step (current_pid E1)) (state_of (Enroll.handle_connect ctx) E1 s) s2 ->
  exists cp meta, held a = Some (cp, meta) /\ is_signed cp /\
    let hit := is_Some (deny_hit (dest_in ParseCIDR ParseIP) (dest_ok ParseIP) (Live cp) i) in
    let r := Enforcer.enforce_connect_entry E2 s2 in
    (r.1 = - EPERM /\ hit /\
       exists rule, rule ∈ Live cp /\ connect_target false rule = true /\ on_target ParseCIDR ParseIP addr (256 * hi + lo) rule /\
         reported_connect E2 (RuleIDHash (ID rule)) addr (256 * hi + lo) (deny_verdicts (enforcer s2))
           (deny_verdicts (enforcer r.2))) \/
    (r.1 = 0 /\ ~ hit /\ deny_verdicts (enforcer r.2) = deny_verdicts (enforcer s2)).
Proof.
  intros Hb Ha He Hsh Hag Hact Hwf Hok Hhi Hlo Hport Hla Hba Hr2 Hr8 Hi Hsteps.
  destruct (enforced_policy a es s Ha Hsh Hact) as (cp & meta & Hh & Hs & w & m0 & st & tr & Hl & Hm).
  exists cp, meta. split_and!; [done..|]. cbv zeta. pose proof (Hb cp Hs) as Hpl.
  pose proof (shares_policy _ _ _ Hsh) as Heq. rewrite Hm in Heq.
  assert (ip_tries_functional (enforcer s)) as Hf
    by (apply (ip_tries_functional_proper (end_state m0 tr)); [by symmetry|by eapply loaded_ip_tries]).
  assert (256 * hi + lo <> 0) as Hp0 by (unfold is_byte in *; lia).
  rewrite (plain_hit_iff _ _ cp i addr _ Hpl Hi).
  rewrite <- (plain_denied _ _ _ _ _ _ _ _ _ _ _ Hl Hpl addr _ Hla Hba Hp0).
  rewrite <- (connect_verdict_proper _ _ addr (256 * hi + lo) Heq).
  pose proof (agent_process_enrolled k0 cache a es gone s He Hsh Hag) as Hen.
  pose proof (connect4_run n E1 E2 Hpid Hc1 Hc2 ctx s s2 hi lo addr Hwf Hf Hact Hen Hok Hhi Hlo Hla Hr2 Hr8 Hsteps) as Hans.
  unfold answers_connect in Hans. destruct (connect_verdict _ _ _) as [h|] eqn:Hcv.
  - left. destruct Hans as [Hrc Hrep]. rewrite (connect_verdict_proper _ _ _ _ Heq) in Hcv.
    destruct (plain_denied_rule _ _ _ _ _ _ _ _ _ _ _ Hl Hpl _ _ _ Hla Hba Hp0 Hcv) as (rule & ? & ? & <- & ?).
    split_and!; [done|done|by exists rule].
  - right. destruct Hans. split_and!; [done|by intros []|done].
Qed.
End system.
