(* ===== verification/EngineExamples.v ===== *)
(** * EngineExamples: runs of the engine on concrete events

    A configuration, a tag map that accepts every entry and the events of a few
    processes: the theorems on the engine apply to them, among them a run whose tags
    outlive their process. *)

From stdpp Require Import strings gmap sets.
From Stdlib Require Import String.
From S2P Require Import Prelude Types Policy Compile Fingerprint Proctable Config Feedback Engine Bootstrap EngineFacts Lineage Reuse.
From S2P Require Formats.
Import Formats proctable.

#[local] Open Scope list_scope.
#[local] Open Scope Z_scope.

Definition aider : fp.Fingerprint :=
  fp.mk_fingerprint (bytes_of "aider") (bytes_of "agent:aider")
    (fp.mk_match [] (bytes_of "*/python*") [bytes_of "*/aider"] [bytes_of "OPENAI_API_KEY"]).

Definition signatures : option (list fp.Fingerprint) := Some [aider].

Definition example_env (cgroup_of : Z -> gostring) : proc_env :=
  mk_proc_env 1000 (fun _ => Some (bytes_of "/usr/bin/python3")) (fun pid => Some (cgroup_of pid))
    (fun _ => Some (bytes_of "python3")) (fun _ => None) (fun _ => None).

(** Processes 100 and above run in the agents' slice, the others do not. *)
Definition agents_env : proc_env :=
  example_env (fun pid => if 100 <=? pid then bytes_of "0::/ai-agents.slice/job" else bytes_of "0::/user.slice").
Definition users_env : proc_env := example_env (fun _ => bytes_of "0::/user.slice").

Definition example_event (ty pid ppid start : Z) (filename : gostring) (argv env : list gostring) : event.Event :=
  event.mk_Event 0 start 0 pid ppid 0 ty [] filename argv env 0 NoAddr 0 0 [] [].

Definition fork_event (pid ppid : Z) : event.Event := example_event EVENT_FORK pid ppid 0 [] [] [].
Definition exit_event (pid : Z) : event.Event := example_event EVENT_EXIT pid 0 0 [] [] [].
Definition exec_event (pid ppid start : Z) : event.Event :=
  example_event EVENT_EXEC pid ppid start (bytes_of "/usr/bin/python3.12")
    [bytes_of "python3.12"; bytes_of "/home/u/.local/bin/aider"] [bytes_of "HOME=/home/u"; bytes_of "OPENAI_API_KEY=x"].
Definition plain_exec (pid ppid start : Z) : event.Event :=
  example_event EVENT_EXEC pid ppid start (bytes_of "/usr/bin/make") [bytes_of "make"] [].

Definition open_map : KernelTagger (gmap Z Z) := MapTagger (fun _ _ => true).
Definition shared_map : KernelTagger (gmap Z Z) := MultiTagger [open_map; open_map].

Definition example_run (h : list (proc_env * input)) : engine (gmap Z Z) :=
  @run _ shared_map config.Default signatures None (fun _ _ => false) (fun _ => false) (fun _ => [])
    h (started ∅ true).

Lemma shared_map_laws : @TaggerLaws _ shared_map dom.
Proof. apply MultiTagger_laws. intros u Hu. repeat (apply elem_of_cons in Hu as [-> |Hu]; [apply MapTagger_laws|]). set_solver. Qed.

Lemma shared_map_accepts pid k : (@TagPID _ shared_map pid k).1 = true.
Proof. done. Qed.

Lemma signatures_valid l : signatures = Some l -> fp.validate l = true.
Proof. by intros [= <-]. Qed.

(** An agent is enrolled, forks twice and exits between the forks; its id is reused. *)
Definition reuse_run : list (proc_env * input) :=
  [(agents_env, Event (plain_exec 100 1 7));
   (agents_env, Event (fork_event 101 100));
   (agents_env, Event (exit_event 100));
   (agents_env, Event (fork_event 102 101));
   (users_env, Event (plain_exec 100 1 99))].

Example reused_root_tagged :
  let s := example_run reuse_run in
  exists p, tbl s !! 100 = Some p /\ Tagged p = false /\ kernel s !! 100 = Some 1.
Proof. eexists. vm_compute. auto. Qed.

(** ** The theorems apply *)

Lemma first_signature_decides_witness :
  let o := exec_observation users_env (exec_event 50 1 9) in
  fp.Evaluate [aider] o = Some aider /\
  exists pre post, [aider] = pre ++ aider :: post /\ satisfies (fp.fp_match aider) o /\
    forall g, g ∈ pre -> ~ satisfies (fp.fp_match g) o.
Proof.
  split; [vm_compute; reflexivity|].
  exact (first_signature_decides [aider] (exec_observation users_env (exec_event 50 1 9))
           (envKeys_nonempty _)).
Defined.

Lemma exec_tags_witness :
  let s := started (∅ : gmap Z Z) true in
  let ev := exec_event 50 1 9 in
  let s' := (@handleExec _ shared_map config.Default signatures ev users_env s).2 in
  (exists p, tbl s' !! 50 = Some p /\
     Tagged p = true /\ AgentID p = bytes_of "agent:aider" /\ RootPID p = 50 /\ kernel s' = {[50 := 1]}) /\
  forall q, q <> 50 -> tbl s' !! q = (∅ : gmap Z Proc) !! q.
Proof.
  exact (@exec_tags _ shared_map config.Default signatures signatures_valid (fun _ _ => True)
           (exec_event 50 1 9) users_env (started ∅ true) (table_ok_empty _)).
Defined.

Lemma lineage_sound_witness :
  let h := [(agents_env, Event (plain_exec 100 1 7)); (agents_env, Event (fork_event 101 100))] in
  (exists p, tbl (example_run h) !! 101 = Some p /\ Tagged p = true /\ RootPID p = 100 /\ AgentID p = bytes_of "agent") /\
  anchors config.Default signatures h 100 (bytes_of "agent").
Proof.
  split; [eexists; vm_compute; auto|].
  destruct (@lineage_sound _ shared_map config.Default signatures None (fun _ _ => false) (fun _ => false)
              (fun _ => []) [(agents_env, Event (plain_exec 100 1 7)); (agents_env, Event (fork_event 101 100))]
              ∅ true signatures_valid) as [H _].
  exact (H 101 _ eq_refl eq_refl).
Defined.

Lemma tags_reach_kernel_witness :
  let s := example_run [(agents_env, Event (plain_exec 100 1 7)); (agents_env, Event (fork_event 101 100))] in
  100 ∈ dom (kernel s).
Proof.
  cbv zeta. set (s := example_run _).
  assert (@reaches _ shared_map config.Default signatures None (fun _ _ => false) (fun _ => false)
            (fun _ => []) dom ∅ true s ∅) as Hr.
  { apply (reaches_input _ _ _ _ _ _ _ _ _ agents_env (Event (fork_event 101 100)) _ ∅).
    apply (reaches_input _ _ _ _ _ _ _ _ _ agents_env (Event (plain_exec 100 1 7)) _ ∅). apply reaches_started. }
  pose proof (@tags_reach_kernel _ shared_map config.Default signatures None (fun _ _ => false) (fun _ => false)
    (fun _ => []) dom shared_map_laws shared_map_accepts signatures_valid ∅ true s ∅ Hr 100) as H.
  eapply H; [vm_compute; reflexivity..|]. apply not_elem_of_empty.
Defined.

(** The same run, step by step: the fork after the root's exit, the exec that reuses its
    id, and the exit of that process. *)
Definition example_step (E : proc_env) (i : input) (s : engine (gmap Z Z)) : engine (gmap Z Z) :=
  @step_input _ shared_map config.Default signatures None (fun _ _ => false) (fun _ => false) (fun _ => []) E i s.
Definition run_from (h : list (proc_env * input)) (s : engine (gmap Z Z)) : engine (gmap Z Z) :=
  @run _ shared_map config.Default signatures None (fun _ _ => false) (fun _ => false) (fun _ => []) h s.
Definition id_reused : engine (gmap Z Z) :=
  example_step users_env (Event (plain_exec 100 1 99))
    (run_from [] (example_step agents_env (Event (fork_event 102 101)) (run_from (take 3 reuse_run) (started ∅ true)))).

(** The process with the reused id keeps the tag past its own exit. *)
Lemma reused_root_stays_tagged_witness :
  (exists p, tbl id_reused !! 100 = Some p /\ Tagged p = false) /\
  100 ∈ dom (kernel (run_from [(users_env, Event (exit_event 100))] id_reused)).
Proof.
  assert (exists parent, tbl (run_from (take 3 reuse_run) (started ∅ true)) !! 101 = Some parent /\ Tagged parent = true /\ RootPID parent = 100)
    as (parent & Hp & Htag & Hroot) by (eexists; vm_compute; auto).
  destruct (@reused_root_stays_tagged _ shared_map dom shared_map_laws config.Default signatures None (fun _ _ => false)
    (fun _ => false) (fun _ => []) shared_map_accepts signatures_valid ∅ true (take 3 reuse_run)
    agents_env (fork_event 102 101) [] users_env (plain_exec 100 1 99) parent eq_refl Hp Htag) as [Htbl Hker].
  - by rewrite Hroot.
  - apply no_tagged_exit_nil.
  - reflexivity.
  - by rewrite Hroot.
  - rewrite Hroot. intros q Hq _. vm_compute in Hq. injection Hq as <-. unfold start_times_differ. cbn. lia.
  - intros _ q Hq. vm_compute in Hq. discriminate Hq.
  - rewrite Hroot. vm_compute. reflexivity.
  - rewrite Hroot in Htbl, Hker. split; [exact Htbl|]. apply (Hker [(users_env, Event (exit_event 100))]).
    destruct Htbl as (p & Hl & Hu). apply no_tagged_exit_one. intros q Hq. rewrite Hl in Hq.
    injection Hq as <-. exact Hu.
Defined.

(** A listing with a cycle. *)
Definition cyclic_listing : listing := [(101, 100); (102, 101); (100, 102); (200, 1)].

Lemma propagate_spec_witness :
  let s := example_run [(agents_env, Event (plain_exec 100 1 7))] in
  exists order,
    @propagateKernelDescendants _ shared_map cyclic_listing elements agents_env s =
      (Some (Z.of_nat (List.length order)), with_kernel (@tag_all _ shared_map order) s) /\
    NoDup order /\
    forall x, x ∈ order <-> exists y, y ∈ seeds_of (tbl s) /\ rtc (parent_of cyclic_listing) y x.
Proof.
  exact (@propagate_spec _ shared_map cyclic_listing elements agents_env
           (example_run [(agents_env, Event (plain_exec 100 1 7))]) (fun X => Permutation_refl (elements X))).
Defined.

Example cyclic_search_ends :
  (@propagateKernelDescendants _ shared_map cyclic_listing elements agents_env
     (example_run [(agents_env, Event (plain_exec 100 1 7))])).1 = Some 3.
Proof. vm_compute. reflexivity. Qed.

Lemma hub_keeps_latest_witness :
  let d n := feedback.mk_decision n [] [] [] [] [] [] [] [] (bytes_of "agent") n 0 in
  exists h, record_all [d 1; d 2; d 3] (feedback.NewHub false 2) = Some h /\
    feedback.ForAgent (bytes_of "agent") h = [d 2; d 3].
Proof.
  cbv zeta. set (d n := feedback.mk_decision n [] [] [] [] [] [] [] [] (bytes_of "agent") n 0).
  destruct (hub_keeps_latest false 2 [d 1; d 2; d 3] ltac:(lia)) as (h & Hh & Ha & _).
  exists h. split; [exact Hh|]. etransitivity; [exact (Ha (bytes_of "agent"))|]. vm_compute. reflexivity.
Defined.
