(* ===== verification/LoadExamples.v ===== *)
(** * LoadExamples: concrete policies

    Policies loaded into the demo machine: the runs in which kernel and evaluator
    decide differently, and the theorems on loads at concrete policies. *)

From Stdlib Require Import String.
From S2P Require Import Prelude Types Bpf State Logic.
From S2P Require Import Enforcer Gate PathVerdict Hooks Records Machine Concrete.
From S2P Require Import Policy MapLoad LoadFacts PathLoad LoadedPaths PathPolicy LoadErrors Compile CompileFacts.

#[local] Existing Instance lpm_ref.
#[local] Open Scope string_scope.
#[local] Open Scope list_scope.
#[local] Open Scope Z_scope.

(** Every write is accepted, there are no home directories, every file exists. *)
Definition accept (_ : enforcer_maps) (_ : map_write) : bool := true.
Definition no_homes : dir_entries := DirNotExist.
Definition some_stat (_ : gostring) : option (Z * Z) := Some (17, 2049).
Definition no_cidr (_ : gostring) : option (list Z * Z) := None.
Definition no_ip (_ : gostring) : option (list Z) := None.

Definition rule (id dec act : string) (path_in path_not_in : list string) (spec : Z) : CompiledRule :=
  mk_rule (bytes_of id) [] (bytes_of dec) (bytes_of act) (bytes_of <$> path_in) (bytes_of <$> path_not_in)
    [] [] [] [] None [] [] spec.

Definition policy (rules : list CompiledRule) : CompiledPolicy :=
  mk_policy 3 (bytes_of "agent:a") [] (bytes_of "deny") (bytes_of "closed") rules [].

Definition load (cp : CompiledPolicy) : option LoadStats * list enforcer_maps :=
  LoadLive accept no_homes some_stat no_cidr no_ip cp true 3 live_maps.
Definition loaded (cp : CompiledPolicy) : enforcer_maps := end_state live_maps (load cp).2.

(** What the kernel does with an open, and whether the evaluator has a deny hit. *)
Definition kernel_denies (cp : CompiledPolicy) (p : string) : bool :=
  bool_decide (is_Some (path_verdict (loaded cp) VERDICT_OPEN false (bytes_of p))).
Definition eval_denies (cp : CompiledPolicy) (p : string) : bool :=
  bool_decide (is_Some (deny_hit (fun _ _ => false) (fun _ => false) (Live cp)
    (path_input VERDICT_OPEN false (bytes_of p)))).

(** Deny rules of two actions, the second on a subdirectory. *)
Definition nested : CompiledPolicy :=
  policy [rule "no-etc" "deny" "open" ["/etc/*"] [] 5; rule "keep-keys" "deny" "unlink" ["/etc/ssh/*"] [] 9].
Definition exact : CompiledPolicy := policy [rule "shadow" "deny" "open" ["/etc/shadow"] [] 11].
Definition excluding : CompiledPolicy :=
  policy [rule "no-etc" "deny" "open" ["/etc/*"] ["/etc/hosts"] 10].
Definition allowing : CompiledPolicy :=
  policy [rule "no-etc" "deny" "open" ["/etc/*"] [] 5; rule "ssl" "allow" "open" ["/etc/ssl/*"] [] 9].

(** The kernel and the evaluator decide differently on the same live rules: a
    rule for another action with a longer pattern keeps a deny rule from being
    consulted; a file pattern also denies the paths it is a prefix of; excluded
    paths are denied; a more specific allow rule prevails over a deny rule; a
    directory's own path is not covered by its pattern. Each policy loads without
    error. *)
Theorem kernel_and_eval_differ :
  (is_Some (load nested).1 /\ is_Some (load exact).1 /\ is_Some (load excluding).1 /\ is_Some (load allowing).1) /\
  (kernel_denies nested "/etc/passwd" = true /\ eval_denies nested "/etc/passwd" = true) /\
  (kernel_denies nested "/etc/ssh/key" = false /\ eval_denies nested "/etc/ssh/key" = true) /\
  (kernel_denies exact "/etc/shadow-" = true /\ eval_denies exact "/etc/shadow-" = false) /\
  (kernel_denies excluding "/etc/hosts" = true /\ eval_denies excluding "/etc/hosts" = false) /\
  (kernel_denies allowing "/etc/ssl/ca" = false /\ eval_denies allowing "/etc/ssl/ca" = true) /\
  (kernel_denies nested "/etc" = false /\ eval_denies nested "/etc" = true).
Proof. split_and!; try (by eexists; vm_compute); vm_compute; reflexivity. Qed.

(** ** Witnesses *)

Lemma nested_loads : exists st, load nested = (Some st, (load nested).2).
Proof. eexists (mk_stats 2 0 0 0 0 0 0 0 0). vm_compute. reflexivity. Qed.

Definition bytes_ok (cp : CompiledPolicy) : Prop :=
  Forall (fun r => Forall (Forall is_byte) (expanded no_homes r)) (Live cp).

Lemma bytes_ok_patterns cp : bytes_ok cp -> byte_patterns no_homes cp.
Proof. intros Hf r q Hr Hq. unfold bytes_ok in Hf. rewrite Forall_forall in Hf. specialize (Hf r Hr). rewrite Forall_forall in Hf. by apply Hf. Qed.

Lemma nested_bytes : byte_patterns no_homes nested.
Proof. apply bytes_ok_patterns. apply (bool_decide_unpack _). vm_compute. exact I. Qed.

Lemma load_path_maps_witness : path_map false (loaded nested) = foldl merge_entry [] (policy_entries no_homes nested false).
Proof.
  destruct nested_loads as [st Hst].
  apply (load_path_maps accept no_homes some_stat no_cidr no_ip nested true 3 live_maps st _ Hst false).
Defined.

Lemma loaded_denials_sound_witness :
  exists r, r ∈ Live nested /\ path_target false r = true /\ covers no_homes r (bytes_of "/etc/passwd") /\
    RuleIDHash (bytes_of "no-etc") = RuleIDHash (ID r).
Proof.
  destruct nested_loads as [st Hst].
  apply (loaded_denials_sound accept no_homes some_stat no_cidr no_ip nested true 3 live_maps st _ Hst nested_bytes
           VERDICT_OPEN false (bytes_of "/etc/passwd")).
  - split; vm_compute; discriminate.
  - apply (bool_decide_unpack _). vm_compute. exact I.
  - apply (path_verdict_denied (L := lpm_ref)); [|vm_compute; reflexivity].
    split; [apply (loaded_functional accept no_homes some_stat no_cidr no_ip nested true 3 live_maps st _ Hst nested_bytes false)
           |apply (loaded_functional accept no_homes some_stat no_cidr no_ip nested true 3 live_maps st _ Hst nested_bytes true)].
Defined.

Lemma allowing_loads : exists st, load allowing = (Some st, (load allowing).2).
Proof. eexists (mk_stats 1 1 0 0 0 0 0 0 0). vm_compute. reflexivity. Qed.

Lemma allowing_bytes : byte_patterns no_homes allowing.
Proof. apply bytes_ok_patterns. apply (bool_decide_unpack _). vm_compute. exact I. Qed.

Lemma allowing_canonical : canonical no_homes allowing.
Proof.
  intros allow pre r (Hr & _ & q & Hq & ->).
  repeat (apply elem_of_cons in Hr as [-> |Hr]; [apply list_elem_of_singleton in Hq as ->; vm_compute; reflexivity|]).
  by apply not_elem_of_nil in Hr.
Qed.

(** The demo machine with a loaded policy, and a path in a buffer. *)
Definition loaded_state (cp : CompiledPolicy) : kstate := mk_kstate demo_enroll (loaded cp).
Definition path_buffer (p : string) : list Z := splice 0 (bytes_of p) (zeros 256).

Lemma loaded_ready cp :
  lpm_scratch (loaded cp) = lpm_scratch live_maps -> path_scratch (loaded cp) = path_scratch live_maps ->
  scratch_ready agent_env (loaded_state cp).
Proof.
  intros Hl Hp. unfold scratch_ready, loaded_state. cbn [enforcer]. rewrite Hl, Hp.
  split; [by eexists|]. by exists (zeros 256).
Qed.


(** A policy with a pattern the kernel cannot hold keeps the previous one in force. *)
Definition unloadable : CompiledPolicy :=
  mk_policy 4 (bytes_of "agent:a") [] (bytes_of "deny") (bytes_of "closed")
    [rule "logs" "deny" "open" ["/var/*/log"] [] 5] [].

Lemma reload_outcome_witness :
  let r := reloadPolicy accept no_homes some_stat no_cidr no_ip unloadable (Some nested) live_maps in
  r.1 = Some nested /\ in_force nested (end_state live_maps r.2).
Proof.
  apply (reload_outcome accept ltac:(done) no_homes some_stat no_cidr no_ip unloadable (Some nested) demo_enroll live_maps).
Defined.

Lemma load_succeeds_iff_witness : is_Some (load allowing).1.
Proof.
  apply (load_succeeds_iff accept ltac:(done) no_homes some_stat no_cidr no_ip allowing true 3 live_maps).
  intros r Hr. repeat (apply elem_of_cons in Hr as [-> |Hr]; [vm_compute; reflexivity|]).
  exfalso. exact (not_elem_of_nil _ Hr).
Defined.

(** ** Bundles *)

Definition bundle_rule (id dec act : string) (path_in path_not_in : list string) : bundle.Rule :=
  bundle.mk_rule (bytes_of id) (bytes_of "why")
    (bundle.mk_match (bytes_of act) (bytes_of <$> path_in) (bytes_of <$> path_not_in) [] [] [] [] None [] [])
    (bytes_of dec) StateEnforced.

Definition bundle_of (rs : list bundle.Rule) : bundle.Bundle :=
  bundle.mk_bundle 3 (bytes_of "agent:a") [] (bytes_of "deny") (bytes_of "closed") rs.

Definition compiled (b : bundle.Bundle) : CompiledPolicy := default (policy []) (Compile no_cidr no_ip b).

Definition ssl_bundle : bundle.Bundle := bundle_of
  [bundle_rule "no-etc" "deny" "open | unlink" ["/etc/*"] []; bundle_rule "ssl" "allow" "open" ["/etc/ssl/*"] []].

Lemma ssl_valid : validate no_cidr no_ip ssl_bundle = Some ssl_bundle.
Proof. vm_compute. reflexivity. Qed.

Lemma ssl_compiled : Compile no_cidr no_ip ssl_bundle = Some (compiled ssl_bundle).
Proof. vm_compute. reflexivity. Qed.

Lemma ssl_loads : exists st, load (compiled ssl_bundle) = (Some st, (load (compiled ssl_bundle)).2).
Proof. exists (mk_stats 2 1 0 0 0 0 0 0 0). vm_compute. reflexivity. Qed.

Lemma no_star s : forallb (fun b => negb (b =? STAR)) (bytes_of s) = true -> STAR ∉ bytes_of s.
Proof.
  intros Hf Hin. rewrite forallb_forall in Hf. apply list_elem_of_In in Hin. specialize (Hf _ Hin). done.
Qed.

Lemma dir_simple dir :
  HasSuffix (bytes_of dir) (bytes_of "/") = false -> bytes_of dir ++ slash_star <> homeSSHGlobPattern ->
  forallb (fun b => negb (b =? STAR)) (bytes_of dir) = true -> simple_pattern (bytes_of dir ++ slash_star).
Proof. intros Hs Hh Hn. right. exists (bytes_of dir). split; [done|by apply no_star]. Qed.

Lemma ssl_simple : Forall simple_rule (bundle.Rules ssl_bundle).
Proof.
  repeat (apply Forall_cons; split); [right; exists (bytes_of "/etc" ++ slash_star)
    |right; exists (bytes_of "/etc/ssl" ++ slash_star)|constructor];
    (split; [by apply dir_simple|split_and!; reflexivity]).
Qed.

Lemma ssl_bytes : byte_rules ssl_bundle.
Proof. apply (bool_decide_unpack _). vm_compute. exact I. Qed.

Lemma ssl_ready : scratch_ready agent_env (loaded_state (compiled ssl_bundle)).
Proof. apply loaded_ready; vm_compute; reflexivity. Qed.

Lemma ssl_path_bytes : Forall is_byte (take (Z.to_nat 11) (path_buffer "/etc/ssl/ca")).
Proof. apply (bool_decide_unpack _). vm_compute. exact I. Qed.

Lemma loaded_state_deny cp : path_deny (enforcer (loaded_state cp)) = path_deny (end_state live_maps (load cp).2).
Proof. unfold loaded_state, loaded. cbn [enforcer]. reflexivity. Qed.

Lemma loaded_state_allow cp : path_allow (enforcer (loaded_state cp)) = path_allow (end_state live_maps (load cp).2).
Proof. unfold loaded_state, loaded. cbn [enforcer]. reflexivity. Qed.

Lemma open_is_verdict : is_verdict VERDICT_OPEN.
Proof. split; vm_compute; discriminate. Qed.

Lemma compiled_policy_decides_witness :
  let rc := (enforce_path (Some (path_buffer "/etc/ssl/ca")) 11 VERDICT_OPEN false agent_env
               (loaded_state (compiled ssl_bundle))).1 in
  rc = - EPERM \/ rc = 0.
Proof.
  destruct ssl_loads as [st Hst].
  destruct (@compiled_policy_decides no_cidr no_ip lpm_ref lpm_ref_spec accept no_homes some_stat ssl_bundle
    (compiled ssl_bundle) true 3 live_maps st (load (compiled ssl_bundle)).2 agent_env _
    (loaded_state (compiled ssl_bundle)) (path_buffer "/etc/ssl/ca") 11 VERDICT_OPEN false
    ssl_compiled ssl_simple ssl_bytes Hst (loaded_state_deny _) (loaded_state_allow _)
    (env_of_memory_reads _ _ _ _ _) ssl_ready eq_refl (conj eq_refl eq_refl) open_is_verdict ssl_path_bytes)
    as [[Hrc _]|[Hrc _]]; [by left|by right].
Defined.

Lemma ssl_simple_paths : Forall simple_paths (Live (compiled ssl_bundle)).
Proof.
  change (Live (compiled ssl_bundle)) with
    [lowered no_cidr no_ip (bundle_rule "no-etc" "deny" "open | unlink" ["/etc/*"] []) (bytes_of "open");
     lowered no_cidr no_ip (bundle_rule "no-etc" "deny" "open | unlink" ["/etc/*"] []) (bytes_of "unlink");
     lowered no_cidr no_ip (bundle_rule "ssl" "allow" "open" ["/etc/ssl/*"] []) (bytes_of "open")].
  repeat (apply Forall_cons; split); [..|constructor]; (split; [apply Forall_singleton|done]).
  - by apply (dir_simple "/etc").
  - by apply (dir_simple "/etc").
  - by apply (dir_simple "/etc/ssl").
Qed.

Lemma evaluation_order_irrelevant_witness :
  EvaluateActions (fun _ _ => false) (fun _ => false) (reverse (Live (compiled ssl_bundle)))
    (path_input VERDICT_OPEN false (bytes_of "/etc/ssl/ca"))
  = EvaluateActions (fun _ _ => false) (fun _ => false) (Live (compiled ssl_bundle))
    (path_input VERDICT_OPEN false (bytes_of "/etc/ssl/ca")).
Proof.
  apply (evaluation_order_irrelevant (fun _ _ => false) (fun _ => false) no_cidr no_ip ssl_bundle ssl_bundle);
    [apply ssl_valid|apply ssl_compiled|apply ssl_simple_paths|discriminate|reflexivity|apply reverse_Permutation].
Defined.

(** Valid bundles that compile but do not load: an exec rule, a rule with excluded
    paths only, a pattern with a star inside.  One such enforced rule keeps the whole
    policy out of the kernel ([reload_outcome]), its other rules included. *)
Definition bundle_accepted (b : bundle.Bundle) : bool :=
  bool_decide (is_Some (b' ← validate no_cidr no_ip b; Compile no_cidr no_ip b')).

Definition bundle_loads (b : bundle.Bundle) : bool :=
  loadable no_homes some_stat no_cidr no_ip (compiled b).

Definition with_rule (r : bundle.Rule) : bundle.Bundle := bundle_of (bundle.Rules ssl_bundle ++ [r]).

(** Valid bundles that compile but do not load: with an exec rule, a rule with
    excluded paths only, or a pattern with a star inside. One such enforced rule
    keeps the whole policy out of the kernel, its other rules included. *)
Theorem valid_policies_may_not_load :
  (bundle_accepted ssl_bundle = true /\ bundle_loads ssl_bundle = true) /\
  Forall (fun r => bundle_accepted (with_rule r) = true /\ bundle_loads (with_rule r) = false)
    [bundle_rule "no-shell" "deny" "exec" ["/bin/sh"] [];
     bundle_rule "only-home" "deny" "write" [] ["/home/*"];
     bundle_rule "no-logs" "deny" "open" ["/var/*/log"] []].
Proof. split; [by vm_compute|]. repeat (apply Forall_cons; split); [by vm_compute..|constructor]. Qed.
