(* ===== verification/ConnectExamples.v ===== *)
(** * ConnectExamples: concrete connect rules

    Policies with connect rules loaded into the demo machine: the targets on which
    kernel and evaluator differ, and the theorems of [ConnectPolicy] at concrete
    policies. *)

From Stdlib Require Import String.
From S2P Require Import Prelude Types Bpf State Logic.
From S2P Require Import Enforcer Gate PathVerdict Hooks ConnectVerdict Concrete.
From S2P Require Import Policy MapLoad LoadFacts LoadFold PathPolicy Net ConnectLoad ConnectPolicy LoadExamples.

#[local] Existing Instance lpm_ref.
#[local] Open Scope string_scope.
#[local] Open Scope list_scope.
#[local] Open Scope Z_scope.

(** ** A few networks and addresses, parsed as net.ParseCIDR and net.ParseIP do *)

Definition known_networks : list (gostring * (list Z * Z)) :=
  [(bytes_of "10.0.0.0/8", ([10; 0; 0; 0], 8)); (bytes_of "10.1.0.0/16", ([10; 1; 0; 0], 16));
   (bytes_of "0.0.0.0/0", ([0; 0; 0; 0], 0)); (bytes_of "::/0", (zeros 16, 0))].

Definition known_addresses : list (gostring * list Z) :=
  [(bytes_of "10.0.0.7", mapped [10; 0; 0; 7]); (bytes_of "10.1.1.1", mapped [10; 1; 1; 1]); (bytes_of "93.184.216.34", mapped [93; 184; 216; 34]);
   (bytes_of "a01:101::", [10; 1; 1; 1] ++ zeros 12)].

Definition find_text {A} (l : list (gostring * A)) (s : gostring) : option A :=
  snd <$> List.find (fun e => streq e.1 s) l.
Definition some_cidr : gostring -> option (list Z * Z) := find_text known_networks.
Definition some_ip : gostring -> option (list Z) := find_text known_addresses.

Lemma find_text_in {A} (l : list (gostring * A)) s x : find_text l s = Some x -> (s, x) ∈ l.
Proof.
  unfold find_text. intros ([k y] & Hf & ->)%fmap_Some. apply List.find_some in Hf as [Hin Hk].
  apply streq_spec in Hk. cbn in *. subst k. by apply list_elem_of_In.
Qed.

(** The bits of a network past its prefix are zero. *)
Definition masked_ok (n : list Z) (ones : Z) : bool :=
  forallb (fun i => (Z.of_nat i <? ones) || negb (key_bit n i)) (seq 0 (8 * length n)).

Lemma masked_ok_spec n ones : masked_ok n ones = true -> forall i, ones <= Z.of_nat i -> key_bit n i = false.
Proof.
  unfold masked_ok. rewrite forallb_forall. intros H i Hi. destruct (decide (i < 8 * length n)%nat) as [Hlt|].
  - specialize (H i). rewrite in_seq in H. specialize (H ltac:(lia)). apply orb_true_iff in H as [H|H]; [lia|].
    by apply negb_true_iff in H.
  - apply key_bit_short. lia.
Qed.

#[local] Instance some_net : NetOk some_cidr some_ip.
Proof.
  split.
  - intros c n ones Hc. apply find_text_in in Hc. revert n ones Hc.
    assert (Forall (fun e => (length e.2.1 = 4%nat /\ e.2.2 <= 32 \/ length e.2.1 = 16%nat /\ e.2.2 <= 128) /\
              0 <= e.2.2 /\ Forall is_byte e.2.1 /\ masked_ok e.2.1 e.2.2 = true) known_networks) as Hall.
    { apply (bool_decide_unpack _). vm_compute. exact I. }
    rewrite Forall_forall in Hall. intros n ones Hin. destruct (Hall _ Hin) as (H1 & H2 & H3 & H4). cbn in *.
    split_and!; [done..|]. by apply masked_ok_spec.
  - intros s ip Hs. apply find_text_in in Hs.
    assert (Forall (fun e => e.1 <> [] /\ length e.2 = 16%nat /\ Forall is_byte e.2) known_addresses) as Hall.
    { apply (bool_decide_unpack _). vm_compute. exact I. }
    rewrite Forall_forall in Hall. exact (Hall _ Hs).
Qed.

(** ** Policies *)

Definition connect_rule (id dec : string) (ip_in ip_not_in : list string) (port_in port_not_in : list Z) : CompiledRule :=
  mk_rule (bytes_of id) [] (bytes_of dec) (bytes_of "connect") [] []
    (bytes_of <$> ip_in) (bytes_of <$> ip_not_in) port_in port_not_in None [] [] 16.

Definition load_net (cp : CompiledPolicy) : option LoadStats * list enforcer_maps :=
  LoadLive accept no_homes some_stat some_cidr some_ip cp true 3 live_maps.
Definition loaded_net (cp : CompiledPolicy) : enforcer_maps := end_state live_maps (load_net cp).2.

Definition connect_to (dest : string) (port : Z) : ActionInput :=
  mk_input (bytes_of "connect") [] [] (bytes_of dest) port false None [] [].

(** Whether the kernel denies a connect to the address, and whether the evaluator has
    a deny hit for its text. *)
Definition decisions (cp : CompiledPolicy) (addr : list Z) (dest : string) (port : Z) : bool * bool :=
  (bool_decide (is_Some (connect_verdict (loaded_net cp) addr port)),
   bool_decide (is_Some (deny_hit (dest_in some_cidr some_ip) (dest_ok some_ip) (Live cp) (connect_to dest port)))).

Definition split_rules : CompiledPolicy :=
  policy [connect_rule "no-lan" "deny" ["10.0.0.0/8"] [] [] []; connect_rule "no-mail" "deny" [] [] [25] []].
Definition with_allow : CompiledPolicy :=
  policy [connect_rule "no-lan" "deny" ["10.0.0.0/8"] [] [] []; connect_rule "lan" "allow" ["10.1.0.0/16"] [] [] []].
Definition two_sided : CompiledPolicy := policy [connect_rule "lan-mail" "deny" ["10.0.0.0/8"] [] [25] []].
Definition excluded_mail : CompiledPolicy := policy [connect_rule "mail" "deny" [] ["10.0.0.0/8"] [25] []].
Definition same_network : CompiledPolicy :=
  policy [connect_rule "no-lan" "deny" ["10.0.0.0/8"] [] [] []; connect_rule "lan-ssh" "deny" ["10.0.0.0/8"] [] [22] []].
Definition port_zero : CompiledPolicy := policy [connect_rule "zero" "deny" [] [] [0] []].
Definition with_exclusion : CompiledPolicy :=
  policy [connect_rule "no-lab" "deny" ["10.1.0.0/16"] [] [] []; connect_rule "lan-only" "deny" [] ["10.0.0.0/8"] [] []].

(** Targets the kernel and the evaluator decide differently, each under a policy that
    loads without error: an allow rule prevails over a deny rule; a rule on networks and
    ports denies its ports for every address, also for the networks it excludes; a later
    rule on the same network replaces an earlier one; port 0 stands for every port; an
    IPv4 network also covers the IPv6 addresses that start with its bytes; the networks
    one rule excludes are let through past the deny rules of others. *)
Example connect_kernel_and_eval_differ :
  Forall (fun cp => is_Some (load_net cp).1) [split_rules; with_allow; two_sided; excluded_mail; same_network; port_zero; with_exclusion] /\
  decisions split_rules [10; 1; 1; 1] "10.1.1.1" 80 = (true, true) /\
  decisions with_allow [10; 1; 1; 1] "10.1.1.1" 80 = (false, true) /\
  decisions two_sided [93; 184; 216; 34] "93.184.216.34" 25 = (true, false) /\
  decisions excluded_mail [10; 1; 1; 1] "10.1.1.1" 25 = (true, false) /\
  decisions same_network [10; 1; 1; 1] "10.1.1.1" 80 = (false, true) /\
  decisions port_zero [93; 184; 216; 34] "93.184.216.34" 443 = (true, false) /\
  decisions split_rules ([10; 1; 1; 1] ++ zeros 12) "a01:101::" 443 = (true, false) /\
  decisions with_exclusion [10; 1; 1; 1] "10.1.1.1" 80 = (false, true).
Proof.
  split; [repeat (apply Forall_cons; split); [by eexists; vm_compute..|constructor]|].
  split_and!; vm_compute; reflexivity.
Qed.

(** ** Witnesses *)

Lemma split_loads : exists st, load_net split_rules = (Some st, (load_net split_rules).2).
Proof. by eexists; vm_compute. Qed.


Lemma split_plain : Forall (plain_connect some_cidr some_ip) (Live split_rules).
Proof.
  repeat (apply Forall_cons; split); [..|constructor]; right; split_and!; try done.
  - left. split_and!; [done|done|]. apply Forall_singleton. vm_compute. reflexivity.
  - right. split_and!; [done|done|]. by apply Forall_singleton.
Qed.

Definition net_state (cp : CompiledPolicy) : kstate := mk_kstate demo_enroll (loaded_net cp).

Lemma split_ready : scratch_ready agent_env (net_state split_rules).
Proof.
  split; [by eexists; vm_compute|exists (zeros 256); split; vm_compute; reflexivity].
Qed.

(** A host of the policy's network is denied, another host is not. *)
Lemma connect_agrees_with_eval_witness :
  let check a := (enforce_connect_parsed (Some (a ++ zeros 12)) 4 80 agent_env (net_state split_rules)).1 in
  check [10; 1; 1; 1] = - EPERM /\ check [93; 184; 216; 34] = 0.
Proof.
  destruct split_loads as [st Hst]. split.
  - destruct (connect_agrees_with_eval accept no_homes some_stat some_cidr some_ip split_rules true 3 live_maps st _ Hst
      agent_env (net_state split_rules) ([10; 1; 1; 1] ++ zeros 12) 80 (connect_to "10.1.1.1" 80) split_plain split_ready
      ltac:(reflexivity) ltac:(cbn; lia) ltac:(repeat constructor; unfold is_byte; lia) ltac:(lia)
      ltac:(repeat split; reflexivity)) as [[H _]|[_ H]]; [exact H|].
    exfalso. apply H. eexists. vm_compute. reflexivity.
  - destruct (connect_agrees_with_eval accept no_homes some_stat some_cidr some_ip split_rules true 3 live_maps st _ Hst
      agent_env (net_state split_rules) ([93; 184; 216; 34] ++ zeros 12) 80 (connect_to "93.184.216.34" 80) split_plain split_ready
      ltac:(reflexivity) ltac:(cbn; lia) ltac:(repeat constructor; unfold is_byte; lia) ltac:(lia)
      ltac:(repeat split; reflexivity)) as [[_ H]|[H _]]; [|exact H].
    exfalso. destruct H as [r H]. vm_compute in H. discriminate H.
Defined.

Lemma exclusion_ready : scratch_ready agent_env (net_state with_exclusion).
Proof. split; [by eexists; vm_compute|exists (zeros 256); split; vm_compute; reflexivity]. Qed.

(** The network the second rule excludes is let through although the first denies a part
    of it, which the evaluator does. *)
Lemma allow_networks_prevail_witness :
  (enforce_connect_parsed (Some ([10; 1; 1; 1] ++ zeros 12)) 4 80 agent_env (net_state with_exclusion)).1 = 0 /\
  is_Some (deny_hit (dest_in some_cidr some_ip) (dest_ok some_ip) (Live with_exclusion) (connect_to "10.1.1.1" 80)).
Proof.
  assert (exists st, load_net with_exclusion = (Some st, (load_net with_exclusion).2)) as [st Hst] by (by eexists; vm_compute).
  destruct (allow_networks_prevail accept no_homes some_stat some_cidr some_ip with_exclusion true 3 live_maps st _ Hst
    agent_env (net_state with_exclusion) ([10; 1; 1; 1] ++ zeros 12) 4 80 exclusion_ready
    ltac:(reflexivity) ltac:(cbn; lia) ltac:(by left)) as [Hk He].
  - eexists _, (bytes_of "10.0.0.0/8"), _. split; [right; left|]. split; [left|]. split; vm_compute; reflexivity.
  - intros r c k Hr _ _. repeat (apply elem_of_cons in Hr as [-> |Hr]; [reflexivity|]).
    exfalso. exact (not_elem_of_nil _ Hr).
  - split; [exact Hk|]. apply (He _ (connect_rule "no-lab" "deny" ["10.1.0.0/16"] [] [] [])); [left|reflexivity|vm_compute; reflexivity|].
    intros r Hr _. right. repeat (apply elem_of_cons in Hr as [-> |Hr]; [reflexivity|]).
    exfalso. exact (not_elem_of_nil _ Hr).
Defined.

(** A rule for mail to the private network, and a mail server elsewhere. *)
Lemma deny_ports_ignore_networks_witness :
  (enforce_connect_parsed (Some ([93; 184; 216; 34] ++ zeros 12)) 4 25 agent_env (net_state two_sided)).1 = - EPERM.
Proof.
  assert (exists st, load_net two_sided = (Some st, (load_net two_sided).2)) as [st Hst] by (by eexists; vm_compute).
  apply (deny_ports_ignore_networks accept no_homes some_stat some_cidr some_ip two_sided true 3 live_maps st _ Hst
    agent_env (net_state two_sided) ([93; 184; 216; 34] ++ zeros 12) 4 25
    (connect_rule "lan-mail" "deny" ["10.0.0.0/8"] [] [25] [])).
  - split; [by eexists; vm_compute|exists (zeros 256); split; vm_compute; reflexivity].
  - reflexivity.
  - cbn. lia.
  - by left.
  - lia.
  - left.
  - reflexivity.
  - left.
  - intros r c k Hr Hc _. repeat (apply elem_of_cons in Hr as [-> |Hr]; [by apply not_elem_of_nil in Hc|]).
    exact (not_elem_of_nil _ Hr).
  - intros r Hr Hc. repeat (apply elem_of_cons in Hr as [-> |Hr]; [by apply not_elem_of_nil in Hc|]).
    exact (not_elem_of_nil _ Hr).
Defined.
