(* ===== verification/AgentExamples.v ===== *)
(** * AgentExamples: the agent's policy handling on concrete inputs

    A file store with concrete encodings, a signed bundle loaded into it and a running
    agent, and denials reported under the policy of [LoadExamples]: the theorems of
    [Store], [Lifecycle] and [Consumer] apply. *)

From stdpp Require Import strings gmap.
From Stdlib Require Import String.
From S2P Require Import Prelude Types Bpf State Logic.
From S2P Require Import Gate PathVerdict Concrete Policy MapLoad LoadFacts PathLoad LoadedPaths PathPolicy LoadErrors.
From S2P Require Import Compile Text Feedback Consumer Store Lifecycle LoadExamples.
From S2P Require Formats Proctable.
Import Formats.

#[local] Existing Instance lpm_ref.
#[local] Open Scope list_scope.
#[local] Open Scope Z_scope.

(** ** Concrete encodings *)

#[global] Instance VersionMeta_eq_dec : EqDecision VersionMeta.
Proof. solve_decision. Defined.

#[global] Instance VersionMeta_countable : Countable VersionMeta.
Proof.
  refine (inj_countable'
    (fun m => (m_Version m, m_SignedBy m, m_AgentScope m, LoadedAt m, BundleSHA256 m, Verified m, m_State m))
    (fun x => let '(a, b, c, d, e, f, g) := x in mk_meta a b c d e f g) _).
  by intros [].
Defined.

Definition to_bytes {A} `{Countable A} (x : A) : list Z := [Z.pos (encode x)].
Definition of_bytes {A} `{Countable A} (l : list Z) : option A :=
  match l with [Z.pos p] => decode p | _ => None end.

Definition example_codec : codec := mk_codec to_bytes of_bytes to_bytes of_bytes (fun _ => []) (fun _ => None).

#[local] Instance example_codec_ok : CodecOk example_codec.
Proof. split; intros; apply decode_encode. Qed.

Definition never_torn (s : files) (f : store_file) (data : list Z) : option (option (list Z)) := None.
Definition no_sha (b : list Z) : gostring := bytes_of "00".

#[local] Instance example_store : VersionStore files := fileStore example_codec never_torn no_sha.
#[local] Instance example_store_laws : @VersionStoreLaws files example_store := fileStore_laws _ _ _.

(** The only document is the bundle of [LoadExamples], the only signature "good". *)
Definition bundle_text : list Z := bytes_of "policy_bundle: ssl".
Definition example_yaml (data : list Z) : option bundle.Bundle := if streq data bundle_text then Some ssl_bundle else None.
Definition example_verify (data sig : list Z) : bool := streq sig (bytes_of "good").

Abbreviation example_load := (Load example_yaml no_cidr no_ip example_verify no_sha).
Abbreviation example_current := (LoadCurrent example_yaml no_cidr no_ip example_verify).

Definition loaded_store : files := (example_load 1000 (Some (bundle_text, bytes_of "good")) ∅).2.

Example forged_bundle_refused :
  example_load 1000 (Some (bundle_text, bytes_of "forged")) loaded_store = (None, loaded_store).
Proof. reflexivity. Qed.

Lemma load_then_current_witness :
  exists meta, example_current loaded_store = Some (compiled ssl_bundle, meta) /\ m_State meta = StateEnforced.
Proof.
  destruct (load_then_current example_yaml no_cidr no_ip example_verify no_sha 1000
              (Some (bundle_text, bytes_of "good")) ∅ loaded_store
              (mk_load_result ssl_bundle (compiled ssl_bundle)
                 (mk_meta 3 (bundle.SignedBy ssl_bundle) (bundle.AgentScope ssl_bundle) 0 (bytes_of "00") true StateEnforced)))
    as (meta & Hm & _ & Hs); [vm_compute; reflexivity|vm_compute; reflexivity|].
  exists meta. split; [exact Hm|exact Hs].
Defined.

Lemma put_manifest_witness :
  let meta v := mk_meta v [] [] 5 (bytes_of "00") true StateEnforced in
  exists l, file_List example_codec
    (file_Put example_codec never_torn no_sha 9 (meta 2) [] [] None
       (<[ManifestFile := list_json example_codec [meta 1; meta 4]]> ∅)).2 = Some l /\ manifest_sorted l.
Proof.
  cbv zeta. set (meta v := mk_meta v [] [] 5 (bytes_of "00") true StateEnforced).
  set (s := <[ManifestFile := list_json example_codec [meta 1; meta 4]]> ∅ : files).
  destruct (put_manifest example_codec never_torn no_sha 9 (meta 2) [] [] None s
              (file_Put example_codec never_torn no_sha 9 (meta 2) [] [] None s).2 [meta 1; meta 4])
    as (l & Hl & Hs & _).
  - unfold file_List. subst s. rewrite lookup_insert_eq. apply list_roundtrip.
  - unfold manifest_sorted. cbn. repeat constructor.
  - reflexivity.
  - exists l. split; [exact Hl|exact Hs].
Defined.

(** ** A running agent *)

Definition quiet_world : world := mk_world accept no_homes some_stat.

Definition started_agent : option agent :=
  start example_yaml no_cidr no_ip example_verify true quiet_world loaded_store live_maps.

Lemma only_signed_policies_witness :
  exists a cp meta, started_agent = Some a /\ held a = Some (cp, meta) /\
    signed example_yaml no_cidr no_ip example_verify cp /\ active (mk_kstate demo_enroll (maps a)) = true /\
    loaded_with no_cidr no_ip cp (maps a).
Proof.
  assert (exists a, started_agent = Some a /\ active (mk_kstate demo_enroll (maps a)) = true) as (a & Ha & Hact)
    by (eexists; split; vm_compute; reflexivity).
  destruct (only_signed_policies example_yaml no_cidr no_ip example_verify true a demo_enroll
              (agent_start _ _ _ _ true quiet_world loaded_store live_maps a Ha)) as (cp & meta & Hh & Hs & Hm).
  exists a, cp, meta. split; [exact Ha|split; [exact Hh|split; [exact Hs|split; [exact Hact|exact (Hm eq_refl Hact)]]]].
Defined.

(** ** Reports *)

Definition no_text (a : address) : gostring := [].
Definition v4_target : gostring := bytes_of "93.184.216.34".
Definition blind_connect : deny.Verdict := deny.mk_Verdict 5 77 0 VERDICT_CONNECT [] NoAddr 0.

Lemma v4_host_text : host_text v4_target.
Proof. split; [discriminate|]. split; [reflexivity|]. split; [reflexivity|]. left. reflexivity. Qed.

Lemma missing_destination_recovered_witness :
  let rec := deny_report no_text blind_connect None ∅
               (resolveTarget no_text blind_connect (Some (ConnectCache.Record_ 77 v4_target 443 1000 ∅)) 2000) in
  report.Dest rec = v4_target /\ report.DestPort rec = 443.
Proof.
  apply (missing_destination_recovered no_text blind_connect None ∅ ∅ v4_target 443 1000 2000);
    [reflexivity..|exact v4_host_text|lia|vm_compute; discriminate].
Defined.

Example v6_target_roundtrip :
  splitConnectTarget (FormatConnectTarget (bytes_of "2001:db8::1") 8443) = (bytes_of "2001:db8::1", 8443).
Proof. vm_compute. reflexivity. Qed.

Definition passwd_denied : deny.Verdict :=
  deny.mk_Verdict 5 77 (RuleIDHash (bytes_of "no-etc")) VERDICT_OPEN (bytes_of "/etc/passwd") NoAddr 0.

Lemma nested_hashes_distinct : hashes_distinct nested.
Proof.
  intros r1 r2 H1 H2. repeat (apply elem_of_cons in H1 as [-> |H1]; [|]); repeat (apply elem_of_cons in H2 as [-> |H2]; [|]);
    try (by apply not_elem_of_nil in H1); try (by apply not_elem_of_nil in H2); intros He; try reflexivity;
    vm_compute in He; discriminate.
Qed.

