(* ===== verification/Findings.v ===== *)
(** * Findings: two threads and one staged path

    The tracepoints stage the arguments of a syscall under the process id, which the
    threads of a process share.  An openat of one thread between the tracepoint and the
    hook of another replaces the path the hook decides on. *)

From S2P Require Import Prelude Types Bpf State Logic.
From S2P Require Enforcer Enroll.
From S2P Require Import Gate PathVerdict Hooks Records Machine Staging Formats ConnectVerdict Pipeline.

Section race.
Context `{L : LpmTrie, !LpmTrieSpec L} (n : nat).

(** What the tracepoint of an open leaves, and the steps of other processes after it. *)
Lemma openat_then_others E1 E2 `{!EnvOk E1, !EnvOk E2} ctx s s2 p :
  kernel_reads E1 -> current_pid E2 = current_pid E1 -> (cpu E1 < n)%nat -> (cpu E2 < n)%nat ->
  wf n s -> active s = true -> enrolled E1 s -> reads_path E1 (arg ctx 1) p -> p <> [] ->
  rtc (other_step (current_pid E1)) (state_of (Enroll.handle_openat ctx) E1 s) s2 ->
  wf n s2 /\ pol_eq (enforcer s2) (enforcer s) /\ active s2 = true /\ enrolled E2 s2.
Proof.
  intros Hk Hpid Hc1 Hc2 Hwf Ha He Hr Hne Hsteps. destruct (wf_scratch_buf n E1 s Hwf Hc1) as [b Hb].
  destruct (handle_openat_run E1 Hk ctx s b p He Hb Hr Hne) as (cp & _ & _ & Hrun).
  pose proof (keeps_wf n E1 (H_openat ctx) s Hwf) as Hwf1. cbn [run_hook] in Hwf1.
  unfold state_of in Hsteps. rewrite Hrun in Hsteps, Hwf1. cbn [snd] in Hsteps, Hwf1.
  match type of Hsteps with rtc _ ?st _ => destruct (open_left E1 s st _ _ _ eq_refl) as [Hleft _] end.
  destruct (hook_finds n E1 E2 Hpid Hc2 _ _ _ Hleft He Hwf1 Hsteps Ha) as (Hp & Ha2 & He2 & _).
  split_and!; [|done..]. by apply (other_steps_frame n _ _ _ Hsteps Hwf1).
Qed.

Context (E1 E2 E3 : env) `{!EnvOk E1, !EnvOk E2, !EnvOk E3}.
Context (Hk1 : kernel_reads E1) (Hk2 : kernel_reads E2) (Hk3 : kernel_reads E3).
(** Two threads of one process: the first runs [E1] and [E3], the second [E2]. *)
Context (Hpid2 : current_pid E2 = current_pid E1) (Hpid3 : current_pid E3 = current_pid E1).
Context (Hc1 : (cpu E1 < n)%nat) (Hc2 : (cpu E2 < n)%nat) (Hc3 : (cpu E3 < n)%nat).

Notation denied s ctx p := (exists h,
  path_denied (enforcer s) VERDICT_OPEN (nonzero (Z.land (arg ctx 2) O_ACCMODE)) p h).

(** C39. Arguments are staged under the process id, which threads share. While
    enforcement is live, let one thread of an enrolled process open a path the
    policy denies, and between its tracepoint and its hook, amid any steps of other
    processes, let a second thread open a path the policy does not deny, both paths
    readable, not empty and staged. Without the second open the first thread's hook
    answers -EPERM; with it, it answers 0 and nothing is reported. *)
Theorem openat_race_bypasses_deny ctx1 ctx2 s s2 s3 p1 p2 :
  wf n s -> tries_functional (enforcer s) -> active s = true -> enrolled E1 s ->
  map_update_ok E1 M_pending_open_paths = true -> map_update_ok E2 M_pending_open_paths = true ->
  reads_path E1 (arg ctx1 1) p1 -> p1 <> [] -> reads_path E2 (arg ctx2 1) p2 -> p2 <> [] ->
  denied s ctx1 p1 -> ~ denied s ctx2 p2 ->
  rtc (other_step (current_pid E1)) (state_of (Enroll.handle_openat ctx1) E1 s) s2 ->
  rtc (other_step (current_pid E1)) (state_of (Enroll.handle_openat ctx2) E2 s2) s3 ->
  ret_of Enforcer.enforce_openat_entry E3 s2 = - EPERM /\
  ret_of Enforcer.enforce_openat_entry E3 s3 = 0 /\
  deny_verdicts (enforcer (state_of Enforcer.enforce_openat_entry E3 s3)) = deny_verdicts (enforcer s3).
Proof.
  intros Hwf Hf Ha He Hok1 Hok2 Hr1 Hn1 Hr2 Hn2 Hd1 Hd2 Hs2 Hs3.
  destruct (openat_run n E1 E3 Hk1 Hk3 Hpid3 Hc1 Hc3 ctx1 s s2 p1 Hwf Hf Ha He Hok1 Hr1 Hn1 Hs2)
    as [[Hans _]|(_ & Hno & _)]; [|done]. split; [exact Hans|].
  destruct (openat_then_others E1 E2 ctx1 s s2 p1) as (Hwf2 & Hp & Ha2 & He2); try done.
  assert (tries_functional (enforcer s2)) as Hf2 by (apply (tries_functional_proper (enforcer s)); [by symmetry|done]).
  rewrite <- Hpid2 in Hs3. rewrite <- Hpid2 in Hpid3.
  destruct (openat_run n E2 E3 Hk2 Hk3 Hpid3 Hc2 Hc3 ctx2 s2 s3 p2 Hwf2 Hf2 Ha2 He2 Hok2 Hr2 Hn2 Hs3)
    as [(_ & h & Hden & _)|(Hans3 & _ & Hquiet)]; [|by split]. exfalso. apply Hd2. exists h.
  apply path_verdict_denied; [done|]. rewrite <- (path_verdict_proper _ _ _ _ _ Hp). by apply path_verdict_denied.
Qed.
End race.
