(* ===== verification/Witnesses.v ===== *)
(** * Witnesses: the theorems at concrete inputs

    Each lemma applies one theorem to the machine of [Concrete] (two CPUs,
    process 42 enrolled, a policy in force) with [lpm_ref] as the prefix lookup,
    and discharges its hypotheses by evaluation. *)

From Stdlib Require Import String.
From S2P Require Import Prelude Types Bpf State Logic.
From S2P Require Enforcer Enroll.
From S2P Require Import Gate PathVerdict Hooks Records Machine Concrete Staging Formats.
From S2P Require Import ConnectVerdict Observe Pipeline Safety Control Findings.

#[local] Existing Instance lpm_ref.

(** Helpers that fail nowhere on the demo machine. *)
Lemma agent_reads : kernel_reads agent_env.
Proof. apply env_of_memory_reads. Qed.

Lemma agent_enrolled m : enrolled agent_env (mk_kstate demo_enroll m).
Proof. by apply enrolled_42. Qed.

Lemma one_other_step s h : rtc (other_step 42) s (state_of (run_hook h) other_env s).
Proof. apply rtc_once, other_hook; [apply _|done]. Qed.

Lemma reads_shadow : reads_path agent_env SHADOW (bytes_of "/etc/shadow").
Proof. vm_compute. reflexivity. Qed.

Lemma reads_scratch : reads_path agent_env SCRATCH (bytes_of "/tmp/scratch").
Proof. vm_compute. reflexivity. Qed.

Lemma live_scratch : scratch_buf agent_env live_state (zeros EVENT_RECORD_SIZE).
Proof. by split. Qed.

Lemma live_ready : scratch_ready agent_env live_state.
Proof. split; [by eexists|]. by exists (zeros 256). Qed.

(** Process 77 opens a file between process 42's tracepoint and its hook. *)
Definition meanwhile (s : kstate) : kstate :=
  state_of (run_hook (H_openat (sys_open SCRATCH 0))) other_env s.

(** ** Syscalls, end to end *)

Definition opened : kstate :=
  meanwhile (state_of (Enroll.handle_openat (sys_open SHADOW 1)) agent_env live_state).

Lemma openat_answers_witness :
  answers agent_env live_maps VERDICT_OPEN true (bytes_of "/etc/shadow") opened
    (Enforcer.enforce_openat_entry agent_env opened).
Proof.
  apply (openat_answers 2 agent_env agent_env agent_reads agent_reads eq_refl
           ltac:(cbn; lia) ltac:(cbn; lia) (sys_open SHADOW 1) live_state);
    [apply wf_live|apply live_tries|done|apply agent_enrolled|done|apply reads_shadow|done|].
  apply one_other_step.
Defined.

Lemma live_verdict v wi p h :
  path_denied live_maps v wi p h <-> path_verdict live_maps v wi p = Some h.
Proof. by rewrite path_verdict_denied by apply live_tries. Qed.

(** Thread 43 of process 42 opens another file before the hook of thread 42 runs. *)
Definition raced : kstate :=
  state_of (Enroll.handle_openat (sys_open SCRATCH 0)) thread_env
    (meanwhile (state_of (Enroll.handle_openat (sys_open SHADOW 0)) agent_env live_state)).

Lemma openat_race_bypasses_deny_witness :
  ret_of Enforcer.enforce_openat_entry agent_env
    (meanwhile (state_of (Enroll.handle_openat (sys_open SHADOW 0)) agent_env live_state)) = - EPERM /\
  ret_of Enforcer.enforce_openat_entry agent_env raced = 0.
Proof.
  destruct (openat_race_bypasses_deny 2 agent_env thread_env agent_env agent_reads (env_of_memory_reads _ _ _ _ _)
    agent_reads eq_refl eq_refl ltac:(cbn; lia) ltac:(cbn; lia) ltac:(cbn; lia) (sys_open SHADOW 0) (sys_open SCRATCH 0)
    live_state (meanwhile (state_of (Enroll.handle_openat (sys_open SHADOW 0)) agent_env live_state)) raced
    (bytes_of "/etc/shadow") (bytes_of "/tmp/scratch")) as (H1 & H2 & _).
  - apply wf_live.
  - apply live_tries.
  - done.
  - apply agent_enrolled.
  - done.
  - done.
  - apply reads_shadow.
  - done.
  - vm_compute. reflexivity.
  - done.
  - exists 7. apply live_verdict. vm_compute. reflexivity.
  - intros [h Hh%live_verdict]. vm_compute in Hh. discriminate Hh.
  - apply one_other_step.
  - apply rtc_refl.
  - split; [exact H1|exact H2].
Defined.

Definition unlinked (ctx : trace_event_raw_sys_enter) : kstate :=
  meanwhile (state_of (Enroll.handle_unlinkat ctx) agent_env live_state).

Definition sys_unlinkat (path flags : Z) : trace_event_raw_sys_enter :=
  mk_sys_enter [0; path; flags; 0; 0; 0].

Lemma unlinkat_answers_witness :
  answers agent_env live_maps VERDICT_UNLINK false (bytes_of "/etc/shadow")
    (unlinked (sys_unlinkat SHADOW 0))
    (Enforcer.enforce_unlinkat_entry agent_env (unlinked (sys_unlinkat SHADOW 0))).
Proof.
  apply (unlinkat_answers 2 agent_env agent_env agent_reads agent_reads eq_refl
           ltac:(cbn; lia) ltac:(cbn; lia) (sys_unlinkat SHADOW 0) live_state);
    [apply wf_live|apply live_tries|done|apply agent_enrolled|done|apply reads_shadow|done|done|].
  apply one_other_step.
Defined.

Definition unlinked_plain : kstate :=
  meanwhile (state_of (Enroll.handle_unlink (sys_unlink SCRATCH)) agent_env live_state).

Lemma unlink_answers_witness :
  answers agent_env live_maps VERDICT_UNLINK false (bytes_of "/tmp/scratch") unlinked_plain
    (Enforcer.enforce_unlink_entry agent_env unlinked_plain).
Proof.
  apply (unlink_answers 2 agent_env agent_env agent_reads agent_reads eq_refl
           ltac:(cbn; lia) ltac:(cbn; lia) (sys_unlink SCRATCH) live_state);
    [apply wf_live|apply live_tries|done|apply agent_enrolled|done|apply reads_scratch|done|].
  apply one_other_step.
Defined.

Lemma unlinkat_empty_path_denied_witness :
  ret_of Enforcer.enforce_unlinkat_entry agent_env (unlinked (sys_unlinkat SCRATCH AT_EMPTY_PATH))
  = - EPERM.
Proof.
  apply (unlinkat_empty_path_denied 2 agent_env agent_env agent_reads eq_refl
           ltac:(cbn; lia) ltac:(cbn; lia) (sys_unlinkat SCRATCH AT_EMPTY_PATH) live_state);
    [apply wf_live|done|apply agent_enrolled|done|done|].
  apply one_other_step.
Defined.

Definition renamed : kstate :=
  meanwhile (state_of (Enroll.handle_renameat2 (sys_rename SCRATCH SHADOW)) agent_env live_state).

Lemma renameat2_answers_witness :
  let denied p := exists h, path_denied live_maps VERDICT_RENAME false p h in
  let r := Enforcer.enforce_renameat2_entry agent_env renamed in
  (denied (bytes_of "/tmp/scratch") /\
     answers agent_env live_maps VERDICT_RENAME false (bytes_of "/tmp/scratch") renamed r) \/
  (~ denied (bytes_of "/tmp/scratch") /\
     answers agent_env live_maps VERDICT_RENAME false (bytes_of "/etc/shadow") renamed r).
Proof.
  apply (renameat2_answers 2 agent_env agent_env agent_reads agent_reads eq_refl
           ltac:(cbn; lia) ltac:(cbn; lia) (sys_rename SCRATCH SHADOW) live_state);
    [apply wf_live|apply live_tries|done|apply agent_enrolled|done
    |apply reads_scratch|done|apply reads_shadow|done|].
  apply one_other_step.
Defined.

Definition connected (addr : Z) : kstate :=
  meanwhile (state_of (Enroll.handle_connect (sys_connect addr)) agent_env live_state).

Lemma connect4_answers_witness :
  answers_connect agent_env live_maps demo_addr 443 (connected SOCK4)
    (Enforcer.enforce_connect_entry agent_env (connected SOCK4)).
Proof.
  apply (connect4_answers 2 agent_env agent_env eq_refl
           ltac:(cbn; lia) ltac:(cbn; lia) (sys_connect SOCK4) live_state _ 1 187);
    [apply wf_live|apply live_ip_tries|done|apply agent_enrolled|done|done|done|done
    |vm_compute; reflexivity|vm_compute; reflexivity|].
  apply one_other_step.
Defined.

Lemma connect6_answers_witness :
  answers_connect agent_env live_maps demo_addr6 443 (connected SOCK6)
    (Enforcer.enforce_connect_entry agent_env (connected SOCK6)).
Proof.
  apply (connect6_answers 2 agent_env agent_env eq_refl
           ltac:(cbn; lia) ltac:(cbn; lia) (sys_connect SOCK6) live_state _ 1 187
           (zeros 4) demo_addr6 (zeros 4));
    [apply wf_live|apply live_ip_tries|done|apply agent_enrolled|done|done|done|done|done|done
    |vm_compute; reflexivity|vm_compute; reflexivity|].
  apply one_other_step.
Defined.

(** The path of an earlier unlink, still staged when an unreadable one arrives. *)
Definition after_unlink : kstate :=
  state_of (Enroll.handle_unlink (sys_unlink SCRATCH)) agent_env live_state.

Definition staged_scratch : list Z := bytes_of "/tmp/scratch" ++ zeros 244.

Lemma after_unlink_wf : wf 2 after_unlink.
Proof. exact (keeps_wf 2 agent_env (H_unlink (sys_unlink SCRATCH)) live_state wf_live). Qed.

Lemma after_unlink_maps : enforcer after_unlink = live_maps.
Proof. vm_compute. reflexivity. Qed.

Definition unlinked_unmapped : kstate :=
  meanwhile (state_of (Enroll.handle_unlink (sys_unlink UNMAPPED)) agent_env after_unlink).

Lemma stale_unlink_path_decides_witness :
  answers agent_env (enforcer after_unlink) VERDICT_UNLINK false (bytes_of "/tmp/scratch")
    unlinked_unmapped (Enforcer.enforce_unlink_entry agent_env unlinked_unmapped).
Proof.
  apply (stale_unlink_path_decides 2 agent_env agent_env agent_reads eq_refl
           ltac:(cbn; lia) ltac:(cbn; lia) (sys_unlink UNMAPPED) after_unlink _ staged_scratch 0).
  - apply after_unlink_wf.
  - rewrite after_unlink_maps. apply live_tries.
  - vm_compute. reflexivity.
  - left. exists 1. vm_compute. reflexivity.
  - vm_compute. reflexivity.
  - reflexivity.
  - vm_compute. reflexivity.
  - reflexivity.
  - discriminate.
  - vm_compute. repeat constructor; discriminate.
  - vm_compute. discriminate.
  - apply one_other_step.
Defined.

(** ** Regimes *)

Lemma closed_denies_witness :
  (run_hook E_openat agent_env closed_state).1 = - EPERM.
Proof. apply closed_denies; [done|done|done|done|apply agent_enrolled]. Defined.

Lemma exempt_passes_witness :
  (run_hook E_openat other_env live_state).1 = 0 /\
  deny_verdicts (enforcer (run_hook E_openat other_env live_state).2) =
    deny_verdicts (enforcer live_state).
Proof.
  apply exempt_passes; [done|]. right. intros [[t Ht]|[(k & Hk & _ & Hp) _]].
  - discriminate Ht.
  - destruct (Hp 1%nat ltac:(lia)) as [Ha _]. by apply Ha.
Defined.

Lemma cgroup_not_live_witness :
  (run_hook (E_cgroup_connect4 (mk_bpf_sock_addr 1 [] 0)) agent_env closed_state).1 =
  if closed closed_state then 0 else 1.
Proof. by apply cgroup_not_live. Defined.

Definition other_version : policy_ctrl := mk_policy_ctrl 1 0 0 0 7.

Lemma only_regime_flags_matter_witness :
  run_hook E_openat agent_env (recontrol other_version opened) =
  ((run_hook E_openat agent_env opened).1,
   recontrol other_version (run_hook E_openat agent_env opened).2).
Proof. apply only_regime_flags_matter; [done|]. split; vm_compute; reflexivity. Defined.

Lemma socket_connect_never_denies_witness :
  (run_hook (E_socket_connect SOCK4) agent_env live_state).1 = 0.
Proof. apply (socket_connect_never_denies agent_env). reflexivity. Defined.

(** An inode rule: file 17 of device 3 may not be opened. *)
Definition demo_file : file := mk_file 0 (Some (mk_inode (Some (mk_super_block 3)) 17)).
Definition inode_maps : enforcer_maps :=
  mk_enforcer_maps [mk_policy_ctrl 1 0 0 0 1] {[mk_inode_key 17 3 0 := deny_rule 5 1]} ∅ [] [] [] ∅
    [] ∅ [] (fresh 2 1 lpm_key0) (fresh 2 1 (zeros 256)) (fresh 2 (Z.to_nat STAT_ENFORCE_MAX) 0).

Lemma file_open_decides_witness :
  (run_hook (E_file_open demo_file) agent_env (mk_kstate demo_enroll inode_maps)).1 =
  if inode_verdict inode_maps demo_file then - EPERM else 0.
Proof. apply file_open_decides; [done|apply agent_enrolled]. Defined.

(** ** Connect verdicts *)

Lemma longest_demo k r :
  lpm_lookup (ip_deny live_maps) k = Some r -> longest_rule (ip_deny live_maps) k r.
Proof. intros H. apply lpm_lookup_longest; [apply live_ip_tries|done]. Qed.

Lemma connect_denial_sound_witness :
  ~ connect_allowed live_maps demo_addr 443 /\ deny_entry live_maps demo_addr 443 9.
Proof. apply connect_denial_sound; [apply live_ip_tries|vm_compute; reflexivity]. Defined.

Lemma connect_ip_rule_denies_witness :
  connect_verdict live_maps demo_addr 443 = Some (rule_id_hash (deny_rule 9 100)).
Proof.
  apply connect_ip_rule_denies; [apply live_ip_tries| |done|done| |].
  - apply longest_demo. vm_compute. reflexivity.
  - intros (a & (e & He & _) & _). by apply not_elem_of_nil in He.
  - intros a (e & He & _). by apply not_elem_of_nil in He.
Defined.

(** The same host denied and, as narrowly, allowed. *)
Definition allowing_maps : enforcer_maps :=
  demo_maps 1 0 [] [] [(path_key demo_addr, deny_rule 9 100)] [(path_key demo_addr, allow_rule 8 10)].

Lemma allowing_tries : ip_tries_functional allowing_maps.
Proof. split; apply lpm_functional_singleton. Qed.

Lemma connect_allow_decides_witness : connect_verdict allowing_maps demo_addr 443 = None.
Proof.
  apply connect_allow_decides; [apply allowing_tries|].
  exists (allow_rule 8 10). split_and!; [|done|by left].
  apply lpm_lookup_longest; [apply allowing_tries|]. vm_compute. reflexivity.
Defined.

Lemma ipv6_decided_by_first_bytes_witness :
  connect_verdict live_maps (demo_addr ++ drop 4 demo_addr6) 443 =
  connect_verdict live_maps demo_addr 443.
Proof.
  apply ipv6_decided_by_first_bytes; [apply live_ip_tries|done|done|].
  intros e r [= -> ->]%list_elem_of_singleton. vm_compute. discriminate.
Defined.

Lemma cgroup4_decides_witness :
  ret_of (Enforcer.enforce_cgroup_connect4
            (mk_bpf_sock_addr (le_val demo_addr) [] (le_val [1; 187; 0; 0]))) agent_env live_state =
  (if decide (demo_addr = zeros 4) then 1 else
   if connect_verdict (enforcer live_state) demo_addr (256 * 1 + 187) then 0 else 1).
Proof.
  apply cgroup4_decides; [apply live_ready|apply live_ip_tries|done| |done|done|done].
  repeat constructor; done.
Defined.

Lemma cgroup6_decides_witness :
  ret_of (Enforcer.enforce_cgroup_connect6
            (mk_bpf_sock_addr 0 [le_val demo_addr; le_val (zeros 4); le_val (zeros 4);
                                 le_val [0; 0; 0; 1]] (le_val [1; 187; 0; 0])))
    agent_env live_state =
  if connect_verdict (enforcer live_state) (demo_addr ++ zeros 4 ++ zeros 4 ++ [0; 0; 0; 1])
       (256 * 1 + 187) then 0 else 1.
Proof.
  apply cgroup6_decides; [apply live_ready|apply live_ip_tries|done| |done|done|done].
  repeat (constructor; [split; [repeat constructor; done|done]|]). constructor.
Defined.

(** ** Invariants and frames *)

Definition padded (p : list Z) : list Z := p ++ zeros (256 - length p).

Lemma enforce_path_refines_witness :
  let rc := (Enforcer.enforce_path (Some (padded (bytes_of "/etc/shadow"))) 11 VERDICT_OPEN false
               agent_env live_state).1 in
  let denied := exists h, path_denied (enforcer live_state) VERDICT_OPEN false
                  (take (Z.to_nat 11) (padded (bytes_of "/etc/shadow"))) h in
  (rc = - EPERM /\ denied) \/ (rc = 0 /\ ~ denied).
Proof.
  apply (enforce_path_refines agent_env); [apply agent_reads|apply live_ready|reflexivity|done|].
  apply live_tries.
Defined.

(** A reachable state: the agent tags process 42, which then opens a file. *)
Definition tagged_state : kstate :=
  on_enroll (fun m => set_tagged_pids m (<[42 := 1]> (tagged_pids m))) (init_state 2).

Definition busy_state : kstate :=
  state_of (run_hook (H_openat (sys_open SHADOW 0))) agent_env tagged_state.

Lemma busy_reachable : reachable 2 busy_state.
Proof.
  eapply rtc_l; [apply step_agent, (agent_tag _ 42)|].
  apply rtc_once, (step_hook agent_env (H_openat (sys_open SHADOW 0))). apply _.
Qed.

Lemma reachable_wf_witness : wf 2 busy_state.
Proof. apply reachable_wf, busy_reachable. Defined.

Lemma reachable_decodable_witness :
  Forall (fun r => is_Some (event.Parse r)) (events (enroll busy_state)) /\
  Forall (fun v => is_Some (deny.Parse v)) (deny_verdicts (enforcer busy_state)).
Proof. apply (reachable_decodable 2), busy_reachable. Defined.

Lemma other_processes_frame_witness :
  frame_for 42 live_state (run_hook (H_openat (sys_open SHADOW 0)) other_env live_state).2.
Proof. apply (other_processes_frame 2 other_env); [done|apply wf_live]. Defined.

Lemma enforcement_touches_only_witness :
  enforces_only agent_env live_state (run_hook E_openat agent_env live_state).2.
Proof. apply (enforcement_touches_only 2 agent_env); [done|apply wf_live]. Defined.

Lemma observation_never_enforces_witness :
  (run_hook (H_openat (sys_open SHADOW 0)) agent_env live_state).1 = 0 /\
  enforcer (run_hook (H_openat (sys_open SHADOW 0)) agent_env live_state).2 = enforcer live_state.
Proof. apply (observation_never_enforces 2 agent_env); [done|apply wf_live]. Defined.

(** ** Observation *)

Definition fork_ctx : trace_event_raw_sched_process_fork := mk_fork_ctx 42 (zeros 16) 43.

Lemma fork_propagates_witness :
  is_tagged (u32 43) (state_of (Enroll.handle_fork fork_ctx) agent_env live_state).
Proof. apply (fork_propagates agent_env fork_ctx); [by eexists|done]. Defined.

Lemma openat_observed_witness :
  observed_as agent_env
    (action_event agent_env EVENT_OPEN 0 NoAddr 0 (u32 0) (bytes_of "/etc/shadow") []) live_state
    (state_of (Enroll.handle_openat (sys_open SHADOW 0)) agent_env live_state).
Proof.
  apply (openat_observed agent_env agent_reads (sys_open SHADOW 0) live_state _ _
    (agent_enrolled _) live_scratch reads_shadow). done.
Defined.

Lemma unlinkat_observed_witness :
  observed_as agent_env
    (action_event agent_env EVENT_UNLINK 0 NoAddr 0 0 (bytes_of "/etc/shadow") []) live_state
    (state_of (Enroll.handle_unlinkat (sys_unlinkat SHADOW 0)) agent_env live_state).
Proof.
  apply (unlinkat_observed agent_env agent_reads (sys_unlinkat SHADOW 0) live_state _ _
    (agent_enrolled _) live_scratch reads_shadow). done.
Defined.

Lemma renameat2_observed_witness :
  observed_as agent_env
    (action_event agent_env EVENT_RENAME 0 NoAddr 0 0 (bytes_of "/tmp/scratch")
       (bytes_of "/etc/shadow")) live_state
    (state_of (Enroll.handle_renameat2 (sys_rename SCRATCH SHADOW)) agent_env live_state).
Proof.
  apply (renameat2_observed agent_env agent_reads (sys_rename SCRATCH SHADOW) live_state _ _ _
    (agent_enrolled _) live_scratch).
  - by eexists.
  - apply reads_scratch.
  - done.
  - apply reads_shadow.
  - done.
Defined.

Lemma connect4_observed_witness :
  observed_as agent_env
    (action_event agent_env EVENT_CONNECT AF_INET (V4 demo_addr) (256 * 1 + 187) 0 [] []) live_state
    (state_of (Enroll.handle_connect (sys_connect SOCK4)) agent_env live_state).
Proof.
  apply (connect4_observed agent_env (sys_connect SOCK4) live_state _ 1 187 demo_addr
    (agent_enrolled _) live_scratch); [done|done|done|vm_compute; reflexivity..].
Defined.

Lemma connect6_observed_witness :
  observed_as agent_env
    (action_event agent_env EVENT_CONNECT AF_INET6 (V6 demo_addr6) (256 * 1 + 187) 0 [] [])
    live_state (state_of (Enroll.handle_connect (sys_connect SOCK6)) agent_env live_state).
Proof.
  apply (connect6_observed agent_env (sys_connect SOCK6) live_state _ 1 187 (zeros 4) demo_addr6
    (zeros 4) (agent_enrolled _) live_scratch); [done..|vm_compute; reflexivity|vm_compute; reflexivity].
Defined.

Definition exec_ctx : trace_event_raw_sched_process_exec := mk_exec_ctx 0 64.

Lemma exec_observed_witness :
  observed_as agent_env
    (exec_event agent_env
       (exec_name (bpf_probe_read_kernel_str agent_env
          (exec_ctx_addr exec_ctx + Z.land (data_loc_filename exec_ctx) 0xFFFF) 256))
       (exec_argv agent_env) (exec_env agent_env)) live_state
    (state_of (Enroll.handle_exec exec_ctx) agent_env live_state).
Proof. apply (exec_observed agent_env exec_ctx live_state _ live_scratch). Defined.

Lemma fork_observed_witness :
  observed_as agent_env
    (lifecycle_event EVENT_FORK (u64 (bpf_ktime_get_ns agent_env)) 0
       (u64 (bpf_get_current_cgroup_id agent_env)) (u32 (child_pid fork_ctx))
       (u32 (parent_pid fork_ctx)) (current_uid agent_env)
       (bpf_probe_read_kernel agent_env (child_comm fork_ctx) 16).2) live_state
    (state_of (Enroll.handle_fork fork_ctx) agent_env live_state).
Proof. apply (fork_observed agent_env). Defined.

Lemma exit_observed_witness :
  if current_tid agent_env =? current_pid agent_env
  then observed_as agent_env (lifecycle_event EVENT_EXIT (u64 (bpf_ktime_get_ns agent_env))
         (u64 (read_task agent_env 0 start_time (bpf_get_current_task agent_env))) 0
         (current_pid agent_env) 0 0 (bpf_get_current_comm agent_env))
         live_state (state_of Enroll.handle_exit agent_env live_state)
  else state_of Enroll.handle_exit agent_env live_state = live_state.
Proof. apply (exit_observed agent_env). Defined.
