(* ===== verification/KernelWitnesses.v ===== *)
(** * KernelWitnesses: layouts, kernel memory and helpers at concrete inputs

    As [Witnesses], for the theorems on C layouts, kernel objects in memory, the
    helpers programs call and hooks without staged arguments. *)

From Stdlib Require Import String.
From S2P Require Import Prelude Ctypes Types Structs Bpf State Logic.
From S2P Require Vmlinux Enforcer Enroll.
From S2P Require Import Gate PathVerdict Hooks Records Machine Programs Concrete CoreRead Staging Formats.
From S2P Require Import ConnectVerdict Observe Pipeline Fallback Safety Contexts Witnesses.

#[local] Existing Instance lpm_ref.
#[local] Open Scope string_scope.
#[local] Open Scope Z_scope.

(** ** Layouts *)

Definition members_of (t : ctype) : list member :=
  match t with TStruct ms | TUnion ms => ms | _ => [] end.

Lemma layout_sound_witness :
  (8 | sizeof (TStruct (members_of enforcer_c.struct_deny_verdict))).
Proof. apply (layout_sound (members_of enforcer_c.struct_deny_verdict)). vm_compute. reflexivity. Defined.

(** ** Kernel memory *)

Lemma mem_of_first a bs rs : holds_at (mem_of ((a, bs) :: rs)) a bs.
Proof.
  intros i Hi. cbn. replace (a <=? a + Z.of_nat i) with true by lia.
  replace (a + Z.of_nat i <? a + Z.of_nat (length bs)) with true by lia. cbn.
  f_equal. lia.
Qed.

Lemma mem_of_skip a bs rs a' bs' :
  a' + Z.of_nat (length bs') <= a \/ a + Z.of_nat (length bs) <= a' ->
  holds_at (mem_of rs) a' bs' -> holds_at (mem_of ((a, bs) :: rs)) a' bs'.
Proof.
  intros Hd Hh i Hi. rewrite <- (Hh i Hi). cbn.
  destruct Hd; [replace (a <=? a' + Z.of_nat i) with false by lia; done|].
  replace (a' + Z.of_nat i <? a + Z.of_nat (length bs)) with false by lia. by rewrite andb_false_r.
Qed.

(** Process 43 with parent 42, as task objects in memory. *)
Definition CHILD : Z := 2 ^ 40.
Definition PARENT : Z := 2 ^ 41.
Definition raw_task : list Z := zeros (Z.to_nat (sizeof Vmlinux.struct_task_struct)).
Definition task_bytes (pid parent : Z) : list Z :=
  encode Vmlinux.struct_task_struct (task_fields pid parent) raw_task.
Definition family_memory : Z -> option Z :=
  mem_of [(CHILD, task_bytes 43 PARENT); (PARENT, task_bytes 42 0)].

Lemma length_raw_task : length raw_task = Z.to_nat (sizeof Vmlinux.struct_task_struct).
Proof. unfold raw_task. apply length_zeros. Qed.

Lemma length_task_bytes pid parent :
  length (task_bytes pid parent) = Z.to_nat (sizeof Vmlinux.struct_task_struct).
Proof. apply (length_encode _ _ _ task_struct_wf length_raw_task). Qed.

#[local] Opaque encode raw_task mem_of.

Lemma family_child : task_at_memory family_memory CHILD 43 PARENT.
Proof.
  exists raw_task. split; [exact length_raw_task|]. split; [split; vm_compute; congruence|].
  split; [split; vm_compute; congruence|].
  unfold family_memory. fold (task_bytes 43 PARENT). apply mem_of_first.
Qed.

Lemma family_parent : task_at_memory family_memory PARENT 42 0.
Proof.
  exists raw_task. split; [exact length_raw_task|]. split; [split; vm_compute; congruence|].
  split; [split; vm_compute; congruence|]. unfold family_memory. fold (task_bytes 42 0).
  apply mem_of_skip; [|apply mem_of_first]. right.
  rewrite length_task_bytes. vm_compute. discriminate.
Qed.

Definition child_env : env := env_of_kernel_memory 0 (43 * 2 ^ 32 + 43) CHILD family_memory demo_mem.

Lemma memory_lineage_enrolls_witness :
  is_tagged 43 (state_of (Enforcer.ensure_tagged_from_ancestor 43) child_env live_state).
Proof.
  apply (memory_lineage_enrolls 0 (43 * 2 ^ 32 + 43) CHILD family_memory demo_mem 43 [] PARENT 42).
  - split; [apply family_child|]. split; [exists 0; apply family_parent|done].
  - cbn. lia.
  - repeat constructor; vm_compute; discriminate.
  - by eexists.
Defined.

(** File 17 of device 3, open for reading. *)
Definition FILE_AT : Z := 2 ^ 42.
Definition INODE_AT : Z := 2 ^ 43.
Definition SB_AT : Z := 2 ^ 44.
Definition object_bytes (t : ctype) (fs : list (access * Z)) : list Z :=
  encode t fs (zeros (Z.to_nat (sizeof t))).
Definition file_memory : Z -> option Z := mem_of
  [(FILE_AT, object_bytes Vmlinux.struct_file (file_fields 0 INODE_AT));
   (INODE_AT, object_bytes Vmlinux.struct_inode (inode_fields SB_AT 17));
   (SB_AT, object_bytes Vmlinux.struct_super_block (super_block_fields 3))].

Lemma length_object_bytes t fs : wf_ctype t = true -> length (object_bytes t fs) = Z.to_nat (sizeof t).
Proof. intros. apply length_encode; [done|apply length_zeros]. Qed.

Lemma object_bytes_at km t a fs :
  Forall (fits t) fs -> holds_at km a (object_bytes t fs) -> object_at km t a fs.
Proof. intros Hf Hh. split; [done|]. eexists. split; [apply length_zeros|exact Hh]. Qed.

Ltac fits_concrete := repeat (constructor; [intros ? Hfd; vm_compute in Hfd; injection Hfd as <-;
  split; vm_compute; congruence|]); constructor.

Lemma demo_file_in_memory : file_in_memory file_memory FILE_AT 0 17 3.
Proof.
  exists INODE_AT, SB_AT. split_and!; [done|done|apply object_bytes_at; [fits_concrete|]..].
  - apply mem_of_first.
  - apply mem_of_skip; [|apply mem_of_first]. right.
    rewrite length_object_bytes by (vm_compute; reflexivity). vm_compute. discriminate.
  - apply mem_of_skip; [|apply mem_of_skip; [|apply mem_of_first]]; right;
      rewrite length_object_bytes by (vm_compute; reflexivity); vm_compute; discriminate.
Qed.

Lemma memory_file_open_decides_witness :
  (run_hook (E_file_open (file_of_memory file_memory FILE_AT)) agent_env
     (mk_kstate demo_enroll inode_maps)).1 = - EPERM.
Proof.
  rewrite (memory_file_open_decides agent_env file_memory FILE_AT 0 17 3);
    [vm_compute; reflexivity|apply demo_file_in_memory|done|done|apply agent_enrolled].
Defined.

(** ** Helpers *)

Lemma verdict_ignores_user_memory_witness :
  run_hook E_openat (with_user_memory agent_env (fun _ n => (false, zeros n)) (fun _ _ => (-14, []))) opened
  = run_hook E_openat agent_env opened.
Proof. apply verdict_ignores_user_memory; [done|discriminate]. Defined.

Lemma attach_reports_witness :
  (AttachLSM (fun _ => true) (fun _ => true) false).1
  = (String.append "lsm/" <$>
       filter (fun n => false = true \/ n <> "enforce_socket_connect") lsmPrograms).
Proof. apply (attach_reports (fun _ => true) (fun _ => true)). reflexivity. Defined.

(** ** Nothing staged *)

Lemma nothing_usable_answers_witness :
  ret_of Enforcer.enforce_openat_entry agent_env live_state = 0 /\
  ret_of Enforcer.enforce_unlink_entry agent_env live_state = - EPERM.
Proof.
  destruct (nothing_usable_answers agent_env live_state eq_refl (agent_enrolled _)) as (Ho & _ & Hu & _).
  split; [apply Ho|apply Hu]; intros po Hpo; vm_compute in Hpo; injection Hpo as <-; [done|by left].
Defined.

(** Process 77, also enrolled, whose path the tracepoint could not read. *)
Definition two_enrolled : kstate :=
  on_enroll (fun m => set_tagged_pids m {[42 := 1; 77 := 1]}) live_state.

Lemma two_enrolled_wf : wf 2 two_enrolled.
Proof. pose proof wf_live as []. by split. Qed.

Lemma cpu_entry_decides_witness :
  let s1 := state_of (Enroll.handle_openat (sys_open SHADOW 1)) agent_env two_enrolled in
  answers other_env live_maps VERDICT_OPEN true (bytes_of "/etc/shadow") s1
    (Enforcer.enforce_openat_entry other_env s1).
Proof.
  apply (cpu_entry_decides 2 agent_env other_env agent_reads (env_of_memory_reads _ _ _ _ _) eq_refl
           ltac:(cbn; lia) (sys_open SHADOW 1) two_enrolled);
    [apply two_enrolled_wf|apply live_tries|done|left; by exists 1|done|apply reads_shadow|done|done| |done].
  left. exists 1. vm_compute. reflexivity.
Defined.

Lemma staged_entries_persist_witness : still_staged 42 live_state (meanwhile live_state).
Proof.
  apply (staged_entries_persist 2); [apply wf_live|].
  apply rtc_once, step_hook. apply _.
Defined.
