(* ===== verification/SystemExamples.v ===== *)
(** * SystemExamples: the whole system on concrete inputs

    An agent started from a signed bundle, an engine that has seen process 42 exec
    aider, and the kernel maps they share on the machine of [Concrete]: the theorems of
    [EndToEnd] apply to an open and to a connect of the process.  A restart with pinned
    maps, and the lines of an audit. *)

From stdpp Require Import strings gmap.
From Stdlib Require Import String.
From S2P Require Import Prelude Types Structs Bpf State Logic.
From S2P Require Enforcer Enroll.
From S2P Require Import Gate PathVerdict Machine Concrete Staging Witnesses.
From S2P Require Import Policy MapLoad LoadFacts PathPolicy Compile CompileFacts LoadExamples.
From S2P Require Import Net ConnectPolicy ConnectExamples.
From S2P Require Import Fingerprint Proctable Config Engine Lineage EngineExamples Store Lifecycle AgentExamples EndToEnd.
From S2P Require Import Feedback Loader ShadowReport Base64 Signing Shim.
Import proctable.

#[local] Existing Instance lpm_ref.
#[local] Existing Instance example_store.
#[local] Existing Instance some_net.
#[local] Open Scope string_scope.
#[local] Open Scope list_scope.
#[local] Open Scope Z_scope.

(** ** The engine: process 42 execs aider *)

Definition aider_engine : engine (gmap Z Z) := example_run [(users_env, Event (exec_event 42 1 9))].

Lemma aider_reached :
  @reaches _ shared_map config.Default signatures None (fun _ _ => false) (fun _ => false)
    (fun _ => []) dom ∅ true aider_engine ∅.
Proof. apply (reaches_input _ _ _ _ _ _ _ _ _ users_env (Event (exec_event 42 1 9)) _ ∅). apply reaches_started. Qed.

Lemma aider_process : agent_process aider_engine ∅ 42.
Proof. eexists. split_and!; [vm_compute; reflexivity|reflexivity|reflexivity|apply not_elem_of_empty]. Qed.

(** The machine on which the agent's maps and the engine's tags are. *)
Definition machine_of (a : agent) : kstate := mk_kstate demo_enroll (maps a).

Lemma machine_shares a : shares a aider_engine (machine_of a).
Proof. split; [reflexivity|vm_compute; reflexivity]. Qed.

(** ** Opens *)

Definition ssl_agent : agent := default (mk_agent None live_maps) started_agent.

Lemma ssl_started : started_agent = Some ssl_agent.
Proof. vm_compute. reflexivity. Qed.

Lemma ssl_wf : wf 2 (machine_of ssl_agent).
Proof. apply wf_demo; vm_compute; reflexivity. Qed.

Lemma ssl_only_bundle : simple_bundles example_yaml example_verify no_cidr no_ip.
Proof.
  intros data sig b _ Hp. unfold Parse, example_yaml in Hp. destruct (streq data bundle_text); [|done].
  cbn [mbind option_bind] in Hp. rewrite ssl_valid in Hp. injection Hp as <-. split; [exact ssl_simple|exact ssl_bytes].
Qed.

(** Process 42's open of /etc/shadow for writing, and what another process does next. *)
Definition shadow_opened : kstate :=
  meanwhile (state_of (Enroll.handle_openat (sys_open SHADOW 1)) agent_env (machine_of ssl_agent)).


(** ** Connects *)

(** The only document is a bundle with one connect rule. *)
Definition lan_bundle : bundle.Bundle :=
  bundle_of [bundle.mk_rule (bytes_of "no-lan") (bytes_of "why")
    (bundle.mk_match (bytes_of "connect") [] [] [bytes_of "10.0.0.0/8"] [] [] [] None [] [])
    (bytes_of "deny") StateEnforced].

Definition lan_yaml (data : list Z) : option bundle.Bundle := if streq data bundle_text then Some lan_bundle else None.

Definition lan_store : files :=
  (Load lan_yaml some_cidr some_ip example_verify no_sha 1000 (Some (bundle_text, bytes_of "good")) ∅).2.

Definition lan_started : option agent := start lan_yaml some_cidr some_ip example_verify true quiet_world lan_store live_maps.
Definition lan_agent : agent := default (mk_agent None live_maps) lan_started.

Lemma lan_starts : lan_started = Some lan_agent.
Proof. vm_compute. reflexivity. Qed.

Lemma lan_wf : wf 2 (machine_of lan_agent).
Proof. apply wf_demo; vm_compute; reflexivity. Qed.

Lemma lan_valid : validate some_cidr some_ip lan_bundle = Some lan_bundle.
Proof. vm_compute. reflexivity. Qed.

Definition lan_policy : CompiledPolicy := default (policy []) (Compile some_cidr some_ip lan_bundle).

Lemma lan_compiled : Compile some_cidr some_ip lan_bundle = Some lan_policy.
Proof. vm_compute. reflexivity. Qed.

Lemma lan_plain : plain_bundles lan_yaml example_verify some_cidr some_ip.
Proof.
  intros cp (data & sig & b & _ & Hp & Hc). unfold Parse, lan_yaml in Hp. destruct (streq data bundle_text); [|done].
  cbn [mbind option_bind] in Hp. rewrite lan_valid in Hp. injection Hp as <-. rewrite lan_compiled in Hc.
  injection Hc as <-. apply Forall_singleton. right. split_and!; try reflexivity. left.
  split_and!; [reflexivity|discriminate|]. apply Forall_singleton. vm_compute. reflexivity.
Qed.

(** Process 42's connect to 10.0.0.7:443. *)
Definition lan_connected : kstate :=
  meanwhile (state_of (Enroll.handle_connect (sys_connect SOCK4)) agent_env (machine_of lan_agent)).

Lemma signed_policy_decides_connects_witness :
  exists cp meta (rule : CompiledRule), held lan_agent = Some (cp, meta) /\ rule ∈ Live cp /\
    on_target some_cidr some_ip demo_addr 443 rule /\
    (Enforcer.enforce_connect_entry agent_env lan_connected).1 = - EPERM.
Proof.
  destruct (@signed_policy_decides_connects files example_store lan_yaml example_verify some_cidr some_ip lpm_ref lpm_ref_spec
              shared_map shared_map_laws shared_map_accepts config.Default signatures None signatures_valid
              (fun _ _ => false) (fun _ => false) (fun _ => []) 2 agent_env agent_env _ _ eq_refl
              ltac:(cbn; lia) ltac:(cbn; lia) some_net ∅ true lan_agent aider_engine ∅ (machine_of lan_agent)
              lan_connected (sys_connect SOCK4) 1 187 demo_addr (connect_to "10.0.0.7" 443))
    as (cp & meta & Hh & _ & [(H & _ & rule & Hr & _ & Ht & _)|(H & _)]);
    [exact lan_plain|exact (agent_start _ _ _ _ true quiet_world lan_store live_maps lan_agent lan_starts)
    |exact aider_reached|exact (machine_shares _)|exact aider_process|vm_compute; reflexivity|exact lan_wf|reflexivity
    |split; lia|split; lia|lia|reflexivity|repeat constructor; unfold is_byte; lia|vm_compute; reflexivity
    |vm_compute; reflexivity|repeat split; vm_compute; reflexivity|apply one_other_step| |].
  - exists cp, meta, rule. split; [exact Hh|]. split; [exact Hr|]. split; [exact Ht|exact H].
  - vm_compute in H. discriminate H.
Defined.

(** ** A restart *)

(** The policy maps of an earlier run are pinned, maps 1 to 9; the enroll object's tag
    map is map 20; a new collection makes maps of its own for what it is not given. *)
Definition earlier_pins : gmap string Z := list_to_map (zip agent.policyMapNames (Z.of_nat <$> seq 1 9)).
Definition tag_map_only : gmap string Z := {["tagged_pids" := 20]}.
Definition own_maps : gmap string Z :=
  list_to_map (zip ("tagged_pids" :: "deny_verdicts" :: agent.policyMapNames) (Z.of_nat <$> seq 100 11)).
Definition new_collection (b : bool) (given : gmap string Z) : option (gmap string Z) := Some (given ∪ own_maps).
Definition usable_bpffs (b : bool) : bpffs := mk_bpffs b (fun _ => b) (fun _ => b) (fun _ => b).

Definition restart (pins : gmap string Z) := LoadEnforcer (usable_bpffs true) true new_collection "/sys/fs/bpf/a" tag_map_only pins.

Lemma new_collection_uses : uses_replacements new_collection.
Proof. intros b given maps name m [= <-] Hm. by apply lookup_union_Some_l. Qed.

Lemma pins_are_the_policy_maps_witness :
  exists l, restart earlier_pins = (Some l, earlier_pins) /\ reusedPins l = true /\
    coll_Maps l !! "tagged_pids" = Some 20 /\ coll_Maps l !! "path_deny" = earlier_pins !! "path_deny".
Proof.
  assert (exists l, restart earlier_pins = (Some l, earlier_pins) /\ reusedPins l = true) as (l & Hl & Hr)
    by (eexists; split; vm_compute; reflexivity).
  destruct (pins_are_the_policy_maps (usable_bpffs true) true new_collection "/sys/fs/bpf/a" tag_map_only earlier_pins l
              earlier_pins new_collection_uses) as (Hgiven & Hpins & _); [|exact Hl|].
  { intros name [m Hm]. unfold tag_map_only in Hm. apply lookup_singleton_Some in Hm as [<- _]. left. }
  exists l. split; [exact Hl|]. split; [exact Hr|]. split; [apply Hgiven; reflexivity|].
  symmetry. apply Hpins; [discriminate|]. right. left.
Defined.

(** One policy map is not pinned: the others are dropped and all nine pinned anew. *)
Example partial_restart :
  (fun r => (reusedPins <$> r.1, r.2 !! "path_deny")) (restart (delete "port_allow" earlier_pins)) = (Some false, Some 103).
Proof. vm_compute. reflexivity. Qed.

Example own_tag_map :
  (fun r => (fun l => coll_Maps l !! "tagged_pids") <$> r.1) (restart ∅) = Some (Some 20).
Proof. vm_compute. reflexivity. Qed.

(** ** An audit *)

Definition deny_line (rule : string) (t : Z) : audit_line :=
  mk_line (bytes_of "shadow_deny") t (bytes_of rule) (bytes_of "shadow") (bytes_of "agent").
Definition example_lines (text : gostring) : option audit_line :=
  if streq text (bytes_of "1") then Some (deny_line "no-etc" 100)
  else if streq text (bytes_of "2") then Some (deny_line "no-curl" 200)
  else if streq text (bytes_of "3") then Some (deny_line "no-etc" 300)
  else if streq text (bytes_of "x") then Some (mk_line (bytes_of "exec") 300 [] [] (bytes_of "agent")) else None.

Example example_report :
  ShadowReportFromReader example_lines (bytes_of <$> ["1"; " 2 "; "not json"; ""; "x"; "3"; "3"], true) 150 =
    Some [mk_row (bytes_of "no-curl") (bytes_of "shadow") (bytes_of "agent") 1;
          mk_row (bytes_of "no-etc") (bytes_of "shadow") (bytes_of "agent") 2].
Proof. vm_compute. reflexivity. Qed.

Example example_directory :
  ResolveV2Dir true [([], true); (bytes_of "a/ai-agents.slice/x", true); (bytes_of "ai-agents.slice", false);
                     (bytes_of "b/ai-agents.slice", true)] [bytes_of "ai-agents.slice"]
    = Some (bytes_of "/sys/fs/cgroup/b/ai-agents.slice").
Proof. vm_compute. reflexivity. Qed.

(** ** From key generation to the agent *)

(** A signature scheme of one byte. *)
Definition toy_keys : option (list Z * list Z) := Some (zeros 32, zeros 64).
Definition toy_sign (priv msg : list Z) : list Z := [u8 (Z.of_nat (List.length msg))].
Definition toy_verify (pub msg sig : list Z) : bool := streq sig (toy_sign [] msg).

#[local] Instance toy_ok : SigningOk toy_keys toy_sign toy_verify.
Proof.
  split.
  - intros pub priv [= <- <-]. split; reflexivity.
  - intros pub priv msg _. unfold toy_verify. apply streq_refl.
  - intros priv msg. apply Forall_singleton. unfold is_byte, u8. apply Z.mod_pos_bound. done.
Qed.

Definition good_disk : file_system := mk_file_system (fun _ => true) (fun _ _ _ => None) (fun _ _ => true).
Definition key_path : gostring := bytes_of "policy.key".
Definition pub_path : gostring := bytes_of "policy.pub".
Definition bundle_path : gostring := bytes_of "bundle.yaml".

Definition with_bundle : disk := {[bundle_path := bundle_text]}.
Definition with_keys : disk := (cmdKeygen good_disk toy_keys key_path pub_path with_bundle).2.
Definition with_signature : disk := (cmdSign good_disk toy_sign key_path bundle_path with_keys).2.

Definition operator_load := cmdLoad good_disk toy_verify example_yaml no_cidr no_ip no_sha true 1000 pub_path bundle_path with_signature ∅.

Lemma signed_bundle_reaches_agent_witness :
  cmdVerify good_disk toy_verify pub_path bundle_path with_signature = true /\
  exists pub stored, LoadCurrent example_yaml no_cidr no_ip (toy_verify pub) operator_load.2 = Some (compiled ssl_bundle, stored).
Proof.
  destruct (@signed_bundle_reaches_agent good_disk toy_keys toy_sign toy_verify files example_store example_yaml no_cidr no_ip
              no_sha toy_ok example_store_laws 1000 key_path pub_path bundle_path with_bundle with_keys with_signature ∅
              bundle_text ssl_bundle (compiled ssl_bundle))
    as (Hv & [(Hn & _)|(meta & pub & _ & _ & stored & Hcur)]);
    [discriminate|discriminate|discriminate|reflexivity|vm_compute; reflexivity|vm_compute; reflexivity
    |vm_compute; reflexivity|exact ssl_compiled|reflexivity|vm_compute; reflexivity| |].
  - vm_compute in Hn. discriminate Hn.
  - split; [exact Hv|]. exists pub, stored. exact Hcur.
Defined.

(** A bundle changed after it was signed does not load; nor with the key of another pair. *)
Example tampered_not_loaded :
  (cmdLoad good_disk toy_verify example_yaml no_cidr no_ip no_sha true 1000 pub_path bundle_path
     (<[bundle_path := bundle_text ++ [32]]> with_signature) ∅).1 = None.
Proof. vm_compute. reflexivity. Qed.

(** ** A blocked command *)

#[global] Instance Decision_eq_dec : EqDecision feedback.Decision.
Proof. solve_decision. Defined.

#[global] Instance Decision_countable : Countable feedback.Decision.
Proof.
  refine (inj_countable'
    (fun d => (feedback.Time d, feedback.Decision_ d, feedback.Action d, feedback.Target d, feedback.MatchedRule d,
               feedback.Reason d, feedback.Retry d, feedback.Nature d, feedback.Appeal d, feedback.AgentID d,
               feedback.PID d, feedback.PolicyVersion d))
    (fun x => let '(a, b, c, d, e, f, g, h, i, j, k, l) := x in feedback.mk_decision a b c d e f g h i j k l) _).
  by intros [].
Defined.

(** A decision on one negative number: a line no tail of which is one. *)
Definition decision_text (d : feedback.Decision) : gostring := [Z.neg (encode d)].
Definition text_decision (s : gostring) : option feedback.Decision := match s with [Z.neg p] => decode p | _ => None end.

#[local] Instance decision_codec : DecisionCodec decision_text text_decision.
Proof.
  split.
  - intros d. apply decode_encode.
  - intros d H. apply list_elem_of_singleton in H. discriminate H.
  - done.
  - done.
  - intros d [|k] Hk Hne; [lia|]. exfalso. apply Hne. cbn. by rewrite drop_nil.
Qed.

Definition blocked : feedback.Decision :=
  feedback.NewDecision (fun s => s) 2000 2000 77 (bytes_of "open") (bytes_of "/etc/shadow") (bytes_of "agent")
    (bytes_of "no-etc") (bytes_of "why") 3.

Definition shim_config : LookupConfig := mk_lookup (bytes_of "/tmp/feedback.jsonl") [] [] 0 0.

(** The decision is in the file from the second round on. *)
Definition history_at (i : nat) : list feedback.Decision := match i with O => [] | _ => [blocked] end.
Definition shim_rounds : rounds :=
  mk_rounds (fun i => Some (file_text decision_text (history_at i))) (fun _ => None)
    (fun i => 1000 + Z.of_nat i * defaultPoll).

Lemma blocked_command_explained_witness :
  exists e lines, feedback.MatchedRule e = bytes_of "no-etc" /\
    shim decision_text text_decision (fun s => s) shim_config shim_rounds false (ExitedWith 1) 1000 77 1500
      = Some (1, ShimLine decision_text e :: lines).
Proof.
  destruct (blocked_command_explained decision_text text_decision (fun s => s) shim_config shim_rounds false 1 1000 77 1500
              history_at 1 blocked []) as (i & e & Hin & _ & _ & Hrun);
    [discriminate|discriminate|reflexivity|cbn; lia|intros i; change (poll_of shim_config) with defaultPoll; cbn [clock shim_rounds]; unfold defaultPoll; lia
    |intros i; split; [reflexivity|destruct i; repeat constructor]|intros j Hj; replace j with 0%nat by lia; vm_compute; discriminate
    |done|change (2 <= tailMax)%nat; unfold tailMax; change (Z.shiftl 256 10) with 262144; lia|vm_compute; discriminate|reflexivity|vm_compute; discriminate|].
  exists e. eexists. split; [|exact Hrun]. destruct i as [|i]; [exfalso; exact (not_elem_of_nil _ Hin)|].
  apply list_elem_of_singleton in Hin. subst e. reflexivity.
Defined.

Example long_line_hides_file :
  RecentFromFile text_decision (Some (repeat 65 (Z.to_nat 70000) ++ [10] ++ file_text decision_text [blocked])) 64 = None.
Proof. vm_compute. reflexivity. Qed.
